(* ===== verification/_CoqProject ===== *)
-Q . S2P
Prelude.v
Iface.v
Pmm.v
Mem.v
LibTitan.v
Fields.v
Vga.v
Mb2.v
KHeap.v
MmState.v
HashMap.v
PageMap.v
Vmm.v
Space.v
VmmInit.v
Boot.v
Locks.v
View.v
Keyboard.v
Tar.v
Vfs.v
FsDemo.v
Initrd.v
Cpu.v
Sched.v
RoundRobin.v
Reap.v
SchedDemo.v
Resource.v
Elf.v
Syscall.v
Handles.v
Exec.v
Irq.v
Threads.v
Acpi.v
Apic.v
AcpiDemo.v
KernelDemo.v
ExecDemo.v
UnitTests.v
Start.v
StartDemo.v
