(* ===== verification/Prelude.v ===== *)
(** * TitanOS kernel

    A model of the kernel of TitanOS, a hobby operating system in C for x86-64
    (sources under src/src/kernel and src/src/include), with the theorems that
    say what its components do.  The definitions follow the functions of the
    code, under their names; where a function has loops, each loop is a
    definition of its own.

    ** How the parts interact

    The boot code calls [kernel_start], which calls the initialisers in order:
    the console, the interrupt table, the boot loader's memory map, the heap,
    the address space, the frame allocator, the segments, ACPI and the
    interrupt controllers, the archive and the file system, the scheduler, the
    first program.  From then on the processor enters [interrupt_handler], which
    answers keys, calls [schedule] and the system calls; those reach the
    resources of the process, the file system, the archive and the console.
    Underneath, everything that needs memory calls [kmalloc] or [vmm_alloc],
    which maps pages with [mmap] to frames of [pmm_alloc_page].

    ** The model

    - Integers are [Z].  [u8], [u16], [u32], [u64] and [i8], [i32] below write
      out the wrap-around of the C types where it can happen.
    - A call ends with [Ok], with a [Fault] (a page fault, [PANIC], a loop that
      spins for ever, an access outside an array) or with [NoFuel].  What is
      printed in front of a fault is not part of it, apart from the panics of
      [interrupt_handler], whose state [interrupt_branch] keeps.  A loop that
      is not structural takes fuel.  The theorems are about enough fuel: lists
      of objects are walked with one step more than there are objects,
      [mmap] and [alloc_pg_table] call each other two levels deep, the loops
      of [printf] and of the tag walk need a step per piece and per tag, and the
      walks over the archive and the ACPI tables a step per entry.
      [mmap_window_end], [get_ioapic_missing] and [printf_bad_specifier] are
      about calls that no fuel is enough for.
    - Memory is a map from addresses to bytes (Mem.v) for the heap, strings,
      boot information, mapped device tables and the screen.  The structures
      that the memory manager and the scheduler allocate are maps from their
      address to a record (MmState.v, Sched.v, Resource.v), and page tables a
      map from the address of an entry to the entry.  An address outside the map
      faults.  Freed structures keep their contents, as [kfree] only clears a
      flag in the header.
    - View.v is what the processor sees through the page tables of the pages of
      the contents of physical memory that [tar_init], the ACPI code and the ELF
      loader map.  It is taken when a page is mapped: a later write to a visible
      byte does not change the physical contents.
    - What the linker, the boot code and the processor supply (addresses of
      static objects and of literals, CR3, the value of an uninitialised
      variable, what [1 << j] is for a count C leaves undefined, whether
      [exec_elf] copies an argument before it evaluates the next, the register
      with the address of the local APIC) are arguments; [x86_shift] in Pmm.v is
      the instance the compiled code has.  The registers of the I/O APIC are a
      class with laws ([IoApic] in Apic.v).

    ** Files

    - Prelude.v, Mem.v, Fields.v: the monad, integers, tactics, generic lemmas;
      bytes; fields of packed structures as lists of bytes.
    - Iface.v: what the frame allocator and the heap promise to their clients,
      as the classes [FrameAlloc] and [HeapAlloc].
    - Pmm.v (mm/pmm.c): the bitmap of frames.  [pmm_alloc_page] refines the
      choice of the least free frame, whose address it computes in 32 bits;
      freeing and reserving translate addresses differently from allocation.
      The instance of [FrameAlloc] is for bitmaps of at most 2^20 slots, the
      frames with addresses of their own.  Boot.v: [pmm_init].
    - LibTitan.v (libtitan/, libtitan.h): memory and string routines, [pow],
      alignment.
    - Mb2.v (mm/mb2_mmap.c): the boot loader's memory map, and the line about
      it on the console.
    - KHeap.v (mm/kernel_heap_manager.c): [kmalloc] and [kfree] over the bytes
      of the heap, their abstract first fit, the invariant of the reachable
      heaps, and the requests that break it: those that a free block holds
      without room for a header ([header_room], [servable]), which none of
      five bytes or more are.
    - MmState.v, HashMap.v (mm/vmm_hashmap.c): the globals of the memory
      manager; the table that finds page tables by physical address.
    - PageMap.v (mm/vmm.c [mmap], mm/vmm_hashmap.c [alloc_pg_table]): page
      tables, translation, the window the tables are mapped in.
    - Vmm.v (mm/vmm.c): regions, allocation, growth, freeing, stacks, device
      memory, address spaces.  Space.v: allocating memory never switches the
      address space.  VmmInit.v: [vmm_init] establishes the invariants that
      PageMap.v and Vmm.v work under.
    - Locks.v (sched/locks.c): spin locks as a step relation of processors.
    - Vga.v (drivers/vga.c): the console, a terminal, numbers and [printf].
    - Keyboard.v (drivers/keyboard.c): the handler and the circular buffer.
    - View.v: the bytes that pages show; Tar.v (fs/tar.c), Initrd.v
      ([tar_init]): the archive.  Vfs.v (fs/vfs.c): mount points and open files.
    - Cpu.v (cpu/gdt64.c, cpu/isr.c): descriptor tables as the processor
      decodes them.
    - Sched.v (sched/scheduler.c): processes and threads.  RoundRobin.v:
      [schedule] refines a round-robin scheduler and is fair; [create_proc].
      Reap.v: what happens to dead threads.
    - Resource.v (fs/resource_handling.c), Syscall.v (syscalls/syscall.c),
      Elf.v (syscalls/exec_elf.c): the resources of a process, the system
      calls, the loader.  Handles.v: the tables of resources in the states that
      system calls, the scheduler and [create_proc] lead to.  Exec.v: [exec_elf] as a whole, over [create_vmm],
      [load_elf] and [create_proc].
    - Irq.v (cpu/isr.c, the numbers of cpu/isr_stubs.S): the dispatch of
      interrupts.  Threads.v ([print1], [print2], syscall.h): programs on the
      system calls.
    - Acpi.v (drivers/acpi.c), Apic.v (drivers/apic.c): the tables of the
      firmware and the interrupt controllers.
    - UnitTests.v (unit_tests.c): the tests of the console and of the heap.
    - Start.v (kernel.c): [kernel_start], cut at [pmm_init] into [early_start]
      and [late_start].
    - FsDemo.v, SchedDemo.v, AcpiDemo.v, KernelDemo.v, ExecDemo.v, StartDemo.v:
      concrete states for the witnesses; ExecDemo.v starts a program from an
      archive; StartDemo.v is a boot image, with the pages that the frame
      allocator starts with.

    Pmm.v and KHeap.v prove the instances of the classes that the memory
    manager and everything above it are stated against.  Every theorem with
    hypotheses has a [_witness] that applies it to a concrete state.

    ** Theorems

    Functional behaviour on each branch: the allocators, the hash map,
    [mmap], [vmm_alloc], [vmm_lengthen], [vmm_free], [create_vmm],
    [create_proc], the reaping of processes, the descriptor tables, [tar_init],
    [vfs_open], [load_elf], the system calls, [acpi_init], [apic_init].
    Refinement: frames, heap, scheduler, console, keyboard.  Round trips: files
    of the archive through the file system, segments through the descriptor
    table.  Equivalence: [printf] and its pieces, interrupts and the scheduler
    alone.  Invariants: reachable heaps, the page tables ([pt_inv]), the region
    list ([vm_ok]), the run queue ([queue_ok]), the lock, the resources of the
    reachable kernels.
    Composition: [vmm_init] establishes what the memory manager needs,
    [kernel_start] reaches [pmm_init] with every component before it started,
    [exec_elf] gives a program of the archive a top level table of its own, its
    segments and a user thread in the wrapper that calls its entry point
    ([exec_elf_starts]), [print2] runs through the interrupt handler down to
    the console.  Several theorems state what the code does where it differs from what it means to do;
    they are listed as findings.

    ** Not modelled

    The assembly of the boot code and of the interrupt stubs (saving and
    restoring registers), the instructions that load processor registers, memory
    orders weaker than interleaving, and interrupts that arrive during
    [kernel_start] or in the middle of another handler.  dump_regions and
    print_rsdt_info only print, hpet_init is empty, idle_main does nothing.  Of
    the unit tests, those of a division by zero, of [pmm_init] and of
    [vmm_alloc], which are never called.  The calls of [kernel_start]
    from [pmm_init] on are modelled, each has theorems of its own, and their
    composition has none: as pmm_init leaves the frames of the
    boot page tables free ([boot_tables_unreserved]), the invariant that the
    theorems of the later calls start from does not hold there. *)

From Stdlib Require Export ZArith Lia.
From stdpp Require Export base strings numbers gmap list.

#[global] Set Default Goal Selector "!".

Declare Scope titan_scope.
Delimit Scope titan_scope with titan.
#[global] Open Scope Z_scope.
#[global] Open Scope titan_scope.

(** ** Machine integers *)

Definition u8 (z : Z) : Z := z mod 2 ^ 8.
Definition u16 (z : Z) : Z := z mod 2 ^ 16.
Definition u32 (z : Z) : Z := z mod 2 ^ 32.
Definition u64 (z : Z) : Z := z mod 2 ^ 64.

(** Two's complement reading of the low [w] bits. *)
Definition sext (w z : Z) : Z := (z + 2 ^ (w - 1)) mod 2 ^ w - 2 ^ (w - 1).
Definition i8 (z : Z) : Z := sext 8 z.
Definition i32 (z : Z) : Z := sext 32 z.


(** ** Outcomes *)

Inductive fault : Type :=
| PageFault (addr : Z)
| Panic (subsystem : string)
| Spin (where_ : string)
| OutOfBounds (object : string).

Inductive outcome (A : Type) : Type :=
| Ok (a : A)
| Fault (f : fault)
| NoFuel.
Arguments Ok {A} a.
Arguments Fault {A} f.
Arguments NoFuel {A}.

#[global] Instance outcome_ret : MRet outcome := @Ok.
#[global] Instance outcome_bind : MBind outcome := λ A B k m,
  match m with Ok a => k a | Fault f => Fault f | NoFuel => NoFuel end.

Definition of_option {A} (f : fault) (o : option A) : outcome A :=
  match o with Some a => Ok a | None => Fault f end.

(** The bit pattern of the C expression [1 << j], where [1] is a 32-bit
    [int], once it is converted to [uint64_t].  C defines it for
    [0 <= j < 31]; what the compiled code computes for the other counts is
    left to an instance. *)
Class IntShift := {
  shl1 : Z → Z;
  shl1_defined : ∀ j, 0 ≤ j < 31 → shl1 j = 2 ^ j;
}.

(** What [shl %cl, %eax] followed by [movslq] computes on x86-64: the count
    is taken modulo 32 and the 32-bit result is sign extended. *)
Definition x86_shl1 (j : Z) : Z := u64 (i32 (2 ^ (j mod 32))).

(** ** Tactics *)

(** Unfold one step of the outcome monad. *)
Ltac out_simpl :=
  unfold mbind, mret, outcome_bind, outcome_ret, of_option in *; simpl in *.

(** The same in the goal only. *)
Ltac out_step :=
  unfold mbind, mret, outcome_bind, outcome_ret, of_option; simpl.

(** The same without simplifying the arguments. *)
Ltac out_red :=
  unfold mbind, mret, outcome_bind, outcome_ret, of_option; cbv beta iota.

(** Decide boolean comparisons on [Z] appearing in the goal or hypotheses. *)
Ltac zbool :=
  repeat match goal with
  | H : Z.ltb _ _ = true |- _ => apply Z.ltb_lt in H
  | H : Z.ltb _ _ = false |- _ => apply Z.ltb_ge in H
  | H : Z.leb _ _ = true |- _ => apply Z.leb_le in H
  | H : Z.leb _ _ = false |- _ => apply Z.leb_gt in H
  | H : Z.eqb _ _ = true |- _ => apply Z.eqb_eq in H
  | H : Z.eqb _ _ = false |- _ => apply Z.eqb_neq in H
  | H : Z.gtb _ _ = _ |- _ => rewrite Z.gtb_ltb in H
  | H : Z.geb _ _ = _ |- _ => rewrite Z.geb_leb in H
  | H : negb _ = true |- _ => apply negb_true_iff in H
  | H : negb _ = false |- _ => apply negb_false_iff in H
  | H : andb _ _ = true |- _ => apply andb_true_iff in H as [? ?]
  | H : orb _ _ = false |- _ => apply orb_false_iff in H as [? ?]
  end.

(** Split on the first boolean comparison that is scrutinised in the goal. *)
Ltac zcase :=
  match goal with
  | |- context [if ?b then _ else _] =>
      let E := fresh "E" in destruct b eqn:E; zbool
  end.

(** Linear arithmetic with [/] and [mod] by constants. *)
Ltac mlia := Z.to_euclidean_division_equations; lia.

(** Resolve a comparison on [Z] that arithmetic decides. *)
Ltac zdec :=
  repeat match goal with
  | |- context [Z.ltb ?a ?b] =>
      first [ rewrite (proj2 (Z.ltb_lt a b)) by lia
            | rewrite (proj2 (Z.ltb_ge a b)) by lia ]
  | |- context [Z.leb ?a ?b] =>
      first [ rewrite (proj2 (Z.leb_le a b)) by lia
            | rewrite (proj2 (Z.leb_gt a b)) by lia ]
  | |- context [Z.eqb ?a ?b] =>
      first [ rewrite (proj2 (Z.eqb_eq a b)) by lia
            | rewrite (proj2 (Z.eqb_neq a b)) by lia ]
  end.

Create HintDb titan.

(** ** Generic lemmas *)

Lemma u8_range z : 0 ≤ u8 z < 256.
Proof. unfold u8. mlia. Qed.

Lemma u32_range z : 0 ≤ u32 z < 2 ^ 32.
Proof. unfold u32. mlia. Qed.

Lemma u64_range z : 0 ≤ u64 z < 2 ^ 64.
Proof. unfold u64. mlia. Qed.

Lemma u8_small z : 0 ≤ z < 256 → u8 z = z.
Proof. apply Z.mod_small. Qed.

Lemma u32_small z : 0 ≤ z < 2 ^ 32 → u32 z = z.
Proof. apply Z.mod_small. Qed.

Lemma u64_small z : 0 ≤ z < 2 ^ 64 → u64 z = z.
Proof. apply Z.mod_small. Qed.

Lemma i32_small z : - 2 ^ 31 ≤ z < 2 ^ 31 → i32 z = z.
Proof. intros. unfold i32, sext. rewrite Z.mod_small by lia. lia. Qed.

#[export] Hint Resolve u8_range u32_range u64_range : titan.

Lemma bind_Ok {A B} (m : outcome A) (k : A → outcome B) b :
  m ≫= k = Ok b ↔ ∃ a, m = Ok a ∧ k a = Ok b.
Proof. destruct m; out_simpl; naive_solver. Qed.

Lemma bind_total {A B} (m : outcome A) (k : A → outcome B) :
  m ≠ NoFuel → (∀ a, k a ≠ NoFuel) → (m ≫= k) ≠ NoFuel.
Proof. intros Hm Hk. destruct m; out_simpl; [apply Hk | done | done]. Qed.

(** No step of a sequence runs out of fuel. *)
Ltac total :=
  repeat match goal with
  | |- (_ ≫= _) ≠ NoFuel => apply bind_total
  | |- ∀ _ : _, _ => intros ?
  | |- match ?m with Ok _ => _ | Fault _ => _ | NoFuel => _ end ≠ NoFuel =>
      let Hm := fresh in assert (m ≠ NoFuel) as Hm; [| destruct m; [| done | by destruct Hm]]
  | |- (if ?b then _ else _) ≠ NoFuel => destruct b
  | |- _ ≠ NoFuel => solve [done | eauto with titan]
  end.

Lemma of_option_Ok {A} f (o : option A) a : of_option f o = Ok a ↔ o = Some a.
Proof. destruct o; simpl; naive_solver. Qed.

(** A number whose bits from [n] up are clear is below [2 ^ n]. *)
Lemma bits_range w n :
  0 ≤ n → (∀ k, n ≤ k → Z.testbit w k = false) → 0 ≤ w < 2 ^ n.
Proof.
  intros Hn Hb. assert (w = w mod 2 ^ n) as ->.
  - apply Z.bits_inj'. intros k Hk. destruct (decide (k < n)).
    + by rewrite Z.mod_pow2_bits_low by lia.
    + rewrite Z.mod_pow2_bits_high by lia. apply Hb. lia.
  - apply Z.mod_pos_bound. by apply Z.pow_pos_nonneg.
Qed.

Lemma testbit_high w n k : 0 ≤ n → 0 ≤ w < 2 ^ n → n ≤ k → Z.testbit w k = false.
Proof.
  intros Hn Hw Hk. rewrite <- (Z.mod_small w (2 ^ n)) by done.
  by apply Z.mod_pow2_bits_high.
Qed.

Lemma list_insert_alter_lookup {A} (f : A → A) (l : list A) i w :
  l !! i = Some w → <[i := f w]> l = alter f i l.
Proof.
  revert i. induction l as [|a l IH]; intros [|i] Hl; simpl in *; try done.
  - by simplify_eq.
  - f_equal. by apply IH.
Qed.

Lemma filter_none {A} (P : A → Prop) `{∀ x, Decision (P x)} (l : list A) :
  (∀ x, x ∈ l → ¬ P x) → filter P l = [].
Proof.
  intros Hl. apply elem_of_nil_inv. intros x. rewrite list_elem_of_filter. naive_solver.
Qed.

Lemma filter_ext_in {A} (P Q : A → Prop) `{∀ x, Decision (P x), ∀ x, Decision (Q x)}
    (l : list A) :
  (∀ x, x ∈ l → P x ↔ Q x) → filter P l = filter Q l.
Proof.
  induction l as [|a l IH]; intros Hl; [done |].
  assert (filter P l = filter Q l) as Heq by (apply IH; intros; apply Hl; by right).
  destruct (decide (P a)) as [Hp|Hp].
  - rewrite !filter_cons_True by (done || (apply Hl; [left | done])). by f_equal.
  - rewrite !filter_cons_False by (done || (rewrite <- (Hl a); [done | left])). done.
Qed.
