(* ===== verification/Iface.v ===== *)
(** * Interfaces between the memory components

    What the two allocators promise to the page table code (vmm_hashmap.c,
    vmm.c).  The clients are stated against these classes; Pmm.v and KHeap.v
    prove their instances. *)

From S2P Require Import Prelude.

(** The frame allocator: [pmm_alloc_page], [pmm_alloc_specific_page] and
    [pmm_free_page], on frames of [0x1000] bytes. *)
Class FrameAlloc (F : Type) := {
  fa_alloc : F → outcome (Z * F);
  fa_reserve : F → Z → outcome (bool * F);
  fa_release : F → Z → outcome F;
  fa_inv : F → Prop;
  fa_taken : F → Z → Prop;
  fa_alloc_spec : ∀ f, fa_inv f →
    ∃ p f', fa_alloc f = Ok (p, f') ∧ fa_inv f' ∧
      (∀ q, fa_taken f q → fa_taken f' q) ∧
      (p ≠ 0 → p mod 0x1000 = 0 ∧ 0 < p < 2 ^ 32 ∧ ¬ fa_taken f p ∧ fa_taken f' p);
  fa_reserve_spec : ∀ f p b f', fa_inv f → fa_reserve f p = Ok (b, f') →
    fa_inv f' ∧ ∀ q, fa_taken f q → fa_taken f' q;
}.

(** [kmalloc]: live pointers are never handed out twice. *)
Class HeapAlloc (H : Type) := {
  ha_alloc : H → Z → outcome (Z * H);
  ha_free : H → Z → outcome H;
  ha_inv : H → Prop;
  ha_live : H → Z → Prop;
  ha_alloc_spec : ∀ h n p h', ha_inv h → 5 ≤ n → ha_alloc h n = Ok (p, h') →
    ha_inv h' ∧ 0 < p ∧ ¬ ha_live h p ∧ ∀ q, ha_live h' q ↔ q = p ∨ ha_live h q;
  ha_free_spec : ∀ h p, ha_inv h → ha_live h p →
    ∃ h', ha_free h p = Ok h' ∧ ha_inv h' ∧ ∀ q, ha_live h' q ↔ q ≠ p ∧ ha_live h q;
}.
