(* ===== verification/Pmm.v ===== *)
(** * The physical page allocator (pmm.c)

    A bitmap of 64-bit words at [KERNEL_PMM_START].  [bitmap_to_paddr] and
    [paddr_to_bitmap] translate between a bit and a page frame; every other
    operation tests, sets or clears one bit through the C expression
    [1 << x], whose meaning is an [IntShift] instance. *)

From S2P Require Import Prelude Iface.

Definition KERNEL_HEAP_START : Z := 0xffffff8000200000.
Definition VGA_TEXT_BUFFER_BASE : Z := 0xffffff80000c0000.
Definition KERNEL_PMM_START : Z := VGA_TEXT_BUFFER_BASE + 0x28000.

Definition ALL_ONES : Z := 0xffffffffffffffff.

(** The global [map]: [bitmap] lists the words that are mapped. *)
Record pmm_state := PmmState {
  num_pages : Z;
  bitmap : list Z;
}.

Record bitmap_coords := Coords { y : Z; x : Z }.

Definition bitmap_to_paddr (x y : Z) : Z :=
  u32 (u32 (x * 0x1000) + u32 (y * 0x20000)).

Definition paddr_to_bitmap (paddr : Z) : bitmap_coords :=
  let phys_addr := paddr / 0x1000 in
  Coords (u32 (phys_addr / 64)) (u8 (phys_addr mod 64)).

(** [map.bitmap[i]], a page fault outside the mapped words. *)
Definition read_word (pm : pmm_state) (i : Z) : outcome Z :=
  of_option (PageFault (KERNEL_PMM_START + 8 * i)) (bitmap pm !! Z.to_nat i).

Definition write_word (pm : pmm_state) (i w : Z) : pmm_state :=
  PmmState (num_pages pm) (<[Z.to_nat i := w]> (bitmap pm)).

Section Ops.
Context `{IntShift}.

(** The inner [while(j < 64)]: the first [j] whose test succeeds. *)
Fixpoint scan_word (fuel : nat) (w j : Z) : option Z :=
  match fuel with
  | O => None
  | S fuel' =>
      if Z.land w (shl1 j) =? 0 then Some j else scan_word fuel' w (j + 1)
  end.

(** The outer [for(uint32_t i = 0; i < num_pages / 64; i++)]. *)
Fixpoint scan_map (fuel : nat) (i : Z) (pm : pmm_state)
    : outcome (Z * pmm_state) :=
  match fuel with
  | O => Ok (0, pm)
  | S fuel' =>
      w ← read_word pm i;
      if w <? ALL_ONES then
        match scan_word 64 w 0 with
        | Some j =>
            Ok (bitmap_to_paddr j i, write_word pm i (Z.lor w (shl1 j)))
        | None => scan_map fuel' (u32 (i + 1)) pm
        end
      else scan_map fuel' (u32 (i + 1)) pm
  end.

Definition pmm_alloc_page (pm : pmm_state) : outcome (Z * pmm_state) :=
  scan_map (Z.to_nat (num_pages pm / 64)) 0 pm.

Definition pmm_check_page_taken (pm : pmm_state) (paddr : Z) : outcome bool :=
  let coords := paddr_to_bitmap paddr in
  w ← read_word pm (y coords);
  let masked := Z.land w (shl1 (x coords)) in
  Ok (masked >? 0).

Definition pmm_alloc_specific_page (pm : pmm_state) (paddr : Z)
    : outcome (bool * pmm_state) :=
  let coords := paddr_to_bitmap paddr in
  w ← read_word pm (y coords);
  if negb (Z.land w (shl1 (x coords)) =? 0) then Ok (true, pm)
  else Ok (false, write_word pm (y coords) (Z.lor w (shl1 (x coords)))).

Definition pmm_free_page (pm : pmm_state) (paddr : Z) : outcome pmm_state :=
  let coords := paddr_to_bitmap paddr in
  w ← read_word pm (y coords);
  Ok (write_word pm (y coords)
        (Z.land w (Z.lxor ALL_ONES (shl1 (x coords))))).

End Ops.

#[global] Instance x86_shift : IntShift.
Proof.
  refine {| shl1 := x86_shl1 |}.
  intros j Hj. unfold x86_shl1.
  rewrite (Z.mod_small j 32) by lia.
  assert (2 ^ j < 2 ^ 31) by (apply Z.pow_lt_mono_r; lia).
  assert (0 < 2 ^ j) by (apply Z.pow_pos_nonneg; lia).
  rewrite i32_small by lia. apply u64_small. lia.
Defined.

(** ** Bits of the words *)

(** Every word the x86 build stores is the sign extension of its low half. *)
Definition word_ok (w : Z) : Prop :=
  0 ≤ w < 2 ^ 64 ∧ ∀ k, 31 ≤ k < 64 → Z.testbit w k = Z.testbit w 31.

Lemma x86_shl1_spec j k :
  0 ≤ j → 0 ≤ k →
  Z.testbit (x86_shl1 j) k =
  if j mod 32 =? 31 then (31 <=? k) && (k <? 64) else k =? j mod 32.
Proof.
  intros Hj Hk. unfold x86_shl1.
  assert (0 ≤ j mod 32 < 32) as Hr by (apply Z.mod_pos_bound; lia).
  revert Hr. generalize (j mod 32). intros r Hr. zcase.
  - subst r. change (u64 (i32 (2 ^ 31))) with (Z.shiftl (Z.ones 33) 31).
    rewrite Z.shiftl_spec by lia.
    destruct (31 <=? k) eqn:E1; zbool; simpl; [| by apply Z.testbit_neg_r; lia].
    destruct (k <? 64) eqn:E2; zbool.
    + apply Z.ones_spec_low. lia.
    + apply Z.ones_spec_high. lia.
  - assert (2 ^ r < 2 ^ 31) by (apply Z.pow_lt_mono_r; lia).
    assert (0 < 2 ^ r) by (apply Z.pow_pos_nonneg; lia).
    rewrite i32_small, u64_small by lia.
    rewrite Z.pow2_bits_eqb by lia. apply Z.eqb_sym.
Qed.

Lemma x86_shl1_high j k : 0 ≤ j → 64 ≤ k → Z.testbit (x86_shl1 j) k = false.
Proof.
  intros. rewrite x86_shl1_spec by lia.
  assert (0 ≤ j mod 32 < 32) by (apply Z.mod_pos_bound; lia).
  zcase; [| apply Z.eqb_neq; lia].
  apply andb_false_intro2, Z.ltb_ge. lia.
Qed.

Lemma x86_shl1_low j k :
  0 ≤ j → 0 ≤ k < 32 → Z.testbit (x86_shl1 j) k = (k =? j mod 32).
Proof.
  intros. rewrite x86_shl1_spec by lia.
  assert (0 ≤ j mod 32 < 32) by (apply Z.mod_pos_bound; lia).
  zcase; [| done]. rewrite E. zdec.
  rewrite andb_true_r. destruct (k =? 31) eqn:E'; zbool; [apply Z.leb_le | apply Z.leb_gt]; lia.
Qed.

Lemma x86_shl1_upper j k :
  0 ≤ j → 31 ≤ k < 64 → Z.testbit (x86_shl1 j) k = Z.testbit (x86_shl1 j) 31.
Proof.
  intros. rewrite !x86_shl1_spec by lia. zcase.
  - by zdec.
  - assert (0 ≤ j mod 32 < 32) by (apply Z.mod_pos_bound; lia). by zdec.
Qed.

Lemma land_shl1_zero w j :
  word_ok w → 0 ≤ j →
  (Z.land w (x86_shl1 j) =? 0) = negb (Z.testbit w (j mod 32)).
Proof.
  intros [Hr Hup] Hj.
  assert (0 ≤ j mod 32 < 32) by (apply Z.mod_pos_bound; lia).
  destruct (Z.testbit w (j mod 32)) eqn:Hb; simpl.
  - apply Z.eqb_neq. intros H0. apply (f_equal (λ z, Z.testbit z (j mod 32))) in H0.
    rewrite Z.land_spec, Hb, x86_shl1_low, Z.eqb_refl, Z.bits_0 in H0 by lia. done.
  - apply Z.eqb_eq, Z.bits_inj'. intros k Hk. rewrite Z.land_spec, Z.bits_0.
    rewrite x86_shl1_spec by lia. zcase.
    + rewrite E in Hb. destruct ((31 <=? k) && (k <? 64)) eqn:E'; [| apply andb_false_r].
      zbool. by rewrite Hup, Hb by lia.
    + destruct (k =? j mod 32) eqn:E'; [| apply andb_false_r].
      zbool. subst. by rewrite Hb.
Qed.

Lemma lor_shl1_ok w j :
  word_ok w → 0 ≤ j → word_ok (Z.lor w (x86_shl1 j)).
Proof.
  intros [Hr Hup] Hj. split.
  - apply bits_range; [done |]. intros k Hk.
    by rewrite Z.lor_spec, (testbit_high w 64), x86_shl1_high by lia.
  - intros k Hk. by rewrite !Z.lor_spec, Hup, x86_shl1_upper by lia.
Qed.

Lemma lor_shl1_bit w j k :
  0 ≤ j → 0 ≤ k < 32 →
  Z.testbit (Z.lor w (x86_shl1 j)) k = (k =? j mod 32) || Z.testbit w k.
Proof. intros. rewrite Z.lor_spec, x86_shl1_low by lia. apply orb_comm. Qed.

Lemma ALL_ONES_bit k : 0 ≤ k < 64 → Z.testbit ALL_ONES k = true.
Proof. change ALL_ONES with (Z.ones 64). intros. by apply Z.ones_spec_low. Qed.

Lemma clear_shl1_bit w j k :
  0 ≤ j → 0 ≤ k < 64 →
  Z.testbit (Z.land w (Z.lxor ALL_ONES (x86_shl1 j))) k =
  Z.testbit w k && negb (Z.testbit (x86_shl1 j) k).
Proof. intros. rewrite Z.land_spec, Z.lxor_spec, ALL_ONES_bit by lia. done. Qed.

Lemma clear_shl1_ok w j :
  word_ok w → 0 ≤ j → word_ok (Z.land w (Z.lxor ALL_ONES (x86_shl1 j))).
Proof.
  intros [Hr Hup] Hj. split.
  - apply bits_range; [done |]. intros k Hk.
    by rewrite Z.land_spec, (testbit_high w 64) by lia.
  - intros k Hk. by rewrite !clear_shl1_bit, Hup, x86_shl1_upper by lia.
Qed.

(** A full word is full in its low half. *)
Lemma word_full w : word_ok w → ALL_ONES ≤ w ↔ ∀ k, 0 ≤ k < 32 → Z.testbit w k = true.
Proof.
  intros [Hr Hup]. split.
  - intros Hw k Hk. assert (w = ALL_ONES) as -> by (unfold ALL_ONES in *; lia).
    apply ALL_ONES_bit. lia.
  - intros Hb. assert (w = ALL_ONES) as ->; [| done].
    apply Z.bits_inj'. intros k Hk. destruct (decide (k < 64)) as [Hk'|Hk'].
    + rewrite ALL_ONES_bit by lia. destruct (decide (k < 32)); [apply Hb; lia |].
      rewrite Hup by lia. apply Hb. lia.
    + rewrite !(testbit_high _ 64) by (unfold ALL_ONES; lia). done.
Qed.

(** ** The allocator as a set of page frames

    In the x86 build a word tracks 32 frames, frame [p] by bit [p mod 32] of
    word [p / 32]. *)

Definition slots (pm : pmm_state) : Z := 32 * (num_pages pm / 64).

Definition slot_taken (pm : pmm_state) (p : Z) : bool :=
  match bitmap pm !! Z.to_nat (p / 32) with
  | Some w => Z.testbit w (p mod 32)
  | None => true
  end.

Definition update_slot (f : Z → Z) (pm : pmm_state) (p : Z) : pmm_state :=
  PmmState (num_pages pm) (alter f (Z.to_nat (p / 32)) (bitmap pm)).

Definition take_slot (pm : pmm_state) (p : Z) : pmm_state :=
  update_slot (λ w, Z.lor w (x86_shl1 (p mod 32))) pm p.

Definition release_slot (pm : pmm_state) (p : Z) : pmm_state :=
  update_slot (λ w, Z.land w (Z.lxor ALL_ONES (x86_shl1 (p mod 32)))) pm p.

(** Every word the allocator scans is mapped, and every word is a sign
    extension. *)
Definition pmm_wf (pm : pmm_state) : Prop :=
  Forall word_ok (bitmap pm) ∧
  0 ≤ num_pages pm / 64 ≤ Z.of_nat (length (bitmap pm)).

Lemma slot_word pm p :
  pmm_wf pm → 0 ≤ p < slots pm →
  ∃ w, bitmap pm !! Z.to_nat (p / 32) = Some w ∧ word_ok w.
Proof.
  intros [Hw Hn] Hp. unfold slots in Hp.
  assert (p / 32 < num_pages pm / 64) by mlia.
  assert (0 ≤ p / 32) by mlia.
  destruct (lookup_lt_is_Some_2 (bitmap pm) (Z.to_nat (p / 32))) as [w Hl]; [lia |].
  exists w. split; [done |]. by eapply Forall_lookup_1.
Qed.

Lemma update_slot_wf f pm p :
  (∀ w, word_ok w → word_ok (f w)) → pmm_wf pm → pmm_wf (update_slot f pm p).
Proof.
  intros Hf [Hw Hn]. split; simpl.
  - by apply Forall_alter; [| intros; apply Hf].
  - by rewrite length_alter.
Qed.

Lemma take_slot_wf pm p : pmm_wf pm → pmm_wf (take_slot pm p).
Proof.
  apply update_slot_wf. intros w Hw. apply lor_shl1_ok; [done |].
  pose proof (Z.mod_pos_bound p 32). lia.
Qed.

Lemma release_slot_wf pm p : pmm_wf pm → pmm_wf (release_slot pm p).
Proof.
  apply update_slot_wf. intros w Hw. apply clear_shl1_ok; [done |].
  pose proof (Z.mod_pos_bound p 32). lia.
Qed.

Lemma slot_eqb p q : 0 ≤ p → 0 ≤ q → p / 32 = q / 32 → (q mod 32 =? p mod 32) = (q =? p).
Proof.
  intros Hp Hq Hd. pose proof (Z.div_mod p 32). pose proof (Z.div_mod q 32).
  destruct (q =? p) eqn:E; zbool; [apply Z.eqb_eq; by subst |].
  apply Z.eqb_neq. lia.
Qed.

Lemma update_slot_taken f pm p q (b : bool → bool) :
  pmm_wf pm → 0 ≤ p < slots pm → 0 ≤ q →
  (∀ w k, word_ok w → 0 ≤ k < 32 →
     Z.testbit (f w) k = if k =? p mod 32 then b (Z.testbit w k) else Z.testbit w k) →
  slot_taken (update_slot f pm p) q =
  if q =? p then b (slot_taken pm q) else slot_taken pm q.
Proof.
  intros Hwf Hp Hq Hf. unfold slot_taken. simpl.
  destruct (slot_word pm p Hwf Hp) as (w & Hl & Hw).
  destruct (decide (p / 32 = q / 32)) as [Hd|Hd].
  - rewrite <- Hd, list_lookup_alter_eq, Hl. simpl.
    rewrite Hf by (done || (apply Z.mod_pos_bound; lia)).
    by rewrite slot_eqb by lia.
  - assert (0 ≤ p / 32 ∧ 0 ≤ q / 32) by mlia.
    rewrite list_lookup_alter_ne by lia.
    zcase; [by subst | done].
Qed.

Lemma take_slot_taken pm p q :
  pmm_wf pm → 0 ≤ p < slots pm → 0 ≤ q →
  slot_taken (take_slot pm p) q = (q =? p) || slot_taken pm q.
Proof.
  intros Hwf Hp Hq. unfold take_slot.
  rewrite (update_slot_taken _ _ _ _ (λ _, true)); [by destruct (q =? p) | done | done | done |].
  intros w k Hw Hk. pose proof (Z.mod_pos_bound p 32).
  rewrite lor_shl1_bit, Z.mod_mod by lia. by destruct (k =? p mod 32).
Qed.

Lemma release_slot_taken pm p q :
  pmm_wf pm → 0 ≤ p < slots pm → 0 ≤ q →
  slot_taken (release_slot pm p) q = negb (q =? p) && slot_taken pm q.
Proof.
  intros Hwf Hp Hq. unfold release_slot.
  rewrite (update_slot_taken _ _ _ _ (λ _, false)); [by destruct (q =? p) | done | done | done |].
  intros w k Hw Hk. pose proof (Z.mod_pos_bound p 32).
  rewrite clear_shl1_bit, x86_shl1_low, Z.mod_mod by lia.
  destruct (k =? p mod 32); simpl; [apply andb_false_r | apply andb_true_r].
Qed.

(** ** The scan *)

Lemma scan_word_spec fuel w j :
  word_ok w → 0 ≤ j →
  match scan_word fuel w j with
  | Some r => j ≤ r < j + Z.of_nat fuel ∧ Z.testbit w (r mod 32) = false ∧
              ∀ k, j ≤ k < r → Z.testbit w (k mod 32) = true
  | None => ∀ k, j ≤ k < j + Z.of_nat fuel → Z.testbit w (k mod 32) = true
  end.
Proof.
  intros Hw. revert j. induction fuel as [|fuel IH]; intros j Hj; simpl; [lia |].
  change shl1 with x86_shl1.
  rewrite land_shl1_zero by done.
  destruct (Z.testbit w (j mod 32)) eqn:Hb; simpl; [| split_and!; [lia | lia | done | lia]].
  specialize (IH (j + 1) ltac:(lia)). destruct (scan_word fuel w (j + 1)) as [r|].
  - destruct IH as (Hr & Hc & Hs). split_and!; [lia | lia | done |].
    intros k Hk. destruct (decide (k = j)); [by subst | apply Hs; lia].
  - intros k Hk. destruct (decide (k = j)); [by subst | apply IH; lia].
Qed.

(** A word that is not all ones has a clear bit in its low half, and the scan
    returns the lowest. *)
Lemma scan_word_first w :
  word_ok w → w < ALL_ONES →
  ∃ j, scan_word 64 w 0 = Some j ∧ 0 ≤ j < 32 ∧ Z.testbit w j = false ∧
       ∀ k, 0 ≤ k < j → Z.testbit w k = true.
Proof.
  intros Hw Hlt. pose proof (scan_word_spec 64 w 0 Hw ltac:(lia)) as Hs.
  assert (¬ ∀ k, 0 ≤ k < 32 → Z.testbit w k = true) as Hnf.
  { rewrite <- word_full by done. lia. }
  destruct (scan_word 64 w 0) as [r|].
  - destruct Hs as (Hr & Hc & Hs). exists r.
    assert (r < 32).
    { destruct (decide (r < 32)); [done |]. exfalso. apply Hnf. intros k Hk.
      rewrite <- (Z.mod_small k 32) by lia. apply Hs. lia. }
    rewrite Z.mod_small in Hc by lia. split_and!; [done | lia | lia | done |].
    intros k Hk. rewrite <- (Z.mod_small k 32) by lia. apply Hs. lia.
  - exfalso. apply Hnf. intros k Hk. rewrite <- (Z.mod_small k 32) by lia.
    apply Hs. lia.
Qed.

#[local] Arguments scan_word : simpl never.

(** What one call may do: hand out the lowest free frame and mark it, or
    report [0] and change nothing when every frame is taken. *)
Inductive alloc_result (pm : pmm_state) : Z * pmm_state → Prop :=
| alloc_first p :
    0 ≤ p < slots pm → slot_taken pm p = false →
    (∀ q, 0 ≤ q < p → slot_taken pm q = true) →
    alloc_result pm (bitmap_to_paddr (p mod 32) (p / 32), take_slot pm p)
| alloc_full :
    (∀ q, 0 ≤ q < slots pm → slot_taken pm q = true) →
    alloc_result pm (0, pm).

Lemma write_word_take pm i j w :
  bitmap pm !! Z.to_nat i = Some w → 0 ≤ i → 0 ≤ j < 32 →
  write_word pm i (Z.lor w (x86_shl1 j)) = take_slot pm (32 * i + j).
Proof.
  intros Hl Hi Hj. unfold write_word, take_slot, update_slot.
  replace ((32 * i + j) / 32) with i by mlia.
  replace ((32 * i + j) mod 32) with j by mlia.
  f_equal. by apply (list_insert_alter_lookup (λ w, Z.lor w (x86_shl1 j))).
Qed.

Lemma slot_taken_word pm i w k :
  bitmap pm !! Z.to_nat i = Some w → 0 ≤ k < 32 →
  slot_taken pm (32 * i + k) = Z.testbit w k.
Proof.
  intros Hl Hk. unfold slot_taken.
  replace ((32 * i + k) / 32) with i by mlia.
  replace ((32 * i + k) mod 32) with k by mlia. by rewrite Hl.
Qed.

(** Frames below [32 * i] and the frames of word [i] are those below
    [32 * (i + 1)]. *)
Lemma slots_below_step pm i w :
  bitmap pm !! Z.to_nat i = Some w → 0 ≤ i →
  (∀ q, 0 ≤ q < 32 * i → slot_taken pm q = true) →
  ∀ m, 0 ≤ m ≤ 32 → (∀ k, 0 ≤ k < m → Z.testbit w k = true) →
  ∀ q, 0 ≤ q < 32 * i + m → slot_taken pm q = true.
Proof.
  intros Hl Hi Hbelow m Hm Hk q Hq.
  destruct (decide (q < 32 * i)); [apply Hbelow; lia |].
  replace q with (32 * i + (q - 32 * i)) by lia.
  rewrite (slot_taken_word _ _ _ _ Hl) by lia. apply Hk. lia.
Qed.

Lemma scan_map_spec fuel i pm :
  pmm_wf pm → num_pages pm < 2 ^ 38 → 0 ≤ i → i + Z.of_nat fuel = num_pages pm / 64 →
  (∀ q, 0 ≤ q < 32 * i → slot_taken pm q = true) →
  ∃ r, scan_map fuel i pm = Ok r ∧ alloc_result pm r.
Proof.
  intros Hwf H38. revert i. induction fuel as [|fuel IH]; intros i Hi Hn Hbelow; simpl.
  { eexists. split; [done |]. apply alloc_full. intros q Hq. apply Hbelow.
    unfold slots in Hq. lia. }
  destruct (slot_word pm (32 * i) Hwf) as (w & Hl & Hw); [unfold slots; lia |].
  replace (32 * i / 32) with i in Hl by mlia.
  unfold read_word. rewrite Hl. out_simpl.
  destruct (w <? ALL_ONES) eqn:E; zbool.
  - destruct (scan_word_first w Hw E) as (j & Hs & Hj & Hc & Hset).
    rewrite Hs. change shl1 with x86_shl1.
    eexists. split; [done |]. rewrite (write_word_take _ _ _ _ Hl Hi Hj).
    replace (bitmap_to_paddr j i)
      with (bitmap_to_paddr ((32 * i + j) mod 32) ((32 * i + j) / 32)) by (f_equal; mlia).
    apply alloc_first.
    + unfold slots. lia.
    + by rewrite (slot_taken_word _ _ _ _ Hl Hj).
    + apply (slots_below_step _ _ _ Hl Hi Hbelow); [lia | done].
  - rewrite u32_small by mlia. apply IH; [lia | lia |]. replace (32 * (i + 1)) with (32 * i + 32) by lia.
    apply (slots_below_step _ _ _ Hl Hi Hbelow); [lia |].
    by apply word_full.
Qed.

Lemma alloc_page_result pm :
  pmm_wf pm → num_pages pm < 2 ^ 38 → ∃ r, pmm_alloc_page pm = Ok r ∧ alloc_result pm r.
Proof.
  intros Hwf H38. pose proof (proj2 Hwf). unfold pmm_alloc_page.
  apply scan_map_spec; [done | done | done | lia |]. intros q Hq. lia.
Qed.

(** The address of a slot is computed in 32 bits. *)
Lemma bitmap_to_paddr_wraps p : bitmap_to_paddr (p mod 32) (p / 32) = u32 (0x1000 * p).
Proof.
  unfold bitmap_to_paddr, u32. rewrite <- Z.add_mod by done. f_equal.
  pose proof (Z.div_mod p 32). lia.
Qed.

Lemma bitmap_to_paddr_frame p :
  0 ≤ p < 2 ^ 20 → bitmap_to_paddr (p mod 32) (p / 32) = 0x1000 * p.
Proof. intros Hp. rewrite bitmap_to_paddr_wraps. apply u32_small. lia. Qed.

Lemma slots_38 pm : slots pm ≤ 2 ^ 20 → num_pages pm < 2 ^ 38.
Proof. unfold slots. mlia. Qed.

Lemma alloc_result_wf pm r : pmm_wf pm → alloc_result pm r → pmm_wf r.2.
Proof. intros Hwf []; simpl; [by apply take_slot_wf | done]. Qed.

Lemma take_slot_slots pm p : slots (take_slot pm p) = slots pm.
Proof. done. Qed.

(** [n] successive calls. *)
Fixpoint alloc_pages (n : nat) (pm : pmm_state) : outcome (list Z * pmm_state) :=
  match n with
  | O => Ok ([], pm)
  | S n' =>
      '(p, pm1) ← pmm_alloc_page pm;
      '(ps, pm2) ← alloc_pages n' pm1;
      Ok (p :: ps, pm2)
  end.

(** How many frames are still free. *)
Definition free_frames (pm : pmm_state) : list Z :=
  filter (λ p, slot_taken pm p = false) (seqZ 0 (slots pm)).

Lemma elem_of_free_frames pm p :
  p ∈ free_frames pm ↔ slot_taken pm p = false ∧ 0 ≤ p < slots pm.
Proof. unfold free_frames. rewrite list_elem_of_filter, elem_of_seqZ. naive_solver lia. Qed.

Lemma free_frames_take pm p :
  pmm_wf pm → p ∈ free_frames pm →
  length (free_frames pm) = S (length (free_frames (take_slot pm p))).
Proof.
  intros Hwf Hp. pose proof Hp as Hp'. apply elem_of_free_frames in Hp' as [Hf Hr].
  assert (free_frames pm ≡ₚ p :: free_frames (take_slot pm p)) as ->; [| done].
  apply NoDup_Permutation.
  - apply list.NoDup_filter, NoDup_seqZ.
  - apply NoDup_cons. split; [| apply list.NoDup_filter, NoDup_seqZ].
    rewrite elem_of_free_frames, take_slot_taken, Z.eqb_refl by (done || lia). naive_solver.
  - intros q. rewrite elem_of_cons, !elem_of_free_frames, take_slot_slots.
    split.
    + intros [Hq Hq']. destruct (decide (q = p)); [by left | right].
      rewrite take_slot_taken, (proj2 (Z.eqb_neq q p)) by (done || lia). done.
    + intros [->|[Hq Hq']]; [done |].
      rewrite take_slot_taken in Hq by (done || lia).
      apply orb_false_elim in Hq as [_ ?]. done.
Qed.

Lemma alloc_next pm p r :
  pmm_wf pm → p ∈ free_frames pm → alloc_result pm r →
  ∃ q, q ∈ free_frames pm ∧ r = (bitmap_to_paddr (q mod 32) (q / 32), take_slot pm q).
Proof.
  intros Hwf Hp [q Hq Hf Hs|Hfull].
  - exists q. split; [by apply elem_of_free_frames | done].
  - apply elem_of_free_frames in Hp as [Hp Hr]. by rewrite Hfull in Hp.
Qed.

(** Allocation never fails while frames are free, and hands out distinct free
    frames. *)
Lemma alloc_pages_frames n pm :
  pmm_wf pm → slots pm ≤ 2 ^ 20 → (n ≤ length (free_frames pm))%nat →
  ∃ fs pm', alloc_pages n pm = Ok (Z.mul 0x1000 <$> fs, pm') ∧
    length fs = n ∧ NoDup fs ∧ (∀ f, f ∈ fs → f ∈ free_frames pm) ∧
    pmm_wf pm' ∧ slots pm' = slots pm ∧
    ∀ q, 0 ≤ q → slot_taken pm' q = bool_decide (q ∈ fs) || slot_taken pm q.
Proof.
  revert pm. induction n as [|n IH]; intros pm Hwf Hs Hn.
  { exists [], pm. split_and!; try done; [constructor | set_solver]. }
  destruct (free_frames pm) as [|p0 l] eqn:Hl; [simpl in Hn; lia |].
  assert (p0 ∈ free_frames pm) as Hp0 by (rewrite Hl; left).
  destruct (alloc_page_result pm Hwf (slots_38 _ Hs)) as (r & Hr & Hres).
  destruct (alloc_next _ _ _ Hwf Hp0 Hres) as (p & Hp & ->).
  pose proof (free_frames_take _ _ Hwf Hp) as Hlen. rewrite Hl in Hlen.
  apply elem_of_free_frames in Hp as [Hf Hpr].
  destruct (IH (take_slot pm p)) as (fs & pm' & Ha & Hfl & Hnd & Hfree & Hwf' & Hs' & Ht);
    [by apply take_slot_wf | done | simpl in *; lia |].
  assert (∀ q, 0 ≤ q → slot_taken (take_slot pm p) q = (q =? p) || slot_taken pm q)
    as Htk by (intros; by apply take_slot_taken).
  exists (p :: fs), pm'. split_and!; try done.
  - simpl. rewrite Hr. out_simpl. rewrite Ha.
    by rewrite bitmap_to_paddr_frame by lia.
  - simpl. lia.
  - constructor; [| done]. intros Hin. apply Hfree in Hin.
    rewrite elem_of_free_frames, Htk, Z.eqb_refl in Hin by lia. naive_solver.
  - rewrite <- Hl. intros f [->|Hin]%elem_of_cons; [by apply elem_of_free_frames |].
    apply Hfree in Hin. rewrite elem_of_free_frames, take_slot_slots in Hin.
    destruct Hin as [Hin Hfr]. rewrite Htk in Hin by lia.
    apply orb_false_elim in Hin as [_ ?]. by apply elem_of_free_frames.
  - intros q Hq. rewrite Ht, Htk by lia.
    destruct (slot_taken pm q); [by rewrite !orb_true_r |]. rewrite !orb_false_r.
    destruct (q =? p) eqn:E; zbool.
    + subst. rewrite orb_true_r. symmetry. apply bool_decide_eq_true. left.
    + rewrite orb_false_r. apply bool_decide_ext. rewrite elem_of_cons. naive_solver.
Qed.

(** ** Refinement of an ordered free list *)

(** The abstract allocator: the free frames in increasing order; allocation
    pops the first, and reports [0] when there is none. *)
Definition spec_alloc (free : list Z) : Z * list Z :=
  match free with
  | [] => (0, [])
  | p :: fs => (0x1000 * p, fs)
  end.

Lemma free_frames_split pm p :
  0 ≤ p < slots pm → (∀ q, 0 ≤ q < p → slot_taken pm q = true) →
  free_frames pm = filter (λ q, slot_taken pm q = false) [p] ++
    filter (λ q, slot_taken pm q = false) (seqZ (p + 1) (slots pm - (p + 1))).
Proof.
  intros Hp Hbelow. unfold free_frames.
  replace (slots pm) with (p + (1 + (slots pm - (p + 1)))) at 1 by lia.
  rewrite !seqZ_app, !filter_app by lia.
  rewrite (filter_none _ (seqZ 0 p)); [done |].
  intros q Hq%elem_of_seqZ. rewrite Hbelow by lia. done.
Qed.

Lemma free_frames_pop pm p :
  pmm_wf pm → 0 ≤ p < slots pm → slot_taken pm p = false →
  (∀ q, 0 ≤ q < p → slot_taken pm q = true) →
  free_frames pm = p :: free_frames (take_slot pm p).
Proof.
  intros Hwf Hp Hf Hbelow.
  assert (∀ q, 0 ≤ q → slot_taken (take_slot pm p) q = (q =? p) || slot_taken pm q)
    as Htk by (intros; by apply take_slot_taken).
  rewrite (free_frames_split pm p), (free_frames_split (take_slot pm p) p) by
    (done || (intros; rewrite Htk, Hbelow, orb_true_r by lia; done)).
  rewrite (filter_cons_True _ p), filter_nil, (filter_cons_False _ p), filter_nil by
    (done || (rewrite Htk, Z.eqb_refl by lia; done)).
  simpl. f_equal. rewrite take_slot_slots. apply filter_ext_in. intros q Hq%elem_of_seqZ.
  rewrite Htk, (proj2 (Z.eqb_neq q p)) by lia. done.
Qed.

(** [C8] pmm_alloc_page on a bitmap of fewer than 2^38 pages, as is the one
    that pmm_init sets, refines the specification on lists of free frames: it
    takes the first free frame and removes exactly that one, and answers 0
    when there is none.  The address is computed in 32 bits: it is that of the
    frame for the first 2^20 frames; for a frame p behind them it is the
    address of frame p mod 2^20, which is taken already. *)
Theorem pmm_alloc_page_refines pm :
  pmm_wf pm → num_pages pm < 2 ^ 38 →
  ∃ pm', pmm_alloc_page pm = Ok (u32 (spec_alloc (free_frames pm)).1, pm') ∧
    free_frames pm' = (spec_alloc (free_frames pm)).2 ∧ pmm_wf pm' ∧ slots pm' = slots pm ∧
    ∀ p fs, free_frames pm = p :: fs →
      (p < 2 ^ 20 → u32 (0x1000 * p) = 0x1000 * p) ∧
      (2 ^ 20 ≤ p → u32 (0x1000 * p) = 0x1000 * (p mod 2 ^ 20) ∧ slot_taken pm (p mod 2 ^ 20) = true).
Proof.
  intros Hwf H38. destruct (alloc_page_result pm Hwf H38) as (r & Hr & Hres).
  pose proof (alloc_result_wf _ _ Hwf Hres) as Hwf'.
  destruct Hres as [p Hp Hf Hbelow|Hfull]; eexists.
  - rewrite (free_frames_pop pm p) by done. cbn [spec_alloc fst snd].
    rewrite <- bitmap_to_paddr_wraps. split_and!; try done. intros q fs [= <- _]. split; intros Hlt.
    + apply u32_small. lia.
    + pose proof (Z.mod_pos_bound p (2 ^ 20) eq_refl). split; [| apply Hbelow; lia].
      unfold u32. change (2 ^ 32) with (0x1000 * 2 ^ 20). apply Z.mul_mod_distr_l; done.
  - assert (free_frames pm = []) as Hn
      by (apply filter_none; intros q Hq%elem_of_seqZ; rewrite Hfull by lia; done).
    rewrite Hn. by split_and!.
Qed.

Definition demo_pmm : pmm_state := PmmState 128 [0x7; 0].

Lemma demo_pmm_wf : pmm_wf demo_pmm.
Proof.
  split; [| by vm_compute]. repeat constructor; try lia; intros k Hk.
  - rewrite !(testbit_high _ 3) by lia. done.
  - by rewrite !Z.bits_0.
Qed.

(** A bitmap of the size that [pmm_init] sets up, [0x118000] bytes, whose first
    [2 ^ 20 + 32] slots are taken. *)
Definition high_pmm : pmm_state :=
  PmmState (0x118000 * 8) (replicate (Z.to_nat 32769) ALL_ONES ++ replicate (Z.to_nat 110591) 0).

Lemma high_pmm_wf : pmm_wf high_pmm.
Proof.
  split.
  - apply Forall_app. split; apply Forall_replicate; (split; [unfold ALL_ONES; lia |]); intros k Hk.
    + by rewrite !ALL_ONES_bit by lia.
    + by rewrite !Z.bits_0.
  - unfold high_pmm. cbn [num_pages bitmap]. rewrite length_app, !length_replicate.
    change (0x118000 * 8 / 64) with 143360. lia.
Qed.

Lemma high_pmm_free : ∃ fs, free_frames high_pmm = 2 ^ 20 + 32 :: fs.
Proof.
  eexists. apply free_frames_pop; [exact high_pmm_wf | | |].
  - change (slots high_pmm) with (32 * (0x118000 * 8 / 64)). split; reflexivity || discriminate.
  - unfold slot_taken, high_pmm. cbn [bitmap]. change ((2 ^ 20 + 32) / 32) with 32769.
    rewrite lookup_app_r by (by rewrite length_replicate).
    rewrite length_replicate, Nat.sub_diag. rewrite lookup_replicate_2 by lia. apply Z.bits_0.
  - intros q Hq. unfold slot_taken, high_pmm. cbn [bitmap].
    rewrite lookup_app_l, lookup_replicate_2 by (rewrite ?length_replicate; mlia).
    apply ALL_ONES_bit. mlia.
Qed.

(** The lowest free frame of a small bitmap; the frame 32 again on the one of
    the kernel. *)
Lemma pmm_alloc_page_refines_witness :
  (∃ pm', pmm_alloc_page demo_pmm = Ok (0x3000, pm') ∧ free_frames pm' = seqZ 4 60) ∧
  ∃ pm', pmm_alloc_page high_pmm = Ok (0x20000, pm') ∧ slot_taken high_pmm 32 = true.
Proof.
  split.
  - destruct (pmm_alloc_page_refines demo_pmm demo_pmm_wf ltac:(reflexivity)) as (pm' & Ha & Hf & _).
    assert (spec_alloc (free_frames demo_pmm) = (0x3000, seqZ 4 60)) as Hd by reflexivity.
    rewrite Hd in Ha, Hf. exists pm'. split; [exact Ha | exact Hf].
  - destruct (pmm_alloc_page_refines high_pmm high_pmm_wf ltac:(reflexivity)) as (pm' & Ha & _ & _ & _ & Hw).
    destruct high_pmm_free as [fs Hfs]. destruct (Hw _ _ Hfs) as [_ Hw2].
    rewrite Hfs in Ha. exists pm'. split; [exact Ha | apply Hw2; lia].
Defined.

(** Any number of allocations in a row succeed while frames are left,
    and return distinct frames that were free. *)
Theorem alloc_pages_distinct n pm :
  pmm_wf pm → slots pm ≤ 2 ^ 20 → (n ≤ length (free_frames pm))%nat →
  ∃ ps pm', alloc_pages n pm = Ok (ps, pm') ∧ length ps = n ∧ NoDup ps ∧
    (∀ p, p ∈ ps → p mod 0x1000 = 0 ∧ slot_taken pm (p / 0x1000) = false) ∧
    (∀ q, 0 ≤ q → slot_taken pm' q =
       bool_decide (0x1000 * q ∈ ps) || slot_taken pm q).
Proof.
  intros Hwf Hs Hn.
  destruct (alloc_pages_frames n pm Hwf Hs Hn) as (fs & pm' & Ha & Hl & Hnd & Hfr & _ & _ & Ht).
  exists (Z.mul 0x1000 <$> fs), pm'. split_and!.
  - done.
  - by rewrite length_fmap.
  - apply NoDup_fmap; [intros a b; lia | done].
  - intros p (f & -> & Hf)%list_elem_of_fmap. apply Hfr, elem_of_free_frames in Hf.
    rewrite (Z.mul_comm 4096), Z.mod_mul, Z.div_mul by lia. naive_solver.
  - intros q Hq. rewrite Ht by done. f_equal. apply bool_decide_ext.
    rewrite list_elem_of_fmap. split; [naive_solver |].
    intros (f & Heq & Hf). by replace q with f by lia.
Qed.

Lemma alloc_pages_distinct_witness :
  ∃ ps pm', alloc_pages 40 demo_pmm = Ok (ps, pm') ∧ NoDup ps.
Proof.
  destruct (alloc_pages_distinct 40 demo_pmm demo_pmm_wf) as (ps & pm' & Ha & _ & Hn & _).
  - vm_compute. discriminate.
  - vm_compute. lia.
  - exists ps, pm'. split; [exact Ha | exact Hn].
Defined.

(** ** Freeing *)

Lemma paddr_to_bitmap_frame p :
  0 ≤ p < 2 ^ 38 → paddr_to_bitmap (0x1000 * p) = Coords (p / 64) (p mod 64).
Proof.
  intros Hp. unfold paddr_to_bitmap.
  rewrite (Z.mul_comm 4096), Z.div_mul by lia.
  rewrite u32_small, u8_small; [done | mlia | mlia].
Qed.

(** The frame whose bit [paddr_to_bitmap] finds for frame [p]. *)
Definition freed_frame (p : Z) : Z := 32 * (p / 64) + p mod 32.

Lemma write_word_release pm i j w :
  bitmap pm !! Z.to_nat i = Some w → 0 ≤ i → 0 ≤ j →
  write_word pm i (Z.land w (Z.lxor ALL_ONES (x86_shl1 j))) =
  release_slot pm (32 * i + j mod 32).
Proof.
  intros Hl Hi Hj. unfold write_word, release_slot, update_slot.
  assert (0 ≤ j mod 32 < 32) by (apply Z.mod_pos_bound; lia).
  replace ((32 * i + j mod 32) / 32) with i by mlia.
  assert (x86_shl1 ((32 * i + j mod 32) mod 32) = x86_shl1 j) as ->.
  { unfold x86_shl1. replace ((32 * i + j mod 32) mod 32 mod 32) with (j mod 32); [done |].
    mlia. }
  f_equal.
  by apply (list_insert_alter_lookup (λ w, Z.land w (Z.lxor ALL_ONES (x86_shl1 j)))).
Qed.

Lemma free_page_release pm p :
  pmm_wf pm → 0 ≤ p < slots pm → p < 2 ^ 38 →
  pmm_free_page pm (0x1000 * p) = Ok (release_slot pm (freed_frame p)).
Proof.
  intros Hwf Hp Hb. unfold pmm_free_page. rewrite paddr_to_bitmap_frame by lia.
  destruct (slot_word pm (freed_frame p) Hwf) as (w & Hl & _).
  { unfold freed_frame. mlia. }
  replace (freed_frame p / 32) with (p / 64) in Hl by (unfold freed_frame; mlia).
  unfold read_word. simpl y. simpl x. rewrite Hl. out_simpl. change shl1 with x86_shl1.
  rewrite (write_word_release _ _ _ _ Hl) by mlia.
  unfold freed_frame. do 3 f_equal. mlia.
Qed.

(** pmm_free_page of frame p clears the bit of frame 32*(p/64) + p mod
    32: it frees the frame it was given only for p below 32. *)
Theorem pmm_free_page_frame pm p :
  pmm_wf pm → 0 ≤ p < slots pm → slots pm ≤ 2 ^ 38 →
  ∃ pm', pmm_free_page pm (0x1000 * p) = Ok pm' ∧ pmm_wf pm' ∧
    (∀ q, 0 ≤ q →
       slot_taken pm' q = negb (q =? 32 * (p / 64) + p mod 32) && slot_taken pm q) ∧
    (p < 32 → slot_taken pm' p = false) ∧
    (32 ≤ p → slot_taken pm' p = slot_taken pm p).
Proof.
  intros Hwf Hp Hs. assert (0 ≤ freed_frame p < slots pm) by (unfold freed_frame; mlia).
  exists (release_slot pm (freed_frame p)).
  rewrite free_page_release by (done || lia).
  assert (∀ q, 0 ≤ q → slot_taken (release_slot pm (freed_frame p)) q =
     negb (q =? freed_frame p) && slot_taken pm q) as Ht
     by (intros; by apply release_slot_taken).
  split_and!; [done | by apply release_slot_wf | done | |]; intros Hlt;
    rewrite Ht by lia.
  - replace (p =? freed_frame p) with true; [done |].
    symmetry. apply Z.eqb_eq. unfold freed_frame. mlia.
  - replace (p =? freed_frame p) with false; [done |].
    symmetry. apply Z.eqb_neq. unfold freed_frame. mlia.
Qed.

Lemma pmm_free_page_frame_witness :
  ∃ pm', pmm_free_page demo_pmm (0x1000 * 34) = Ok pm' ∧
    slot_taken pm' 2 = false ∧ slot_taken demo_pmm 2 = true.
Proof.
  destruct (pmm_free_page_frame demo_pmm 34 demo_pmm_wf) as (pm' & Hf & _ & Ht & _).
  - vm_compute. split; [discriminate | reflexivity].
  - vm_compute. discriminate.
  - exists pm'. split; [exact Hf |]. split; [| reflexivity].
    rewrite Ht by lia. reflexivity.
Defined.

(** ** Single pages, wherever C defines the shift *)

(** The page's word is mapped and its bit number is a count for which C
    defines [1 << x] in [int]. *)
Definition shift_defined (pm : pmm_state) (p : Z) : Prop :=
  0 ≤ p < 2 ^ 50 ∧ (p / 0x1000) mod 64 < 31 ∧
  is_Some (bitmap pm !! Z.to_nat (p / 0x1000 / 64)).

Section Defined.
Context `{IntShift}.

Lemma coords_defined pm p :
  shift_defined pm p →
  paddr_to_bitmap p = Coords (p / 0x1000 / 64) ((p / 0x1000) mod 64) ∧
  0 ≤ p / 0x1000 / 64 ∧ 0 ≤ (p / 0x1000) mod 64 < 31.
Proof.
  intros (Hp & Hx & _). unfold paddr_to_bitmap.
  assert (0 ≤ p / 4096 < 2 ^ 38) as Hf by mlia.
  revert Hf Hx. generalize (p / 4096). intros f Hf Hx.
  rewrite u32_small, u8_small by mlia. split; [done | mlia].
Qed.

Lemma land_pow2_zero w j : 0 ≤ j → (Z.land w (2 ^ j) =? 0) = negb (Z.testbit w j).
Proof.
  intros Hj. destruct (Z.testbit w j) eqn:Hb; simpl.
  - apply Z.eqb_neq. intros H0. apply (f_equal (λ z, Z.testbit z j)) in H0.
    rewrite Z.land_spec, Hb, Z.pow2_bits_true, Z.bits_0 in H0 by lia. done.
  - apply Z.eqb_eq, Z.bits_inj'. intros k Hk.
    rewrite Z.land_spec, Z.pow2_bits_eqb, Z.bits_0 by lia.
    destruct (j =? k) eqn:E; zbool; [by subst; rewrite Hb | apply andb_false_r].
Qed.

Lemma land_pow2_pos w j : 0 ≤ j → (Z.land w (2 ^ j) >? 0) = Z.testbit w j.
Proof.
  intros Hj. assert (0 ≤ Z.land w (2 ^ j)).
  { apply Z.land_nonneg. right. apply Z.pow_nonneg. lia. }
  pose proof (land_pow2_zero w j Hj) as Hz.
  destruct (Z.testbit w j); simpl in Hz; zbool.
  - apply Z.gtb_lt. lia.
  - rewrite Hz. done.
Qed.

(** The answer of [pmm_check_page_taken], read off the bitmap. *)
Lemma check_page_taken_bit pm p w :
  shift_defined pm p → bitmap pm !! Z.to_nat (p / 0x1000 / 64) = Some w →
  pmm_check_page_taken pm p = Ok (Z.testbit w ((p / 0x1000) mod 64)).
Proof.
  intros Hd Hl. destruct (coords_defined _ _ Hd) as (Hc & Hy & Hx).
  unfold pmm_check_page_taken, read_word. rewrite Hc. simpl y. simpl x.
  rewrite Hl. out_simpl. rewrite shl1_defined, land_pow2_pos by lia. done.
Qed.

(** Rewriting the word of one page with a function that touches only its bit
    changes the answer for that page only. *)
Lemma write_word_check pm p w v b :
  shift_defined pm p → bitmap pm !! Z.to_nat (p / 0x1000 / 64) = Some w →
  Z.testbit v ((p / 0x1000) mod 64) = b →
  (∀ k, 0 ≤ k < 31 → k ≠ (p / 0x1000) mod 64 → Z.testbit v k = Z.testbit w k) →
  let pm' := write_word pm (p / 0x1000 / 64) v in
  pmm_check_page_taken pm' p = Ok b ∧
  ∀ q, shift_defined pm q → q / 0x1000 ≠ p / 0x1000 →
    pmm_check_page_taken pm' q = pmm_check_page_taken pm q.
Proof.
  intros Hd Hl Hb Hk pm'. destruct (coords_defined _ _ Hd) as (_ & Hy & Hx).
  assert (Z.to_nat (p / 4096 / 64) < length (bitmap pm))%nat as Hlt
    by (by eapply lookup_lt_Some).
  assert (∀ q, shift_defined pm q → shift_defined pm' q) as Hd'.
  { intros q (? & ? & Hs%lookup_lt_is_Some_1). split; [done |]. split; [done |].
    apply lookup_lt_is_Some_2. simpl. by rewrite length_insert. }
  split.
  - rewrite (check_page_taken_bit _ _ v); [by rewrite Hb | by apply Hd' |].
    by apply list_lookup_insert_eq.
  - intros q Hq Hne. destruct (proj2 (proj2 Hq)) as [wq Hwq].
    destruct (coords_defined _ _ Hq) as (_ & Hyq & Hxq).
    rewrite (check_page_taken_bit pm q wq) by done.
    destruct (decide (q / 4096 / 64 = p / 4096 / 64)) as [Heq|Hne'].
    + rewrite (check_page_taken_bit _ _ v); [| by apply Hd' |].
      * rewrite Heq, Hl in Hwq. injection Hwq as <-. rewrite Hk; [done | lia |].
        pose proof (Z.div_mod (q / 4096) 64). pose proof (Z.div_mod (p / 4096) 64). lia.
      * rewrite Heq. by apply list_lookup_insert_eq.
    + apply check_page_taken_bit; [by apply Hd' |]. simpl.
      rewrite list_lookup_insert_ne by lia. done.
Qed.

(** Wherever C defines the shift of the bit, reserving a page makes the
    query answer true, freeing it makes it answer false, and no other page is
    affected. *)
Theorem page_ops_roundtrip pm p :
  shift_defined pm p →
  (∃ b pm', pmm_alloc_specific_page pm p = Ok (b, pm') ∧
     pmm_check_page_taken pm p = Ok b ∧ pmm_check_page_taken pm' p = Ok true ∧
     ∀ q, shift_defined pm q → q / 0x1000 ≠ p / 0x1000 →
       pmm_check_page_taken pm' q = pmm_check_page_taken pm q) ∧
  (∃ pm', pmm_free_page pm p = Ok pm' ∧ pmm_check_page_taken pm' p = Ok false ∧
     ∀ q, shift_defined pm q → q / 0x1000 ≠ p / 0x1000 →
       pmm_check_page_taken pm' q = pmm_check_page_taken pm q).
Proof.
  intros Hd. destruct (coords_defined _ _ Hd) as (Hc & Hy & Hx).
  destruct (proj2 (proj2 Hd)) as [w Hl].
  unfold pmm_alloc_specific_page, pmm_free_page, read_word.
  rewrite Hc. simpl y. simpl x. rewrite Hl. out_simpl.
  rewrite shl1_defined, land_pow2_zero, negb_involutive by lia. split.
  - rewrite (check_page_taken_bit pm p w Hd Hl).
    destruct (Z.testbit w ((p / 4096) mod 64)) eqn:Hb.
    + exists true, pm. split_and!; try done.
      by rewrite (check_page_taken_bit pm p w Hd Hl), Hb.
    + destruct (write_word_check pm p w (Z.lor w (2 ^ ((p / 4096) mod 64))) true)
        as [Ha Ho]; try done.
      * by rewrite Z.lor_spec, Z.pow2_bits_true, orb_true_r by lia.
      * intros. rewrite Z.lor_spec, Z.pow2_bits_false by lia. by rewrite orb_false_r.
      * exists false. eexists. split; [done |]. by split.
  - eexists. split; [done |]. apply (write_word_check pm p w); try done.
    + by rewrite Z.land_spec, Z.lxor_spec, ALL_ONES_bit, Z.pow2_bits_true, andb_false_r by lia.
    + intros k Hk Hne.
      by rewrite Z.land_spec, Z.lxor_spec, ALL_ONES_bit, Z.pow2_bits_false, andb_true_r by lia.
Qed.

End Defined.

Lemma page_ops_roundtrip_witness :
  ∃ pm', pmm_alloc_specific_page demo_pmm 0x5000 = Ok (false, pm') ∧
    pmm_check_page_taken pm' 0x5000 = Ok true.
Proof.
  destruct (page_ops_roundtrip demo_pmm 0x5000) as [(b & pm' & Ha & Hc & Ht & _) _].
  - split_and!; try (vm_compute; done). by exists 7.
  - assert (b = false) as -> by (vm_compute in Hc; by injection Hc).
    exists pm'. split; [exact Ha | exact Ht].
Defined.

(** ** The allocator as the page table code sees it *)

#[global] Program Instance pmm_frames : FrameAlloc pmm_state := {|
  fa_alloc := pmm_alloc_page;
  fa_reserve := pmm_alloc_specific_page;
  fa_release := pmm_free_page;
  fa_inv pm := pmm_wf pm ∧ slots pm ≤ 2 ^ 20;
  fa_taken pm p := 0 ≤ p ∧ slot_taken pm (p / 0x1000) = true;
|}.
Next Obligation.
  intros pm [Hwf Hs]. destruct (alloc_page_result pm Hwf (slots_38 _ Hs)) as (r & Hr & Hres).
  pose proof (alloc_result_wf _ _ Hwf Hres) as Hwf'.
  destruct Hres as [p Hp Hf Hbelow|Hfull]; do 2 eexists; (split; [exact Hr |]).
  - rewrite bitmap_to_paddr_frame by lia.
    assert (∀ q, 0 ≤ q → slot_taken (take_slot pm p) q = (q =? p) || slot_taken pm q)
      as Ht by (intros; by apply take_slot_taken).
    split; [done |]. split.
    + intros q [Hq Hqt]. split; [done |]. rewrite Ht, Hqt, orb_true_r by mlia. done.
    + intros Hne. rewrite (Z.mul_comm 4096), Z.mod_mul, Z.div_mul by lia.
      split; [done |]. split; [lia |]. rewrite Hf. split; [naive_solver |].
      rewrite Ht, Z.eqb_refl by lia. split; [lia | done].
  - split; [done |]. split; [done |]. done.
Qed.
Next Obligation.
  intros pm p b pm' [Hwf Hs] Ha. unfold pmm_alloc_specific_page, read_word in Ha.
  pose proof (u8_range (p / 0x1000 mod 64)) as Hx. fold (x (paddr_to_bitmap p)) in Hx.
  set (c := paddr_to_bitmap p) in *. apply bind_Ok in Ha as (w & Hw%of_option_Ok & Ha).
  destruct (negb _); injection Ha as <- <-; [by split |]. change shl1 with x86_shl1.
  assert (word_ok w) as Hok by (by eapply Forall_lookup_1; [apply Hwf |]).
  split; [split; [| done] |].
  - split; simpl; [| rewrite length_insert; apply Hwf].
    apply Forall_insert; [apply Hwf |]. apply lor_shl1_ok; [done | lia].
  - intros q [Hq Hqt]. split; [done |]. unfold slot_taken in *. simpl.
    destruct (decide (Z.to_nat (y c) = Z.to_nat (q / 0x1000 / 32))) as [Heq|Hne].
    + rewrite <- Heq, list_lookup_insert_eq by (by eapply lookup_lt_Some).
      rewrite <- Heq, Hw in Hqt. by rewrite Z.lor_spec, Hqt.
    + by rewrite list_lookup_insert_ne.
Qed.
