(* ===== verification/Mem.v ===== *)
(** * Byte memory

    The kernel's view of memory: a finite map from virtual addresses to
    bytes.  An address outside the map is not mapped, and touching it is a
    page fault, which stops the kernel (isr.c, [interrupt_handler]).
    Multi-byte accesses are little endian. *)

From S2P Require Import Prelude.

Abbreviation mem := (gmap Z Z).

Definition load8 (m : mem) (a : Z) : outcome Z :=
  of_option (PageFault a) (m !! a).

Definition store8 (m : mem) (a v : Z) : outcome mem :=
  match m !! a with
  | Some _ => Ok (<[a := u8 v]> m)
  | None => Fault (PageFault a)
  end.

Definition load32 (m : mem) (a : Z) : outcome Z :=
  b0 ← load8 m a;
  b1 ← load8 m (a + 1);
  b2 ← load8 m (a + 2);
  b3 ← load8 m (a + 3);
  Ok (b0 + 2 ^ 8 * b1 + 2 ^ 16 * b2 + 2 ^ 24 * b3).

Definition load64 (m : mem) (a : Z) : outcome Z :=
  lo ← load32 m a; hi ← load32 m (a + 4); Ok (lo + 2 ^ 32 * hi).

Definition store32 (m : mem) (a v : Z) : outcome mem :=
  m1 ← store8 m a v;
  m2 ← store8 m1 (a + 1) (v / 2 ^ 8);
  m3 ← store8 m2 (a + 2) (v / 2 ^ 16);
  store8 m3 (a + 3) (v / 2 ^ 24).

(** An access ends with a value or a fault. *)
Lemma load8_total m a : load8 m a ≠ NoFuel.
Proof. unfold load8. by destruct (m !! a). Qed.

Lemma store8_total m a v : store8 m a v ≠ NoFuel.
Proof. unfold store8. by destruct (m !! a). Qed.

#[export] Hint Resolve load8_total store8_total : titan.

Lemma load32_total m a : load32 m a ≠ NoFuel.
Proof. unfold load32. total. Qed.

Lemma store32_total m a v : store32 m a v ≠ NoFuel.
Proof. unfold store32. total. Qed.

#[export] Hint Resolve load32_total store32_total : titan.

(** The [n] bytes from [a] are mapped. *)
Definition mapped (m : mem) (a n : Z) : Prop :=
  ∀ i, a ≤ i < a + n → is_Some (m !! i).

(** Two memories agree outside the [n] bytes from [a]. *)
Definition agree_outside (a n : Z) (m m' : mem) : Prop :=
  ∀ i, ¬ (a ≤ i < a + n) → m' !! i = m !! i.

(** Every cell holds a byte. *)
Definition bytes_ok (m : mem) : Prop := map_Forall (λ _ b, 0 ≤ b < 256) m.

(** ** Lemmas *)

Lemma load8_Ok m a b : load8 m a = Ok b ↔ m !! a = Some b.
Proof. apply of_option_Ok. Qed.

Lemma store8_Ok m a v : is_Some (m !! a) → store8 m a v = Ok (<[a := u8 v]> m).
Proof. intros [b Hb]. unfold store8. by rewrite Hb. Qed.

Lemma store8_fault m a v : m !! a = None → store8 m a v = Fault (PageFault a).
Proof. intros Hb. unfold store8. by rewrite Hb. Qed.

Lemma load8_fault m a : m !! a = None → load8 m a = Fault (PageFault a).
Proof. intros Hb. unfold load8. by rewrite Hb. Qed.

Lemma insert_is_Some (m : mem) i v j : is_Some (m !! j) → is_Some (<[i := v]> m !! j).
Proof. rewrite lookup_insert_is_Some'. by right. Qed.

Lemma mapped_insert m a n i v : mapped m a n → mapped (<[i := v]> m) a n.
Proof. intros Hm j Hj. by apply insert_is_Some, Hm. Qed.

Lemma mapped_sub m a n b k : mapped m a n → a ≤ b → b + k ≤ a + n → mapped m b k.
Proof. intros Hm ? ? i Hi. apply Hm. lia. Qed.

Lemma mapped_at m a n i : mapped m a n → a ≤ i < a + n → is_Some (m !! i).
Proof. intros Hm. apply Hm. Qed.

(** The result of a 32-bit store on mapped memory. *)
Definition put32 (m : mem) (a v : Z) : mem :=
  <[a + 3 := u8 (v / 2 ^ 24)]>
    (<[a + 2 := u8 (v / 2 ^ 16)]>
       (<[a + 1 := u8 (v / 2 ^ 8)]> (<[a := u8 v]> m))).

Lemma store32_Ok m a v : mapped m a 4 → store32 m a v = Ok (put32 m a v).
Proof.
  intros Hm. unfold store32.
  rewrite (store8_Ok m) by (apply Hm; lia). out_simpl.
  do 3 (rewrite store8_Ok by (repeat apply insert_is_Some; apply Hm; lia)).
  done.
Qed.

Lemma put32_other m a v i : ¬ (a ≤ i < a + 4) → put32 m a v !! i = m !! i.
Proof. intros. unfold put32. by rewrite !lookup_insert_ne by lia. Qed.

Lemma load32_put32 m a v : load32 (put32 m a v) a = Ok (u32 v).
Proof.
  unfold load32, load8, put32.
  repeat (rewrite lookup_insert_eq || rewrite lookup_insert_ne by lia).
  out_simpl. f_equal. unfold u8, u32. mlia.
Qed.

Lemma load32_mapped m a : mapped m a 4 → ∃ v, load32 m a = Ok v.
Proof.
  intros Hm. unfold load32, load8.
  destruct (Hm a) as [? E0]; [lia |]. destruct (Hm (a + 1)) as [? E1]; [lia |].
  destruct (Hm (a + 2)) as [? E2]; [lia |]. destruct (Hm (a + 3)) as [? E3]; [lia |].
  rewrite E0, E1, E2, E3. by eexists.
Qed.

Lemma load32_agree m m' a :
  (∀ i, a ≤ i < a + 4 → m' !! i = m !! i) → load32 m' a = load32 m a.
Proof. intros Hm. unfold load32, load8. by rewrite !Hm by lia. Qed.

Lemma mapped_put32 m a v b n : mapped m b n → mapped (put32 m a v) b n.
Proof. intros. unfold put32. by repeat apply mapped_insert. Qed.

Lemma insert_bytes_ok m a v : bytes_ok m → bytes_ok (<[a := u8 v]> m).
Proof. intros. apply map_Forall_insert_2; [apply u8_range | done]. Qed.

Lemma put32_bytes_ok m a v : bytes_ok m → bytes_ok (put32 m a v).
Proof. intros. unfold put32. by repeat apply insert_bytes_ok. Qed.

Lemma bytes_ok_union m1 m2 : bytes_ok m1 → bytes_ok m2 → bytes_ok (m1 ∪ m2).
Proof. intros H1 H2 i b [Hi|[_ Hi]]%lookup_union_Some_raw; [by apply (H1 i) | by apply (H2 i)]. Qed.

Lemma load32_range m a v : bytes_ok m → load32 m a = Ok v → 0 ≤ v < 2 ^ 32.
Proof.
  intros Hm. unfold load32. rewrite bind_Ok. intros (b0 & H0 & Hl).
  rewrite bind_Ok in Hl. destruct Hl as (b1 & H1 & Hl).
  rewrite bind_Ok in Hl. destruct Hl as (b2 & H2 & Hl).
  rewrite bind_Ok in Hl. destruct Hl as (b3 & H3 & Hl).
  rewrite load8_Ok in H0, H1, H2, H3.
  apply Hm in H0, H1, H2, H3. injection Hl as <-. lia.
Qed.

#[export] Hint Resolve mapped_insert mapped_put32 insert_bytes_ok put32_bytes_ok : titan.
