(* ===== verification/LibTitan.v ===== *)
(** * The kernel's support library (libtitan.h, mem.c, str.c)

    Alignment macros, [pow], and the memory and string routines, over byte
    memory. *)

From Stdlib Require Zpow_facts.
From S2P Require Import Prelude Mem.

Definition PAGE_SIZE : Z := 0x1000.

(** [ALIGN_UP] on [uintptr_t] operands. *)
Definition ALIGN_UP (x a : Z) : Z := Z.land (u64 (x + (a - 1))) (u64 (Z.lnot (a - 1))).

(** [PAGE_ALIGN] on [size_t]. *)
Definition PAGE_ALIGN (n : Z) : Z := u64 (u64 (n + 0xfff) / 0x1000 * 0x1000).

(** [PAGE_ALIGN] on [int]: the division truncates towards zero. *)
Definition PAGE_ALIGN_int (n : Z) : Z := i32 (Z.quot (i32 (n + 0xfff)) 0x1000 * 0x1000).

(** [PAGE_ALIGN] on [uint32_t]. *)
Definition PAGE_ALIGN_u32 (n : Z) : Z := u32 (u32 (n + 0xfff) / 0x1000 * 0x1000).

Definition PAGE_ALIGN_DOWN (n : Z) : Z := Z.land n 0xfffffffffffff000.

Definition CALC_VIRT_ADDRESS (p v : Z) : Z := u64 (PAGE_ALIGN_DOWN v + Z.land p 0xfff).

(** The loop of [pow]: [for(int i = 1; i < y; i++) x *= x]. *)
Fixpoint pow_loop (n : nat) (x : Z) : Z :=
  match n with
  | O => x
  | S n' => pow_loop n' (i32 (x * x))
  end.

Definition pow (x y : Z) : Z := if y =? 0 then 1 else pow_loop (Z.to_nat (y - 1)) x.

(** The linker's [KERNEL_OFFSET], [KERNEL_PHYS] and [kernel_byte_size]. *)
Definition phys_to_virt (KERNEL_OFFSET ptr : Z) : Z := u64 (ptr + KERNEL_OFFSET).
Definition get_kernel_phys_end (KERNEL_PHYS kernel_byte_size : Z) : Z :=
  u64 (KERNEL_PHYS + kernel_byte_size).

(** ** mem.c *)

(** [rep movsb] with the direction flag clear: byte by byte, upwards. *)
Fixpoint movsb (n : nat) (m : mem) (di si : Z) : outcome mem :=
  match n with
  | O => Ok m
  | S n' =>
      b ← load8 m si;
      m' ← store8 m di b;
      movsb n' m' (di + 1) (si + 1)
  end.

Definition memcpy (m : mem) (dest src n : Z) : outcome (Z * mem) :=
  m' ← movsb (Z.to_nat n) m dest src; Ok (dest, m').

(** [for(int i = 0; i < n; i++) current_s[i] = c]. *)
Fixpoint memset_loop (n : nat) (m : mem) (s c : Z) : outcome mem :=
  match n with
  | O => Ok m
  | S n' => m' ← store8 m s c; memset_loop n' m' (s + 1) c
  end.

Definition memset (m : mem) (s c n : Z) : outcome (Z * mem) :=
  m' ← memset_loop (Z.to_nat n) m s c; Ok (s, m').

Fixpoint memcmp_loop (n : nat) (m : mem) (s1 s2 : Z) : outcome Z :=
  match n with
  | O => Ok 1
  | S n' =>
      b1 ← load8 m s1;
      b2 ← load8 m s2;
      if negb (b1 =? b2) then Ok 0 else memcmp_loop n' m (s1 + 1) (s2 + 1)
  end.

Definition memcmp (m : mem) (s1 s2 n : Z) : outcome Z :=
  memcmp_loop (Z.to_nat n) m s1 s2.

(** ** str.c *)

Fixpoint strnlen_loop (fuel : nat) (m : mem) (s i maxlen : Z) : outcome Z :=
  match fuel with
  | O => Ok maxlen
  | S fuel' =>
      b ← load8 m (s + i);
      if b =? 0 then Ok i else strnlen_loop fuel' m s (i + 1) maxlen
  end.

Definition strnlen (m : mem) (s maxlen : Z) : outcome Z :=
  strnlen_loop (Z.to_nat maxlen) m s 0 maxlen.

Definition strncpy (m : mem) (dst src dsize : Z) : outcome (Z * mem) :=
  src_len ← strnlen m src dsize;
  '(_, m1) ← memcpy m dst src src_len;
  '(_, m2) ← memset m1 (dst + src_len) 0 (dsize - src_len);
  Ok (dst, m2).

(** The loop of [strncmp] from [i]; [char] is signed. *)
Fixpoint strncmp_loop (fuel : nat) (m : mem) (s1 s2 i : Z) : outcome Z :=
  match fuel with
  | O =>
      b1 ← load8 m (s1 + i);
      b2 ← load8 m (s2 + i);
      Ok (i8 b1 - i8 b2)
  | S fuel' =>
      b1 ← load8 m (s1 + i);
      if b1 =? 0 then Ok 0 else
      b2 ← load8 m (s2 + i);
      if b2 =? 0 then Ok 0
      else if negb (b1 =? b2) then Ok (i8 b1 - i8 b2)
      else strncmp_loop fuel' m s1 s2 (i + 1)
  end.

Definition strncmp (m : mem) (s1 s2 n : Z) : outcome Z :=
  strncmp_loop (Z.to_nat (n - 1)) m s1 s2 1.

(** ** Byte strings in memory *)

Definition bytes_at (m : mem) (a : Z) (l : list Z) : Prop :=
  ∀ i b, l !! i = Some b → m !! (a + Z.of_nat i) = Some b.

Lemma bytes_at_cons m a b l : bytes_at m a (b :: l) ↔ m !! a = Some b ∧ bytes_at m (a + 1) l.
Proof.
  split.
  - intros H. split; [rewrite <- (Z.add_0_r a); by apply (H 0%nat) |].
    intros i c Hi. rewrite <- (H (S i) c Hi). f_equal. lia.
  - intros [H0 H] [|i] c Hi; simpl in Hi.
    + rewrite Z.add_0_r. congruence.
    + rewrite <- (H i c Hi). f_equal. lia.
Qed.

Lemma bytes_at_app m a l1 l2 :
  bytes_at m a (l1 ++ l2) ↔ bytes_at m a l1 ∧ bytes_at m (a + Z.of_nat (length l1)) l2.
Proof.
  revert a. induction l1 as [|b l1 IH]; intros a; simpl.
  - rewrite Z.add_0_r. split; [intros; split; [by intros [] | done] | by intros [_ ?]].
  - rewrite !bytes_at_cons, IH.
    replace (a + 1 + Z.of_nat (length l1)) with (a + Z.of_nat (S (length l1))) by lia. tauto.
Qed.

Lemma bytes_at_agree m m' a l :
  (∀ i, a ≤ i < a + Z.of_nat (length l) → m' !! i = m !! i) →
  bytes_at m a l → bytes_at m' a l.
Proof.
  intros Ha H i b Hi. rewrite Ha; [by apply H |]. apply lookup_lt_Some in Hi. lia.
Qed.

Lemma bytes_at_range m a l : bytes_ok m → bytes_at m a l → Forall (λ b, 0 ≤ b < 256) l.
Proof. intros Hm H. apply Forall_lookup. intros i b Hi. eapply Hm, H, Hi. Qed.

Lemma bytes_at_mapped m a l : bytes_at m a l → mapped m a (Z.of_nat (length l)).
Proof.
  intros H i Hi. destruct (lookup_lt_is_Some_2 l (Z.to_nat (i - a))) as [b Hb]; [lia |].
  apply H in Hb. rewrite Z2Nat.id in Hb by lia. exists b. rewrite <- Hb. f_equal. lia.
Qed.

(** ** Alignment *)

(** The least multiple of the page size that is not below [n]. *)
Lemma page_align_least n :
  0 ≤ n ≤ 2 ^ 64 - 0x1000 →
  n ≤ PAGE_ALIGN n < n + 0x1000 ∧ PAGE_ALIGN n mod 0x1000 = 0.
Proof.
  intros Hn. unfold PAGE_ALIGN. rewrite (u64_small (n + 4095)) by lia.
  assert (n ≤ (n + 4095) / 4096 * 4096 < n + 4096) by mlia.
  rewrite u64_small by lia. split; [lia | apply Z.mod_mul; lia].
Qed.

Lemma page_align_down_spec n :
  0 ≤ n < 2 ^ 64 → PAGE_ALIGN_DOWN n = n - n mod 0x1000.
Proof.
  intros Hn. unfold PAGE_ALIGN_DOWN.
  assert (Z.land n 0xfffffffffffff000 = Z.ldiff n (Z.ones 12)) as ->.
  { apply Z.bits_inj'. intros k Hk. rewrite Z.land_spec, Z.ldiff_spec.
    change 0xfffffffffffff000 with (Z.shiftl (Z.ones 52) 12). rewrite Z.shiftl_spec by lia.
    destruct (decide (k < 12)).
    - rewrite (Z.testbit_neg_r _ (k - 12)), (Z.ones_spec_low 12) by lia.
      by rewrite !andb_false_r.
    - rewrite (Z.ones_spec_high 12) by lia. destruct (decide (k < 64)).
      + by rewrite (Z.ones_spec_low 52) by lia.
      + by rewrite (testbit_high n 64) by lia. }
  rewrite Z.ldiff_ones_r, Z.shiftr_div_pow2, Z.shiftl_mul_pow2 by lia. mlia.
Qed.

(** ** [pow] *)

Lemma i32_mod z : i32 z mod 2 ^ 32 = z mod 2 ^ 32.
Proof. unfold i32, sext. mlia. Qed.

Lemma i32_ext a b : a mod 2 ^ 32 = b mod 2 ^ 32 → i32 a = i32 b.
Proof.
  intros H. unfold i32, sext. f_equal.
  by rewrite (Z.add_mod a), (Z.add_mod b), H by lia.
Qed.

Lemma pow_loop_spec n x : i32 x = x → pow_loop n x = i32 (x ^ (2 ^ Z.of_nat n)).
Proof.
  revert x. induction n as [|n IH]; intros x Hx.
  - simpl pow_loop. by rewrite Z.pow_1_r.
  - simpl pow_loop. rewrite IH by (apply i32_ext, i32_mod). apply i32_ext.
    rewrite Zpow_facts.Zpower_mod, i32_mod, <- Zpow_facts.Zpower_mod by lia.
    f_equal. rewrite Nat2Z.inj_succ, Z.pow_succ_r by lia.
    rewrite <- Z.pow_2_r, <- Z.pow_mul_r by lia. done.
Qed.

(** pow squares its argument y - 1 times instead of multiplying y times. *)
Theorem pow_squares x y :
  - 2 ^ 31 ≤ x < 2 ^ 31 → 1 ≤ y → pow x y = i32 (x ^ (2 ^ (y - 1))).
Proof.
  intros Hx Hy. unfold pow. zdec. rewrite pow_loop_spec by (by apply i32_small).
  by rewrite Z2Nat.id by lia.
Qed.

Lemma pow_squares_witness : pow 2 3 = 16.
Proof. rewrite (pow_squares 2 3) by lia. reflexivity. Defined.

Lemma page_align_int_least n :
  0 ≤ n < 2 ^ 31 - 0x1000 →
  n ≤ PAGE_ALIGN_int n < n + 0x1000 ∧ PAGE_ALIGN_int n mod 0x1000 = 0.
Proof.
  intros Hn. unfold PAGE_ALIGN_int. rewrite (i32_small (n + 4095)) by lia.
  rewrite Z.quot_div_nonneg by lia. rewrite i32_small by mlia. mlia.
Qed.

(** PAGE_ALIGN is the least multiple of the page size above its
    argument, PAGE_ALIGN_DOWN the greatest below, and both are idempotent. *)
Theorem page_align_spec n :
  0 ≤ n ≤ 2 ^ 64 - 0x1000 →
  (∀ k, n ≤ 0x1000 * k ↔ PAGE_ALIGN n ≤ 0x1000 * k) ∧
  PAGE_ALIGN n mod 0x1000 = 0 ∧ PAGE_ALIGN_DOWN n = n - n mod 0x1000 ∧
  PAGE_ALIGN (PAGE_ALIGN_DOWN n) = PAGE_ALIGN_DOWN n.
Proof.
  intros Hn. pose proof (page_align_least n Hn) as [Hl Hm].
  assert (PAGE_ALIGN_DOWN n = n - n mod 0x1000) as Hd by (apply page_align_down_spec; lia).
  split_and!; [| done | done |].
  - intros k. split; [| lia]. intros Hk. mlia.
  - rewrite Hd. pose proof (page_align_least (n - n mod 0x1000)) as Hl2.
    assert (0 ≤ n - n mod 0x1000 ≤ n) by mlia. destruct Hl2; [lia |].
    assert ((n - n mod 0x1000) mod 0x1000 = 0) by mlia. mlia.
Qed.

Lemma page_align_spec_witness : PAGE_ALIGN 0x1001 mod 0x1000 = 0.
Proof. apply (page_align_spec 0x1001). lia. Defined.

(** ** Copying and filling *)

Lemma movsb_spec l m di si :
  bytes_ok m → bytes_at m si l → mapped m di (Z.of_nat (length l)) →
  di ≤ si ∨ si + Z.of_nat (length l) ≤ di →
  ∃ m', movsb (length l) m di si = Ok m' ∧ bytes_at m' di l ∧
    agree_outside di (Z.of_nat (length l)) m m' ∧ bytes_ok m' ∧
    (∀ a n, mapped m a n → mapped m' a n).
Proof.
  revert m di si. induction l as [|b l IH]; intros m di si Hok Hl Hm Hd; simpl.
  { exists m. split_and!; try done. }
  apply bytes_at_cons in Hl as [Hb Hl]. simpl length in *.
  rewrite (proj2 (load8_Ok _ _ _) Hb). out_step.
  rewrite store8_Ok by (apply Hm; lia). out_step.
  rewrite u8_small by (by eapply Hok).
  destruct (IH (<[di:=b]> m) (di + 1) (si + 1)) as (m' & -> & Hl' & Ha & Hok' & Hm').
  - rewrite <- (u8_small b) by (by eapply Hok). auto with titan.
  - destruct (decide (si ≤ di)).
    + destruct Hd as [Hd|Hd]; [| apply (bytes_at_agree m); [| done]; intros; rewrite lookup_insert_ne by lia; done].
      assert (di = si) as -> by lia. rewrite insert_id by done. done.
    + apply (bytes_at_agree m); [| done]. intros. by rewrite lookup_insert_ne by lia.
  - apply mapped_insert. apply (mapped_sub _ _ _ _ _ Hm); lia.
  - lia.
  - exists m'. split_and!; try done.
    + apply bytes_at_cons. split; [| done]. rewrite Ha by lia. apply lookup_insert_eq.
    + intros i Hi. rewrite Ha, lookup_insert_ne by lia. done.
    + intros a n Hmn. by apply Hm', mapped_insert.
Qed.

Lemma memset_loop_spec n m s c :
  bytes_ok m → mapped m s (Z.of_nat n) →
  ∃ m', memset_loop n m s c = Ok m' ∧ bytes_at m' s (replicate n (u8 c)) ∧
    agree_outside s (Z.of_nat n) m m' ∧ bytes_ok m' ∧
    (∀ a k, mapped m a k → mapped m' a k).
Proof.
  revert m s. induction n as [|n IH]; intros m s Hok Hm; simpl.
  { exists m. split_and!; try done. }
  rewrite store8_Ok by (apply Hm; lia). out_step.
  destruct (IH (<[s:=u8 c]> m) (s + 1)) as (m' & -> & Hl' & Ha & Hok' & Hm').
  - auto with titan.
  - apply mapped_insert. apply (mapped_sub _ _ _ _ _ Hm); lia.
  - exists m'. split_and!; try done.
    + apply bytes_at_cons. split; [| done]. rewrite Ha by lia. apply lookup_insert_eq.
    + intros i Hi. rewrite Ha, lookup_insert_ne by lia. done.
    + intros a k Hmk. by apply Hm', mapped_insert.
Qed.

(** memcpy copies the bytes of the source to the destination and touches
    nothing else, for regions that do not overlap forwards. *)
Theorem memcpy_copies m dest src l :
  bytes_ok m → bytes_at m src l → mapped m dest (Z.of_nat (length l)) →
  dest ≤ src ∨ src + Z.of_nat (length l) ≤ dest →
  ∃ m', memcpy m dest src (Z.of_nat (length l)) = Ok (dest, m') ∧ bytes_at m' dest l ∧
    agree_outside dest (Z.of_nat (length l)) m m'.
Proof.
  intros Hok Hl Hm Hd. unfold memcpy. rewrite Nat2Z.id.
  destruct (movsb_spec l m dest src Hok Hl Hm Hd) as (m' & -> & Hl' & Ha & _).
  by exists m'.
Qed.

Definition demo_mem : mem :=
  list_to_map (zip (seqZ 100 8) [47; 97; 98; 0; 1; 2; 3; 4]).

Lemma demo_mem_ok : bytes_ok demo_mem.
Proof. by apply (bool_decide_unpack (map_Forall (λ _ b, 0 ≤ b < 256) demo_mem)); vm_compute. Qed.

Lemma demo_mem_str : bytes_at demo_mem 100 [47; 97; 98; 0; 1; 2; 3; 4].
Proof. intros i b Hi. do 8 (destruct i as [|i]; [simpl in *; by simplify_eq |]). done. Qed.

Lemma memcpy_copies_witness :
  ∃ m', memcpy demo_mem 100 102 6 = Ok (100, m') ∧ bytes_at m' 100 [98; 0; 1; 2; 3; 4].
Proof.
  destruct (memcpy_copies demo_mem 100 102 [98; 0; 1; 2; 3; 4] demo_mem_ok) as (m' & Hm & Hb & _).
  - by apply (proj1 (bytes_at_app demo_mem 100 [47; 97] _)), demo_mem_str.
  - apply (mapped_sub _ 100 8); [apply (bytes_at_mapped _ _ _ demo_mem_str) | |]; simpl; lia.
  - lia.
  - exists m'. split; [exact Hm | exact Hb].
Defined.

(** ** Comparing and measuring *)

Lemma memcmp_loop_spec l1 l2 m s1 s2 :
  length l1 = length l2 → bytes_at m s1 l1 → bytes_at m s2 l2 →
  memcmp_loop (length l1) m s1 s2 = Ok (if decide (l1 = l2) then 1 else 0).
Proof.
  revert l2 s1 s2. induction l1 as [|b1 l1 IH]; intros [|b2 l2] s1 s2 Hlen H1 H2; try done.
  apply bytes_at_cons in H1 as [Hb1 H1], H2 as [Hb2 H2]. simpl.
  rewrite (proj2 (load8_Ok _ _ _) Hb1). out_step. rewrite (proj2 (load8_Ok _ _ _) Hb2). out_step.
  destruct (b1 =? b2) eqn:E; zbool; simpl.
  - subst. rewrite (IH l2) by (done || by injection Hlen).
    destruct (decide (l1 = l2)); case_decide; congruence.
  - case_decide; [congruence | done].
Qed.

Lemma strnlen_loop_spec l m s i maxlen fuel :
  bytes_at m (s + i) (l ++ [0]) → Forall (λ b, b ≠ 0) l → (length l < fuel)%nat →
  strnlen_loop fuel m s i maxlen = Ok (i + Z.of_nat (length l)).
Proof.
  revert i fuel. induction l as [|b l IH]; intros i [|fuel] Hl Hn Hf; simpl in Hf; try lia.
  - apply bytes_at_cons in Hl as [Hb _]. simpl. rewrite (proj2 (load8_Ok _ _ _) Hb).
    out_step. f_equal. lia.
  - apply bytes_at_cons in Hl as [Hb Hl]. apply Forall_cons in Hn as [Hb0 Hn]. simpl.
    rewrite (proj2 (load8_Ok _ _ _) Hb). out_step. rewrite (proj2 (Z.eqb_neq b 0)) by done.
    rewrite IH; [f_equal; lia | | done | lia].
    by replace (s + (i + 1)) with (s + i + 1) by lia.
Qed.

Lemma strnlen_loop_full l m s i maxlen :
  bytes_at m (s + i) l → Forall (λ b, b ≠ 0) l →
  strnlen_loop (length l) m s i maxlen = Ok maxlen.
Proof.
  revert i. induction l as [|b l IH]; intros i Hl Hn; [done |].
  apply bytes_at_cons in Hl as [Hb Hl]. apply Forall_cons in Hn as [Hb0 Hn]. simpl.
  rewrite (proj2 (load8_Ok _ _ _) Hb). out_step. rewrite (proj2 (Z.eqb_neq b 0)) by done.
  apply IH; [| done]. by replace (s + (i + 1)) with (s + i + 1) by lia.
Qed.

Lemma strncpy_spec m dst src str dsize :
  bytes_ok m → bytes_at m src (str ++ [0]) → Forall (λ b, b ≠ 0) str →
  Z.of_nat (length str) < dsize → mapped m dst dsize →
  dst + dsize ≤ src ∨ src + Z.of_nat (length str) < dst →
  ∃ m', strncpy m dst src dsize = Ok (dst, m') ∧
    bytes_at m' dst (str ++ replicate (Z.to_nat dsize - length str) 0) ∧
    agree_outside dst dsize m m'.
Proof.
  intros Hok Hs Hn Hlen Hm Hd. unfold strncpy, strnlen.
  rewrite (strnlen_loop_spec str) by (rewrite ?Z.add_0_r; done || lia). out_red.
  pose proof (proj1 (proj1 (bytes_at_app _ _ _ _) Hs)) as Hs1.
  unfold memcpy, memset. rewrite Z.add_0_l, Nat2Z.id.
  destruct (movsb_spec str m dst src Hok Hs1) as (m1 & -> & Hl1 & Ha1 & Hok1 & Hm1);
    [apply (mapped_sub _ _ _ _ _ Hm); lia | lia |]. out_red.
  destruct (memset_loop_spec (Z.to_nat (dsize - Z.of_nat (length str))) m1
    (dst + Z.of_nat (length str)) 0 Hok1) as (m2 & -> & Hl2 & Ha2 & _).
  { apply (mapped_sub _ dst dsize); [by apply Hm1 | lia | lia]. }
  exists m2. split; [done |]. split.
  - apply bytes_at_app. split.
    + apply (bytes_at_agree m1); [| done]. intros i Hi. apply Ha2. lia.
    + by replace (Z.to_nat dsize - length str)%nat with (Z.to_nat (dsize - Z.of_nat (length str))) by lia.
  - intros i Hi. rewrite Ha2, Ha1 by lia. done.
Qed.

(** strncpy writes the string up to its end or the limit and fills the
    rest of the destination with zeros. *)
Theorem strncpy_pads m dst src str dsize :
  bytes_ok m → bytes_at m src (str ++ [0]) → Forall (λ b, b ≠ 0) str →
  Z.of_nat (length str) < dsize → mapped m dst dsize →
  dst + dsize ≤ src ∨ src + Z.of_nat (length str) < dst →
  ∃ m', strncpy m dst src dsize = Ok (dst, m') ∧
    bytes_at m' dst (str ++ replicate (Z.to_nat dsize - length str) 0) ∧
    agree_outside dst dsize m m'.
Proof. apply strncpy_spec. Qed.

(** The bytes the comparison sees: from the second character on. *)
Lemma strncmp_loop_zero t1 t2 m s1 s2 i fuel :
  bytes_ok m → bytes_at m (s1 + i) (t1 ++ [0]) → bytes_at m (s2 + i) (t2 ++ [0]) →
  Forall (λ b, b ≠ 0) t1 → Forall (λ b, b ≠ 0) t2 →
  (length t1 < fuel)%nat →
  ∃ r, strncmp_loop fuel m s1 s2 i = Ok r ∧ (r = 0 ↔ t1 `prefix_of` t2 ∨ t2 `prefix_of` t1).
Proof.
  revert t2 i fuel. induction t1 as [|b1 t1 IH]; intros t2 i [|fuel] Hok H1 H2 Hn1 Hn2 Hf;
    simpl in Hf; try lia; apply bytes_at_cons in H1 as [Hb1 H1]; simpl;
    rewrite (proj2 (load8_Ok _ _ _) Hb1); out_step.
  { exists 0. split; [done |]. split; [intros _; left; apply prefix_nil | done]. }
  apply Forall_cons in Hn1 as [Hz1 Hn1]. rewrite (proj2 (Z.eqb_neq b1 0)) by done.
  destruct t2 as [|b2 t2]; apply bytes_at_cons in H2 as [Hb2 H2];
    rewrite (proj2 (load8_Ok _ _ _) Hb2); out_step.
  { exists 0. split; [done |]. split; [intros _; right; apply prefix_nil | done]. }
  apply Forall_cons in Hn2 as [Hz2 Hn2]. rewrite (proj2 (Z.eqb_neq b2 0)) by done.
  destruct (b1 =? b2) eqn:E; zbool; simpl.
  - subst b2. destruct (IH t2 (i + 1) fuel) as (r & Hr & Hz); try done; try lia.
    1,2: by rewrite Z.add_assoc.
    exists r. split; [done |]. rewrite Hz. split; intros [Hp|Hp].
    1,2: [> left | right]; by apply prefix_cons.
    1,2: [> left | right]; by apply prefix_cons_inv_2 in Hp.
  - exists (i8 b1 - i8 b2). split; [done |]. apply Hok in Hb1, Hb2. split.
    + intros H. exfalso. unfold i8, sext in H. apply E. mlia.
    + intros [Hp|Hp]; apply prefix_cons_inv_1 in Hp; congruence.
Qed.

(** strncmp is zero on two strings exactly when, from the second
    character on, they agree up to the limit or to the end of the shorter one. *)
Theorem strncmp_zero_iff m s1 s2 c1 c2 t1 t2 n :
  bytes_ok m → bytes_at m s1 (c1 :: t1 ++ [0]) → bytes_at m s2 (c2 :: t2 ++ [0]) →
  Forall (λ b, b ≠ 0) t1 → Forall (λ b, b ≠ 0) t2 → Z.of_nat (length t1) + 1 < n →
  ∃ r, strncmp m s1 s2 n = Ok r ∧ (r = 0 ↔ t1 `prefix_of` t2 ∨ t2 `prefix_of` t1).
Proof.
  intros Hok H1 H2 Hn1 Hn2 Hn. apply bytes_at_cons in H1 as [_ H1], H2 as [_ H2].
  by apply strncmp_loop_zero; try done; lia.
Qed.

Definition str_mem : mem :=
  list_to_map (zip (seqZ 100 14) [47; 0; 47; 97; 98; 0; 0; 0; 0; 0; 0; 0; 0; 0]).

Lemma str_mem_ok : bytes_ok str_mem.
Proof. by apply (bool_decide_unpack (map_Forall (λ _ b, 0 ≤ b < 256) str_mem)); vm_compute. Qed.

Lemma str_mem_root : bytes_at str_mem 100 [47; 0].
Proof. intros i b Hi. do 2 (destruct i as [|i]; [simpl in *; by simplify_eq |]). done. Qed.

Lemma str_mem_file : bytes_at str_mem 102 [47; 97; 98; 0].
Proof. intros i b Hi. do 4 (destruct i as [|i]; [simpl in *; by simplify_eq |]). done. Qed.

(** Looking up the mount point ["/"] for the path ["/ab"]. *)
Lemma strncmp_zero_iff_witness : strncmp str_mem 100 102 64 = Ok 0.
Proof.
  destruct (strncmp_zero_iff str_mem 100 102 47 47 [] [97; 98] 64 str_mem_ok
    str_mem_root str_mem_file) as (r & Hr & Hz).
  - constructor.
  - repeat constructor; lia.
  - simpl. lia.
  - rewrite Hr. f_equal. apply Hz. left. apply prefix_nil.
Defined.

Lemma strncpy_pads_witness :
  ∃ m', strncpy str_mem 106 102 5 = Ok (106, m') ∧ bytes_at m' 106 [47; 97; 98; 0; 0].
Proof.
  destruct (strncpy_pads str_mem 106 102 [47; 97; 98] 5 str_mem_ok str_mem_file)
    as (m' & Hm & Hb & _).
  - repeat constructor; lia.
  - simpl. lia.
  - intros i Hi. assert (i = 106 ∨ i = 107 ∨ i = 108 ∨ i = 109 ∨ i = 110) as Hc by lia.
    destruct Hc as [-> | [-> | [-> | [-> | ->]]]]; vm_compute; by eexists.
  - simpl. lia.
  - exists m'. split; [exact Hm | exact Hb].
Defined.
