(* ===== verification/Fields.v ===== *)
(** * Little endian fields

    Numbers as lists of bytes, and the fields of a structure whose bytes are
    known. *)

From S2P Require Import Prelude Mem LibTitan.

(** The [n] bytes of a little endian integer. *)
Fixpoint le_bytes (n : nat) (z : Z) : list Z :=
  match n with
  | O => []
  | S n' => u8 z :: le_bytes n' (z / 2 ^ 8)
  end.

Fixpoint le_value (bs : list Z) : Z :=
  match bs with
  | [] => 0
  | b :: bs' => b + 2 ^ 8 * le_value bs'
  end.

Lemma le_value_bytes n z : le_value (le_bytes n z) = z mod 2 ^ (8 * Z.of_nat n).
Proof.
  revert z. induction n as [|n IH]; intros z; [by rewrite Z.mod_1_r |].
  simpl le_value. rewrite IH. unfold u8.
  replace (8 * Z.of_nat (S n)) with (8 + 8 * Z.of_nat n) by lia.
  rewrite Z.pow_add_r by lia. symmetry. apply Z.rem_mul_r; [done |]. apply Z.pow_pos_nonneg; lia.
Qed.

Lemma le_value_app xs ys :
  le_value (xs ++ ys) = le_value xs + 2 ^ (8 * Z.of_nat (length xs)) * le_value ys.
Proof.
  induction xs as [|b xs IH]; cbn [app length le_value]; [change (8 * Z.of_nat 0) with 0; lia |]. rewrite IH.
  replace (8 * Z.of_nat (S (length xs))) with (8 + 8 * Z.of_nat (length xs)) by lia.
  rewrite Z.pow_add_r by lia. lia.
Qed.

Lemma length_le_bytes n z : length (le_bytes n z) = n.
Proof. revert z. induction n; intros z; simpl; auto. Qed.

(** The little endian number of [n] bytes at [off]. *)
Definition field (d : list Z) (off n : nat) : Z := le_value (take n (drop off d)).

Lemma bytes_at_field m a d off n :
  bytes_at m a d → (off + n ≤ length d)%nat →
  bytes_at m (a + Z.of_nat off) (take n (drop off d)) ∧ length (take n (drop off d)) = n.
Proof.
  intros Hb Hn. split; [| rewrite length_take, length_drop; lia].
  rewrite <- (take_drop off d) in Hb. apply bytes_at_app in Hb as [_ Hb].
  rewrite length_take in Hb. replace (off `min` length d)%nat with off in Hb by lia.
  rewrite <- (take_drop n (drop off d)) in Hb. by apply bytes_at_app in Hb as [Hb _].
Qed.

Lemma bytes_at_take m a l n : bytes_at m a l → bytes_at m a (take n l).
Proof. intros Hb i b [Hi _]%lookup_take_Some. by apply Hb. Qed.

Lemma load8_list m a b l : bytes_at m a (b :: l) → load8 m a = Ok b ∧ bytes_at m (a + 1) l.
Proof. intros [Hb Hl]%bytes_at_cons. split; [by apply load8_Ok | done]. Qed.

Lemma load32_le m a l : bytes_at m a l → length l = 4%nat → load32 m a = Ok (le_value l).
Proof.
  intros Hb Hl. destruct l as [|b0 [|b1 [|b2 [|b3 [|]]]]]; try done. unfold load32.
  apply load8_list in Hb as [-> Hb]. out_red. apply load8_list in Hb as [-> Hb]. out_red.
  replace (a + 1 + 1) with (a + 2) in Hb by lia. apply load8_list in Hb as [-> Hb]. out_red.
  replace (a + 2 + 1) with (a + 3) in Hb by lia. apply load8_list in Hb as [-> _]. out_red.
  f_equal. cbn [le_value]. lia.
Qed.

Lemma load64_le m a l : bytes_at m a l → length l = 8%nat → load64 m a = Ok (le_value l).
Proof.
  intros Hb Hl. rewrite <- (take_drop 4 l) in Hb |- *. apply bytes_at_app in Hb as [H1 H2].
  rewrite length_take, Hl in H2. change (a + Z.of_nat (4 `min` 8)) with (a + 4) in H2. unfold load64.
  rewrite (load32_le _ _ _ H1) by (rewrite length_take; lia). out_red.
  rewrite (load32_le _ _ _ H2) by (rewrite length_drop; lia). out_red.
  rewrite le_value_app, length_take, Hl. by f_equal.
Qed.

(** The same for an offset that is a number. *)
Lemma load32_field m a d off :
  bytes_at m a d → 0 ≤ off → off + 4 ≤ Z.of_nat (length d) → load32 m (a + off) = Ok (field d (Z.to_nat off) 4).
Proof.
  intros Hb H0' Hn. destruct (bytes_at_field m a d (Z.to_nat off) 4 Hb) as [Hf Hl]; [lia |].
  rewrite Z2Nat.id in Hf by done. by apply load32_le.
Qed.

Lemma load64_field m a d off :
  bytes_at m a d → 0 ≤ off → off + 8 ≤ Z.of_nat (length d) → load64 m (a + off) = Ok (field d (Z.to_nat off) 8).
Proof.
  intros Hb H0' Hn. destruct (bytes_at_field m a d (Z.to_nat off) 8 Hb) as [Hf Hl]; [lia |].
  rewrite Z2Nat.id in Hf by done. by apply load64_le.
Qed.
