(* ===== verification/Vga.v ===== *)
(** * The console (vga.c)

    The text buffer as bytes of memory with the cursor, the printing of
    characters, numbers and formats, and the terminal of 25 lines of 80
    characters that they implement.  A C string is given by its characters in
    front of the terminator. *)

From S2P Require Import Prelude Mem LibTitan Pmm.

Definition VGA_COMMAND : Z := 0x3d4.
Definition VGA_DATA : Z := 0x3d5.
Definition VGA_WIDTH : Z := 80.
Definition VGA_HEIGHT : Z := 25.
Definition VGA_LENGTH : Z := 0xb8fa0 - 0xb8000.

(** [cursor], the memory it points into, the bytes sent to ports and the
    static lock of [printf]. *)
Record console := Console {
  vmem : mem;
  vga_out : Z;
  x : Z;
  y : Z;
  ports : list (Z * Z);
  locked : bool;
}.

Definition set_vmem (s : console) (m : mem) : console := Console m (vga_out s) (x s) (y s) (ports s) (locked s).
Definition set_xy (s : console) (a b : Z) : console := Console (vmem s) (vga_out s) a b (ports s) (locked s).
Definition set_locked (s : console) (b : bool) : console :=
  Console (vmem s) (vga_out s) (x s) (y s) (ports s) b.
Definition outb (s : console) (port v : Z) : console :=
  Console (vmem s) (vga_out s) (x s) (y s) (ports s ++ [(port, u8 v)]) (locked s).

Definition move_cursor (s : console) : console :=
  let pos := u32 (y s * VGA_WIDTH + (x s + 1)) in
  let s1 := outb (outb s VGA_COMMAND 0x0f) VGA_DATA (Z.land pos 0xff) in
  outb (outb s1 VGA_COMMAND 0x0e) VGA_DATA (Z.land (Z.shiftr pos 8) 0xff).

Definition scroll_down (s : console) : outcome console :=
  let line_length := VGA_WIDTH * 2 in
  '(_, m1) ← memcpy (vmem s) (vga_out s) (vga_out s + VGA_WIDTH * 2) (VGA_LENGTH - line_length);
  '(_, m2) ← memset m1 (vga_out s + (VGA_LENGTH - line_length)) 0 line_length;
  Ok (set_vmem s m2).

(** A store through [volatile unsigned short*]. *)
Definition store16 (m : mem) (a v : Z) : outcome mem :=
  m1 ← store8 m a v; store8 m1 (a + 1) (v / 2 ^ 8).

(** [c] is the byte of the [char], which is signed. *)
Definition printc (s : console) (c : Z) : outcome console :=
  s1 ← (if i8 c =? 10 then Ok (set_xy s 0 (y s + 1))
        else
          let curr_char := u64 (vga_out s + ((y s * VGA_WIDTH) + x s) * 2) in
          m ← store16 (vmem s) curr_char (u16 (0x0f00 + i8 c));
          let x1 := x s + 1 in
          Ok (set_xy (set_vmem s m) (Z.rem x1 VGA_WIDTH) (y s + Z.quot x1 VGA_WIDTH)));
  if VGA_HEIGHT <=? y s1 then scroll_down (set_xy s1 0 (VGA_HEIGHT - 1)) else Ok s1.

Definition set_cursor_buffer (s : console) (new_buff : Z) : bool * console :=
  (true, Console (vmem s) new_buff (x s) (y s) (ports s) (locked s)).

(** The loop of [printstr]. *)
Fixpoint print_chars (s : console) (str : list Z) : outcome console :=
  match str with
  | [] => Ok s
  | c :: str' => s' ← printc s c; print_chars s' str'
  end.

Definition printstr (s : console) (str : list Z) : outcome console :=
  s' ← print_chars s str; Ok (move_cursor s').

Definition clear_console (s : console) : outcome console := print_chars s (replicate 2000 32).

Definition console_init (s : console) : outcome console :=
  let '(_, s1) := set_cursor_buffer s VGA_TEXT_BUFFER_BASE in
  s2 ← clear_console s1;
  Ok (move_cursor (set_xy s2 0 0)).

(** The loop of [printlong] for [n] digits, from the last one on. *)
Fixpoint hex_digits (n : nat) (num : Z) (num_str : list Z) : list Z :=
  match n with
  | O => num_str
  | S n' =>
      let lsb := Z.land num 0xf in
      hex_digits n' (Z.shiftr num 4) ((if lsb <? 0xa then lsb + 0x30 else lsb + 0x57) :: num_str)
  end.

Definition printlong (s : console) (num : Z) : outcome console :=
  s1 ← printstr s [48; 120];
  printstr s1 (hex_digits 16 num []).

(** The loop of [printint] with [n] places left in front of [num_str]: the
    string [cut_num_str] points to.  It starts behind the digit stored last. *)
Fixpoint int_digits (n : nat) (d : Z) (num_str : list Z) : list Z :=
  match n with
  | O => num_str
  | S n' =>
      let digit := u8 (Z.rem d 10) in
      let d' := Z.quot (i32 (d - digit)) 10 in
      let cut_num_str := num_str in
      if (d' =? 0) || (n' =? 0)%nat then cut_num_str
      else int_digits n' d' (u8 (48 + digit) :: num_str)
  end.

Definition printint (s : console) (d : Z) : outcome console := printstr s (int_digits 14 d []).

(** The arguments behind the format. *)
Inductive arg := AInt (d : Z) | AStr (str : list Z) | ALong (num : Z).

(** The loop of [printf]; [vga_error] is the call of [printf] in
    [VGA_ERROR]. *)
Fixpoint printf_loop (vga_error : console → outcome console) (fuel : nat) (s : console)
    (current_char : list Z) (args : list arg) : outcome console :=
  match fuel with
  | O => NoFuel
  | S fuel' =>
      match current_char with
      | [] => Ok s
      | c :: after =>
          if c =? 37 then
            let specifier := default 0 (head after) in
            if specifier =? 100 then
              match args with
              | AInt d :: args' => s' ← printint s d; printf_loop vga_error fuel' s' (drop 1 after) args'
              | _ => Fault (OutOfBounds "va_arg")
              end
            else if specifier =? 115 then
              match args with
              | AStr str :: args' => s' ← printstr s str; printf_loop vga_error fuel' s' (drop 1 after) args'
              | _ => Fault (OutOfBounds "va_arg")
              end
            else if specifier =? 108 then
              if default 0 (head (drop 1 after)) =? 117 then
                match args with
                | ALong num :: args' => s' ← printlong s num; printf_loop vga_error fuel' s' (drop 2 after) args'
                | _ => Fault (OutOfBounds "va_arg")
                end
              else printf_loop vga_error fuel' s current_char args
            else s' ← vga_error s; printf_loop vga_error fuel' s' (drop 1 after) args
          else s' ← printc s c; printf_loop vga_error fuel' s' after args
      end
  end.

Definition bytes_of (s : string) : list Z := (λ a, Z.of_N (Ascii.N_of_ascii a)) <$> String.list_ascii_of_string s.

(** The characters of [ERROR(subsystem, message)]. *)
Definition error_format : list Z := 10 :: bytes_of "%s error: %s" ++ [10].

(** [printf], nested at most [nesting] times.  [acquire] spins on a lock that
    is held: nothing on this processor can release it. *)
Fixpoint printf (nesting fuel : nat) (s : console) (format : list Z) (args : list arg) : outcome console :=
  match nesting with
  | O => NoFuel
  | S nesting' =>
      if (locked s : bool) then Fault (Spin "acquire") else
      s1 ← printf_loop
             (λ s', printf nesting' fuel s' error_format
                      [AStr (bytes_of "VGA"); AStr (bytes_of "Format Specifier not found")])
             fuel (set_locked s true) format args;
      Ok (set_locked (move_cursor s1) false)
  end.

(** A call of [printf] whose format has no other conversions than d, s and
    lu: a turn per character is enough. *)
Definition printk (s : console) (format : list Z) (args : list arg) : outcome console :=
  printf 2 (S (length format)) s format args.

(** [ERROR(subsystem, message)], which goes on. *)
Definition ERROR (s : console) (subsystem message : string) : outcome console :=
  printk s error_format [AStr (bytes_of subsystem); AStr (bytes_of message)].

(** [LOG(subsystem, message)]. *)
Definition LOG (s : console) (subsystem message : string) : outcome console :=
  printk s (10 :: bytes_of "%s: %s" ++ [10]) [AStr (bytes_of subsystem); AStr (bytes_of message)].

(** ** The terminal *)

(** The 2000 cells of the screen, a character and its attribute each, and the
    position of the next character. *)
Record terminal := Terminal { cells : list Z; col : Z; row : Z }.

(** A full screen moves up by one line. *)
Definition scroll (t : terminal) : terminal :=
  if VGA_HEIGHT <=? row t then Terminal (drop 80 (cells t) ++ replicate 80 0) 0 (VGA_HEIGHT - 1) else t.

Definition put (t : terminal) (c : Z) : terminal :=
  scroll (if i8 c =? 10 then Terminal (cells t) 0 (row t + 1)
          else
            let cs := <[Z.to_nat (row t * VGA_WIDTH + col t) := u16 (0x0f00 + i8 c)]> (cells t) in
            if col t =? VGA_WIDTH - 1 then Terminal cs 0 (row t + 1) else Terminal cs (col t + 1) (row t)).

Definition puts (t : terminal) (str : list Z) : terminal := foldl put t str.

Definition term_ok (t : terminal) : Prop :=
  length (cells t) = 2000%nat ∧ Forall (λ c, 0 ≤ c < 2 ^ 16) (cells t) ∧
  0 ≤ col t < VGA_WIDTH ∧ 0 ≤ row t < VGA_HEIGHT.

Definition char_ok (c : Z) : Prop := 0 < c < 256.

(** The bytes of the cells, low byte first. *)
Definition cell_bytes (cs : list Z) : list Z := flat_map (λ c, [u8 c; u8 (c / 2 ^ 8)]) cs.

(** The console [s] shows the terminal [t]. *)
Record shows (s : console) (t : terminal) : Prop := {
  sh_cells : bytes_at (vmem s) (vga_out s) (cell_bytes (cells t));
  sh_bytes : bytes_ok (vmem s);
  sh_xy : x s = col t ∧ y s = row t;
  sh_ok : term_ok t;
  sh_room : 0 ≤ vga_out s ∧ vga_out s + VGA_LENGTH ≤ 2 ^ 64;
}.

(** [s'] differs from [s] in the screen, the cursor and the ports only. *)
Definition only_screen (s s' : console) : Prop :=
  agree_outside (vga_out s) VGA_LENGTH (vmem s) (vmem s') ∧ vga_out s' = vga_out s ∧ locked s' = locked s.

Lemma only_screen_refl s : only_screen s s.
Proof. by split. Qed.

Lemma only_screen_trans s1 s2 s3 : only_screen s1 s2 → only_screen s2 s3 → only_screen s1 s3.
Proof.
  intros (Ha & Hv & Hl) (Ha' & Hv' & Hl'). split_and!; [| congruence | congruence].
  intros i Hi. rewrite Ha' by (by rewrite Hv). by apply Ha.
Qed.

Lemma only_screen_locked s s' : only_screen s s' → locked s' = locked s.
Proof. by intros (_ & _ & ?). Qed.

Lemma puts_app t a b : puts t (a ++ b) = puts (puts t a) b.
Proof. apply foldl_app. Qed.

Lemma length_cell_bytes cs : length (cell_bytes cs) = (2 * length cs)%nat.
Proof. unfold cell_bytes. induction cs; simpl; lia. Qed.

Lemma cell_bytes_app cs1 cs2 : cell_bytes (cs1 ++ cs2) = cell_bytes cs1 ++ cell_bytes cs2.
Proof. apply flat_map_app. Qed.

Lemma cell_bytes_zero n : cell_bytes (replicate n 0) = replicate (2 * n) 0.
Proof.
  unfold cell_bytes. induction n as [|n IH]; [done |].
  replace (2 * S n)%nat with (S (S (2 * n))) by lia. simpl in *. by rewrite IH.
Qed.

(** A cell is replaced by a 16-bit store. *)
Lemma store16_cell m a cs k v :
  bytes_at m a (cell_bytes cs) → bytes_ok m → (k < length cs)%nat →
  ∃ m', store16 m (a + 2 * Z.of_nat k) v = Ok m' ∧ bytes_at m' a (cell_bytes (<[k := v]> cs)) ∧
    bytes_ok m' ∧ agree_outside a (2 * Z.of_nat (length cs)) m m'.
Proof.
  intros Hb Hok Hk. pose proof (bytes_at_mapped _ _ _ Hb) as Hm. rewrite length_cell_bytes in Hm.
  unfold store16. rewrite store8_Ok by (apply Hm; lia). out_red.
  rewrite store8_Ok by (apply insert_is_Some, Hm; lia). eexists. split; [done |].
  destruct (lookup_lt_is_Some_2 cs k Hk) as [c Hc].
  rewrite <- (take_drop_middle cs k c Hc) in Hb. rewrite insert_take_drop by done.
  rewrite cell_bytes_app in Hb |- *. apply bytes_at_app in Hb as [Hb1 Hb2].
  rewrite length_cell_bytes, length_take in Hb2. replace (k `min` length cs)%nat with k in Hb2 by lia.
  change (cell_bytes (c :: drop (S k) cs)) with ([u8 c; u8 (c / 2 ^ 8)] ++ cell_bytes (drop (S k) cs)) in Hb2.
  apply bytes_at_app in Hb2 as [_ Hb2]. simpl length in Hb2.
  split_and!; [| auto with titan | intros i Hi; by rewrite !lookup_insert_ne by lia].
  apply bytes_at_app. rewrite length_cell_bytes, length_take. replace (k `min` length cs)%nat with k by lia.
  split.
  - apply (bytes_at_agree m); [| done]. intros i Hi. rewrite length_cell_bytes, length_take in Hi.
    by rewrite !lookup_insert_ne by lia.
  - change (cell_bytes (v :: drop (S k) cs)) with ([u8 v; u8 (v / 2 ^ 8)] ++ cell_bytes (drop (S k) cs)).
    apply bytes_at_app. simpl length. split.
    + apply bytes_at_cons. rewrite lookup_insert_ne by lia.
      replace (a + Z.of_nat (2 * k)) with (a + 2 * Z.of_nat k) by lia. split; [apply lookup_insert_eq |].
      apply bytes_at_cons. split; [apply lookup_insert_eq | done].
    + apply (bytes_at_agree m); [| done]. intros i Hi. by rewrite !lookup_insert_ne by lia.
Qed.

(** [scroll_down] on a screen whose cursor has left it. *)
Lemma scroll_down_spec s cs :
  bytes_at (vmem s) (vga_out s) (cell_bytes cs) → bytes_ok (vmem s) → length cs = 2000%nat →
  ∃ m, scroll_down s = Ok (set_vmem s m) ∧
    bytes_at m (vga_out s) (cell_bytes (drop 80 cs ++ replicate 80 0)) ∧ bytes_ok m ∧
    agree_outside (vga_out s) VGA_LENGTH (vmem s) m.
Proof.
  intros Hb Hok Hl. pose proof (bytes_at_mapped _ _ _ Hb) as Hm. rewrite length_cell_bytes, Hl in Hm.
  rewrite <- (take_drop 80 cs), cell_bytes_app in Hb. apply bytes_at_app in Hb as [_ Hb].
  rewrite length_cell_bytes, length_take in Hb. replace (2 * (80 `min` length cs))%nat with 160%nat in Hb by lia.
  assert (length (cell_bytes (drop 80 cs)) = 3840%nat) as Hlen by (rewrite length_cell_bytes, length_drop; lia).
  destruct (movsb_spec (cell_bytes (drop 80 cs)) (vmem s) (vga_out s) (vga_out s + 160))
    as (m1 & Hm1 & Hb1 & Ha1 & Hok1 & Hmap1); [done | done | | lia |].
  { rewrite Hlen. apply (mapped_sub _ _ _ _ _ Hm); lia. }
  destruct (memset_loop_spec 160 m1 (vga_out s + 3840) 0) as (m2 & Hm2 & Hb2 & Ha2 & Hok2 & _); [done | |].
  { apply Hmap1. apply (mapped_sub _ _ _ _ _ Hm); lia. }
  exists m2. unfold scroll_down, memcpy, memset. rewrite Hlen in *. split_and!.
  - change (Z.to_nat (VGA_LENGTH - VGA_WIDTH * 2)) with 3840%nat.
    change (VGA_WIDTH * 2) with 160. rewrite Hm1. out_red.
    change (Z.to_nat 160) with 160%nat. change (VGA_LENGTH - 160) with 3840. by rewrite Hm2.
  - rewrite cell_bytes_app. apply bytes_at_app. rewrite Hlen, cell_bytes_zero. split; [| exact Hb2].
    apply (bytes_at_agree m1); [| done]. intros i Hi. apply Ha2. lia.
  - done.
  - intros i Hi. change VGA_LENGTH with 4000 in Hi. rewrite Ha2 by lia. apply Ha1. lia.
Qed.

(** A screen whose cursor may be below the last line, as it is in front of the
    test for scrolling. *)
Lemma scroll_shows s cs a b :
  bytes_at (vmem s) (vga_out s) (cell_bytes cs) → bytes_ok (vmem s) → length cs = 2000%nat →
  Forall (λ c, 0 ≤ c < 2 ^ 16) cs → 0 ≤ a < VGA_WIDTH → 0 ≤ b ≤ VGA_HEIGHT →
  x s = a → y s = b → 0 ≤ vga_out s ∧ vga_out s + VGA_LENGTH ≤ 2 ^ 64 →
  ∃ s', (if VGA_HEIGHT <=? y s then scroll_down (set_xy s 0 (VGA_HEIGHT - 1)) else Ok s) = Ok s' ∧
    shows s' (scroll (Terminal cs a b)) ∧ only_screen s s'.
Proof.
  intros Hb Hok Hl Hr Ha Hb2 Hx Hy Hv. unfold scroll. rewrite Hy. simpl row. unfold VGA_HEIGHT in *.
  destruct (25 <=? b) eqn:E; zbool.
  - destruct (scroll_down_spec (set_xy s 0 24) cs) as (m & Hm & Hbm & Hokm & Ham); [done | done | done |].
    change (25 - 1) with 24. rewrite Hm. eexists. split; [done |]. split; [| by split_and!].
    split; try done. split_and!; cbn [cells col row]; try (unfold VGA_WIDTH, VGA_HEIGHT; lia).
    + rewrite length_app, length_drop, length_replicate. lia.
    + apply Forall_app. split; [by apply Forall_drop | by apply Forall_replicate].
  - exists s. split; [done |]. split; [| apply only_screen_refl]. split; try done. split_and!; simpl; lia || done.
Qed.

Lemma printc_shows s t c :
  shows s t → ∃ s', printc s c = Ok s' ∧ shows s' (put t c) ∧ only_screen s s'.
Proof.
  intros [Hb Hok [Hx Hy] (Hl & Hr & Hc & Hw) Hv]. unfold printc, put.
  destruct (i8 c =? 10) eqn:E.
  - out_red. apply (scroll_shows (set_xy s 0 (y s + 1)) (cells t) 0 (row t + 1)); try done; simpl;
      [unfold VGA_HEIGHT in *; lia | by rewrite Hy].
  - rewrite Hx, Hy. set (k := row t * VGA_WIDTH + col t).
    assert (0 ≤ k < 2000) as Hk by (unfold k, VGA_WIDTH, VGA_HEIGHT in *; lia).
    replace (u64 (vga_out s + k * 2)) with (vga_out s + 2 * Z.of_nat (Z.to_nat k))
      by (rewrite u64_small; change VGA_LENGTH with 4000 in Hv; lia).
    destruct (store16_cell (vmem s) (vga_out s) (cells t) (Z.to_nat k) (u16 (0x0f00 + i8 c)))
      as (m & -> & Hbm & Hokm & Ham); [done | done | lia |]. rewrite Hl in Ham. out_red.
    set (cs := <[Z.to_nat k := _]> (cells t)) in *.
    assert (Forall (λ c, 0 ≤ c < 2 ^ 16) cs) as Hcs.
    { apply Forall_insert; [done |]. unfold u16. mlia. }
    assert (length cs = 2000%nat) as Hlcs by (by unfold cs; rewrite length_insert).
    set (s1 := set_xy (set_vmem s m) _ _).
    assert (Terminal cs (x s1) (y s1) =
      if col t =? VGA_WIDTH - 1 then Terminal cs 0 (row t + 1) else Terminal cs (col t + 1) (row t)) as <-.
    { unfold s1, VGA_WIDTH in *. simpl. destruct (col t =? 80 - 1) eqn:E2; zbool.
      - by rewrite E2.
      - rewrite Z.rem_small, Z.quot_small by lia. f_equal. lia. }
    assert (0 ≤ x s1 < VGA_WIDTH ∧ 0 ≤ y s1 ≤ VGA_HEIGHT) as [Hx1 Hy1].
    { unfold s1, VGA_WIDTH, VGA_HEIGHT in *. simpl. destruct (decide (col t = 79)) as [E2|]; [rewrite E2; change (Z.rem (79 + 1) 80) with 0; change (Z.quot (79 + 1) 80) with 1; lia |].
      rewrite Z.rem_small, Z.quot_small by lia. lia. }
    destruct (scroll_shows s1 cs (x s1) (y s1)) as (s' & Hs & Hsh & Ha & Hvo & Hlo); try done.
    exists s'. split; [done |]. split; [done |]. split_and!; [| done | done].
    intros i Hi. rewrite Ha by done. by apply Ham.
Qed.

(** Printing a string. *)
Lemma print_chars_shows s t str :
  shows s t → ∃ s', print_chars s str = Ok s' ∧ shows s' (puts t str) ∧ only_screen s s'.
Proof.
  revert s t. induction str as [|c str IH]; intros s t Hs; [by exists s |].
  destruct (printc_shows s t c Hs) as (s1 & H1 & Hs1 & Ho1). destruct (IH s1 _ Hs1) as (s2 & H2 & Hs2 & Ho2).
  exists s2. simpl. rewrite H1. out_red. split_and!; [done | done |]. by eapply only_screen_trans.
Qed.

Lemma move_cursor_shows s t : shows s t → shows (move_cursor s) t ∧ only_screen s (move_cursor s).
Proof. intros []. split; [by split | by split_and!]. Qed.

Lemma printstr_shows s t str :
  shows s t → ∃ s', printstr s str = Ok s' ∧ shows s' (puts t str) ∧ only_screen s s'.
Proof.
  intros Hs. destruct (print_chars_shows s t str Hs) as (s1 & H1 & Hs1 & Ho1).
  destruct (move_cursor_shows _ _ Hs1) as [Hs2 Ho2]. exists (move_cursor s1). unfold printstr. rewrite H1.
  split_and!; [done | done |]. by eapply only_screen_trans.
Qed.

(** The bytes [move_cursor] sends. *)
Definition cursor_ports (t : terminal) : list (Z * Z) :=
  let pos := row t * VGA_WIDTH + col t + 1 in
  [(VGA_COMMAND, 0x0f); (VGA_DATA, pos mod 256); (VGA_COMMAND, 0x0e); (VGA_DATA, pos / 256)].

Lemma printc_ports s c s' : printc s c = Ok s' → ports s' = ports s.
Proof.
  unfold printc. intros (s1 & H1 & H2)%bind_Ok. assert (ports s1 = ports s) as <-.
  { destruct (i8 c =? 10); [by injection H1 as <- |]. by apply bind_Ok in H1 as (m & _ & [= <-]). }
  destruct (VGA_HEIGHT <=? y s1); [| by injection H2 as <-].
  unfold scroll_down in H2. by apply bind_Ok in H2 as ([? ?] & _ & ([? ?] & _ & [= <-])%bind_Ok).
Qed.

Lemma print_chars_ports s str s' : print_chars s str = Ok s' → ports s' = ports s.
Proof.
  revert s. induction str as [|c str IH]; intros s; [by intros [= <-] |].
  simpl. intros (s1 & H1 & H2)%bind_Ok. rewrite (IH _ H2). by eapply printc_ports.
Qed.

Lemma move_cursor_ports s t : shows s t → ports (move_cursor s) = ports s ++ cursor_ports t.
Proof.
  intros [_ _ [Hx Hy] (_ & _ & Hc & Hr) _]. unfold move_cursor, outb, cursor_ports. simpl. rewrite Hx, Hy.
  unfold VGA_WIDTH, VGA_HEIGHT in *. rewrite u32_small by lia.
  change 0xff with (Z.ones 8). rewrite !Z.land_ones, Z.shiftr_div_pow2 by lia. unfold u8.
  replace (row t * 80 + (col t + 1)) with (row t * 80 + col t + 1) by lia.
  set (pos := row t * 80 + col t + 1). assert (0 ≤ pos < 65536) as Hpos by lia. clearbody pos.
  rewrite <- !app_assoc. change (2 ^ 8) with 256. rewrite !Z.mod_mod by done.
  by rewrite (Z.mod_small (pos / 256)) by mlia.
Qed.

(** [C21] printstr implements a terminal of 25 lines of 80 characters that
    wraps and scrolls; it touches no memory but the screen, and leaves the
    cursor one place behind the last character. *)
Theorem printstr_terminal s t str :
  shows s t → ∃ s', printstr s str = Ok s' ∧ shows s' (puts t str) ∧ only_screen s s' ∧
    ports s' = ports s ++ cursor_ports (puts t str).
Proof.
  intros Hs. destruct (print_chars_shows s t str Hs) as (s1 & H1 & Hs1 & Ho1).
  destruct (move_cursor_shows _ _ Hs1) as [Hs2 Ho2]. exists (move_cursor s1). unfold printstr. rewrite H1.
  split_and!; [done | done | by eapply only_screen_trans |].
  by rewrite (move_cursor_ports _ _ Hs1), (print_chars_ports _ _ _ H1).
Qed.

(** ** Numbers *)

Definition digit_value (c : Z) : Z := if c <? 0x3a then c - 0x30 else c - 0x57.
Definition number (base : Z) (ds : list Z) : Z := foldl (λ a c, base * a + digit_value c) 0 ds.

Lemma number_app base ds1 ds2 :
  number base (ds1 ++ ds2) = foldl (λ a c, base * a + digit_value c) (number base ds1) ds2.
Proof. unfold number. by rewrite foldl_app. Qed.

Lemma number_foldl base a ds : foldl (λ a c, base * a + digit_value c) a ds =
  a * base ^ Z.of_nat (length ds) + number base ds.
Proof.
  unfold number. revert a. induction ds as [|c ds IH]; intros a; cbn [foldl length].
  - rewrite Z.pow_0_r. lia.
  - rewrite IH, (IH (base * 0 + digit_value c)), Nat2Z.inj_succ, Z.pow_succ_r by lia. lia.
Qed.

Lemma Forall_snoc {A} (P : A → Prop) l a : Forall P l → P a → Forall P (l ++ [a]).
Proof. intros Hl Ha. apply Forall_app. split; [done | by apply Forall_singleton]. Qed.

Definition hex_char (c : Z) : Prop := 0x30 ≤ c < 0x3a ∨ 0x61 ≤ c < 0x67.

(** The digits of [n] nibbles. *)
Lemma hex_digits_spec n num acc : 0 ≤ num → ∃ ds, hex_digits n num acc = ds ++ acc ∧
  length ds = n ∧ Forall hex_char ds ∧ number 16 ds = num mod 16 ^ Z.of_nat n.
Proof.
  revert num acc. induction n as [|n IH]; intros num acc Hn.
  { exists []. split_and!; try done. by rewrite Z.mod_1_r. }
  cbn [hex_digits]. change 0xf with (Z.ones 4). rewrite Z.land_ones, Z.shiftr_div_pow2 by lia.
  change (2 ^ 4) with 16. assert (0 ≤ num mod 16 < 16) as Hd by (by apply Z.mod_pos_bound).
  set (c := if _ <? 10 then _ else _). destruct (IH (num / 16) (c :: acc)) as (ds & -> & Hl & Hh & Hv);
    [by apply Z.div_pos |].
  assert (hex_char c ∧ digit_value c = num mod 16) as [Hc Hdc].
  { unfold hex_char, digit_value, c. destruct (num mod 16 <? 10) eqn:E; zbool; zcase; lia. }
  exists (ds ++ [c]). rewrite <- app_assoc, length_app. split_and!; [done | simpl; lia | by apply Forall_snoc |].
  rewrite number_app. simpl. rewrite Hv, Hdc, Nat2Z.inj_succ, Z.pow_succ_r by lia.
  rewrite Z.rem_mul_r by (try apply Z.pow_pos_nonneg; lia). lia.
Qed.

Lemma printlong_shows s t num :
  shows s t → ∃ s', printlong s num = Ok s' ∧ shows s' (puts t ([48; 120] ++ hex_digits 16 num [])) ∧ only_screen s s'.
Proof.
  intros Hs. destruct (printstr_shows s t [48; 120] Hs) as (s1 & H1 & Hs1 & Ho1).
  destruct (printstr_shows s1 _ (hex_digits 16 num []) Hs1) as (s2 & H2 & Hs2 & Ho2). exists s2.
  unfold printlong. rewrite H1. out_red. rewrite H2. split_and!; [done | by rewrite puts_app | by eapply only_screen_trans].
Qed.

(** printlong prints 0x and sixteen hexadecimal digits whose value is
    the number. *)
Theorem printlong_hex s t num :
  shows s t → 0 ≤ num < 2 ^ 64 →
  ∃ s' ds, printlong s num = Ok s' ∧ shows s' (puts t ([48; 120] ++ ds)) ∧ only_screen s s' ∧
    length ds = 16%nat ∧ Forall hex_char ds ∧ number 16 ds = num.
Proof.
  intros Hs Hn. destruct (hex_digits_spec 16 num []) as (ds & Hds & Hl & Hh & Hv); [lia |].
  rewrite app_nil_r in Hds. destruct (printlong_shows s t num Hs) as (s' & Hp & Hs' & Ho). rewrite Hds in Hs'.
  exists s', ds. split_and!; try done. rewrite Hv. apply Z.mod_small. by change (16 ^ Z.of_nat 16) with (2 ^ 64).
Qed.

Definition dec_char (c : Z) : Prop := 0x30 ≤ c < 0x3a.

Lemma int_digits_S n d acc : int_digits (S n) d acc =
  let digit := u8 (Z.rem d 10) in
  let d' := Z.quot (i32 (d - digit)) 10 in
  if (d' =? 0) || (n =? 0)%nat then acc else int_digits n d' (u8 (48 + digit) :: acc).
Proof. done. Qed.

(** What [printint] prints of a number of [k + 1] digits: the last [k]. *)
Lemma int_digits_spec n d acc : 0 ≤ d < 10 ^ Z.of_nat (S n) → d < 2 ^ 31 →
  ∃ ds, int_digits (S n) d acc = ds ++ acc ∧ Forall dec_char ds ∧
    number 10 ds = d mod 10 ^ Z.of_nat (length ds) ∧ d < 10 ^ Z.of_nat (S (length ds)) ∧
    (length ds = 0%nat ∨ 10 ^ Z.of_nat (length ds) ≤ d).
Proof.
  revert d acc. induction n as [|n IH]; intros d acc Hd H31; rewrite int_digits_S; cbv zeta.
  { exists []. rewrite orb_true_r. split_and!; try done; [by rewrite Z.mod_1_r | apply Hd | by left]. }
  pose proof (Z.div_mod d 10 ltac:(done)) as Hdm. pose proof (Z.mod_pos_bound d 10 ltac:(done)) as Hm.
  rewrite Z.rem_mod_nonneg, u8_small, i32_small by lia.
  replace (d - d mod 10) with (d / 10 * 10) by lia. rewrite Z.quot_mul by done.
  change (S n =? 0)%nat with false. rewrite orb_false_r. destruct (d / 10 =? 0) eqn:E; zbool.
  - exists []. split_and!; try done; [by rewrite Z.mod_1_r | change (d < 10); lia | by left].
  - rewrite u8_small by lia.
    destruct (IH (d / 10) ((48 + d mod 10) :: acc)) as (ds & -> & Hc & Hv & Hlt & Hge).
    { rewrite Nat2Z.inj_succ, Z.pow_succ_r in Hd by lia. mlia. }
    { mlia. }
    exists (ds ++ [48 + d mod 10]). rewrite <- app_assoc, length_app. simpl length.
    rewrite Nat.add_1_r. rewrite !(Nat2Z.inj_succ (S _)), !(Nat2Z.inj_succ (length ds)), !Z.pow_succ_r in * by lia.
    assert (0 < 10 ^ Z.of_nat (length ds)) by (apply Z.pow_pos_nonneg; lia).
    split_and!; [done | apply Forall_snoc; [done | unfold dec_char; mlia] | | mlia |].
    + rewrite number_app. simpl. rewrite Hv. unfold digit_value.
      assert (0 ≤ d mod 10 < 10) by (by apply Z.mod_pos_bound). zdec.
      rewrite Z.rem_mul_r by lia. lia.
    + right. destruct Hge as [Hz|Hge]; [rewrite Hz in *; simpl; mlia | mlia].
Qed.

(** printint leaves out the most significant digit: of a number of k + 1
    digits it prints the last k, and nothing of a number below ten. *)
Theorem printint_drops_digit s t d :
  shows s t → 0 ≤ d < 2 ^ 31 →
  ∃ s' ds, printint s d = Ok s' ∧ shows s' (puts t ds) ∧ Forall dec_char ds ∧
    (d < 10 → ds = []) ∧
    (10 ≤ d → 10 ^ Z.of_nat (length ds) ≤ d < 10 ^ Z.of_nat (S (length ds)) ∧
              number 10 ds = d mod 10 ^ Z.of_nat (length ds)).
Proof.
  intros Hs Hd. destruct (int_digits_spec 13 d []) as (ds & Hds & Hc & Hv & Hlt & Hge).
  { change (10 ^ Z.of_nat 14) with 100000000000000. lia. }
  { lia. }
  rewrite app_nil_r in Hds. destruct (printstr_shows s t ds Hs) as (s1 & H1 & Hs1 & _).
  exists s1, ds. unfold printint. rewrite Hds. split_and!; try done.
  - intros Hd10. destruct ds as [|c ds]; [done |]. destruct Hge as [|Hge]; [done |]. exfalso.
    simpl length in Hge. rewrite Nat2Z.inj_succ, Z.pow_succ_r in Hge by lia.
    assert (0 < 10 ^ Z.of_nat (length ds)) by (apply Z.pow_pos_nonneg; lia). lia.
  - intros Hd10. split; [| done]. split; [| done]. destruct Hge as [Hz|]; [| done]. rewrite Hz in Hlt. simpl in Hlt. lia.
Qed.

(** ** Formats *)

(** A format as the code means it: characters and conversions with their
    arguments. *)
Inductive piece := Lit (c : Z) | PInt (d : Z) | PStr (str : list Z) | PLong (num : Z).

Definition piece_ok (p : piece) : Prop := match p with Lit c => c ≠ 37 | _ => True end.

Definition piece_format (p : piece) : list Z :=
  match p with Lit c => [c] | PInt _ => [37; 100] | PStr _ => [37; 115] | PLong _ => [37; 108; 117] end.

Definition piece_args (p : piece) : list arg :=
  match p with Lit _ => [] | PInt d => [AInt d] | PStr str => [AStr str] | PLong num => [ALong num] end.

(** What a piece prints. *)
Definition render (p : piece) : list Z :=
  match p with
  | Lit c => [c]
  | PInt d => int_digits 14 d []
  | PStr str => str
  | PLong num => [48; 120] ++ hex_digits 16 num []
  end.

(** One piece of the format is one turn of the loop. *)
Lemma printf_loop_piece err p fuel s t rest args :
  shows s t → piece_ok p → ∃ s', shows s' (puts t (render p)) ∧ only_screen s s' ∧
    printf_loop err (S fuel) s (piece_format p ++ rest) (piece_args p ++ args) = printf_loop err fuel s' rest args.
Proof.
  intros Hs Hp. destruct p as [c|d|str|num]; cbn [printf_loop piece_format piece_args app].
  - destruct (printc_shows s t c Hs) as (s1 & H1 & Hs1 & Ho1). exists s1. simpl in Hp.
    rewrite (proj2 (Z.eqb_neq _ _)) by done. by rewrite H1.
  - destruct (printstr_shows s t (int_digits 14 d []) Hs) as (s1 & H1 & Hs1 & Ho1). exists s1.
    unfold printint. by rewrite H1.
  - destruct (printstr_shows s t str Hs) as (s1 & H1 & Hs1 & Ho1). exists s1. by rewrite H1.
  - destruct (printlong_shows s t num Hs) as (s1 & H1 & Hs1 & Ho1). exists s1. by rewrite H1.
Qed.

Lemma printf_loop_pieces err ps fuel s t rest args :
  shows s t → Forall piece_ok ps → ∃ s', shows s' (puts t (flat_map render ps)) ∧ only_screen s s' ∧
    printf_loop err (length ps + fuel) s (flat_map piece_format ps ++ rest) (flat_map piece_args ps ++ args) =
    printf_loop err fuel s' rest args.
Proof.
  revert s t. induction ps as [|p ps IH]; intros s t Hs Hok; [by exists s |].
  apply Forall_cons in Hok as [Hp Hok]. cbn [flat_map length Nat.add]. rewrite <- !app_assoc.
  destruct (printf_loop_piece err p (length ps + fuel) s t (flat_map piece_format ps ++ rest)
    (flat_map piece_args ps ++ args) Hs Hp) as (s1 & Hs1 & Ho1 & ->).
  destruct (IH s1 _ Hs1 Hok) as (s2 & Hs2 & Ho2 & ->). exists s2. split_and!; [| by eapply only_screen_trans | done].
  unfold puts in *. by rewrite foldl_app.
Qed.

Lemma locked_shows s t b : shows s t → shows (set_locked s b) t.
Proof. intros []. by split. Qed.

Lemma printf_shows nesting fuel s t ps :
  shows s t → locked s = false → Forall piece_ok ps → (length ps < fuel)%nat →
  ∃ s', printf (S nesting) fuel s (flat_map piece_format ps) (flat_map piece_args ps) = Ok s' ∧
    shows s' (puts t (flat_map render ps)) ∧ only_screen s s'.
Proof.
  intros Hs Hl Hok Hf. cbn [printf]. rewrite Hl.
  replace fuel with (length ps + S (fuel - S (length ps)))%nat by lia.
  remember (fuel - S (length ps))%nat as k eqn:Ek. clear Ek Hf.
  destruct (printf_loop_pieces (λ s', printf nesting (length ps + S k) s' error_format
    [AStr (bytes_of "VGA"); AStr (bytes_of "Format Specifier not found")]) ps (S k) (set_locked s true) t [] [])
    as (s1 & Hs1 & (Ha & Hv & _) & Hloop); [by apply locked_shows | done |].
  rewrite !app_nil_r in Hloop. rewrite Hloop. cbn [printf_loop]. out_red.
  destruct (move_cursor_shows _ _ Hs1) as [Hs2 (Ha2 & Hv2 & _)].
  exists (set_locked (move_cursor s1) false). split_and!; [done | by apply locked_shows |].
  split_and!; [exact Ha | exact Hv | by rewrite Hl].
Qed.

(** [C25] printf of a format made of characters and the conversions d, s and
    lu prints what its pieces print one after the other, and releases its
    lock. *)
Theorem printf_renders nesting s t ps :
  shows s t → locked s = false → Forall piece_ok ps →
  ∃ s', printf (S nesting) (S (length ps)) s (flat_map piece_format ps) (flat_map piece_args ps) = Ok s' ∧
    shows s' (puts t (flat_map render ps)) ∧ only_screen s s'.
Proof. intros. apply printf_shows; by try lia. Qed.

(** The pieces of text without conversions. *)
Definition lits (str : list Z) : list piece := Lit <$> str.

Lemma lits_format str : flat_map piece_format (lits str) = str.
Proof. unfold lits. induction str; [done |]. simpl. by f_equal. Qed.

Lemma lits_args str : flat_map piece_args (lits str) = [].
Proof. unfold lits. by induction str. Qed.

Lemma lits_render str : flat_map render (lits str) = str.
Proof. unfold lits. induction str; [done |]. simpl. by f_equal. Qed.

Lemma lits_ok str : 37 ∉ str → Forall piece_ok (lits str).
Proof.
  unfold lits. induction str as [|c str IH]; intros Hn; simpl; constructor; [set_solver |].
  apply IH. set_solver.
Qed.

(** Text, a conversion, text. *)
Lemma printk_piece s t pre p post :
  shows s t → locked s = false → 37 ∉ pre → 37 ∉ post → piece_ok p →
  ∃ s', printk s (pre ++ piece_format p ++ post) (piece_args p) = Ok s' ∧
    shows s' (puts t (pre ++ render p ++ post)) ∧ only_screen s s'.
Proof.
  intros Hs Hl Hpre Hpost Hp.
  destruct (printf_shows 1 (S (length (pre ++ piece_format p ++ post))) s t (lits pre ++ p :: lits post) Hs Hl)
    as (s' & Hpr & Hs' & Ho).
  - apply Forall_app; split; [by apply lits_ok |]. constructor; [done | by apply lits_ok].
  - rewrite !length_app. cbn [length]. unfold lits. rewrite !length_fmap. destruct p; simpl; lia.
  - exists s'. rewrite (flat_map_app piece_format), (flat_map_app piece_args) in Hpr. rewrite flat_map_app in Hs'.
    cbn [flat_map] in Hpr, Hs'.
    rewrite lits_format, lits_args in Hpr. rewrite lits_format, lits_args, app_nil_l, app_nil_r in Hpr.
    rewrite !lits_render in Hs'. by split.
Qed.

(** A message of the kernel: text, a string, text. *)
Lemma printk_message s t pre name post :
  shows s t → locked s = false → 37 ∉ pre → 37 ∉ post →
  ∃ s', printk s (pre ++ [37; 115] ++ post) [AStr name] = Ok s' ∧
    shows s' (puts t (pre ++ name ++ post)) ∧ only_screen s s'.
Proof. intros. by apply (printk_piece s t pre (PStr name) post). Qed.

(** No conversion in a concrete text. *)
Ltac no_percent := apply (bool_decide_unpack _); vm_compute; exact I.

Lemma ERROR_shows s t subsystem message :
  shows s t → locked s = false →
  ∃ s', ERROR s subsystem message = Ok s' ∧
    shows s' (puts t (10 :: bytes_of subsystem ++ bytes_of " error: " ++ bytes_of message ++ [10])) ∧
    only_screen s s'.
Proof.
  intros Hs Hl.
  destruct (printf_shows 1 (S (length error_format)) s t
    (Lit 10 :: PStr (bytes_of subsystem) :: lits (bytes_of " error: ") ++ [PStr (bytes_of message); Lit 10]))
    as (s' & Hp & Hs' & Ho); [done | done | repeat constructor; done | simpl; lia |].
  exists s'. split; [exact Hp |]. split; [| exact Ho]. cbn [flat_map render] in Hs'.
  by rewrite flat_map_app, lits_render in Hs'.
Qed.

Lemma LOG_shows s t subsystem message :
  shows s t → locked s = false →
  ∃ s', LOG s subsystem message = Ok s' ∧
    shows s' (puts t (10 :: bytes_of subsystem ++ bytes_of ": " ++ bytes_of message ++ [10])) ∧ only_screen s s'.
Proof.
  intros Hs Hl.
  destruct (printf_shows 1 (S (length (10 :: bytes_of "%s: %s" ++ [10]))) s t
    (Lit 10 :: PStr (bytes_of subsystem) :: lits (bytes_of ": ") ++ [PStr (bytes_of message); Lit 10]))
    as (s' & Hp & Hs' & Ho); [done | done | repeat constructor; done | simpl; lia |].
  exists s'. split; [exact Hp |]. split; [| exact Ho]. cbn [flat_map render] in Hs'.
  by rewrite flat_map_app, lits_render in Hs'.
Qed.

(** An unknown conversion makes printf report the error with itself
    while it holds its lock, which never returns; an l without u is never left
    behind. *)
Theorem printf_bad_specifier nesting fuel s t ps specifier rest args :
  shows s t → locked s = false → Forall piece_ok ps → specifier ∉ [100; 115; 108] →
  printf (S (S nesting)) (S (length ps + fuel)) s (flat_map piece_format ps ++ 37 :: specifier :: rest)
    (flat_map piece_args ps ++ args) = Fault (Spin "acquire") ∧
  (default 0 (head rest) ≠ 117 →
   printf (S nesting) (length ps + fuel) s (flat_map piece_format ps ++ 37 :: 108 :: rest)
     (flat_map piece_args ps ++ args) = NoFuel).
Proof.
  intros Hs Hl Hok Hsp. rewrite !not_elem_of_cons in Hsp. destruct Hsp as (H1 & H2 & H3 & _).
  set (err n f := λ s' : console, printf n f s' error_format
    [AStr (bytes_of "VGA"); AStr (bytes_of "Format Specifier not found")]). split.
  - remember (S nesting) as n eqn:En. cbn [printf]. rewrite Hl.
    destruct (printf_loop_pieces (err n (S (length ps + fuel))) ps (S fuel) (set_locked s true) t
      (37 :: specifier :: rest) args) as (s1 & Hs1 & (_ & _ & Hlk) & Hloop); [by apply locked_shows | done |].
    rewrite Nat.add_succ_r in Hloop. fold (err n (S (length ps + fuel))). rewrite Hloop. cbn [printf_loop].
    change (37 =? 37) with true. simpl default. rewrite !(proj2 (Z.eqb_neq _ _)) by done.
    unfold err. subst n. cbn [printf]. by rewrite Hlk.
  - intros Hu. cbn [printf]. rewrite Hl.
    destruct (printf_loop_pieces (err nesting (length ps + fuel)%nat) ps fuel (set_locked s true) t
      (37 :: 108 :: rest) args) as (s1 & _ & _ & Hloop); [by apply locked_shows | done |].
    fold (err nesting (length ps + fuel)%nat). rewrite Hloop. clear Hloop. generalize (err nesting (length ps + fuel)%nat).
    intros e. assert (printf_loop e fuel s1 (37 :: 108 :: rest) args = NoFuel) as ->; [| done].
    induction fuel as [|fuel' IH]; [done |]. cbn [printf_loop]. change (37 =? 37) with true. simpl.
    by rewrite (proj2 (Z.eqb_neq _ _)).
Qed.

(** ** A blank screen *)

Definition blank_mem : mem := map_seqZ VGA_TEXT_BUFFER_BASE (replicate 4000 0).
Definition blank : console := Console blank_mem VGA_TEXT_BUFFER_BASE 0 0 [] false.
Definition blank_terminal : terminal := Terminal (replicate 2000 0) 0 0.

Lemma blank_lookup i b : blank_mem !! i = Some b → b = 0.
Proof.
  unfold blank_mem. intros [_ Hb]%lookup_map_seqZ_Some. by apply lookup_replicate in Hb as [-> _].
Qed.

Lemma blank_shows : shows blank blank_terminal.
Proof.
  split.
  - unfold blank_terminal. cbn [cells]. rewrite cell_bytes_zero. intros i b Hi. apply lookup_map_seqZ_Some.
    split; [simpl; lia |]. rewrite <- Hi. f_equal. simpl. lia.
  - intros i b Hb. apply blank_lookup in Hb. lia.
  - done.
  - unfold term_ok, blank_terminal, VGA_WIDTH, VGA_HEIGHT. cbn [cells col row].
    rewrite length_replicate. split_and!; try lia. by apply Forall_replicate.
  - unfold VGA_LENGTH. by vm_compute.
Qed.

(** A blank screen among other bytes. *)
Lemma blank_shows_in m :
  bytes_at m VGA_TEXT_BUFFER_BASE (cell_bytes (cells blank_terminal)) → bytes_ok m →
  shows (set_vmem blank m) blank_terminal.
Proof. intros Hb Hok. destruct blank_shows as [_ _ S3 S4 S5]. by split. Qed.

Lemma printstr_terminal_witness : ∃ s',
  printstr blank (bytes_of "mm" ++ [10]) = Ok s' ∧ x s' = 0 ∧ y s' = 1.
Proof.
  destruct (printstr_terminal blank blank_terminal (bytes_of "mm" ++ [10]) blank_shows)
    as (s' & Hp & [_ _ [Hx Hy] _ _] & _). exists s'. split; [exact Hp |]. split; [exact Hx | exact Hy].
Defined.

Lemma printlong_hex_witness : ∃ s' ds, printlong blank 0xff = Ok s' ∧ number 16 ds = 0xff.
Proof.
  destruct (printlong_hex blank blank_terminal 0xff blank_shows) as (s' & ds & Hp & _ & _ & _ & _ & Hn); [lia |].
  exists s', ds. split; [exact Hp | exact Hn].
Defined.

(** The number 42 is printed as 2. *)
Lemma printint_drops_digit_witness : ∃ s' ds, printint blank 42 = Ok s' ∧ number 10 ds = 42 mod 10 ^ Z.of_nat (length ds).
Proof.
  destruct (printint_drops_digit blank blank_terminal 42 blank_shows) as (s' & ds & Hp & _ & _ & _ & Hd); [lia |].
  exists s', ds. split; [exact Hp |]. apply Hd. lia.
Defined.

Lemma printf_renders_witness : ∃ s',
  printf 1 4 blank (bytes_of "n=%lu") [ALong 5] = Ok s' ∧ locked s' = false.
Proof.
  destruct (printf_renders 0 blank blank_terminal [Lit 110; Lit 61; PLong 5] blank_shows)
    as (s' & Hp & _ & _ & _ & Hl); [reflexivity | by repeat constructor |].
  exists s'. split; [exact Hp | exact Hl].
Defined.

Lemma printf_bad_specifier_witness :
  printf 2 3 blank (bytes_of "a%x") [] = Fault (Spin "acquire").
Proof.
  apply (printf_bad_specifier 0 1 blank blank_terminal [Lit 97] 120 [] []).
  - exact blank_shows.
  - reflexivity.
  - by repeat constructor.
  - set_solver.
Defined.
