(* ===== verification/Mb2.v ===== *)
(** * The multiboot2 memory map (mb2_mmap.c, mb2_mmap.h, multiboot2.h)

    The walk over the boot loader's tags, the split of its memory map by
    [mb2_mmap_init] into the available and the reserved regions, and the
    queries on the two lists. *)

From S2P Require Import Prelude Mem LibTitan Pmm Vga.

Definition MAX_MMAP_ENTRIES : Z := 20.
Definition MULTIBOOT_MEMORY_AVAILABLE : Z := 1.
Definition MULTIBOOT_HEADER_TAG_END : Z := 0.
Definition MULTIBOOT_TAG_TYPE_MMAP : Z := 6.
Definition MULTIBOOT_INFO_ALIGN : Z := 8.

(** [struct multiboot_mmap_entry]. *)
Record mmap_entry_t := MmapEntry {
  e_addr : Z;
  e_len : Z;
  e_type : Z;
  e_zero : Z;
}.

(** [mmap_region_list_t]: [rl_entries] are the slots of the C array, [rl_length]
    how many of them are filled. *)
Record mmap_region_list_t := RegionList {
  rl_length : Z;
  rl_entries : list mmap_entry_t;
}.

(** The list the globals start as. *)
Definition empty_list : mmap_region_list_t :=
  RegionList 0 (replicate (Z.to_nat MAX_MMAP_ENTRIES) (MmapEntry 0 0 0 0)).

(** [*e]. *)
Definition load_entry (m : mem) (e : Z) : outcome mmap_entry_t :=
  addr ← load64 m e;
  len ← load64 m (e + 8);
  type ← load32 m (e + 16);
  zero ← load32 m (e + 20);
  Ok (MmapEntry addr len type zero).

(** The tag walk: the first tag that has the type or ends the list. *)
Fixpoint find_tag (fuel : nat) (m : mem) (tag type : Z) : outcome Z :=
  match fuel with
  | O => NoFuel
  | S fuel' =>
      t ← load32 m tag;
      if (t =? MULTIBOOT_HEADER_TAG_END) || (t =? type) then Ok tag
      else
        size ← load32 m (tag + 4);
        find_tag fuel' m (ALIGN_UP (u64 (tag + size)) MULTIBOOT_INFO_ALIGN) type
  end.

(** [list->entries[list->length] = *e; list->length++]. *)
Definition add_entry (l : mmap_region_list_t) (e : mmap_entry_t) : outcome mmap_region_list_t :=
  if rl_length l <? MAX_MMAP_ENTRIES
  then Ok (RegionList (rl_length l + 1) (<[Z.to_nat (rl_length l) := e]> (rl_entries l)))
  else Fault (OutOfBounds "entries").

(** The loop over the entries of the memory map: the available and the
    reserved regions and [memory_size]. *)
Fixpoint entry_loop (fuel : nat) (m : mem) (tag e : Z)
    (available reserved : mmap_region_list_t) (memory_size : Z)
    : outcome (mmap_region_list_t * mmap_region_list_t * Z) :=
  match fuel with
  | O => NoFuel
  | S fuel' =>
      size ← load32 m (tag + 4);
      if e <? u64 (tag + size) then
        ent ← load_entry m e;
        entry_size ← load32 m (tag + 8);
        if e_type ent =? MULTIBOOT_MEMORY_AVAILABLE then
          l ← add_entry available ent;
          entry_loop fuel' m tag (u64 (e + entry_size)) l reserved (u64 (memory_size + e_len ent))
        else
          l ← add_entry reserved ent;
          entry_loop fuel' m tag (u64 (e + entry_size)) available l memory_size
      else Ok (available, reserved, memory_size)
  end.

(** [mb2_mmap_init]; the boot information lies in the memory of the console [c]. *)
Definition mb2_mmap_init (fuel : nat) (c : console) (mb_info : Z)
    (available reserved : mmap_region_list_t)
    : outcome (bool * mmap_region_list_t * mmap_region_list_t * console) :=
  let m := vmem c in
  tag ← find_tag fuel m (mb_info + 8) MULTIBOOT_TAG_TYPE_MMAP;
  t ← load32 m tag;
  if negb (t =? MULTIBOOT_TAG_TYPE_MMAP) then Fault (Panic "mb2_mmap") else
  '(av, rs, memory_size) ← entry_loop fuel m tag (tag + 16) available reserved 0;
  c' ← printk c (bytes_of "mb2_mmap: %d MB available" ++ [10]) [AInt (i32 (memory_size / 1048576))];
  Ok (true, av, rs, c').

(** [WITHIN]. *)
Definition WITHIN (r1 r2 l1 l2 : Z) : bool :=
  (r2 <? u64 (r1 + l1)) && (r1 <? r2) || (r1 <? u64 (r2 + l2)) && (r2 <? r1).

(** The loop of [check_region_reserved], which never moves [e]. *)
Fixpoint check_loop (n : nat) (e : mmap_entry_t) (region_start length : Z) : bool :=
  match n with
  | O => false
  | S n' =>
      if WITHIN region_start (e_addr e) length (e_len e) then true
      else check_loop n' e region_start length
  end.

Definition check_region_reserved (reserved : mmap_region_list_t) (region_start length : Z)
    : outcome bool :=
  e ← of_option (OutOfBounds "entries") (rl_entries reserved !! 0%nat);
  Ok (check_loop (Z.to_nat (rl_length reserved)) e region_start length).

(** [for(e = entries; e != entries + length; e++)] of [get_max_memory_addr]. *)
Definition max_end (max_addr : Z) (l : mmap_region_list_t) : Z :=
  foldl (λ a e, if a <? u64 (e_addr e + e_len e) then u64 (e_addr e + e_len e) else a)
    max_addr (take (Z.to_nat (rl_length l)) (rl_entries l)).

Definition get_max_memory_addr (available reserved : mmap_region_list_t) : Z :=
  max_end (max_end 0 available) reserved.

(** ** The contents of the lists *)

(** The filled slots are [es]. *)
Definition holds (l : mmap_region_list_t) (es : list mmap_entry_t) : Prop :=
  rl_length l = Z.of_nat (length es) ∧ length (rl_entries l) = 20%nat ∧
  take (length es) (rl_entries l) = es.

Lemma holds_empty : holds empty_list [].
Proof. done. Qed.

Lemma holds_length l es : holds l es → (length es ≤ 20)%nat.
Proof.
  intros (_ & Hl & Ht). apply (f_equal length) in Ht. rewrite length_take in Ht. lia.
Qed.

Lemma add_entry_holds l es e :
  holds l es → (length es < 20)%nat → ∃ l', add_entry l e = Ok l' ∧ holds l' (es ++ [e]).
Proof.
  intros (Hn & Hl & Ht) Hlt. unfold add_entry. rewrite Hn, Nat2Z.id.
  rewrite (proj2 (Z.ltb_lt _ _)) by (unfold MAX_MMAP_ENTRIES; lia). eexists. split; [done |].
  unfold holds. simpl. rewrite length_app, length_insert. simpl. split_and!; [lia | done |].
  rewrite Nat.add_1_r, (take_S_r _ _ e) by (apply list_lookup_insert_eq; lia).
  by rewrite take_insert_ge, Ht by lia.
Qed.

(** The lists are too short for larger maps: the next entry of the same kind
    would be written behind the array. *)
Lemma add_entry_full l es e :
  holds l es → length es = 20%nat → add_entry l e = Fault (OutOfBounds "entries").
Proof. intros (Hn & _) Hl. unfold add_entry. by rewrite Hn, Hl. Qed.

(** ** The tags *)

(** From [a] the walk for [ty] passes [n] other tags and stops at [b], whose
    type is [t]. *)
Inductive tag_reach (m : mem) (ty : Z) : Z → nat → Z → Z → Prop :=
| reach_stop a t : load32 m a = Ok t → t = MULTIBOOT_HEADER_TAG_END ∨ t = ty →
    tag_reach m ty a 0 a t
| reach_next a t size n b t' : load32 m a = Ok t → t ≠ MULTIBOOT_HEADER_TAG_END → t ≠ ty →
    load32 m (a + 4) = Ok size →
    tag_reach m ty (ALIGN_UP (u64 (a + size)) MULTIBOOT_INFO_ALIGN) n b t' →
    tag_reach m ty a (S n) b t'.

Lemma find_tag_reach fuel m ty a n b t :
  tag_reach m ty a n b t → (n < fuel)%nat → find_tag fuel m a ty = Ok b ∧ load32 m b = Ok t.
Proof.
  intros Hr. revert fuel. induction Hr as [a t Ha Ht|a t size n b t' Ha Ht Hty Hs Hr IH];
    intros [|fuel] Hf; try lia; cbn [find_tag]; rewrite Ha; out_red.
  - split; [| done]. by destruct Ht as [-> | ->]; rewrite Z.eqb_refl, ?orb_true_r.
  - rewrite (proj2 (Z.eqb_neq _ _) Ht), (proj2 (Z.eqb_neq _ _) Hty). simpl. rewrite Hs. out_red.
    apply IH. lia.
Qed.

(** [step] bytes apart, the entries [es] from [e]. *)
Fixpoint entries_at (m : mem) (e step : Z) (es : list mmap_entry_t) : Prop :=
  match es with
  | [] => True
  | x :: es' => load_entry m e = Ok x ∧ entries_at m (e + step) step es'
  end.

Definition available_of (es : list mmap_entry_t) : list mmap_entry_t :=
  filter (λ e, e_type e = MULTIBOOT_MEMORY_AVAILABLE) es.
Definition reserved_of (es : list mmap_entry_t) : list mmap_entry_t :=
  filter (λ e, e_type e ≠ MULTIBOOT_MEMORY_AVAILABLE) es.

Definition total_length (es : list mmap_entry_t) : Z := foldr (λ x a, e_len x + a) 0 es.

Lemma entry_loop_spec fuel m tag e size step es av rs avs rss msz :
  load32 m (tag + 4) = Ok size → load32 m (tag + 8) = Ok step →
  0 ≤ e → 0 < step → tag + size = e + Z.of_nat (length es) * step → tag + size < 2 ^ 64 → 0 ≤ tag + size →
  entries_at m e step es → holds av avs → holds rs rss →
  (length avs + length (available_of es) ≤ 20)%nat →
  (length rss + length (reserved_of es) ≤ 20)%nat → (length es < fuel)%nat → 0 ≤ msz < 2 ^ 64 →
  ∃ av' rs' msz', entry_loop fuel m tag e av rs msz = Ok (av', rs', msz') ∧
    holds av' (avs ++ available_of es) ∧ holds rs' (rss ++ reserved_of es) ∧
    msz' = u64 (msz + total_length (available_of es)).
Proof.
  intros Hsz Hst He Hstep Hend H64 H0. revert fuel e av rs avs rss msz He Hend.
  induction es as [|x es IH]; intros [|fuel] e av rs avs rss msz He Hend Hes Hav Hrs Hla Hlr Hf Hmsz;
    simpl in Hf; try lia; cbn [entry_loop]; rewrite Hsz; out_red; rewrite (u64_small (tag + size)) by lia.
  - simpl in Hend. rewrite (proj2 (Z.ltb_ge _ _)) by lia. exists av, rs, msz.
    simpl. rewrite !app_nil_r, Z.add_0_r, u64_small by lia. done.
  - simpl length in Hend. rewrite (proj2 (Z.ltb_lt _ _)) by nia. destruct Hes as [Hx Hes].
    rewrite Hx. out_red. rewrite Hst. out_red. rewrite u64_small by nia.
    unfold available_of, reserved_of in *.
    destruct (e_type x =? MULTIBOOT_MEMORY_AVAILABLE) eqn:E; zbool.
    + rewrite filter_cons_True in Hla |- * by done.
      rewrite filter_cons_False in Hlr |- * by (by intros []).
      simpl in Hla. destruct (add_entry_holds av avs x Hav) as (l & -> & Hl); [lia |]. out_red.
      destruct (IH fuel (e + step) l rs (avs ++ [x]) rss (u64 (msz + e_len x)))
        as (av' & rs' & msz' & -> & Ha & Hr & Hm); try done; try lia; [rewrite length_app; simpl; lia | by apply Z.mod_pos_bound |].
      exists av', rs', msz'. rewrite <- app_assoc in Ha. split_and!; try done.
      rewrite Hm. unfold u64. rewrite Z.add_mod_idemp_l by done. simpl. by rewrite Z.add_assoc.
    + rewrite filter_cons_False in Hla |- * by done. rewrite filter_cons_True in Hlr |- * by done.
      simpl in Hlr. destruct (add_entry_holds rs rss x Hrs) as (l & -> & Hl); [lia |]. out_red.
      destruct (IH fuel (e + step) av l avs (rss ++ [x]) msz)
        as (av' & rs' & msz' & -> & Ha & Hr & Hm); try done; try lia; [rewrite length_app; simpl; lia |].
      exists av', rs', msz'. by rewrite <- app_assoc in Hr.
Qed.

(** ** The results *)

(** A well-formed memory map of at most twenty regions of each kind: the tag is
    found behind [n] others, and the entries [es] fill it. *)
Record memory_map (fuel : nat) (m : mem) (mb_info : Z) (es : list mmap_entry_t) : Prop := {
  mm_tag : ∃ n tag size step,
    tag_reach m MULTIBOOT_TAG_TYPE_MMAP (mb_info + 8) n tag MULTIBOOT_TAG_TYPE_MMAP ∧ (n < fuel)%nat ∧
    load32 m (tag + 4) = Ok size ∧ load32 m (tag + 8) = Ok step ∧ 0 ≤ tag ∧ 0 < step ∧
    size = 16 + Z.of_nat (length es) * step ∧ tag + size < 2 ^ 64 ∧ entries_at m (tag + 16) step es;
  mm_slots : (length (available_of es) ≤ 20)%nat ∧ (length (reserved_of es) ≤ 20)%nat;
  mm_fuel : (length es < fuel)%nat;
}.

(** The line that reports [size] bytes. *)
Definition size_line (size : Z) : list Z :=
  bytes_of "mb2_mmap: " ++ render (PInt (i32 (size / 1048576))) ++ bytes_of " MB available" ++ [10].

Lemma mb2_mmap_init_lists fuel c t mb_info es :
  shows c t → locked c = false → memory_map fuel (vmem c) mb_info es →
  ∃ av rs c', mb2_mmap_init fuel c mb_info empty_list empty_list = Ok (true, av, rs, c') ∧
    holds av (available_of es) ∧ holds rs (reserved_of es) ∧
    shows c' (puts t (size_line (u64 (total_length (available_of es))))) ∧ only_screen c c'.
Proof.
  intros Hs Hlk [(n & tag & size & step & Hr & Hn & Hsz & Hst & H0 & Hstep & Hend & H64 & Hes) [Hla Hlr] Hf].
  destruct (find_tag_reach _ _ _ _ _ _ _ Hr Hn) as [Ht Hty]. unfold mb2_mmap_init.
  rewrite Ht. out_red. rewrite Hty. out_red. simpl (negb _). cbv iota.
  destruct (entry_loop_spec fuel (vmem c) tag (tag + 16) size step es empty_list empty_list [] [] 0)
    as (av & rs & msz & -> & Hav & Hrs & ->); try done; try lia; [apply holds_empty.. |].
  out_red. rewrite Z.add_0_l.
  set (d := i32 (u64 (total_length (available_of es)) / 1048576)).
  change (bytes_of "mb2_mmap: %d MB available" ++ [10])
    with (bytes_of "mb2_mmap: " ++ piece_format (PInt d) ++ bytes_of " MB available" ++ [10]).
  change [AInt d] with (piece_args (PInt d)).
  destruct (printk_piece c t (bytes_of "mb2_mmap: ") (PInt d) (bytes_of " MB available" ++ [10]) Hs Hlk)
    as (c' & -> & Hs' & Ho); [no_percent | no_percent | done |].
  out_red. by exists av, rs, c'.
Qed.

(** [C38] mb2_mmap_init on a well-formed memory map of at most twenty regions
    of each kind returns true, splits its entries into the available and the
    reserved ones, in order, and prints the size of the available memory in
    MiB as printf renders an int; it changes no memory but the screen.
    Without the tag it stops the kernel. *)
Theorem mb2_mmap_init_partition fuel c t mb_info n tag ty :
  shows c t → locked c = false →
  tag_reach (vmem c) MULTIBOOT_TAG_TYPE_MMAP (mb_info + 8) n tag ty → (n < fuel)%nat →
  (∀ es, memory_map fuel (vmem c) mb_info es →
    ∃ av rs c', mb2_mmap_init fuel c mb_info empty_list empty_list = Ok (true, av, rs, c') ∧
      holds av (available_of es) ∧ holds rs (reserved_of es) ∧
      shows c' (puts t (size_line (u64 (total_length (available_of es))))) ∧ only_screen c c') ∧
  (ty ≠ MULTIBOOT_TAG_TYPE_MMAP → mb2_mmap_init fuel c mb_info empty_list empty_list = Fault (Panic "mb2_mmap")).
Proof.
  intros Hs Hlk Hr Hn. split; [intros es; by apply mb2_mmap_init_lists |]. intros Hne.
  destruct (find_tag_reach _ _ _ _ _ _ _ Hr Hn) as [Ht Hty]. unfold mb2_mmap_init.
  rewrite Ht. out_red. rewrite Hty. out_red. by rewrite (proj2 (Z.eqb_neq _ _)).
Qed.

Lemma check_loop_first n e start len :
  check_loop n e start len = (0 <? n)%nat && WITHIN start (e_addr e) len (e_len e).
Proof.
  induction n as [|n IH]; [done |]. simpl. destruct (WITHIN _ _ _ _) eqn:E; [done |].
  rewrite IH. by destruct (0 <? n)%nat.
Qed.

(** check_region_reserved compares the region with the first reserved
    entry only, however many there are. *)
Theorem check_region_first_entry l e es start len :
  holds l (e :: es) → 0 ≤ start → 0 ≤ len → start + len < 2 ^ 64 →
  0 ≤ e_addr e → 0 ≤ e_len e → e_addr e + e_len e < 2 ^ 64 →
  ∃ b, check_region_reserved l start len = Ok b ∧
    (b = true ↔ start ≠ e_addr e ∧ start < e_addr e + e_len e ∧ e_addr e < start + len).
Proof.
  intros (Hn & Hl & Ht) Hs0 Hl0 Hs64 He0 Hel0 He64. exists (WITHIN start (e_addr e) len (e_len e)).
  split.
  - unfold check_region_reserved. destruct (rl_entries l) as [|x xs]; [done |].
    simpl in Ht. injection Ht as -> _. simpl lookup. out_red. rewrite check_loop_first, Hn.
    simpl length. by rewrite Nat2Z.id.
  - unfold WITHIN. rewrite !u64_small by lia.
    rewrite orb_true_iff, !andb_true_iff, !Z.ltb_lt. lia.
Qed.

(** [get_max_memory_addr] is the largest end of a region. *)
Lemma max_end_spec a l es :
  holds l es → a ≤ max_end a l ∧ (∀ e, e ∈ es → u64 (e_addr e + e_len e) ≤ max_end a l) ∧
  (max_end a l = a ∨ ∃ e, e ∈ es ∧ max_end a l = u64 (e_addr e + e_len e)).
Proof.
  intros (Hn & _ & Ht). unfold max_end. rewrite Hn, Nat2Z.id, Ht. clear.
  revert a. induction es as [|x es IH]; intros a; simpl; [split_and!; [lia | set_solver | by left] |].
  destruct (a <? u64 (e_addr x + e_len x)) eqn:E; zbool;
    [destruct (IH (u64 (e_addr x + e_len x))) as (Hle & Hall & Hor)
    | destruct (IH a) as (Hle & Hall & Hor)];
    (split_and!; [lia | intros e [->|He]%elem_of_cons; [lia | by apply Hall] |]);
    destruct Hor as [->|(e & He & ->)]; (try (by left)); right;
    first [by exists x; split; [left | done] | exists e; split; [by right | done]].
Qed.

(** ** Evaluation *)

(** A boot information structure at 0x100 with one other tag and a memory map
    of an available and a reserved region. *)
Definition put_words (m : mem) (a : Z) (ws : list Z) : mem :=
  (foldl (λ p w, (put32 p.1 p.2 w, p.2 + 4)) (m, a) ws).1.

Definition demo_info : mem := put_words ∅ 0x100
  [72; 0; 4; 16; 0; 0; 6; 64; 24; 0; 0; 0; 0x9fc00; 0; 1; 0; 0x9fc00; 0; 0x400; 0; 2; 0; 0; 8].

Definition demo_entries : list mmap_entry_t :=
  [MmapEntry 0 0x9fc00 1 0; MmapEntry 0x9fc00 0x400 2 0].

(** The console in front of them. *)
Definition demo_console : console := set_vmem blank (demo_info ∪ blank_mem).

Lemma demo_info_ok : Forall (λ e, e.1 < 0x1000 ∧ 0 ≤ e.2 < 256) (map_to_list demo_info).
Proof. apply (bool_decide_unpack _). vm_compute. exact I. Qed.

Lemma demo_fields : load32 demo_info 0x108 = Ok 4 ∧ load32 demo_info 0x10c = Ok 16 ∧ load32 demo_info 0x118 = Ok 6 ∧
  load32 demo_info 0x11c = Ok 64 ∧ load32 demo_info 0x120 = Ok 24 ∧
  load_entry demo_info 0x128 = Ok (MmapEntry 0 0x9fc00 1 0) ∧ load_entry demo_info 0x140 = Ok (MmapEntry 0x9fc00 0x400 2 0).
Proof. split_and!; vm_compute; reflexivity. Qed.

#[local] Opaque demo_info.

Lemma demo_bytes i : i < 0x160 → vmem demo_console !! i = demo_info !! i.
Proof.
  intros Hi. apply lookup_union_l. unfold blank_mem. apply lookup_map_seqZ_None. left.
  unfold VGA_TEXT_BUFFER_BASE. lia.
Qed.

#[local] Opaque blank_mem.

Lemma demo_console_shows : shows demo_console blank_terminal.
Proof.
  pose proof demo_info_ok as Hall. rewrite Forall_forall in Hall.
  assert (∀ i b, demo_info !! i = Some b → i < 0x1000 ∧ 0 ≤ b < 256) as Hinfo
    by (intros i b Hb; apply (Hall (i, b)); by apply elem_of_map_to_list).
  apply blank_shows_in.
  - apply (bytes_at_agree blank_mem); [| exact (sh_cells _ _ blank_shows)]. intros i Hi.
    apply lookup_union_r, eq_None_not_Some. intros [b Hb%Hinfo]. unfold VGA_TEXT_BUFFER_BASE in Hi. lia.
  - apply bytes_ok_union; intros i b Hb; [by destruct (Hinfo _ _ Hb) | apply blank_lookup in Hb; lia].
Qed.

#[local] Opaque demo_console.

Lemma demo_load32 a : a + 4 ≤ 0x160 → load32 (vmem demo_console) a = load32 demo_info a.
Proof. intros Ha. apply load32_agree. intros. apply demo_bytes. lia. Qed.

Lemma demo_map_entry a : a + 24 ≤ 0x160 → load_entry (vmem demo_console) a = load_entry demo_info a.
Proof.
  intros Ha. unfold load_entry, load64.
  rewrite (demo_load32 a), (demo_load32 (a + 4)), (demo_load32 (a + 8)), (demo_load32 (a + 8 + 4)),
    (demo_load32 (a + 16)), (demo_load32 (a + 20)) by lia. done.
Qed.

Lemma demo_reach : tag_reach (vmem demo_console) MULTIBOOT_TAG_TYPE_MMAP (0x100 + 8) 1 0x118 MULTIBOOT_TAG_TYPE_MMAP.
Proof.
  destruct demo_fields as (H1 & H2 & H3 & _).
  apply (reach_next _ _ _ 4 16); [by rewrite demo_load32 | discriminate | discriminate | by rewrite demo_load32 |].
  apply reach_stop; [by rewrite demo_load32 | by right].
Qed.

Lemma demo_map : memory_map 5 (vmem demo_console) 0x100 demo_entries.
Proof.
  destruct demo_fields as (_ & _ & _ & H4 & H5 & H6 & H7).
  split; [| vm_compute; lia | vm_compute; lia].
  assert (length demo_entries = 2%nat) as Hl by reflexivity.
  exists 1%nat, 0x118, 64, 24. rewrite Hl. split_and!; [exact demo_reach | lia | | | lia | lia | lia | lia |].
  - by rewrite demo_load32.
  - by rewrite demo_load32.
  - cbn [entries_at demo_entries]. rewrite (demo_map_entry (0x118 + 16)), (demo_map_entry (0x118 + 16 + 24)) by lia. by split_and!.
Qed.

Lemma mb2_mmap_init_partition_witness :
  ∃ av rs c', mb2_mmap_init 5 demo_console 0x100 empty_list empty_list = Ok (true, av, rs, c') ∧
    holds rs [MmapEntry 0x9fc00 0x400 2 0] ∧
    shows c' (puts blank_terminal (bytes_of "mb2_mmap:  MB available" ++ [10])).
Proof.
  destruct (mb2_mmap_init_partition 5 demo_console blank_terminal 0x100 1 0x118 _ demo_console_shows eq_refl demo_reach
    ltac:(lia)) as [Hp _].
  destruct (Hp _ demo_map) as (av & rs & c' & Hi & _ & Hr & Hs & _).
  exists av, rs, c'. split; [exact Hi |]. split; [exact Hr | exact Hs].
Defined.

(** A region that starts where the reserved one starts is not reported. *)
Lemma check_region_first_entry_witness :
  ∃ l, holds l [MmapEntry 0x9fc00 0x400 2 0] ∧ check_region_reserved l 0x9fc00 0x400 = Ok false.
Proof.
  exists (RegionList 1 (MmapEntry 0x9fc00 0x400 2 0 :: replicate 19 (MmapEntry 0 0 0 0))).
  assert (holds (RegionList 1 (MmapEntry 0x9fc00 0x400 2 0 :: replicate 19 (MmapEntry 0 0 0 0)))
    [MmapEntry 0x9fc00 0x400 2 0]) as Hh by (split_and!; reflexivity).
  split; [exact Hh |].
  destruct (check_region_first_entry _ _ _ 0x9fc00 0x400 Hh) as (b & Hc & Hb); simpl; try lia.
  destruct b; [| exact Hc]. destruct (proj1 Hb eq_refl) as (Hne & _). by destruct Hne.
Defined.
