(* ===== verification/KHeap.v ===== *)
(** * The kernel heap (kernel_heap_manager.c)

    The heap is a sequence of regions, each a packed five byte header (a
    [used] byte and a 32-bit [size]) followed by its payload.  The operations
    below work on the bytes; [place] states on the list of regions what
    [kmalloc] does to them, and the lemmas relate the two. *)

From S2P Require Import Prelude Iface Mem.

(** [sizeof(memory_region_t)]: the struct is packed. *)
Definition HDR : Z := 5.

Record heap := Heap {
  hmem : mem;
  heap_start : Z;
  heap_end : Z;
}.

Definition with_mem (h : heap) (m : mem) : heap :=
  Heap m (heap_start h) (heap_end h).

Definition load_used (m : mem) (r : Z) : outcome bool :=
  b ← load8 m r; Ok (negb (b =? 0)).
Definition load_size (m : mem) (r : Z) : outcome Z := load32 m (r + 1).
Definition store_used (m : mem) (r : Z) (b : bool) : outcome mem :=
  store8 m r (if b then 1 else 0).
Definition store_size (m : mem) (r v : Z) : outcome mem := store32 m (r + 1) v.

Definition PAGE_ROUND (n : Z) : Z := u64 (n + 0xfff) / 0x1000.

Definition go_to_next_memory_region (m : mem) (curr : Z) : outcome Z :=
  size ← load_size m curr; Ok (curr + size + 5).

(** Mark [curr] used with [size] bytes and write the header of what is left
    of [total] behind it: the statements both allocation cases share. *)
Definition carve (m : mem) (curr size total : Z) : outcome mem :=
  m1 ← store_size m curr size;
  next ← go_to_next_memory_region m1 curr;
  m2 ← store_used m1 next false;
  store_size m2 next (total - size - HDR).

Section Grow.
(** [vmm_lengthen], which may map further pages behind the heap. *)
Context (vmm_lengthen : mem → Z → Z → outcome (bool * mem)).

Definition get_more_pages (h : heap) (num_pages : Z) : outcome (bool * heap) :=
  '(ok, m) ← vmm_lengthen (hmem h) (heap_start h) 0x1000;
  Ok (ok, Heap m (heap_start h)
            (if ok : bool then heap_end h + i32 (0x1000 * i32 num_pages) else heap_end h)).

Definition write_new_mem_reg (h : heap) (new_region : Z) : outcome heap :=
  m1 ← store_used (hmem h) new_region false;
  m2 ← store_size m1 new_region (heap_end h - new_region);
  Ok (with_mem h m2).

(** The growth step of case 3.  The [new_region] it initialises is a local
    variable of [kmalloc], so its header never reaches the heap. *)
Definition grow_at (h : heap) (next missing : Z) : outcome heap :=
  if next >=? heap_end h
  then '(_, h') ← get_more_pages h (PAGE_ROUND (u64 missing)); Ok h'
  else Ok h.

Inductive merge_result :=
| Found (p : Z)
| Blocked (next : Z).

(** [while(!next_mem_region->used)]: add up the free regions behind [curr]. *)
Fixpoint merge_loop (fuel : nat) (h : heap) (curr next acc size : Z)
    : outcome (merge_result * heap) :=
  match fuel with
  | O => NoFuel
  | S fuel' =>
      used ← load_used (hmem h) next;
      if used : bool then Ok (Blocked next, h) else
      s ← load_size (hmem h) next;
      let mem_reg_size := u32 (acc + u32 (s + 5)) in
      if mem_reg_size >=? size then
        m1 ← store_used (hmem h) curr true;
        if u32 (mem_reg_size - 5) >? size then
          m2 ← carve m1 curr size mem_reg_size;
          Ok (Found (curr + HDR), with_mem h m2)
        else Ok (Found (curr + HDR), with_mem h m1)
      else
        next' ← go_to_next_memory_region (hmem h) next;
        h' ← grow_at h next' (size - mem_reg_size);
        merge_loop fuel' h' curr next' mem_reg_size size
  end.

(** [while(true)] of [kmalloc]. *)
Fixpoint kmalloc_loop (fuel : nat) (h : heap) (curr size : Z) : outcome (Z * heap) :=
  match fuel with
  | O => NoFuel
  | S fuel' =>
      h1 ← (if curr >=? heap_end h
            then '(_, h') ← get_more_pages h 1; write_new_mem_reg h' curr
            else Ok h);
      used ← load_used (hmem h1) curr;
      if used : bool then
        next ← go_to_next_memory_region (hmem h1) curr;
        kmalloc_loop fuel' h1 next size
      else
      s ← load_size (hmem h1) curr;
      if s >=? size then
        m1 ← store_used (hmem h1) curr true;
        if u64 (s - HDR) >? size then
          m2 ← carve m1 curr size s;
          Ok (curr + HDR, with_mem h1 m2)
        else Ok (curr + HDR, with_mem h1 m1)
      else
        next ← go_to_next_memory_region (hmem h1) curr;
        h2 ← grow_at h1 next (size - s);
        '(r, h3) ← merge_loop fuel' h2 curr next s size;
        match r with
        | Found p => Ok (p, h3)
        | Blocked nx =>
            curr' ← go_to_next_memory_region (hmem h3) nx;
            kmalloc_loop fuel' h3 curr' size
        end
  end.

Definition kmalloc (fuel : nat) (h : heap) (size : Z) : outcome (Z * heap) :=
  kmalloc_loop fuel h (heap_start h) size.

End Grow.

Definition kfree (h : heap) (ptr : Z) : outcome heap :=
  m ← store_used (hmem h) (ptr - HDR) false; Ok (with_mem h m).

Definition kheap_init (h : heap) : outcome heap :=
  m1 ← store_used (hmem h) (heap_start h) false;
  m2 ← store_size m1 (heap_start h) (u32 (heap_end h) - heap_start h - 5);
  Ok (with_mem h m2).

(** ** The heap as a list of regions *)

Abbreviation region := (bool * Z)%type.

Fixpoint heap_at (m : mem) (a : Z) (bs : list region) (e : Z) : Prop :=
  match bs with
  | [] => a = e
  | (used, size) :: bs' =>
      load_used m a = Ok used ∧ load_size m a = Ok size ∧ 0 ≤ size ∧
      heap_at m (a + HDR + size) bs' e
  end.

(** The regions tile the heap, and all of it is mapped. *)
Definition heap_ok (h : heap) (bs : list region) : Prop :=
  heap_at (hmem h) (heap_start h) bs (heap_end h) ∧
  mapped (hmem h) (heap_start h) (heap_end h - heap_start h) ∧
  heap_end h - heap_start h < 2 ^ 32.

(** The allocated payloads, as address and size. *)
Fixpoint live (a : Z) (bs : list region) : list (Z * Z) :=
  match bs with
  | [] => []
  | (used, size) :: bs' =>
      (if used : bool then [(a + HDR, size)] else []) ++ live (a + HDR + size) bs'
  end.

(** What a region of [total] bytes becomes when [size] of them are granted. *)
Definition carve_blocks (size total : Z) : list region :=
  if size <? total - HDR then [(true, size); (false, total - size - HDR)]
  else [(true, total)].

(** Add up free regions until [size] bytes are reached. *)
Fixpoint gather (size acc : Z) (bs : list region) : option (Z * list region) :=
  match bs with
  | (false, s) :: rest =>
      let acc' := acc + s + HDR in
      if size <=? acc' then Some (acc', rest) else gather size acc' rest
  | _ => None
  end.

(** First fit: the address granted, how many bytes from its header on the
    operation may touch, and the regions afterwards.  When several regions
    are joined and at most a header would be left over, the granted region
    keeps its old size. *)
Fixpoint place (size a : Z) (bs : list region) : option (Z * Z * list region) :=
  match bs with
  | [] => None
  | (used, s) :: rest =>
      let skip := '(p, n, rest') ← place size (a + HDR + s) rest;
                  Some (p, n, (used, s) :: rest') in
      if used then skip
      else if size <=? s then Some (a + HDR, HDR + s, carve_blocks size s ++ rest)
      else match gather size s rest with
           | Some (total, rest') =>
               Some (a + HDR, HDR + total,
                     if size <? total - HDR then carve_blocks size total ++ rest'
                     else (true, s) :: rest)
           | None => skip
           end
  end.

(** A free region that can hold a request has room for a header, or the test
    for splitting it wraps around: [sizeof] is subtracted from its size. *)
Definition header_room (size : Z) (bs : list region) : Prop :=
  ∀ s, (false, s) ∈ bs → size ≤ s → HDR ≤ s.

Lemma header_room_5 size bs : 5 ≤ size → header_room size bs.
Proof. intros Hsz s _ Hs. unfold HDR. lia. Qed.

(** ** Headers in memory *)

Lemma load_used_agree m m' r : m' !! r = m !! r → load_used m' r = load_used m r.
Proof. intros Hr. unfold load_used, load8. by rewrite Hr. Qed.

Lemma load_size_agree m m' r :
  (∀ i, r + 1 ≤ i < r + HDR → m' !! i = m !! i) → load_size m' r = load_size m r.
Proof. intros Hr. apply load32_agree. intros. apply Hr. unfold HDR. lia. Qed.

Lemma heap_at_end m a bs e : heap_at m a bs e → a ≤ e.
Proof.
  revert a. induction bs as [|[u s] bs IH]; intros a; simpl; [lia |].
  intros (_ & _ & Hs & Ha%IH). unfold HDR in *. lia.
Qed.

(** Regions only depend on the bytes they span. *)
Lemma heap_at_agree m m' a bs e :
  (∀ i, a ≤ i < e → m' !! i = m !! i) → heap_at m a bs e → heap_at m' a bs e.
Proof.
  revert a. induction bs as [|[u s] bs IH]; intros a Hm; simpl; [done |].
  intros (Hu & Hsz & Hs & Ha). pose proof (heap_at_end _ _ _ _ Ha) as Hle.
  unfold HDR in *. split_and!; [| | done |].
  - rewrite <- Hu. apply load_used_agree, Hm. lia.
  - rewrite <- Hsz. apply load_size_agree. intros. apply Hm. unfold HDR in *. lia.
  - apply IH; [| done]. intros. apply Hm. lia.
Qed.

Lemma heap_at_app m a bs1 bs2 e :
  heap_at m a (bs1 ++ bs2) e ↔ ∃ b, heap_at m a bs1 b ∧ heap_at m b bs2 e.
Proof.
  revert a. induction bs1 as [|[u s] bs1 IH]; intros a; simpl.
  - split; [eauto |]. by intros (b & -> & ?).
  - split.
    + intros (? & ? & ? & (b & ? & ?)%IH). exists b. naive_solver.
    + intros (b & (? & ? & ? & ?) & ?). split_and!; try done. apply IH. eauto.
Qed.

Lemma store_used_spec m r b :
  is_Some (m !! r) →
  ∃ m', store_used m r b = Ok m' ∧ load_used m' r = Ok b ∧
    agree_outside r 1 m m' ∧ (∀ a n, mapped m a n → mapped m' a n).
Proof.
  intros Hr. unfold store_used. rewrite store8_Ok by done. eexists. split_and!; [done | | |].
  - unfold load_used, load8. rewrite lookup_insert_eq. by destruct b.
  - intros i Hi. by rewrite lookup_insert_ne by lia.
  - auto with titan.
Qed.

Lemma store_size_spec m r v :
  mapped m (r + 1) 4 →
  ∃ m', store_size m r v = Ok m' ∧ load_size m' r = Ok (u32 v) ∧
    agree_outside (r + 1) 4 m m' ∧ (∀ a n, mapped m a n → mapped m' a n).
Proof.
  intros Hr. unfold store_size. rewrite store32_Ok by done. eexists. split_and!; [done | | |].
  - apply load32_put32.
  - intros i Hi. by apply put32_other.
  - auto with titan.
Qed.

(** Marking a region used keeps its size. *)
Lemma mark_used_spec m r s :
  load_size m r = Ok s → is_Some (m !! r) →
  ∃ m', store_used m r true = Ok m' ∧ load_used m' r = Ok true ∧ load_size m' r = Ok s ∧
    agree_outside r 1 m m' ∧ (∀ a n, mapped m a n → mapped m' a n).
Proof.
  intros Hs Hr. destruct (store_used_spec m r true Hr) as (m' & ? & ? & Ha & ?).
  exists m'. split_and!; try done. rewrite <- Hs. apply load_size_agree.
  intros. apply Ha. lia.
Qed.

Lemma carve_spec m curr size total :
  mapped m curr (HDR + total) → load_used m curr = Ok true →
  0 ≤ size < total - HDR → total < 2 ^ 32 →
  ∃ m', carve m curr size total = Ok m' ∧
    heap_at m' curr [(true, size); (false, total - size - HDR)] (curr + HDR + total) ∧
    agree_outside curr (HDR + total) m m' ∧ (∀ a n, mapped m a n → mapped m' a n).
Proof.
  intros Hm Hu Hs Ht. unfold carve, HDR in *.
  destruct (store_size_spec m curr size) as (m1 & -> & Hs1 & Ha1 & Hm1);
    [apply (mapped_sub _ _ _ _ _ Hm); lia |].
  rewrite u32_small in Hs1 by lia. out_simpl.
  unfold go_to_next_memory_region. rewrite Hs1. out_simpl.
  destruct (store_used_spec m1 (curr + size + 5) false) as (m2 & -> & Hu2 & Ha2 & Hm2);
    [apply (Hm1 _ _ Hm); lia |]. out_simpl.
  destruct (store_size_spec m2 (curr + size + 5) (total - size - 5)) as (m3 & -> & Hs3 & Ha3 & Hm3);
    [apply (mapped_sub _ curr (5 + total)); [by apply Hm2, Hm1 | lia | lia] |].
  rewrite u32_small in Hs3 by lia. unfold agree_outside in *.
  exists m3. simpl heap_at. unfold HDR. split_and!.
  - done.
  - rewrite <- Hu. apply load_used_agree. by rewrite Ha3, Ha2, Ha1 by lia.
  - rewrite <- Hs1. apply load_size_agree. intros i Hi. unfold HDR in *.
    by rewrite Ha3, Ha2 by lia.
  - lia.
  - replace (curr + 5 + size) with (curr + size + 5) by lia.
    rewrite <- Hu2. apply load_used_agree, Ha3. lia.
  - replace (curr + 5 + size) with (curr + size + 5) by lia. done.
  - lia.
  - unfold HDR. lia.
  - intros i Hi. by rewrite Ha3, Ha2, Ha1 by lia.
  - intros a n ?. by apply Hm3, Hm2, Hm1.
Qed.

(** ** Adding up free regions *)

(** The regions from the first used one on. *)
Fixpoint drop_free (bs : list region) : list region :=
  match bs with
  | (false, _) :: rest => drop_free rest
  | _ => bs
  end.

(** The heap cannot grow: [vmm_lengthen] refuses and nothing is mapped at the
    end of the heap. *)
Definition stuck (vmm_lengthen : mem → Z → Z → outcome (bool * mem)) (h : heap) : Prop :=
  vmm_lengthen (hmem h) (heap_start h) 0x1000 = Ok (false, hmem h) ∧
  hmem h !! heap_end h = None.

Lemma with_mem_id h : with_mem h (hmem h) = h.
Proof. by destruct h. Qed.

Lemma heap_at_cons_lt m a b bs e : heap_at m a (b :: bs) e → a < e.
Proof.
  destruct b as [u s]. intros (_ & _ & ? & ?%heap_at_end). unfold HDR in *. lia.
Qed.

(** The bytes a list of regions spans. *)
Fixpoint span (bs : list region) : Z :=
  match bs with
  | [] => 0
  | (_, s) :: rest => HDR + s + span rest
  end.

Lemma heap_at_span m a bs e : heap_at m a bs e → e = a + span bs.
Proof.
  revert a. induction bs as [|[u s] bs IH]; intros a; simpl; [lia |].
  intros (_ & _ & _ & ->%IH). lia.
Qed.

Definition prepend (pre : list region) (r : option (Z * Z * list region)) :=
  '(p, n, bs) ← r; Some (p, n, pre ++ bs).

Lemma prepend_app pre pre' r : prepend pre (prepend pre' r) = prepend (pre ++ pre') r.
Proof. destruct r as [[[p n] bs]|]; [| done]. unfold prepend. simpl. by rewrite app_assoc. Qed.

Lemma gather_mono size acc acc' bs :
  gather size acc bs = None → acc' ≤ acc → gather size acc' bs = None.
Proof.
  revert acc acc'. induction bs as [|[[] s] bs IH]; intros acc acc' Hg Hle; simpl in *; try done.
  revert Hg. zcase; [done |]. intros Hg. zdec. eapply IH; [done | lia].
Qed.

Lemma drop_free_head bs b rest : drop_free bs = b :: rest → b.1 = true.
Proof.
  induction bs as [|[[] s] bs IH]; simpl; [done | | done]. by intros [= <- _].
Qed.

(** A run of free regions that is too small for [size] is skipped. *)
Lemma place_skip_free size acc bs :
  gather size acc bs = None → 0 ≤ acc →
  Forall (λ b, 0 ≤ b.2) bs →
  ∃ pre, bs = pre ++ drop_free bs ∧
    ∀ a, place size a bs = prepend pre (place size (a + span pre) (drop_free bs)).
Proof.
  revert acc. induction bs as [|[[] s] bs IH]; intros acc Hg Hacc Hs.
  { by exists []. }
  { exists []. split; [done |]. intros a. simpl. rewrite Z.add_0_r.
    destruct (place size (a + HDR + s) bs) as [[[? ?] ?]|]; done. }
  simpl in Hg. revert Hg. apply Forall_cons in Hs as [Hs0 Hs]. simpl in Hs0.
  zcase; [done |]. intros Hg. unfold HDR in *.
  destruct (IH (acc + s + 5) Hg ltac:(lia) Hs) as (pre & Heq & Hp).
  exists ((false, s) :: pre). split; [simpl; by f_equal |]. intros a.
  change (drop_free ((false, s) :: bs)) with (drop_free bs).
  change ((false, s) :: pre) with ([(false, s)] ++ pre).
  rewrite <- prepend_app. simpl span. unfold HDR.
  replace (a + (5 + s + span pre)) with (a + 5 + s + span pre) by lia.
  rewrite <- Hp. simpl place. zdec.
  rewrite (gather_mono _ _ s _ Hg) by lia. done.
Qed.

Lemma heap_at_sizes m a bs e : heap_at m a bs e → Forall (λ b, 0 ≤ b.2) bs.
Proof.
  revert a. induction bs as [|[u s] bs IH]; intros a; [constructor |].
  intros (_ & _ & ? & ?). constructor; eauto.
Qed.

Section GrowLemmas.
Context (vmm_lengthen : mem → Z → Z → outcome (bool * mem)).
Local Abbreviation merge_loop := (merge_loop vmm_lengthen).
Local Abbreviation grow_at := (grow_at vmm_lengthen).

Lemma grow_at_inside h next missing : next < heap_end h → grow_at h next missing = Ok h.
Proof. intros. unfold KHeap.grow_at. rewrite Z.geb_leb. by zdec. Qed.

Lemma get_more_pages_stuck h n :
  stuck vmm_lengthen h → get_more_pages vmm_lengthen h n = Ok (false, h).
Proof. intros [Hl _]. unfold get_more_pages. rewrite Hl. out_simpl. by destruct h. Qed.

Lemma grow_at_stuck h next missing : stuck vmm_lengthen h → grow_at h next missing = Ok h.
Proof.
  intros Hs. unfold KHeap.grow_at. zcase; [| done].
  rewrite get_more_pages_stuck by done. done.
Qed.

(** What the joining loop does when it starts at [next] with [acc] bytes
    collected behind the header of [curr]. *)
Definition merge_post (h : heap) (curr next acc size : Z) (bs : list region)
    (r : outcome (merge_result * heap)) : Prop :=
  match gather size acc bs with
  | Some (total, rest) =>
      ∃ m', r = Ok (Found (curr + HDR), with_mem h m') ∧
        (∀ a n, mapped (hmem h) a n → mapped m' a n) ∧
        if size <? total - HDR then
          heap_at m' curr (carve_blocks size total ++ rest) (heap_end h) ∧
          agree_outside curr (HDR + total) (hmem h) m'
        else load_used m' curr = Ok true ∧ agree_outside curr 1 (hmem h) m'
  | None =>
      match drop_free bs with
      | [] => stuck vmm_lengthen h → r = Fault (PageFault (heap_end h))
      | b :: rest => ∃ nx, r = Ok (Blocked nx, h) ∧
          heap_at (hmem h) nx (b :: rest) (heap_end h)
      end
  end.

Lemma gather_bound size acc bs total rest m a e :
  gather size acc bs = Some (total, rest) → heap_at m a bs e →
  size ≤ total ∧ heap_at m (a - acc + total) rest e.
Proof.
  revert acc a. induction bs as [|[[] s] bs IH]; intros acc a Hg; simpl in Hg; try done.
  intros (_ & _ & Hs & Ha). revert Hg. zcase.
  - intros [= <- <-]. split; [lia |]. by replace (a - acc + (acc + s + HDR)) with (a + HDR + s) by lia.
  - intros Hg. destruct (IH _ _ Hg Ha) as [? Hr]. split; [done |].
    by replace (a - acc + total) with (a + HDR + s - (acc + s + HDR) + total) by lia.
Qed.

Lemma merge_loop_spec fuel h curr next acc size bs :
  (length bs < fuel)%nat →
  heap_at (hmem h) next bs (heap_end h) → next = curr + HDR + acc →
  mapped (hmem h) curr (heap_end h - curr) → heap_end h - curr < 2 ^ 32 →
  0 ≤ acc < size →
  merge_post h curr next acc size bs (merge_loop fuel h curr next acc size).
Proof.
  revert fuel next acc. induction bs as [|[u s] bs IH]; intros fuel next acc Hf Hat Hn Hm Hlt Hacc;
    (destruct fuel as [|fuel]; [simpl in Hf; lia |]); unfold merge_post; simpl.
  { intros [_ Hs]. simpl in Hat. rewrite Hat. unfold load_used, load8. by rewrite Hs. }
  pose proof Hat as Hat'. destruct Hat' as (Hu & Hsz & Hs & Hrest).
  pose proof (heap_at_end _ _ _ _ Hrest) as Hle. unfold HDR in *.
  rewrite Hu. out_simpl. destruct u.
  { exists next. by split. }
  rewrite Hsz. out_simpl.
  rewrite (u32_small (s + 5)), (u32_small (acc + (s + 5))), !Z.geb_leb, Z.gtb_ltb by lia.
  rewrite !(Z.add_assoc acc s 5).
  destruct (size <=? acc + s + 5) eqn:E; zbool.
  - destruct (store_used_spec (hmem h) curr true) as (m1 & -> & Hu1 & Ha1 & Hm1);
      [apply Hm; lia |]. out_simpl.
    rewrite u32_small by lia. destruct (size <? acc + s + 5 - 5) eqn:E'; zbool.
    + destruct (carve_spec m1 curr size (acc + s + 5)) as (m2 & -> & Hat2 & Ha2 & Hm2).
      * apply Hm1. apply (mapped_sub _ curr (heap_end h - curr)); [done | |]; unfold HDR; lia.
      * done.
      * unfold HDR. lia.
      * lia.
      * out_simpl. unfold HDR, agree_outside in *. exists m2.
        split; [done |]. split; [auto |]. split.
        -- unfold carve_blocks, HDR. zdec. apply heap_at_app. eexists. split; [exact Hat2 |].
           apply (heap_at_agree (hmem h)).
           ++ intros i Hi. by rewrite Ha2, Ha1 by lia.
           ++ by replace (curr + 5 + (acc + s + 5)) with (next + 5 + s) by lia.
        -- intros i Hi. by rewrite Ha2, Ha1 by lia.
    + exists m1. by split_and!.
  - unfold go_to_next_memory_region. rewrite Hsz. out_simpl.
    specialize (IH fuel (next + s + 5) (acc + s + 5) ltac:(lia)).
    replace (next + 5 + s) with (next + s + 5) in Hrest by lia.
    specialize (IH Hrest ltac:(lia) Hm ltac:(lia) ltac:(lia)).
    unfold merge_post in IH. destruct bs as [|b bs'].
    + intros Hst. rewrite grow_at_stuck by done. by apply IH.
    + rewrite grow_at_inside by (by eapply heap_at_cons_lt). exact IH.
Qed.

(** What the outer loop does from [curr] on. *)
Definition kmalloc_post (h : heap) (curr size : Z) (bs : list region)
    (r : outcome (Z * heap)) : Prop :=
  match place size curr bs with
  | Some (p, n, bs') =>
      ∃ m', r = Ok (p, with_mem h m') ∧ heap_at m' curr bs' (heap_end h) ∧
        agree_outside (p - HDR) n (hmem h) m' ∧ curr ≤ p - HDR ∧
        (∀ a n, mapped (hmem h) a n → mapped m' a n)
  | None => stuck vmm_lengthen h → r = Fault (PageFault (heap_end h))
  end.

(** Skipping over regions the search leaves alone. *)
Lemma kmalloc_post_skip h curr curr' size pre bs r :
  heap_at (hmem h) curr pre curr' → kmalloc_post h curr' size bs r →
  place size curr (pre ++ bs) = prepend pre (place size curr' bs) →
  kmalloc_post h curr size (pre ++ bs) r.
Proof.
  intros Hpre Hpost Hp. unfold kmalloc_post in *. rewrite Hp.
  destruct (place size curr' bs) as [[[p n] bs']|]; simpl; [| done].
  destruct Hpost as (m' & Hr & Hat & Ha & Hle & Hm).
  pose proof (heap_at_end _ _ _ _ Hpre).
  exists m'. split_and!; try done; [| lia]. apply heap_at_app. exists curr'.
  split; [| done]. apply (heap_at_agree (hmem h)); [| done].
  intros i Hi. apply Ha. lia.
Qed.

(** The same, or a free region without room for a header is taken. *)
Definition kmalloc_result (h : heap) (curr size : Z) (bs : list region) (r : outcome (Z * heap)) : Prop :=
  kmalloc_post h curr size bs r ∨ (¬ header_room size bs ∧ r ≠ NoFuel).

Lemma kmalloc_result_skip h curr curr' size pre bs r :
  heap_at (hmem h) curr pre curr' → kmalloc_result h curr' size bs r →
  place size curr (pre ++ bs) = prepend pre (place size curr' bs) →
  kmalloc_result h curr size (pre ++ bs) r.
Proof.
  intros Hpre [Hpost|[Hroom Hr]] Hp; [left; by eapply kmalloc_post_skip |]. right. split; [| done].
  intros Hall. apply Hroom. intros s Hs. apply Hall. apply elem_of_app. by right.
Qed.

#[local] Arguments heap_at : simpl never.

Lemma kmalloc_end h curr size fuel :
  curr = heap_end h → stuck vmm_lengthen h →
  kmalloc_loop vmm_lengthen (S fuel) h curr size = Fault (PageFault (heap_end h)).
Proof.
  intros -> Hst. simpl. rewrite Z.geb_leb, Z.leb_refl.
  rewrite get_more_pages_stuck by done. out_simpl.
  unfold write_new_mem_reg, store_used. rewrite store8_fault by apply Hst. done.
Qed.

(** A free region without room for a header is taken as well, with what
    [carve] then writes. *)
Lemma kmalloc_take_small h curr size s rest fuel :
  heap_at (hmem h) curr ((false, s) :: rest) (heap_end h) → size ≤ s →
  kmalloc_loop vmm_lengthen (S fuel) h curr size ≠ NoFuel.
Proof.
  intros Hat Hsz. pose proof (heap_at_cons_lt _ _ _ _ _ Hat).
  destruct Hat as (Hu & Hs & _). cbn [kmalloc_loop]. rewrite !Z.geb_leb. zdec. out_red.
  rewrite Hu. out_red. rewrite Hs. out_red. rewrite Z.geb_leb. zdec.
  unfold carve, go_to_next_memory_region, load_size, store_used, store_size.
  total.
Qed.

(** A free region that is large enough is taken. *)
Lemma kmalloc_take h curr size s rest fuel :
  heap_at (hmem h) curr ((false, s) :: rest) (heap_end h) →
  mapped (hmem h) curr (heap_end h - curr) → heap_end h - curr < 2 ^ 32 →
  0 ≤ size ≤ s → HDR ≤ s →
  kmalloc_post h curr size ((false, s) :: rest)
    (kmalloc_loop vmm_lengthen (S fuel) h curr size).
Proof.
  intros Hat Hm Hlt Hsz Hroom. pose proof (heap_at_cons_lt _ _ _ _ _ Hat).
  destruct Hat as (Hu & Hs & Hs0 & Hrest). pose proof (heap_at_end _ _ _ _ Hrest).
  unfold kmalloc_post, HDR in *. simpl. rewrite !Z.geb_leb. zdec. out_simpl.
  rewrite Hu. out_simpl.
  rewrite Hs. out_simpl. rewrite Z.geb_leb. zdec.
  destruct (mark_used_spec (hmem h) curr s Hs) as (m1 & -> & Hu1 & Hs1 & Ha1 & Hm1);
    [apply Hm; lia |]. out_simpl.
  unfold carve_blocks, HDR, agree_outside in *. rewrite u64_small, Z.gtb_ltb by lia.
  destruct (size <? s - 5) eqn:E; zbool.
  - destruct (carve_spec m1 curr size s) as (m2 & -> & Hat2 & Ha2 & Hm2);
      [apply Hm1, (mapped_sub _ curr (heap_end h - curr)); [done | |]; unfold HDR; lia
      | done | unfold HDR; lia | lia |].
    out_simpl. unfold HDR, agree_outside in *. exists m2. split; [done |]. split; [| split_and!; [| lia | auto]].
    + apply (heap_at_app _ _ [_; _] rest). exists (curr + 5 + s). split; [exact Hat2 |].
      apply (heap_at_agree (hmem h)); [| done].
      intros i Hi. by rewrite Ha2, Ha1 by lia.
    + intros i Hi. by rewrite Ha2, Ha1 by lia.
  - exists m1. split; [done |]. split; [split_and!; try done |].
    + apply (heap_at_agree (hmem h)); [| done]. intros i Hi. apply Ha1. unfold HDR in *. lia.
    + split_and!; [| lia | done]. intros i Hi. apply Ha1. lia.
Qed.

(** Joining the free regions behind a free region that is too small. *)
Lemma kmalloc_join h curr size s rest total rest' fuel :
  heap_at (hmem h) curr ((false, s) :: rest) (heap_end h) →
  mapped (hmem h) curr (heap_end h - curr) → heap_end h - curr < 2 ^ 32 →
  s < size → gather size s rest = Some (total, rest') → (length rest < fuel)%nat →
  kmalloc_post h curr size ((false, s) :: rest)
    (kmalloc_loop vmm_lengthen (S fuel) h curr size).
Proof.
  intros Hat Hm Hlt Hsz Hg Hf. pose proof (heap_at_cons_lt _ _ _ _ _ Hat).
  destruct Hat as (Hu & Hs & Hs0 & Hrest).
  pose proof (merge_loop_spec fuel h curr (curr + HDR + s) s size rest Hf Hrest
    eq_refl Hm Hlt ltac:(lia)) as Hmp.
  unfold merge_post in Hmp. rewrite Hg in Hmp. destruct Hmp as (m' & Hml & Hm' & Hpost).
  destruct (gather_bound _ _ _ _ _ _ _ _ Hg Hrest) as [Hts Hr%heap_at_end].
  unfold kmalloc_post. simpl. rewrite Hg, Z.geb_leb. clear Hf.
  assert (curr + HDR + s < heap_end h).
  { destruct rest; [done |]. by eapply heap_at_cons_lt. }
  clear Hg. zdec. out_simpl. rewrite Hu. out_simpl.
  rewrite Hs. out_simpl. rewrite Z.geb_leb. zdec.
  unfold go_to_next_memory_region at 1. rewrite Hs. out_simpl.
  replace (curr + s + 5) with (curr + HDR + s) by (unfold HDR; lia).
  rewrite grow_at_inside by done. out_simpl. rewrite Hml. out_simpl.
  exists m'. replace (curr + HDR - HDR) with curr by lia.
  unfold HDR, agree_outside in *.
  destruct (size <? total - 5); destruct Hpost as [Hp1 Hp2];
    (split; [done |]); (split; [| split_and!; [| lia | done]]); try done.
  - split; [done |]. split; [| split; [done |]].
    + rewrite <- Hs. apply load_size_agree. intros i Hi. apply Hp2. lia.
    + apply (heap_at_agree (hmem h)); [| done]. intros i Hi. apply Hp2. unfold HDR in *. lia.
  - intros i Hi. apply Hp2. lia.
Qed.

Lemma kmalloc_loop_spec fuel h curr size bs :
  (length bs < fuel)%nat →
  heap_at (hmem h) curr bs (heap_end h) →
  mapped (hmem h) curr (heap_end h - curr) → heap_end h - curr < 2 ^ 32 →
  0 ≤ size →
  kmalloc_result h curr size bs (kmalloc_loop vmm_lengthen fuel h curr size).
Proof.
  revert curr bs. induction fuel as [|fuel IH]; intros curr bs Hf Hat Hm Hlt Hsz; [lia |].
  destruct bs as [|[u s] rest]; [left; intros Hst; by apply kmalloc_end |].
  pose proof (heap_at_cons_lt _ _ _ _ _ Hat) as Hc. pose proof Hat as (Hu & Hs & Hs0 & Hrest).
  assert (∀ curr' bs', heap_at (hmem h) curr' bs' (heap_end h) → (length bs' < fuel)%nat →
    curr ≤ curr' → kmalloc_result h curr' size bs' (kmalloc_loop vmm_lengthen fuel h curr' size))
    as IH'.
  { intros curr' bs' Hat' Hl' Hle. apply IH; try done; [| lia].
    pose proof (heap_at_end _ _ _ _ Hat').
    apply (mapped_sub _ curr (heap_end h - curr)); [done | lia | lia]. }
  simpl in Hf. destruct u.
  { apply (kmalloc_result_skip h curr (curr + HDR + s) size [(true, s)] rest); [by split_and! | | done].
    simpl. rewrite Z.geb_leb. zdec. out_step. rewrite Hu. out_step.
    unfold go_to_next_memory_region. rewrite Hs. out_step.
    replace (curr + s + 5) with (curr + HDR + s) by (unfold HDR; lia).
    apply IH'; [done | lia | unfold HDR; lia]. }
  destruct (decide (size ≤ s)).
  { destruct (decide (HDR ≤ s)); [left; by apply kmalloc_take |]. right. split; [| by eapply kmalloc_take_small].
    intros Hroom. apply (Hroom s) in l; [done | left]. }
  destruct (gather size s rest) as [[total rest']|] eqn:Hg;
    [left; eapply kmalloc_join; eauto; lia |].
  destruct (place_skip_free size s rest Hg Hs0) as (pre & Heq & Hpl);
    [by eapply heap_at_sizes |].
  pose proof (merge_loop_spec fuel h curr (curr + HDR + s) s size rest ltac:(lia) Hrest
    eq_refl Hm Hlt ltac:(lia)) as Hmp. unfold merge_post in Hmp. rewrite Hg in Hmp.
  assert (place size curr ((false, s) :: rest) =
          prepend ((false, s) :: pre) (place size (curr + HDR + s + span pre) (drop_free rest)))
    as Hplace.
  { change ((false, s) :: pre) with ([(false, s)] ++ pre). rewrite <- prepend_app, <- Hpl.
    simpl. rewrite Hg. zdec. done. }
  rewrite Heq in Hrest. apply heap_at_app in Hrest as (b & Hpre & Hrest').
  assert (curr + HDR + s + span pre = b) as Hb by (symmetry; by eapply heap_at_span).
  pose proof (heap_at_end _ _ _ _ Hpre).
  rewrite Hb in Hplace.
  simpl. rewrite Z.geb_leb. zdec. out_step. rewrite Hu. out_step. rewrite Hs. out_step.
  rewrite Z.geb_leb. zdec. unfold go_to_next_memory_region at 1. rewrite Hs. out_step.
  replace (curr + s + 5) with (curr + HDR + s) by (unfold HDR; lia).
  destruct (drop_free rest) as [|[u t] rest2] eqn:Hd.
  - left. unfold kmalloc_post. rewrite Hplace. simpl. intros Hst.
    rewrite grow_at_stuck by done. out_step. by rewrite Hmp.
  - assert (curr + HDR + s < heap_end h).
    { apply heap_at_cons_lt in Hrest'. unfold HDR in *. lia. }
    rewrite grow_at_inside by done. out_step.
    destruct Hmp as (nx & -> & Hnx). out_step.
    pose proof (drop_free_head _ _ _ Hd) as Hu2. simpl in Hu2. subst u.
    pose proof (heap_at_span _ _ _ _ Hnx) as Hn1. pose proof (heap_at_span _ _ _ _ Hrest') as Hn2.
    assert (nx = b) as -> by lia. clear Hn1 Hn2.
    destruct Hrest' as (Hu2 & Hs2 & Hs20 & Hrest2).
    unfold go_to_next_memory_region. rewrite Hs2. out_step.
    replace (b + t + 5) with (b + HDR + t) by (unfold HDR; lia).
    rewrite Heq. change ((false, s) :: pre ++ (true, t) :: rest2)
      with (((false, s) :: pre) ++ [(true, t)] ++ rest2). rewrite app_assoc.
    eapply (kmalloc_result_skip h curr (b + HDR + t)).
    + apply heap_at_app. exists b. by split_and!.
    + apply IH'; [done | | unfold HDR in *; lia].
      apply (f_equal length) in Heq. rewrite length_app in Heq. simpl in Heq. lia.
    + rewrite <- prepend_app, <- app_assoc. simpl app.
      rewrite <- Heq, Hplace. done.
Qed.

End GrowLemmas.

(** ** Allocated regions *)

Lemma live_app a bs1 bs2 : live a (bs1 ++ bs2) = live a bs1 ++ live (a + span bs1) bs2.
Proof.
  revert a. induction bs1 as [|[u s] bs1 IH]; intros a; simpl; [by rewrite Z.add_0_r |].
  rewrite IH, <- app_assoc. do 3 f_equal. lia.
Qed.

Lemma span_app bs1 bs2 : span (bs1 ++ bs2) = span bs1 + span bs2.
Proof. induction bs1 as [|[u s] bs1 IH]; simpl; lia. Qed.

Abbreviation sizes_ok := (Forall (λ b : region, 0 ≤ b.2)).

Lemma span_nonneg bs : sizes_ok bs → 0 ≤ span bs.
Proof. induction 1 as [|[u s] bs Hs Hbs IH]; simpl in *; unfold HDR; lia. Qed.

(** An allocated payload lies between its header and the end of the list. *)
Lemma live_bounds a bs q s :
  sizes_ok bs → (q, s) ∈ live a bs → a + HDR ≤ q ∧ 0 ≤ s ∧ q + s ≤ a + span bs.
Proof.
  intros Hbs. revert a. induction Hbs as [|[u t] bs Ht Hbs IH]; intros a; [set_solver |].
  pose proof (span_nonneg _ Hbs). simpl in *. rewrite elem_of_app. intros [Hq|Hq].
  - destruct u; [| set_solver]. apply list_elem_of_singleton in Hq. injection Hq as -> ->.
    lia.
  - apply IH in Hq. unfold HDR in *. lia.
Qed.

(** Payloads are disjoint, with a header between any two. *)
Lemma live_disjoint a bs q s q' s' :
  sizes_ok bs → (q, s) ∈ live a bs → (q', s') ∈ live a bs →
  (q, s) = (q', s') ∨ q + s + HDR ≤ q' ∨ q' + s' + HDR ≤ q.
Proof.
  intros Hbs. revert a. induction Hbs as [|[u t] bs Ht Hbs IH]; intros a; [set_solver |].
  simpl in *. rewrite !elem_of_app.
  assert (∀ r w, (r, w) ∈ live (a + HDR + t) bs → a + HDR + t + HDR ≤ r) as Hb
    by (intros r w Hr; apply (live_bounds _ _ _ _ Hbs Hr)).
  intros [Hq|Hq] [Hq'|Hq']; [| | | by eapply IH].
  all: destruct u; [| set_solver].
  - apply list_elem_of_singleton in Hq, Hq'. left. congruence.
  - apply list_elem_of_singleton in Hq. injection Hq as -> ->. apply Hb in Hq'. lia.
  - apply list_elem_of_singleton in Hq'. injection Hq' as -> ->. apply Hb in Hq. lia.
Qed.

Lemma gather_split size acc bs total rest :
  gather size acc bs = Some (total, rest) →
  ∃ frees, bs = frees ++ rest ∧ total = acc + span frees ∧ size ≤ total ∧
    ∀ a, live a frees = [].
Proof.
  revert acc. induction bs as [|[[] s] bs IH]; intros acc Hg; simpl in Hg; try done.
  revert Hg. zcase.
  - intros [= <- <-]. exists [(false, s)]. simpl. split_and!; [done | lia | lia | done].
  - intros (fr & -> & -> & Hle & Hl)%IH. exists ((false, s) :: fr). simpl.
    split_and!; [done | lia | done |]. intros a. apply Hl.
Qed.

(** The granted region is joined from free ones, with at most a header left
    over: it keeps the size [g] of the first of them. *)
Definition joined_short (size a : Z) (bs : list region) (p n g : Z) : Prop :=
  g < size ∧ ∃ pre rest rest', bs = pre ++ (false, g) :: rest ∧ p = a + span pre + HDR ∧
    gather size g rest = Some (n - HDR, rest') ∧ n - HDR ≤ size + HDR.

Lemma joined_short_skip size a u s bs p n g :
  joined_short size (a + HDR + s) bs p n g → joined_short size a ((u, s) :: bs) p n g.
Proof.
  intros [Hg (pre & rest & rest' & -> & -> & Hga & Hn)]. split; [done |].
  exists ((u, s) :: pre), rest, rest'. simpl. split_and!; [done | lia | done | done].
Qed.

(** What [place] does, independently of the search: a run of free regions is
    replaced by regions of the same span, of which exactly the first is
    allocated. *)
Lemma place_inv size a bs p n bs' :
  place size a bs = Some (p, n, bs') → sizes_ok bs → 0 ≤ size →
  ∃ pre run post g run', bs = pre ++ run ++ post ∧ bs' = pre ++ ((true, g) :: run') ++ post ∧
    p = a + span pre + HDR ∧ n = span run ∧ span ((true, g) :: run') = span run ∧
    0 ≤ g ∧ sizes_ok run' ∧ (∀ b, live b run = []) ∧ (∀ b, live b run' = []) ∧
    size + HDR ≤ n ∧ (size ≤ g ∨ joined_short size a bs p n g).
Proof.
  revert a bs'. induction bs as [|[u s] bs IH]; intros a bs' Hp Hbs Hsz; [done |].
  apply Forall_cons in Hbs as [Hs Hbs]. simpl in Hs. simpl in Hp.
  assert ((prepend [(u, s)] (place size (a + HDR + s) bs)) = Some (p, n, bs') →
    ∃ pre run post g run', (u, s) :: bs = pre ++ run ++ post ∧
    bs' = pre ++ ((true, g) :: run') ++ post ∧
    p = a + span pre + HDR ∧ n = span run ∧ span ((true, g) :: run') = span run ∧
    0 ≤ g ∧ sizes_ok run' ∧ (∀ b, live b run = []) ∧ (∀ b, live b run' = []) ∧
    size + HDR ≤ n ∧ (size ≤ g ∨ joined_short size a ((u, s) :: bs) p n g)) as Hskip.
  { destruct (place size (a + HDR + s) bs) as [[[p0 n0] bs0]|] eqn:Hpl; [| done].
    intros [= -> -> <-]. destruct (IH _ _ Hpl Hbs Hsz) as (pre & run & post & g & run' & -> & -> & Hr).
    exists ((u, s) :: pre), run, post, g, run'. simpl span. split; [done |]. split; [done |].
    destruct Hr as (Hpe & Hr1 & Hr2 & Hr3 & Hr4 & Hr5 & Hr6 & Hr7 & Hr8). split; [lia |].
    split_and!; try done. destruct Hr8; [by left | right; by apply joined_short_skip]. }
  destruct u; [by apply Hskip |].
  assert (∀ total, 0 ≤ total → size ≤ total → ∃ g run', carve_blocks size total = (true, g) :: run' ∧
     span ((true, g) :: run') = HDR + total ∧ 0 ≤ g ∧ sizes_ok run' ∧
     (∀ b, live b run' = []) ∧ size ≤ g) as Hcarve.
  { intros total Ht Hle. unfold carve_blocks. zcase.
    - exists size, [(false, total - size - HDR)]. simpl. unfold HDR in *.
      split_and!; try done; [lia |]. repeat constructor. simpl. lia.
    - exists total, []. simpl. split_and!; try done. lia. }
  revert Hp. zcase.
  - intros [= <- <- <-]. destruct (Hcarve s) as (g & run' & -> & Hsp & Hg & Hok & Hl & Hge); [lia | lia |].
    exists [], [(false, s)], bs, g, run'. simpl span in *.
    split_and!; try done; try lia.
  - destruct (gather size s bs) as [[total rest]|] eqn:Hg; [| by apply Hskip].
    destruct (gather_split _ _ _ _ _ Hg) as (fr & -> & -> & Hle & Hl).
    apply Forall_app in Hbs as [Hfr Hrest]. pose proof (span_nonneg _ Hfr).
    intros [= <- <- <-]. zcase.
    + destruct (Hcarve (s + span fr)) as (g & run' & -> & Hsp & Hg0 & Hok & Hl' & Hge); [lia | lia |].
      exists [], ((false, s) :: fr), rest, g, run'. simpl span in *.
      split_and!; try done; try lia. intros b. apply Hl.
    + exists [], ((false, s) :: fr), rest, s, fr. simpl span in *.
      split_and!; try done; try lia; [intros b; apply Hl |]. right. split; [lia |].
      exists [], (fr ++ rest), rest. simpl. rewrite Z.add_simpl_l. unfold HDR in *. split_and!; [done | lia | done | lia].
Qed.

(** Allocated bytes lie outside what an allocation touches. *)
(** The first region that is free and has room for a header more. *)
Lemma place_behind us n s bs a :
  Forall (λ b, b.1 = true) us → 0 ≤ n → n + HDR < s →
  place n a (us ++ (false, s) :: bs) =
    Some (a + span us + HDR, HDR + s, us ++ (true, n) :: (false, s - n - HDR) :: bs).
Proof.
  intros Hus Hn Hs. revert a. induction us as [|[u k] us IH]; intros a.
  - cbn [app place]. unfold HDR in *. rewrite (proj2 (Z.leb_le n s)) by lia. unfold carve_blocks, HDR.
    rewrite (proj2 (Z.ltb_lt _ _)) by lia. cbn [span app]. do 3 f_equal. lia.
  - apply Forall_cons in Hus as [Hu Hus]. cbn in Hu. subst u. cbn [app place span]. rewrite (IH Hus).
    cbn [mbind option_bind]. do 3 f_equal. lia.
Qed.

Lemma place_live size a bs p n bs' :
  place size a bs = Some (p, n, bs') → sizes_ok bs → 0 ≤ size →
  ∃ g, live a bs' ≡ₚ (p, g) :: live a bs ∧ sizes_ok bs' ∧
    (size ≤ g ∨ joined_short size a bs p n g) ∧ size + HDR ≤ n ∧ p - HDR + n ≤ a + span bs ∧
    (∀ q s, (q, s) ∈ live a bs → q + s ≤ p - HDR ∨ p - HDR + n + HDR ≤ q).
Proof.
  intros Hp Hbs Hsz.
  destruct (place_inv _ _ _ _ _ _ Hp Hbs Hsz)
    as (pre & run & post & g & run' & -> & -> & -> & -> & Hsp & Hg & Hok & Hl & Hl' & Hn & Hd).
  apply Forall_app in Hbs as [Hpre Hbs]. apply Forall_app in Hbs as [Hrun Hpost].
  pose proof (span_nonneg _ Hpost). exists g. split_and!.
  - rewrite !live_app, Hl, Hsp. simpl live. rewrite Hl'.
    simpl. by rewrite <- Permutation_middle.
  - apply Forall_app. split; [done |]. apply Forall_app. split; [| done].
    by constructor.
  - done.
  - lia.
  - rewrite !span_app. lia.
  - intros q s. rewrite !live_app, Hl. simpl. rewrite elem_of_app. intros [Hq|Hq].
    + left. apply (live_bounds _ _ _ _ Hpre) in Hq. lia.
    + right. apply (live_bounds _ _ _ _ Hpost) in Hq. lia.
Qed.

Lemma heap_ok_sizes h bs : heap_ok h bs → sizes_ok bs ∧ heap_end h = heap_start h + span bs.
Proof. intros (Hat & _). split; [by eapply heap_at_sizes | by eapply heap_at_span]. Qed.

(** Same placement of the heap, and the allocated bytes unchanged. *)
Definition preserves (h h' : heap) (l : list (Z * Z)) : Prop :=
  heap_start h' = heap_start h ∧ heap_end h' = heap_end h ∧
  ∀ q s i, (q, s) ∈ l → q ≤ i < q + s → hmem h' !! i = hmem h !! i.

Lemma kmalloc_grants vmm_lengthen fuel h size bs p n bs' :
  heap_ok h bs → 0 ≤ size → header_room size bs → (length bs < fuel)%nat →
  place size (heap_start h) bs = Some (p, n, bs') →
  ∃ h', kmalloc vmm_lengthen fuel h size = Ok (p, h') ∧ heap_ok h' bs' ∧
    preserves h h' (live (heap_start h) bs) ∧
    agree_outside (p - HDR) n (hmem h) (hmem h').
Proof.
  intros Hok Hsz Hroom Hf Hp. pose proof (heap_ok_sizes _ _ Hok) as [Hbs Hend].
  destruct Hok as (Hat & Hm & Hlt).
  destruct (kmalloc_loop_spec vmm_lengthen fuel h (heap_start h) size bs Hf Hat Hm Hlt Hsz) as [Hk|[]]; [| done].
  unfold kmalloc_post in Hk. rewrite Hp in Hk. destruct Hk as (m' & Hr & Hat' & Ha & _ & Hm').
  destruct (place_live _ _ _ _ _ _ Hp Hbs ltac:(lia)) as (g & _ & _ & _ & _ & _ & Hdis).
  exists (with_mem h m'). split; [exact Hr |]. split; [split_and!; simpl; auto |].
  split; [| done]. split_and!; [done | done |]. intros q s i Hq Hi. apply Ha.
  apply Hdis in Hq. unfold HDR in *. lia.
Qed.

Lemma kmalloc_place vmm_lengthen fuel h size bs p n bs' :
  heap_ok h bs → 5 ≤ size → (length bs < fuel)%nat →
  place size (heap_start h) bs = Some (p, n, bs') →
  ∃ h', kmalloc vmm_lengthen fuel h size = Ok (p, h') ∧ heap_ok h' bs' ∧
    preserves h h' (live (heap_start h) bs) ∧
    agree_outside (p - HDR) n (hmem h) (hmem h').
Proof. intros Hok Hsz. apply kmalloc_grants; [done | lia | by apply header_room_5]. Qed.

Lemma kmalloc_none vmm_lengthen fuel h size bs :
  heap_ok h bs → 0 ≤ size → header_room size bs → (length bs < fuel)%nat → stuck vmm_lengthen h →
  place size (heap_start h) bs = None →
  kmalloc vmm_lengthen fuel h size = Fault (PageFault (heap_end h)).
Proof.
  intros (Hat & Hm & Hlt) Hsz Hroom Hf Hst Hp.
  destruct (kmalloc_loop_spec vmm_lengthen fuel h (heap_start h) size bs Hf Hat Hm Hlt Hsz) as [Hk|[]]; [| done].
  unfold kmalloc_post in Hk. rewrite Hp in Hk. by apply Hk.
Qed.

(** Every request ends when the heap cannot grow. *)
Lemma kmalloc_total vmm_lengthen fuel h size bs :
  heap_ok h bs → 0 ≤ size → (length bs < fuel)%nat → stuck vmm_lengthen h →
  kmalloc vmm_lengthen fuel h size ≠ NoFuel.
Proof.
  intros (Hat & Hm & Hlt) Hsz Hf Hst.
  destruct (kmalloc_loop_spec vmm_lengthen fuel h (heap_start h) size bs Hf Hat Hm Hlt Hsz) as [Hk|[]]; [| done].
  unfold kmalloc, kmalloc_post in *. destruct (place size (heap_start h) bs) as [[[p n] bs']|].
  - destruct Hk as (m' & -> & _). done.
  - by rewrite Hk.
Qed.

(** Freeing the region behind [pre]. *)
Lemma kfree_region h pre s post :
  heap_ok h (pre ++ (true, s) :: post) →
  ∃ h', kfree h (heap_start h + span pre + HDR) = Ok h' ∧ heap_ok h' (pre ++ (false, s) :: post) ∧
    preserves h h' (live (heap_start h) (pre ++ (true, s) :: post)).
Proof.
  intros Hok. pose proof (heap_ok_sizes _ _ Hok) as [Hbs _]. destruct Hok as (Hat & Hm & Hlt).
  apply heap_at_app in Hat as (r & Hpre & Hu & Hs & Hs0 & Hpost).
  pose proof (heap_at_end _ _ _ _ Hpre). pose proof (heap_at_end _ _ _ _ Hpost).
  pose proof (heap_at_span _ _ _ _ Hpre) as Hr. unfold kfree. rewrite Z.add_simpl_r, <- Hr.
  destruct (store_used_spec (hmem h) r false) as (m' & -> & Hu' & Ha & Hm').
  { apply Hm. unfold HDR in *. lia. }
  exists (with_mem h m'). split; [done |]. unfold heap_ok, preserves, HDR in *. split_and!.
  - simpl. apply heap_at_app. exists r. split; [| split_and!; try done].
    + apply (heap_at_agree (hmem h)); [| done]. intros i Hi. apply Ha. lia.
    + rewrite <- Hs. apply load_size_agree. intros i Hi. apply Ha. unfold HDR in *. lia.
    + apply (heap_at_agree (hmem h)); [| done]. intros i Hi. apply Ha. unfold HDR in *. lia.
  - by apply Hm'.
  - done.
  - done.
  - done.
  - intros q t i Hq Hi. apply Ha.
    assert ((r + 5, s) ∈ live (heap_start h) (pre ++ (true, s) :: post)) as Hin.
    { rewrite live_app, elem_of_app. right. simpl. unfold HDR. rewrite Hr. left. }
    destruct (live_disjoint _ _ _ _ _ _ Hbs Hin Hq) as [[= <- <-]|Hd]; unfold HDR in *; lia.
Qed.

(** Freeing an allocated region. *)
Lemma kfree_live h bs p s :
  heap_ok h bs → (p, s) ∈ live (heap_start h) bs →
  ∃ h' bs', kfree h p = Ok h' ∧ heap_ok h' bs' ∧
    live (heap_start h) bs ≡ₚ (p, s) :: live (heap_start h) bs' ∧
    preserves h h' (live (heap_start h) bs) ∧ length bs' = length bs.
Proof.
  intros Hok Hin.
  assert (∃ pre post, bs = pre ++ (true, s) :: post ∧ p = heap_start h + span pre + HDR)
    as (pre & post & -> & ->).
  { clear Hok. revert Hin. generalize (heap_start h). induction bs as [|[u t] bs IH];
      intros a; simpl; [set_solver |]. rewrite elem_of_app. intros [Hq|Hq].
    - destruct u; [| set_solver]. apply list_elem_of_singleton in Hq. injection Hq as -> ->.
      exists [], bs. simpl. split; [done | lia].
    - apply IH in Hq as (pre & post & -> & ->). exists ((u, t) :: pre), post.
      simpl. split; [done | lia]. }
  destruct (kfree_region h pre s post Hok) as (h' & Hk & Hok' & Hpr).
  exists h', (pre ++ (false, s) :: post). split_and!; try done; [| by rewrite !length_app].
  rewrite !live_app. simpl live. rewrite <- Permutation_middle. unfold HDR. by rewrite Z.add_shuffle0.
Qed.

Lemma kheap_init_ok h :
  mapped (hmem h) (heap_start h) (heap_end h - heap_start h) →
  0 ≤ heap_start h → 5 ≤ heap_end h - heap_start h < 2 ^ 32 →
  ∃ h', kheap_init h = Ok h' ∧ heap_start h' = heap_start h ∧ heap_end h' = heap_end h ∧
    heap_ok h' [(false, heap_end h - heap_start h - HDR)] ∧
    agree_outside (heap_start h) HDR (hmem h) (hmem h').
Proof.
  intros Hm H0 Hl. unfold kheap_init.
  destruct (store_used_spec (hmem h) (heap_start h) false) as (m1 & -> & Hu1 & Ha1 & Hm1);
    [apply Hm; lia |]. out_step.
  destruct (store_size_spec m1 (heap_start h) (u32 (heap_end h) - heap_start h - 5))
    as (m2 & -> & Hs2 & Ha2 & Hm2).
  { apply Hm1, (mapped_sub _ _ _ _ _ Hm); lia. }
  out_step. eexists. split; [done |]. split; [done |]. split; [done |].
  unfold heap_ok, HDR. simpl. split_and!.
  - rewrite <- Hu1. apply load_used_agree, Ha2. lia.
  - rewrite Hs2. f_equal. unfold u32. mlia.
  - lia.
  - unfold HDR. lia.
  - by apply Hm2, Hm1.
  - lia.
  - intros i Hi. by rewrite Ha2, Ha1 by lia.
Qed.

(** ** Fuel *)

(** A region takes at least a header, so this many rounds visit them all. *)
Definition heap_fuel (h : heap) : nat := S (Z.to_nat (heap_end h - heap_start h)).

Lemma length_span bs : sizes_ok bs → Z.of_nat (length bs) ≤ span bs.
Proof. induction 1 as [|[u s] bs Hs Hbs IH]; simpl in *; unfold HDR in *; lia. Qed.

Lemma heap_fuel_enough h bs : heap_ok h bs → (length bs < heap_fuel h)%nat.
Proof.
  intros [Hbs Hend]%heap_ok_sizes. apply length_span in Hbs. unfold heap_fuel. lia.
Qed.

(** [vmm_lengthen] when no object of the address space starts at the heap. *)
Definition no_growth (m : mem) (start_region inc : Z) : outcome (bool * mem) :=
  Ok (false, m).

(** The heap's invariant, for the list [l] of allocated payloads. *)
Definition heap_inv (h : heap) (l : list (Z * Z)) : Prop :=
  ∃ bs, heap_ok h bs ∧ live (heap_start h) bs ≡ₚ l ∧ hmem h !! heap_end h = None ∧
    0 ≤ heap_start h.

Lemma heap_inv_NoDup h l : heap_inv h l → NoDup l.*1.
Proof.
  intros (bs & Hok & <- & _). apply heap_ok_sizes in Hok as [Hbs _].
  generalize (heap_start h). induction Hbs as [|[u s] bs Hs Hbs IH]; intros a; simpl; [constructor |].
  destruct u; simpl; [| apply IH]. constructor; [| apply IH].
  intros ([q t] & Heq & Hq)%list_elem_of_fmap. simpl in Heq. subst q.
  apply (live_bounds _ _ _ _ Hbs) in Hq. simpl in Hs. unfold HDR in *. lia.
Qed.

Lemma heap_inv_live h l p s :
  heap_inv h l → (p, s) ∈ l → heap_start h + HDR ≤ p ∧ 0 ≤ s ∧ p + s ≤ heap_end h.
Proof.
  intros (bs & Hok & <- & _) Hin. apply heap_ok_sizes in Hok as [Hbs ->].
  by apply live_bounds.
Qed.

(** A request that is not negative and finds room for a header wherever it
    fits: all those of at least five bytes. *)
Definition servable (h : heap) (size : Z) : Prop :=
  0 ≤ size ∧ ∀ bs, heap_ok h bs → header_room size bs.

Lemma servable_5 h size : 5 ≤ size → servable h size.
Proof. intros Hsz. split; [lia |]. intros. by apply header_room_5. Qed.

(** One allocation from a state that satisfies the invariant. *)
Lemma kmalloc_inv h l size p h' :
  heap_inv h l → servable h size → kmalloc no_growth (heap_fuel h) h size = Ok (p, h') →
  ∃ bs g n, heap_inv h' ((p, g) :: l) ∧ preserves h h' l ∧ heap_ok h bs ∧
    (size ≤ g ∨ joined_short size (heap_start h) bs p n g) ∧ size + HDR ≤ n ∧ p - HDR + n ≤ heap_end h ∧
    ∀ q s, (q, s) ∈ l → q + s ≤ p - HDR ∨ p - HDR + n + HDR ≤ q.
Proof.
  intros (bs & Hok & Hl & Hnone & H0) [Hsz Hroom] Hk. pose proof (heap_fuel_enough _ _ Hok) as Hf.
  pose proof (heap_ok_sizes _ _ Hok) as [Hbs Hend]. specialize (Hroom _ Hok).
  destruct (place size (heap_start h) bs) as [[[p0 n] bs']|] eqn:Hp.
  2: { by rewrite (kmalloc_none _ _ _ _ _ Hok Hsz Hroom Hf (conj eq_refl Hnone) Hp) in Hk. }
  destruct (kmalloc_grants no_growth _ _ _ _ _ _ _ Hok Hsz Hroom Hf Hp) as (h1 & Hk' & Hok' & Hpr & Ha).
  rewrite Hk' in Hk. injection Hk as <- <-.
  destruct (place_live _ _ _ _ _ _ Hp Hbs ltac:(lia)) as (g & Hl' & _ & Hg & Hn & He & Hd).
  destruct Hpr as (Hst & He' & Hpr).
  exists bs, g, n. unfold preserves. split_and!; try done; [| | lia |].
  - exists bs'. rewrite Hst, He', Hl', Hl. split_and!; try done.
    rewrite Ha; [done | lia].
  - intros q s i Hq. apply Hpr. by rewrite Hl.
  - intros q s Hq. apply Hd. by rewrite Hl.
Qed.

Lemma kfree_inv h l p s :
  heap_inv h ((p, s) :: l) →
  ∃ h', kfree h p = Ok h' ∧ heap_inv h' l ∧ preserves h h' ((p, s) :: l).
Proof.
  intros (bs & Hok & Hl & Hnone & H0).
  destruct (kfree_live h bs p s Hok) as (h' & bs' & Hk & Hok' & Hl' & (Hst & He & Hpr) & _);
    [rewrite Hl; left |].
  exists h'. split; [done |]. split.
  - exists bs'. rewrite Hst, He. split_and!; try done.
    + apply (Permutation_cons_inv (a := (p, s))). by rewrite <- Hl', Hl.
    + unfold kfree, store_used, store8 in Hk.
      destruct (hmem h !! (p - HDR)) eqn:Hpm; [| done]. injection Hk as <-. simpl.
      destruct (decide (p - HDR = heap_end h)); [congruence |].
      by rewrite lookup_insert_ne.
  - split_and!; [done | done |]. intros q t i Hq. apply Hpr. by rewrite Hl.
Qed.

Lemma heap_at_det m a bs bs' e : heap_at m a bs e → heap_at m a bs' e → bs = bs'.
Proof.
  revert a bs'. induction bs as [|[u s] bs IH]; intros a [|[u' s'] bs'] Hat Hat'; [done | | |].
  1,2: exfalso; simpl in *; unfold HDR in *; subst;
    match goal with H : _ ∧ _ |- _ => destruct H as (_ & _ & ? & ?%heap_at_end); lia end.
  destruct Hat as (Hu & Hs & _ & Hat), Hat' as (Hu' & Hs' & _ & Hat').
  rewrite Hu in Hu'. rewrite Hs in Hs'. injection Hu' as <-. injection Hs' as <-.
  f_equal. by eapply IH.
Qed.

Lemma heap_inv_live_iff h l p :
  heap_inv h l →
  (∃ bs, heap_ok h bs ∧ p ∈ (live (heap_start h) bs).*1) ↔ p ∈ l.*1.
Proof.
  intros (bs & Hok & Hl & _). rewrite <- Hl. split; [| by exists bs].
  intros (bs' & [Hat _] & Hp). by rewrite (heap_at_det _ _ _ _ _ (proj1 Hok) Hat).
Qed.

(** The allocator as the page table code sees it. *)
#[global] Program Instance kheap_alloc : HeapAlloc heap := {|
  ha_alloc h n := kmalloc no_growth (heap_fuel h) h n;
  ha_free := kfree;
  ha_inv h := ∃ l, heap_inv h l;
  ha_live h p := ∃ bs, heap_ok h bs ∧ p ∈ (live (heap_start h) bs).*1;
|}.
Next Obligation.
  intros h n p h' [l Hinv] Hn Hk.
  destruct (kmalloc_inv _ _ _ _ _ Hinv (servable_5 _ _ Hn) Hk) as (bs0 & g & k & Hinv' & (Hst & _ & _) & _).
  pose proof (heap_inv_live _ _ p g Hinv' ltac:(left)) as Hb.
  assert (0 ≤ heap_start h) by (by destruct Hinv as (? & _ & _ & _ & ?)).
  split; [eauto |]. split; [unfold HDR in *; lia |].
  rewrite (heap_inv_live_iff _ _ _ Hinv). split.
  - apply heap_inv_NoDup in Hinv'. simpl in Hinv'. by apply NoDup_cons in Hinv' as [? _].
  - intros q. rewrite (heap_inv_live_iff _ _ _ Hinv'), (heap_inv_live_iff _ _ _ Hinv).
    simpl. by rewrite elem_of_cons.
Qed.
Next Obligation.
  intros h p [l Hinv]. rewrite (heap_inv_live_iff _ _ _ Hinv).
  intros ([q s] & -> & (l' & Hl)%elem_of_Permutation)%list_elem_of_fmap. simpl.
  assert (heap_inv h ((q, s) :: l')) as Hinv2.
  { destruct Hinv as (bs & ? & ? & ?). exists bs. by rewrite <- Hl. }
  destruct (kfree_inv _ _ _ _ Hinv2) as (h' & Hk & Hinv' & _).
  exists h'. split; [done |]. split; [eauto |]. intros r.
  rewrite (heap_inv_live_iff _ _ _ Hinv'), (heap_inv_live_iff _ _ _ Hinv2).
  apply heap_inv_NoDup in Hinv2. simpl in *. apply NoDup_cons in Hinv2 as [Hni _].
  rewrite elem_of_cons. naive_solver.
Qed.

(** ** Properties *)

(** [C26] kmalloc implements first fit with joining on the abstract block list
    when one of its blocks or runs of free blocks holds the request: it
    returns the pointer and leaves the blocks of the specification, and does
    not change the bytes of the live blocks, as long as the sizes in their
    headers say.  Every free block that holds the request has room for a
    header, as it has for requests of at least five bytes. *)
Theorem kmalloc_refines vmm_lengthen fuel h size bs p n bs' :
  heap_ok h bs → 0 ≤ size → header_room size bs → (heap_fuel h ≤ fuel)%nat →
  place size (heap_start h) bs = Some (p, n, bs') →
  ∃ h', kmalloc vmm_lengthen fuel h size = Ok (p, h') ∧ heap_ok h' bs' ∧
    preserves h h' (live (heap_start h) bs).
Proof.
  intros Hok Hsz Hroom Hf Hp. pose proof (heap_fuel_enough _ _ Hok).
  destruct (kmalloc_grants vmm_lengthen fuel h size bs p n bs') as (h' & Hk & Hok' & Hpr & _);
    try done; [lia |]. by exists h'.
Qed.

(** A heap of one page, as [kheap_init] leaves it. *)
Definition page_mem (a n : Z) : mem := list_to_map ((λ i, (i, 0)) <$> seqZ a n).

Lemma page_mem_mapped a n : mapped (page_mem a n) a n.
Proof.
  intros i Hi. apply elem_of_dom. unfold page_mem. rewrite dom_list_to_map_L.
  apply elem_of_list_to_set. rewrite <- list_fmap_compose. apply list_elem_of_fmap.
  exists i. split; [done |]. apply elem_of_seqZ. lia.
Qed.

Lemma page_mem_end a n : page_mem a n !! (a + n) = None.
Proof.
  apply not_elem_of_dom. unfold page_mem. rewrite dom_list_to_map_L.
  rewrite elem_of_list_to_set, <- list_fmap_compose, list_elem_of_fmap.
  intros (i & Hi & Hin%elem_of_seqZ). simpl in Hi. lia.
Qed.

#[local] Opaque page_mem.

Definition demo_heap : heap :=
  Heap (page_mem 0xffffff8000200000 0x1000) 0xffffff8000200000 0xffffff8000201000.

Definition run_or (h : heap) (r : outcome heap) : heap :=
  match r with Ok h' => h' | _ => h end.

Definition boot_heap : heap := run_or demo_heap (kheap_init demo_heap).

Lemma boot_heap_ok :
  heap_ok boot_heap [(false, 0xffb)] ∧ heap_start boot_heap = 0xffffff8000200000 ∧
  heap_end boot_heap = 0xffffff8000201000 ∧ hmem boot_heap !! heap_end boot_heap = None.
Proof.
  destruct (kheap_init_ok demo_heap) as (h' & Hk & Hs & He & Hok & Ha).
  - exact (page_mem_mapped 0xffffff8000200000 0x1000).
  - simpl. lia.
  - simpl. lia.
  - unfold boot_heap. rewrite Hk. cbn [run_or]. split; [exact Hok |]. rewrite Hs, He. simpl.
    split_and!; [done | done |]. rewrite Ha by (simpl; unfold HDR; lia).
    exact (page_mem_end 0xffffff8000200000 0x1000).
Qed.

Lemma boot_heap_inv : heap_inv boot_heap [].
Proof.
  destruct boot_heap_ok as (Hok & Hs & He & Hn). exists [(false, 0xffb)].
  rewrite Hs. split_and!; [exact Hok | simpl; reflexivity | exact Hn | lia].
Qed.

Lemma kmalloc_refines_witness :
  ∃ h', kmalloc no_growth (heap_fuel boot_heap) boot_heap 160 =
      Ok (0xffffff8000200005, h') ∧ heap_ok h' [(true, 160); (false, 3926)].
Proof.
  destruct boot_heap_ok as (Hok & Hs & He & Hn).
  destruct (kmalloc_refines no_growth (heap_fuel boot_heap) boot_heap 160 _
    0xffffff8000200005 4096 [(true, 160); (false, 3926)] Hok) as (h' & Hk & Hok' & _).
  - lia.
  - apply header_room_5. lia.
  - lia.
  - rewrite Hs. reflexivity.
  - exists h'. split; [exact Hk | exact Hok'].
Defined.

(** Each live block of [l] was granted in full: its header records at least
    what was requested, [reqs]. *)
Definition in_full (l reqs : list (Z * Z)) : Prop := Forall2 (λ b r, b.1 = r.1 ∧ 0 ≤ r.2 ≤ b.2) l reqs.

Lemma in_full_block l reqs q n : in_full l reqs → (q, n) ∈ reqs → ∃ s, (q, s) ∈ l ∧ 0 ≤ n ≤ s.
Proof.
  intros Hl (i & Hi)%list_elem_of_lookup_1. destruct (Forall2_lookup_r _ _ _ _ _ Hl Hi) as ([q' s] & Hb & Hq & Hn).
  simpl in Hq, Hn. subst q'. exists s. split; [by eapply list_elem_of_lookup_2 | done].
Qed.

(** [C3] A pointer that kmalloc returns, with the bytes requested behind it,
    lies inside the heap; when every live block was granted in full, these
    bytes overlap neither the header nor a requested byte of a live block, and
    no requested byte of a live block changes.  The heap is well formed again,
    and the new block is granted in full or is a run of free blocks that were
    joined for it without room for a new header, whose header keeps the size
    of the first of them.  This holds for requests such that every free block
    that holds them has room for a header, as it has for requests of at least
    five bytes, on a heap that does not grow. *)
Theorem kmalloc_safe h l reqs size p h' :
  heap_inv h l → in_full l reqs → servable h size → kmalloc no_growth (heap_fuel h) h size = Ok (p, h') →
  heap_start h + HDR ≤ p ∧ p + size ≤ heap_end h ∧
  (∀ q n, (q, n) ∈ reqs → q + n + HDR ≤ p ∨ p + size + HDR ≤ q) ∧
  (∀ q n i, (q, n) ∈ reqs → q ≤ i < q + n → hmem h' !! i = hmem h !! i) ∧
  ∃ g, heap_inv h' ((p, g) :: l) ∧
    (in_full ((p, g) :: l) ((p, size) :: reqs) ∨
     ∃ bs n, heap_ok h bs ∧ joined_short size (heap_start h) bs p n g).
Proof.
  intros Hinv Hfull Hsz Hk.
  destruct (kmalloc_inv _ _ _ _ _ Hinv Hsz Hk) as (bs & g & n & Hinv' & (Hst & Hen & Hpr) & Hok & Hg & Hn & He & Hd).
  pose proof (heap_inv_live _ _ p g Hinv' ltac:(left)) as Hb. rewrite Hst, Hen in Hb. destruct Hsz as [Hsz _].
  split; [lia |]. split; [lia |]. split; [| split].
  - intros q k Hq. destruct (in_full_block _ _ _ _ Hfull Hq) as (s & Hs & Hk'). apply Hd in Hs. lia.
  - intros q k i Hq Hi. destruct (in_full_block _ _ _ _ Hfull Hq) as (s & Hs & Hk'). apply (Hpr q s); [done | lia].
  - exists g. split; [done |]. destruct Hg as [Hg|Hg]; [left | right; by exists bs, n].
    constructor; [| done]. simpl. lia.
Qed.

Lemma kmalloc_safe_witness :
  ∃ p h' g, kmalloc no_growth (heap_fuel boot_heap) boot_heap 40 = Ok (p, h') ∧
    heap_inv h' [(p, g)] ∧ p + 40 ≤ heap_end boot_heap.
Proof.
  destruct boot_heap_ok as (Hok & Hs & He & Hn).
  destruct (kmalloc_place no_growth (heap_fuel boot_heap) boot_heap 40 _
    0xffffff8000200005 4096 [(true, 40); (false, 4046)] Hok) as (h' & Hk & _).
  - lia.
  - by apply heap_fuel_enough.
  - rewrite Hs. reflexivity.
  - destruct (kmalloc_safe boot_heap [] [] 40 _ h' boot_heap_inv ltac:(constructor) (servable_5 _ 40 ltac:(lia)) Hk)
      as (_ & Hb & _ & _ & g & Hinv & _).
    exists 0xffffff8000200005, h', g. split; [exact Hk |]. split; [exact Hinv | exact Hb].
Defined.

(** When no run of free blocks is large enough and the heap does not
    grow, kmalloc does not return NULL: it faults on the first byte behind the
    heap. *)
Theorem kmalloc_exhausted h bs size :
  heap_ok h bs → hmem h !! heap_end h = None → 5 ≤ size →
  place size (heap_start h) bs = None →
  ∀ fuel, (heap_fuel h ≤ fuel)%nat →
    kmalloc no_growth fuel h size = Fault (PageFault (heap_end h)).
Proof.
  intros Hok Hn Hsz Hp fuel Hf. pose proof (heap_fuel_enough _ _ Hok).
  apply (kmalloc_none _ _ _ _ bs); try done; [lia | by apply header_room_5 | lia].
Qed.

Lemma kmalloc_exhausted_witness :
  kmalloc no_growth (heap_fuel boot_heap) boot_heap 0x1000 =
  Fault (PageFault 0xffffff8000201000).
Proof.
  destruct boot_heap_ok as (Hok & Hs & He & Hn).
  rewrite (kmalloc_exhausted boot_heap _ 0x1000 Hok Hn); [rewrite He; reflexivity | lia | | lia].
  rewrite Hs. reflexivity.
Defined.

(** Freeing what kmalloc has just returned gives back a heap with the
    same live blocks and the same contents. *)
Theorem kmalloc_kfree_roundtrip h l size p h1 :
  heap_inv h l → 5 ≤ size → kmalloc no_growth (heap_fuel h) h size = Ok (p, h1) →
  ∃ h2, kfree h1 p = Ok h2 ∧ heap_inv h2 l ∧ preserves h h2 l.
Proof.
  intros Hinv Hsz Hk.
  destruct (kmalloc_inv _ _ _ _ _ Hinv (servable_5 _ _ Hsz) Hk) as (bs & g & n & Hinv1 & (Hs & He & Hp) & _).
  destruct (kfree_inv _ _ _ _ Hinv1) as (h2 & Hk2 & Hinv2 & (Hs2 & He2 & Hp2)).
  exists h2. split_and!; try done. split_and!; [congruence | congruence |].
  intros q s i Hq Hi. rewrite (Hp2 q s) by (done || by right). by apply (Hp q s).
Qed.

Lemma kmalloc_kfree_roundtrip_witness :
  ∃ p h1 h2, kmalloc no_growth (heap_fuel boot_heap) boot_heap 40 = Ok (p, h1) ∧
    kfree h1 p = Ok h2 ∧ heap_inv h2 [].
Proof.
  destruct boot_heap_ok as (Hok & Hs & He & Hn).
  destruct (kmalloc_place no_growth (heap_fuel boot_heap) boot_heap 40 _
    0xffffff8000200005 4096 [(true, 40); (false, 4046)] Hok) as (h' & Hk & _).
  - lia.
  - by apply heap_fuel_enough.
  - rewrite Hs. reflexivity.
  - destruct (kmalloc_kfree_roundtrip boot_heap [] 40 _ h' boot_heap_inv ltac:(lia) Hk)
      as (h2 & Hf & Hinv & _).
    exists 0xffffff8000200005, h', h2. split; [exact Hk |]. split; [exact Hf | exact Hinv].
Defined.

(** The operations a client may perform: the second component lists the
    pointers it was given and has not freed. *)
Inductive heap_step : heap * list Z → heap * list Z → Prop :=
| step_kmalloc h ps size p h' :
    servable h size → kmalloc no_growth (heap_fuel h) h size = Ok (p, h') →
    heap_step (h, ps) (h', p :: ps)
| step_kfree h ps p ps' h' :
    ps ≡ₚ p :: ps' → kfree h p = Ok h' →
    heap_step (h, ps) (h', ps').

Lemma heap_step_inv h ps h' ps' l :
  heap_step (h, ps) (h', ps') → heap_inv h l → l.*1 ≡ₚ ps →
  ∃ l', heap_inv h' l' ∧ l'.*1 ≡ₚ ps' ∧ heap_start h' = heap_start h ∧ heap_end h' = heap_end h.
Proof.
  intros Hstep Hinv Hl. inversion Hstep as [? ? size p ? Hsz Hk | ? ? p ? ? Hp Hk]; subst.
  - destruct (kmalloc_inv _ _ _ _ _ Hinv Hsz Hk) as (bs & g & n & Hinv' & (? & ? & _) & _).
    exists ((p, g) :: l). split_and!; try done. simpl. by rewrite Hl.
  - assert (p ∈ l.*1) as Hin by (rewrite Hl, Hp; left).
    apply list_elem_of_fmap in Hin as ([q s] & -> & (l' & Hl')%elem_of_Permutation).
    assert (heap_inv h ((q, s) :: l')) as Hinv2.
    { destruct Hinv as (bs & ? & ? & ?). exists bs. by rewrite <- Hl'. }
    destruct (kfree_inv _ _ _ _ Hinv2) as (h1 & Hk' & Hinv' & (? & ? & _)).
    simpl in *. rewrite Hk in Hk'. injection Hk' as <-. exists l'. split_and!; try done.
    apply (Permutation_cons_inv (a := q)). rewrite <- Hp, <- Hl, Hl'. done.
Qed.

(** [C16] In every state reachable by kfree and by requests of kmalloc for
    which each free block that holds them has room for a header (requests of
    at least five bytes always do), on a heap that does not grow, the heap is
    tiled by its blocks and the live pointers are the ones handed out and not
    yet freed; a request of any size terminates there. *)
Theorem heap_reachable h0 h ps :
  heap_inv h0 [] → rtc heap_step (h0, []) (h, ps) →
  NoDup ps ∧
  ∃ bs, heap_ok h bs ∧ (live (heap_start h) bs).*1 ≡ₚ ps ∧
    heap_start h + span bs = heap_end h ∧ heap_end h = heap_end h0 ∧
    ∀ size, 0 ≤ size → kmalloc no_growth (heap_fuel h) h size ≠ NoFuel.
Proof.
  intros Hinv0 Hr.
  assert (∀ x y, rtc heap_step x y → ∀ l, heap_inv x.1 l → l.*1 ≡ₚ x.2 →
    ∃ l', heap_inv y.1 l' ∧ l'.*1 ≡ₚ y.2 ∧ heap_end y.1 = heap_end x.1) as Hgen.
  { clear. induction 1 as [x|[h ps] [h1 ps1] z Hs _ IH]; intros l Hinv Hl; [by exists l |].
    destruct (heap_step_inv _ _ _ _ _ Hs Hinv Hl) as (l1 & Hinv1 & Hl1 & _ & He).
    destruct (IH l1 Hinv1 Hl1) as (l2 & ? & ? & He2). simpl in *. exists l2. by rewrite He2. }
  destruct (Hgen _ _ Hr [] Hinv0 ltac:(done)) as (l & Hinv & Hl & He). simpl in *.
  split; [rewrite <- Hl; by eapply heap_inv_NoDup |].
  destruct Hinv as (bs & Hok & Hlive & Hn & _). pose proof (heap_ok_sizes _ _ Hok) as [_ Hend].
  exists bs. split; [done |]. split; [by rewrite Hlive |]. split; [done |]. split; [done |].
  intros size Hsz. by apply (kmalloc_total _ _ _ _ bs Hok Hsz (heap_fuel_enough _ _ Hok)).
Qed.

Lemma heap_reachable_witness :
  ∃ h p, rtc heap_step (boot_heap, []) (h, [p]) ∧ NoDup [p] ∧ heap_end h = 0xffffff8000201000.
Proof.
  destruct boot_heap_ok as (Hok & Hs & He & Hn).
  destruct (kmalloc_place no_growth (heap_fuel boot_heap) boot_heap 40 _
    0xffffff8000200005 4096 [(true, 40); (false, 4046)] Hok) as (h' & Hk & _).
  - lia.
  - by apply heap_fuel_enough.
  - rewrite Hs. reflexivity.
  - assert (rtc heap_step (boot_heap, []) (h', [0xffffff8000200005])) as Hr.
    { apply rtc_once. apply (step_kmalloc _ _ 40); [apply servable_5; lia | exact Hk]. }
    destruct (heap_reachable boot_heap h' _ boot_heap_inv Hr) as (Hnd & bs & _ & _ & _ & He' & _).
    exists h', 0xffffff8000200005. split; [exact Hr |]. split; [exact Hnd |]. rewrite He'. exact He.
Defined.

(** A request that returns the pointer and the next state. *)
Definition request (h : heap) (size : Z) : outcome (Z * heap) :=
  kmalloc no_growth (heap_fuel h) h size.

(** The calls of [test_kmalloc2] in unit_tests.c, followed by one more
    request of [BLOCK_SIZE]: the last two pointers. *)
Definition join_scenario (h : heap) : outcome (Z * Z) :=
  '(ptr, h) ← request h 8;
  '(second_ptr, h) ← request h 8;
  '(third_ptr, h) ← request h 8;
  h ← kfree h ptr;
  h ← kfree h second_ptr;
  '(fourth_ptr, h) ← request h (8 + 9);
  '(fifth_ptr, h) ← request h 8;
  Ok (fourth_ptr, fifth_ptr).

(** The requests of test_kmalloc2: the block joined from two freed ones
    keeps the size of the first in its header, so that the next block handed
    out lies inside it. *)
Theorem kmalloc_join_overlaps :
  join_scenario boot_heap = Ok (0xffffff8000200005, 0xffffff8000200012) ∧
  0xffffff8000200005 < 0xffffff8000200012 < 0xffffff8000200005 + (8 + 9).
Proof. split; [vm_compute; reflexivity | lia]. Qed.

(** Reuse of a freed region of four bytes in front of an allocated one: the
    flag of the allocated region before and after. *)
Definition reuse_small (h : heap) : outcome (bool * bool) :=
  '(p, h) ← request h 4;
  '(q, h) ← request h 8;
  h ← kfree h p;
  before ← load_used (hmem h) (q - HDR);
  '(p', h) ← request h 4;
  after ← load_used (hmem h) (q - HDR);
  Ok (before, after).

(** Reusing a freed block of fewer than five bytes overwrites the header
    of the live block behind it. *)
Theorem kmalloc_small_corrupts : reuse_small boot_heap = Ok (true, false).
Proof. vm_compute. reflexivity. Qed.
