(* ===== verification/MmState.v ===== *)
(** * State of the virtual memory manager

    The data of vmm.h and vmm_hashmap.h and the globals of vmm.c and
    vmm_hashmap.c.  Structures reached through pointers live in maps from
    their address; a pointer that is not in its map faults when it is
    followed.  [NULL] is [0]. *)

From S2P Require Import Prelude.

Definition NULL : Z := 0.
Definition HASH_MAP_BUCKETS : Z := 20.

Definition VM_FLAG_NONE : Z := 0.
Definition VM_FLAG_READ_WRITE : Z := 1.
Definition VM_FLAG_USER : Z := 2.
Definition VM_FLAG_MMIO : Z := 16.

Definition KERNEL_PAGE_TBL_START : Z := 0xffffff8000300000.
Definition KERNEL_STACK_START : Z := 0xffffff80002fe000.
Definition KERNEL_TEXT_START : Z := 0xffffff8000000000.
Definition KERNEL_STACK_SIZE : Z := 0x2000.
Definition USER_STACK_START : Z := 0xc0000000.

(** [vm_object]. *)
Record vm_object := VmObject {
  base : Z;
  vm_length : Z;
  flags : Z;
  vm_next : Z;
}.

(** [page_table_t]. *)
Record page_table_t := PageTable {
  level : Z;
  pt_vaddr : Z;
  pt_paddr : Z;
  used : bool;
  next : Z;
}.

#[global] Instance vm_object_eq_dec : EqDecision vm_object.
Proof. solve_decision. Defined.
#[global] Instance page_table_t_eq_dec : EqDecision page_table_t.
Proof. solve_decision. Defined.

(** What the linker fixes: the addresses of the static objects. *)
Record symbols := Symbols {
  kernel_page_tbls_obj : Z;
  kernel_pmm_obj : Z;
  vga_text_buffer_obj : Z;
  kernel_text_obj : Z;
}.

Section State.
Context {F H : Type}.

(** The memory manager's globals.  [vmm_hashmap] is the bucket array, [None]
    while the pointer is [NULL]; [words] holds the page table entries by the
    virtual address of the entry; [vm_objs] the [vm_object]s, the head of a
    [vmm_t] being the object at the [vmm_t]'s own address; [pml4ts] the
    [pml4t] field of each [vmm_t]. *)
Record mm := Mm {
  frames : F;
  kheap : H;
  pt_nodes : gmap Z page_table_t;
  vmm_hashmap : option (list Z);
  tables : Z;
  words : gmap Z Z;
  vm_objs : gmap Z vm_object;
  pml4ts : gmap Z Z;
  cr3 : Z;
  current_pml4t_ptr : Z;
  current_vmm : Z;
}.

Definition set_frames (s : mm) (v : F) : mm :=
  Mm v (kheap s) (pt_nodes s) (vmm_hashmap s) (tables s) (words s) (vm_objs s)
     (pml4ts s) (cr3 s) (current_pml4t_ptr s) (current_vmm s).
Definition set_kheap (s : mm) (v : H) : mm :=
  Mm (frames s) v (pt_nodes s) (vmm_hashmap s) (tables s) (words s) (vm_objs s)
     (pml4ts s) (cr3 s) (current_pml4t_ptr s) (current_vmm s).
Definition set_pt_nodes (s : mm) (v : gmap Z page_table_t) : mm :=
  Mm (frames s) (kheap s) v (vmm_hashmap s) (tables s) (words s) (vm_objs s)
     (pml4ts s) (cr3 s) (current_pml4t_ptr s) (current_vmm s).
Definition set_vmm_hashmap (s : mm) (v : option (list Z)) : mm :=
  Mm (frames s) (kheap s) (pt_nodes s) v (tables s) (words s) (vm_objs s)
     (pml4ts s) (cr3 s) (current_pml4t_ptr s) (current_vmm s).
Definition set_tables (s : mm) (v : Z) : mm :=
  Mm (frames s) (kheap s) (pt_nodes s) (vmm_hashmap s) v (words s) (vm_objs s)
     (pml4ts s) (cr3 s) (current_pml4t_ptr s) (current_vmm s).
Definition set_words (s : mm) (v : gmap Z Z) : mm :=
  Mm (frames s) (kheap s) (pt_nodes s) (vmm_hashmap s) (tables s) v (vm_objs s)
     (pml4ts s) (cr3 s) (current_pml4t_ptr s) (current_vmm s).
Definition set_vm_objs (s : mm) (v : gmap Z vm_object) : mm :=
  Mm (frames s) (kheap s) (pt_nodes s) (vmm_hashmap s) (tables s) (words s) v
     (pml4ts s) (cr3 s) (current_pml4t_ptr s) (current_vmm s).
Definition set_pml4ts (s : mm) (v : gmap Z Z) : mm :=
  Mm (frames s) (kheap s) (pt_nodes s) (vmm_hashmap s) (tables s) (words s) (vm_objs s)
     v (cr3 s) (current_pml4t_ptr s) (current_vmm s).
Definition set_current (s : mm) (c pml4t_ptr vmm : Z) : mm :=
  Mm (frames s) (kheap s) (pt_nodes s) (vmm_hashmap s) (tables s) (words s) (vm_objs s)
     (pml4ts s) c pml4t_ptr vmm.

(** Following pointers. *)
Definition node_at (s : mm) (p : Z) : outcome page_table_t :=
  of_option (PageFault p) (pt_nodes s !! p).
Definition set_node (s : mm) (p : Z) (t : page_table_t) : mm :=
  set_pt_nodes s (<[p := t]> (pt_nodes s)).
Definition obj_at (s : mm) (p : Z) : outcome vm_object :=
  of_option (PageFault p) (vm_objs s !! p).
Definition set_obj (s : mm) (p : Z) (o : vm_object) : mm :=
  set_vm_objs s (<[p := o]> (vm_objs s)).

(** [pt_vaddr[pt_offset]] and its assignment. *)
Definition load_word (s : mm) (a : Z) : outcome Z :=
  of_option (PageFault a) (words s !! a).
Definition store_word (s : mm) (a v : Z) : outcome mm :=
  match words s !! a with
  | Some _ => Ok (set_words s (<[a := v]> (words s)))
  | None => Fault (PageFault a)
  end.

(** [memset(v, 0, PAGE_SIZE)] on a freshly mapped page: [n] entries from [v]. *)
Fixpoint zero_words (n : nat) (v : Z) (w : gmap Z Z) : gmap Z Z :=
  match n with
  | O => w
  | S n' => <[v := 0]> (zero_words n' (v + 8) w)
  end.

End State.
Arguments mm : clear implicits.

Lemma lookup_zero_words n v w a :
  zero_words n v w !! a =
  if decide (v ≤ a < v + 8 * Z.of_nat n ∧ (a - v) mod 8 = 0) then Some 0 else w !! a.
Proof.
  revert v. induction n as [|n IH]; intros v; simpl.
  - rewrite decide_False by lia. done.
  - destruct (decide (a = v)) as [->|Hne].
    + rewrite lookup_insert_eq, decide_True; [done |].
      rewrite Z.sub_diag, Z.mod_0_l by lia. lia.
    + rewrite lookup_insert_ne, IH by done.
      destruct (decide (v + 8 ≤ a < v + 8 + 8 * Z.of_nat n ∧ (a - (v + 8)) mod 8 = 0)).
      * rewrite decide_True; [done |]. split; [lia |]. mlia.
      * rewrite decide_False; [done |]. intros [Hr Hm]. apply n0. mlia.
Qed.
