(* ===== verification/HashMap.v ===== *)
(** * The table of page tables (vmm_hashmap.c)

    A hash map with chaining from the physical address of a page table to the
    virtual address the kernel reaches it at.  Buckets are singly linked
    lists of [page_table_t] nodes from [kmalloc]. *)

From S2P Require Import Prelude Iface MmState KHeap.

(** The sizes of [page_table_t] and of a pointer to it on x86-64. *)
Definition SIZEOF_PAGE_TABLE_T : Z := 40.
Definition SIZEOF_PTR : Z := 8.

Definition hash_function (paddr : Z) : Z := paddr mod HASH_MAP_BUCKETS.

Section Ops.
Context {F H : Type} `{HeapAlloc H}.
Local Abbreviation state := (mm F H).

Definition kmalloc_mm (s : state) (size : Z) : outcome (Z * state) :=
  '(p, h) ← ha_alloc (kheap s) size; Ok (p, set_kheap s h).

Definition vmm_hashmap_init (s : state) : outcome (list Z * state) :=
  '(_, s1) ← kmalloc_mm s (SIZEOF_PTR * HASH_MAP_BUCKETS);
  Ok (replicate (Z.to_nat HASH_MAP_BUCKETS) NULL, s1).

(** [vmm_hashmap[bucket_index]]. *)
Definition bucket (s : state) (i : Z) : outcome Z :=
  match vmm_hashmap s with
  | None => Fault (PageFault (8 * i))
  | Some bs => of_option (PageFault (8 * i)) (bs !! Z.to_nat i)
  end.

Definition set_bucket (s : state) (i v : Z) : state :=
  set_vmm_hashmap s ((λ bs, <[Z.to_nat i := v]> bs) <$> vmm_hashmap s).

Definition with_next (t : page_table_t) (n : Z) : page_table_t :=
  PageTable (level t) (pt_vaddr t) (pt_paddr t) (used t) n.
Definition with_vaddr (t : page_table_t) (v : Z) : page_table_t :=
  PageTable (level t) v (pt_paddr t) (used t) (next t).

(** [while(current_node_ptr->next != NULL)] of [pg_tbl_insert]. *)
Fixpoint insert_loop (fuel : nat) (s : state) (current_node_ptr table : Z)
    : outcome (bool * state) :=
  match fuel with
  | O => NoFuel
  | S fuel' =>
      c ← node_at s current_node_ptr;
      if next c =? NULL then
        Ok (true, set_node s current_node_ptr (with_next c table))
      else
        n ← node_at s (next c);
        t ← node_at s table;
        if pt_paddr n =? pt_paddr t then
          Ok (false, set_node s (next c) (with_vaddr n (pt_vaddr t)))
        else insert_loop fuel' s (next c) table
  end.

(** Every node is visited at most once on a list that ends. *)
Definition chain_fuel (s : state) : nat := S (size (pt_nodes s)).

Definition pg_tbl_insert (s : state) (table : Z) : outcome (bool * state) :=
  t ← node_at s table;
  let bucket_index := hash_function (pt_paddr t) in
  b ← bucket s bucket_index;
  if b =? NULL then Ok (true, set_bucket s bucket_index table)
  else insert_loop (chain_fuel s) s b table.

Definition get_freed_pg_tbl (s : state) : outcome Z :=
  if tables s =? NULL then Ok NULL
  else freed_tbl ← node_at s (tables s); Ok (next freed_tbl).

Definition vmm_hashmap_put (s : state) (vaddr paddr : Z) : outcome (bool * state) :=
  match vmm_hashmap s with
  | None => Ok (false, s)
  | Some _ =>
      '(new_node, s1) ← kmalloc_mm s SIZEOF_PAGE_TABLE_T;
      let old_level := default 0 (level <$> pt_nodes s1 !! new_node) in
      pg_tbl_insert (set_node s1 new_node (PageTable old_level vaddr paddr true NULL)) new_node
  end.

Fixpoint get_loop (fuel : nat) (s : state) (current_node_ptr paddr : Z) : outcome Z :=
  match fuel with
  | O => NoFuel
  | S fuel' =>
      if current_node_ptr =? NULL then Ok NULL else
      c ← node_at s current_node_ptr;
      if pt_paddr c =? paddr then Ok (pt_vaddr c)
      else get_loop fuel' s (next c) paddr
  end.

Definition get_ptbl_vaddr (s : state) (paddr : Z) : outcome Z :=
  match vmm_hashmap s with
  | None => Ok NULL
  | Some _ =>
      b ← bucket s (hash_function paddr);
      get_loop (S (chain_fuel s)) s b paddr
  end.

Fixpoint remove_loop (fuel : nat) (s : state) (current_node_ptr paddr : Z)
    : outcome (bool * state) :=
  match fuel with
  | O => NoFuel
  | S fuel' =>
      c ← node_at s current_node_ptr;
      if next c =? NULL then Ok (false, s) else
      n ← node_at s (next c);
      if pt_paddr n =? paddr then
        let to_be_freed := next c in
        let s1 := set_node s current_node_ptr (with_next c (next n)) in
        t ← node_at s1 to_be_freed;
        let s2 := set_node s1 to_be_freed (with_next t (tables s1)) in
        Ok (true, set_tables s2 to_be_freed)
      else remove_loop fuel' s (next c) paddr
  end.

Definition vmm_hashmap_remove (s : state) (paddr : Z) : outcome (bool * state) :=
  match vmm_hashmap s with
  | None => Ok (false, s)
  | Some _ =>
      b ← bucket s (hash_function paddr);
      if b =? NULL then Ok (false, s)
      else remove_loop (S (chain_fuel s)) s b paddr
  end.

End Ops.

(** ** Chains *)

Section Chains.
Context {F H : Type}.
Local Abbreviation state := (mm F H).

(** The nodes of a bucket, in order. *)
Fixpoint chain (ns : gmap Z page_table_t) (b : Z) (l : list Z) : Prop :=
  match l with
  | [] => b = NULL
  | p :: l' => b = p ∧ p ≠ NULL ∧ ∃ t, ns !! p = Some t ∧ chain ns (next t) l'
  end.

(** The first node of a chain that carries [paddr]. *)
Fixpoint find_chain (ns : gmap Z page_table_t) (l : list Z) (paddr : Z) : option Z :=
  match l with
  | [] => None
  | p :: l' =>
      match ns !! p with
      | Some t => if pt_paddr t =? paddr then Some (pt_vaddr t) else find_chain ns l' paddr
      | None => None
      end
  end.

(** Well-formed hash map with the chains [ls]. *)
Record hm_wf (s : state) (ls : list (list Z)) : Prop := {
  hm_buckets : ∃ bs, vmm_hashmap s = Some bs ∧ length bs = 20%nat ∧
    ∀ i b l, bs !! i = Some b → ls !! i = Some l → chain (pt_nodes s) b l;
  hm_length : length ls = 20%nat;
  hm_nodup : ∀ i l, ls !! i = Some l → NoDup l;
  hm_hash : ∀ i l p t, ls !! i = Some l → p ∈ l → pt_nodes s !! p = Some t →
    hash_function (pt_paddr t) = Z.of_nat i;
}.

(** The map the chains represent. *)
Definition hm_lookup (s : state) (ls : list (list Z)) (paddr : Z) : option Z :=
  find_chain (pt_nodes s) (default [] (ls !! Z.to_nat (hash_function paddr))) paddr.

(** The first node of a chain that carries [paddr], as a pointer. *)
Fixpoint find_node (ns : gmap Z page_table_t) (l : list Z) (paddr : Z) : option Z :=
  match l with
  | [] => None
  | p :: l' =>
      match ns !! p with
      | Some t => if pt_paddr t =? paddr then Some p else find_node ns l' paddr
      | None => None
      end
  end.

Lemma chain_node ns b l p :
  chain ns b l → p ∈ l → p ≠ NULL ∧ is_Some (ns !! p).
Proof.
  revert b. induction l as [|q l IH]; intros b; [set_solver |].
  intros (-> & Hq & t & Ht & Hc) [->|Hp]%elem_of_cons; [by split; [| exists t] | by eapply IH].
Qed.

(** A chain only depends on the [next] fields of its nodes. *)
Lemma chain_agree ns ns' b l :
  (∀ p t, p ∈ l → ns !! p = Some t → ∃ t', ns' !! p = Some t' ∧ next t' = next t) →
  chain ns b l → chain ns' b l.
Proof.
  revert b. induction l as [|q l IH]; intros b Hag; [done |].
  intros (-> & Hq & t & Ht & Hc). destruct (Hag q t) as (t' & Ht' & Hn); [left | done |].
  simpl. split_and!; [done | done |]. exists t'. split; [done |]. rewrite Hn.
  apply IH; [| done]. intros p tp Hp. apply Hag. by right.
Qed.

(** Appending a node by rewriting the last [next] field. *)
Lemma chain_snoc ns b l lst c table t :
  chain ns b l → NoDup l → last l = Some lst → ns !! lst = Some c →
  ns !! table = Some t → next t = NULL → table ≠ NULL → table ∉ l →
  chain (<[lst := with_next c table]> ns) b (l ++ [table]).
Proof.
  revert b. induction l as [|q l IH]; intros b Hc Hnd Hl Hlst Ht Htn Hnz Hni; [done |].
  destruct Hc as (-> & Hq & tq & Htq & Hc). apply NoDup_cons in Hnd as [Hqn Hnd].
  assert (lst ≠ table) by (intros ->; apply Hni, last_Some_elem_of; done).
  destruct l as [|q' l].
  - injection Hl as <-. rewrite Hlst in Htq. injection Htq as <-. simpl.
    split_and!; [done | done |]. eexists. split; [apply lookup_insert_eq |]. simpl.
    split_and!; [done | done |]. exists t. by rewrite lookup_insert_ne.
  - assert (lst ∈ q' :: l) as Hin by (by apply last_Some_elem_of).
    assert (q ≠ lst) by (intros ->; done).
    simpl. split_and!; [done | done |]. exists tq. rewrite lookup_insert_ne by done.
    split; [done |]. apply IH; try done. intros Hi. apply Hni. by right.
Qed.

(** A chain without repetitions is no longer than the node map. *)
Lemma chain_length ns b l : chain ns b l → NoDup l → (length l ≤ size ns)%nat.
Proof.
  intros Hc Hnd. rewrite <- size_dom, <- (size_list_to_set (C := gset Z) l Hnd).
  apply subseteq_size. intros p Hp%elem_of_list_to_set. apply elem_of_dom.
  by eapply chain_node.
Qed.

(** Lookups only depend on the addresses in the nodes. *)
Lemma find_chain_agree ns ns' l k :
  (∀ p t, p ∈ l → ns !! p = Some t →
     ∃ t', ns' !! p = Some t' ∧ pt_paddr t' = pt_paddr t ∧ pt_vaddr t' = pt_vaddr t) →
  (∀ p, p ∈ l → is_Some (ns !! p)) →
  find_chain ns' l k = find_chain ns l k.
Proof.
  induction l as [|q l IH]; intros Hag Hs; [done |]. simpl.
  destruct (Hs q) as [t Ht]; [left |]. destruct (Hag q t) as (t' & Ht' & Hp & Hv); [left | done |].
  rewrite Ht, Ht', Hp, Hv. destruct (pt_paddr t =? k); [done |].
  apply IH; intros; [apply Hag | apply Hs]; by try right.
Qed.

Lemma find_chain_app ns l1 l2 k :
  (∀ p, p ∈ l1 → is_Some (ns !! p)) →
  find_chain ns (l1 ++ l2) k =
  match find_chain ns l1 k with Some v => Some v | None => find_chain ns l2 k end.
Proof.
  induction l1 as [|q l1 IH]; intros Hs; [done |]. simpl.
  destruct (Hs q) as [t Ht]; [left |]. rewrite Ht. destruct (pt_paddr t =? k); [done |].
  apply IH. intros. apply Hs. by right.
Qed.

Lemma get_loop_chain fuel (s : state) b l k :
  chain (pt_nodes s) b l → (length l < fuel)%nat →
  get_loop fuel s b k = Ok (default NULL (find_chain (pt_nodes s) l k)).
Proof.
  revert fuel b. induction l as [|q l IH]; intros [|fuel] b Hc Hf; simpl in Hf; try lia.
  - simpl in Hc. by subst b.
  - destruct Hc as (-> & Hq & t & Ht & Hc). simpl. unfold NULL in *. zdec.
    unfold node_at. rewrite Ht. out_step.
    destruct (pt_paddr t =? k); [done |]. apply IH; [done | lia].
Qed.

Lemma insert_loop_chain fuel (s : state) p l table t :
  chain (pt_nodes s) p (p :: l) → pt_nodes s !! table = Some t → (length l < fuel)%nat →
  match find_node (pt_nodes s) l (pt_paddr t) with
  | Some q => ∃ n, pt_nodes s !! q = Some n ∧ q ∈ l ∧ pt_paddr n = pt_paddr t ∧
      insert_loop fuel s p table = Ok (false, set_node s q (with_vaddr n (pt_vaddr t)))
  | None => ∃ lst c, last (p :: l) = Some lst ∧ pt_nodes s !! lst = Some c ∧
      insert_loop fuel s p table = Ok (true, set_node s lst (with_next c table))
  end.
Proof.
  revert fuel p. induction l as [|q l IH]; intros [|fuel] p Hc Ht Hf; simpl in Hf; try lia.
  - destruct Hc as (_ & Hp & c & Hcn & Hn). simpl in Hn. simpl. exists p, c.
    unfold node_at. rewrite Hcn. out_step. by rewrite Hn.
  - destruct Hc as (_ & Hp & c & Hcn & Hc). pose proof Hc as (Hnq & Hq & n & Hqn & Hc').
    simpl. unfold node_at. rewrite Hcn. out_step. rewrite Hnq. unfold NULL in *. zdec.
    rewrite Hqn, Ht. out_step. destruct (pt_paddr n =? pt_paddr t) eqn:E; zbool.
    + exists n. split_and!; try done. left.
    + rewrite Hnq in Hc. specialize (IH fuel q Hc Ht ltac:(lia)).
      destruct (find_node (pt_nodes s) l (pt_paddr t)) as [r|].
      * destruct IH as (nr & ? & ? & ? & ?). exists nr. split_and!; try done. by right.
      * destruct IH as (lst & c' & Hl & ? & ?). exists lst, c'. by split_and!.
Qed.

(** ** The map as a whole *)

(** [s'] is [s] with another hash map. *)
Definition map_only (s s' : state) : Prop :=
  ∃ ns hb, s' = set_vmm_hashmap (set_pt_nodes s ns) hb.

(** The addresses stored in the nodes are those of [s]. *)
Definition same_addrs (s s' : state) : Prop :=
  ∀ p t, pt_nodes s !! p = Some t →
    ∃ t', pt_nodes s' !! p = Some t' ∧ pt_paddr t' = pt_paddr t ∧ pt_vaddr t' = pt_vaddr t.

Lemma hash_range k : 0 ≤ hash_function k < 20.
Proof. apply Z.mod_pos_bound. done. Qed.

Lemma hm_chain s ls i :
  hm_wf s ls → 0 ≤ i < 20 →
  ∃ b l, bucket s i = Ok b ∧ ls !! Z.to_nat i = Some l ∧ chain (pt_nodes s) b l ∧ NoDup l ∧
    (length l ≤ size (pt_nodes s))%nat.
Proof.
  intros Hwf Hi. destruct (hm_buckets _ _ Hwf) as (bs & Hbs & Hlen & Hch).
  destruct (lookup_lt_is_Some_2 bs (Z.to_nat i)) as [b Hb]; [lia |].
  pose proof (hm_length _ _ Hwf) as Hls.
  destruct (lookup_lt_is_Some_2 ls (Z.to_nat i)) as [l Hl]; [lia |].
  exists b, l. unfold bucket. rewrite Hbs, Hb.
  assert (NoDup l) by (by eapply hm_nodup).
  assert (chain (pt_nodes s) b l) by (by eapply Hch).
  split_and!; try done. by eapply chain_length.
Qed.

(** A node belongs to the chain its address hashes to. *)
Lemma hm_node_chain s ls i l p t :
  hm_wf s ls → ls !! i = Some l → p ∈ l → pt_nodes s !! p = Some t →
  i = Z.to_nat (hash_function (pt_paddr t)).
Proof. intros Hwf Hl Hp Ht. rewrite (hm_hash _ _ Hwf _ _ _ _ Hl Hp Ht). lia. Qed.

Lemma hm_is_Some s ls i l p :
  hm_wf s ls → ls !! i = Some l → p ∈ l → is_Some (pt_nodes s !! p).
Proof.
  intros Hwf Hl Hp. assert (i < 20)%nat by (rewrite <- (hm_length _ _ Hwf); by eapply lookup_lt_Some).
  assert (0 ≤ Z.of_nat i < 20) as Hi by lia.
  destruct (hm_chain s ls (Z.of_nat i) Hwf Hi) as (b & l' & _ & Hl' & Hc & _).
  rewrite Nat2Z.id, Hl in Hl'. injection Hl' as <-. by eapply chain_node.
Qed.

Lemma get_ptbl_vaddr_lookup s ls k :
  hm_wf s ls → get_ptbl_vaddr s k = Ok (default NULL (hm_lookup s ls k)).
Proof.
  intros Hwf. destruct (hm_chain s ls (hash_function k) Hwf (hash_range k)) as (b & l & Hb & Hl & Hc & _ & Hlen).
  unfold get_ptbl_vaddr, hm_lookup. destruct (hm_buckets _ _ Hwf) as (bs & -> & _).
  rewrite Hb. out_red. rewrite Hl. apply get_loop_chain; [done |]. unfold chain_fuel. simpl. lia.
Qed.

(** Replacing one node by one with the same [next] and physical address. *)
Lemma hm_wf_update s ls q n n' :
  hm_wf s ls → pt_nodes s !! q = Some n → next n' = next n → pt_paddr n' = pt_paddr n →
  hm_wf (set_node s q n') ls.
Proof.
  intros Hwf Hq Hn Hp. destruct (hm_buckets _ _ Hwf) as (bs & Hbs & Hlen & Hch). split.
  - exists bs. split_and!; [done | done |]. intros i b l Hb Hl.
    apply (chain_agree (pt_nodes s)); [| by eapply Hch]. intros p t _ Ht. simpl.
    destruct (decide (q = p)) as [->|].
    + exists n'. rewrite lookup_insert_eq. split; [done |]. congruence.
    + exists t. by rewrite lookup_insert_ne.
  - apply (hm_length _ _ Hwf).
  - apply (hm_nodup _ _ Hwf).
  - intros i l p t Hl Hpl Ht. simpl in Ht. destruct (decide (q = p)) as [->|].
    + rewrite lookup_insert_eq in Ht. injection Ht as <-. rewrite Hp.
      by eapply (hm_hash _ _ Hwf).
    + rewrite lookup_insert_ne in Ht by done. by eapply (hm_hash _ _ Hwf).
Qed.

(** Extending chain [i] by a node, given how its own chain changes. *)
Lemma hm_wf_extend s ls table t l ns hb bs' b' :
  hm_wf s ls → let i := Z.to_nat (hash_function (pt_paddr t)) in
  ls !! i = Some l → ns !! table = Some t → table ∉ l →
  hb = Some bs' → length bs' = 20%nat → bs' !! i = Some b' → chain ns b' (l ++ [table]) →
  (∀ j, j ≠ i → bs' !! j = default [] (vmm_hashmap s) !! j) →
  (∀ p tp, p ∉ l → pt_nodes s !! p = Some tp → ns !! p = Some tp) →
  (∀ p tp, pt_nodes s !! p = Some tp → ∃ tp', ns !! p = Some tp' ∧ pt_paddr tp' = pt_paddr tp) →
  hm_wf (set_vmm_hashmap (set_pt_nodes s ns) hb) (<[i := l ++ [table]]> ls).
Proof.
  intros Hwf i Hl Ht Hni -> Hlen' Hb' Hc' Hoth Hkeep Haddr.
  destruct (hm_buckets _ _ Hwf) as (bs & Hbs & Hlen & Hch). rewrite Hbs in Hoth. simpl in Hoth.
  assert (i < length ls)%nat as Hi by (by eapply lookup_lt_Some).
  split.
  - exists bs'. split_and!; [done | done |]. intros j b lj Hb Hlj. simpl.
    destruct (decide (j = i)) as [->|Hne].
    + rewrite list_lookup_insert_eq in Hlj by done. injection Hlj as <-.
      rewrite Hb' in Hb. by injection Hb as <-.
    + rewrite list_lookup_insert_ne in Hlj by done. rewrite Hoth in Hb by done.
      apply (chain_agree (pt_nodes s)); [| by eapply Hch].
      intros p tp Hp Htp. exists tp. split; [| done]. apply Hkeep; [| done].
      intros Hpl. apply Hne. rewrite (hm_node_chain _ _ _ _ _ _ Hwf Hlj Hp Htp).
      symmetry. by apply (hm_node_chain _ _ _ _ _ _ Hwf Hl Hpl Htp).
  - rewrite length_insert. apply (hm_length _ _ Hwf).
  - intros j lj Hlj. destruct (decide (j = i)) as [->|Hne].
    + rewrite list_lookup_insert_eq in Hlj by done. injection Hlj as <-.
      apply NoDup_app. split; [by eapply (hm_nodup _ _ Hwf) |]. split; [| apply NoDup_singleton].
      intros p Hp ->%list_elem_of_singleton. done.
    + rewrite list_lookup_insert_ne in Hlj by done. by eapply (hm_nodup _ _ Hwf).
  - intros j lj p tp Hlj Hp Htp. simpl in Htp.
    assert (∀ lj', ls !! j = Some lj' → p ∈ lj' → hash_function (pt_paddr tp) = Z.of_nat j) as Hold.
    { intros lj' Hlj' Hp'. destruct (hm_is_Some _ _ _ _ _ Hwf Hlj' Hp') as [t0 Ht0].
      destruct (Haddr _ _ Ht0) as (t1 & Ht1 & Hpa). rewrite Htp in Ht1. injection Ht1 as <-.
      rewrite Hpa. by eapply (hm_hash _ _ Hwf). }
    destruct (decide (j = i)) as [->|Hne].
    + rewrite list_lookup_insert_eq in Hlj by done. injection Hlj as <-.
      apply elem_of_app in Hp as [Hp| ->%list_elem_of_singleton]; [by apply (Hold l) |].
      rewrite Ht in Htp. injection Htp as <-. unfold i. pose proof (hash_range (pt_paddr t)). lia.
    + rewrite list_lookup_insert_ne in Hlj by done. by apply (Hold lj).
Qed.

(** Lookups in such an extension: old bindings win, the new node answers for
    its own address otherwise. *)
Lemma hm_lookup_extend (s s' : state) ls table t l k :
  hm_wf s ls → same_addrs s s' →
  let i := Z.to_nat (hash_function (pt_paddr t)) in
  ls !! i = Some l → pt_nodes s' !! table = Some t →
  hm_lookup s' (<[i := l ++ [table]]> ls) k =
  match hm_lookup s ls k with
  | Some v => Some v
  | None => if k =? pt_paddr t then Some (pt_vaddr t) else None
  end.
Proof.
  intros Hwf Hsa i Hl Ht. unfold hm_lookup.
  assert (∀ j lj, ls !! j = Some lj → ∀ q,
    find_chain (pt_nodes s') lj q = find_chain (pt_nodes s) lj q) as Hag.
  { intros j lj Hlj q. apply find_chain_agree; [intros; by apply Hsa |].
    intros p Hp. by eapply hm_is_Some. }
  destruct (decide (Z.to_nat (hash_function k) = i)) as [->|Hne].
  - rewrite list_lookup_insert_eq by (by eapply lookup_lt_Some). rewrite Hl. simpl.
    rewrite find_chain_app.
    + rewrite (Hag _ _ Hl). destruct (find_chain _ l k); [done |]. simpl. rewrite Ht.
      by rewrite Z.eqb_sym.
    + intros p Hp. destruct (hm_is_Some _ _ _ _ _ Hwf Hl Hp) as [tp Htp].
      destruct (Hsa _ _ Htp) as (tp' & -> & _). by eexists.
  - rewrite list_lookup_insert_ne by done.
    destruct (hm_chain s ls (hash_function k) Hwf (hash_range k)) as (_ & lk & _ & Hlk & _).
    rewrite Hlk. simpl. rewrite (Hag _ _ Hlk). destruct (find_chain _ lk k); [done |].
    destruct (k =? pt_paddr t) eqn:E; zbool; [| done]. by subst k.
Qed.

Lemma find_chain_Some ns l k v :
  find_chain ns l k = Some v → ∃ p t, ns !! p = Some t ∧ pt_paddr t = k ∧ pt_vaddr t = v.
Proof.
  induction l as [|q l IH]; simpl; intros Hf; [done |].
  destruct (ns !! q) as [t|] eqn:E; [| done]. destruct (_ =? k) eqn:Ek; zbool; [| by apply IH].
  injection Hf as <-. by exists q, t.
Qed.

Lemma find_node_none ns l k :
  (∀ p, p ∈ l → is_Some (ns !! p)) → find_chain ns l k = None → find_node ns l k = None.
Proof.
  induction l as [|q l IH]; intros Hs; [done |]. simpl.
  destruct (Hs q) as [t ->]; [left |]. destruct (pt_paddr t =? k); [done |].
  apply IH. intros. apply Hs. by right.
Qed.

(** The chain the address of [t] hashes to, and the part of it that
    [pg_tbl_insert] compares with: everything but its head. *)
Definition home (ls : list (list Z)) (k : Z) : list Z :=
  default [] (ls !! Z.to_nat (hash_function k)).
Definition dup_node (s : state) (ls : list (list Z)) (k : Z) : option Z :=
  find_node (pt_nodes s) (tail (home ls k)) k.

(** A node that may be inserted: in the heap, in no chain, and the end of its
    own list. *)
Record loose (s : state) (ls : list (list Z)) (table : Z) (t : page_table_t) : Prop := {
  loose_node : pt_nodes s !! table = Some t;
  loose_next : next t = NULL;
  loose_ptr : table ≠ NULL;
  loose_fresh : ∀ i l, ls !! i = Some l → table ∉ l;
}.

(** The chains with [table] at the end of that of the address [k]. *)
Definition append_node (ls : list (list Z)) (table k : Z) : list (list Z) :=
  <[Z.to_nat (hash_function k) := home ls k ++ [table]]> ls.

(** The outcome [r] of inserting [t] behind everything that is there: the
    bindings of [s] stay, and [t] answers for its address if nothing did. *)
Definition appended (s : state) ls (table : Z) (t : page_table_t) (r : outcome (bool * state)) : Prop :=
  let ls' := append_node ls table (pt_paddr t) in
  ∃ s', r = Ok (true, s') ∧ hm_wf s' ls' ∧ map_only s s' ∧ same_addrs s s' ∧
    (∀ p, is_Some (pt_nodes s' !! p) → is_Some (pt_nodes s !! p)) ∧
    ∀ k, hm_lookup s' ls' k =
      match hm_lookup s ls k with
      | Some v => Some v
      | None => if k =? pt_paddr t then Some (pt_vaddr t) else None
      end.

Lemma insert_empty_bucket s ls table t :
  let i := Z.to_nat (hash_function (pt_paddr t)) in
  hm_wf s ls → loose s ls table t → ls !! i = Some [] →
  appended s ls table t (Ok (true, set_bucket s (hash_function (pt_paddr t)) table)).
Proof.
  intros i Hwf [Ht Hn Hp0 Hni] Hl. destruct (hm_buckets _ _ Hwf) as (bs & Hbs & Hlb & Hch).
  pose proof (hash_range (pt_paddr t)) as Hhr.
  unfold appended, append_node, home. fold i. rewrite Hl. cbn [default from_option id].
  eexists. split; [reflexivity |].
  unfold set_bucket. rewrite Hbs. simpl. fold i.
  set (hb := Some (<[i := table]> bs)).
  assert (same_addrs s (set_vmm_hashmap s hb)) as Hsa by (intros p tp Htp; by exists tp).
  split_and!; [| by exists (pt_nodes s), hb | done | done
               | intros k; by apply (hm_lookup_extend s (set_vmm_hashmap s hb) ls table t [])].
  apply (hm_wf_extend s ls table t [] (pt_nodes s) hb (<[i := table]> bs) table); try done.
  - set_solver.
  - by rewrite length_insert.
  - apply list_lookup_insert_eq. rewrite Hlb. unfold i. lia.
  - simpl. split_and!; [done | done |]. by exists t.
  - intros j Hj. rewrite Hbs. simpl. by rewrite list_lookup_insert_ne.
  - intros p tp Htp. by exists tp.
Qed.

Lemma insert_last_node s ls table t l lst c :
  let i := Z.to_nat (hash_function (pt_paddr t)) in
  hm_wf s ls → loose s ls table t → ls !! i = Some l →
  last l = Some lst → pt_nodes s !! lst = Some c →
  appended s ls table t (Ok (true, set_node s lst (with_next c table))).
Proof.
  intros i Hwf [Ht Hn Hp0 Hni] Hl Hlst Hcn. specialize (Hni _ _ Hl).
  destruct (hm_buckets _ _ Hwf) as (bs & Hbs & Hlb & Hch).
  destruct (hm_chain s ls _ Hwf (hash_range (pt_paddr t))) as (b & l' & Hb & Hl' & Hc & Hnd & _).
  fold i in Hl'. rewrite Hl in Hl'. injection Hl' as <-.
  unfold bucket in Hb. rewrite Hbs in Hb. apply of_option_Ok in Hb.
  assert (lst ∈ l) as Hin by (by apply last_Some_elem_of).
  assert (lst ≠ table) by (intros ->; done).
  set (s' := set_node s lst (with_next c table)).
  assert (same_addrs s s') as Hsa.
  { intros q tq Htq. simpl. destruct (decide (lst = q)) as [->|].
    - eexists. rewrite lookup_insert_eq. split; [done |]. rewrite Hcn in Htq. by injection Htq as <-.
    - exists tq. by rewrite lookup_insert_ne. }
  assert (pt_nodes s' !! table = Some t) as Ht' by (simpl; by rewrite lookup_insert_ne).
  unfold appended, append_node, home. fold i. rewrite Hl. cbn [default from_option id].
  eexists.
  split_and!; [reflexivity | | by exists (pt_nodes s'), (vmm_hashmap s) | done | | ].
  - apply (hm_wf_extend s ls table t l (pt_nodes s') (vmm_hashmap s) bs b); try done.
    + by eapply chain_snoc.
    + intros j Hj. by rewrite Hbs.
    + intros q tq Hq Htq. simpl. rewrite lookup_insert_ne; [done |]. by intros ->.
    + intros q tq Htq. destruct (Hsa q tq Htq) as (tq' & ? & ? & _). by exists tq'.
  - intros q. simpl. destruct (decide (lst = q)) as [->|]; [by rewrite Hcn |].
    by rewrite lookup_insert_ne.
  - intros k. by apply (hm_lookup_extend s s').
Qed.

Lemma pg_tbl_insert_append s ls table t :
  hm_wf s ls → loose s ls table t → dup_node s ls (pt_paddr t) = None →
  appended s ls table t (pg_tbl_insert s table).
Proof.
  intros Hwf Hlo Hdup. pose proof (loose_node _ _ _ _ Hlo) as Ht.
  destruct (hm_chain s ls (hash_function (pt_paddr t)) Hwf (hash_range _))
    as (b & l & Hb & Hl & Hc & _ & Hlen).
  unfold dup_node, home in Hdup. rewrite Hl in Hdup. simpl in Hdup.
  unfold pg_tbl_insert, node_at. rewrite Ht. out_red. rewrite Hb.
  destruct l as [|p l].
  - simpl in Hc. subst b. by apply insert_empty_bucket.
  - pose proof Hc as (-> & Hp & _). unfold NULL in Hp |- *. zdec.
    pose proof (insert_loop_chain (chain_fuel s) s p l table t Hc Ht) as Hins.
    simpl in Hdup. rewrite Hdup in Hins. destruct Hins as (lst & c & Hlst & Hcn & ->).
    { unfold chain_fuel. simpl in Hlen. lia. }
    by eapply insert_last_node.
Qed.

Lemma find_node_in ns l k q : find_node ns l k = Some q → q ∈ l.
Proof.
  induction l as [|r l IH]; simpl; intros Hf; [done |].
  destruct (ns !! r); [| done]. destruct (_ =? k); [injection Hf as ->; left |].
  right. by apply IH.
Qed.

(** The other branch: a node behind the head carries the address already. *)
Lemma find_chain_update ns l q n v k :
  (∀ p, p ∈ l → is_Some (ns !! p)) → NoDup l →
  ns !! q = Some n → q ∈ l →
  find_chain (<[q := with_vaddr n v]> ns) l k =
  if decide (find_node ns l k = Some q) then Some v else find_chain ns l k.
Proof.
  induction l as [|p l IH]; intros Hs Hnd Hq Hin; [set_solver |].
  apply NoDup_cons in Hnd as [Hp Hnd]. destruct (Hs p) as [t Ht]; [left |]. simpl.
  rewrite Ht. destruct (decide (q = p)) as [->|Hne].
  - rewrite lookup_insert_eq. rewrite Hq in Ht. injection Ht as <-. simpl.
    destruct (pt_paddr n =? k); [by rewrite decide_True |].
    rewrite decide_False.
    + apply find_chain_agree; [| intros; apply Hs; by right].
      intros r tr Hr Htr. exists tr. rewrite lookup_insert_ne; [done |]. by intros ->.
    + intros Hf. apply Hp. by eapply find_node_in.
  - rewrite lookup_insert_ne, Ht by done. destruct (pt_paddr t =? k).
    + rewrite decide_False; [done |]. congruence.
    + apply IH; try done; [intros; apply Hs; by right |].
      apply elem_of_cons in Hin as [->|]; done.
Qed.

Lemma pg_tbl_insert_update s ls table t q :
  hm_wf s ls → loose s ls table t → dup_node s ls (pt_paddr t) = Some q →
  ∃ s', pg_tbl_insert s table = Ok (false, s') ∧ hm_wf s' ls ∧ map_only s s' ∧
    (∀ p, is_Some (pt_nodes s' !! p) → is_Some (pt_nodes s !! p)) ∧
    (∀ p, q ≠ p → pt_nodes s' !! p = pt_nodes s !! p) ∧
    ∀ k, hm_lookup s' ls k =
      if decide (find_node (pt_nodes s) (home ls k) k = Some q)
      then Some (pt_vaddr t) else hm_lookup s ls k.
Proof.
  intros Hwf Hlo Hdup. pose proof (loose_node _ _ _ _ Hlo) as Ht.
  destruct (hm_chain s ls (hash_function (pt_paddr t)) Hwf (hash_range _))
    as (b & l & Hb & Hl & Hc & Hnd & Hlen).
  unfold dup_node, home in Hdup. rewrite Hl in Hdup. simpl in Hdup.
  unfold pg_tbl_insert, node_at. rewrite Ht. out_red. rewrite Hb.
  destruct l as [|p l]; [done |]. pose proof Hc as (-> & Hp & _). unfold NULL in Hp |- *. zdec.
  pose proof (insert_loop_chain (chain_fuel s) s p l table t Hc Ht) as Hins.
  simpl in Hdup. rewrite Hdup in Hins. destruct Hins as (n & Hq & Hin & Hpa & ->).
  { unfold chain_fuel. simpl in Hlen. lia. }
  eexists. split; [reflexivity |]. split; [by eapply hm_wf_update |].
  split; [by exists (<[q := with_vaddr n (pt_vaddr t)]> (pt_nodes s)), (vmm_hashmap s) |].
  split.
  { intros r. simpl. destruct (decide (q = r)) as [->|]; [by rewrite Hq |].
    by rewrite lookup_insert_ne. }
  split; [intros r Hr; simpl; by rewrite lookup_insert_ne |].
  intros k. unfold hm_lookup, home. simpl.
  destruct (hm_chain s ls (hash_function k) Hwf (hash_range k)) as (_ & lk & _ & Hlk & _ & Hndk & _).
  rewrite Hlk. simpl. assert (∀ r, r ∈ lk → is_Some (pt_nodes s !! r)) as Hs
    by (intros r Hr; by eapply hm_is_Some).
  destruct (decide (q ∈ lk)) as [Hqk|Hqk]; [by apply find_chain_update |].
  rewrite decide_False by (intros Hf%find_node_in; done).
  apply find_chain_agree; [| done]. intros r tr Hr Htr. exists tr.
  rewrite lookup_insert_ne; [done |]. by intros ->.
Qed.

End Chains.

(** ** Unlinking a node *)

Section Unlink.
Context {F H : Type}.
Local Abbreviation state := (mm F H).

(** [pre->next = q->next; q->next = f]. *)
Definition unlink (ns : gmap Z page_table_t) (pre q f : Z) (c n : page_table_t) :=
  <[q := with_next n f]> (<[pre := with_next c (next n)]> ns).

Lemma unlink_other ns pre q f c n p :
  p ≠ pre → p ≠ q → unlink ns pre q f c n !! p = ns !! p.
Proof. intros. unfold unlink. by rewrite !lookup_insert_ne by done. Qed.

Lemma chain_unlink ns b l1 q l2 pre c n f :
  chain ns b (l1 ++ q :: l2) → NoDup (l1 ++ q :: l2) → last l1 = Some pre →
  ns !! pre = Some c → ns !! q = Some n →
  chain (unlink ns pre q f c n) b (l1 ++ l2).
Proof.
  revert b. induction l1 as [|p l1 IH]; intros b Hc Hnd Hl Hpre Hq; [done |].
  destruct Hc as (-> & Hp & t & Ht & Hc). apply NoDup_cons in Hnd as [Hpn Hnd].
  assert (p ≠ q) by (intros ->; apply Hpn; set_solver).
  destruct l1 as [|p' l1].
  - injection Hl as <-. rewrite Hpre in Ht. injection Ht as <-. simpl.
    split_and!; [done | done |]. exists (with_next c (next n)). unfold unlink at 1.
    rewrite lookup_insert_ne, lookup_insert_eq by done. split; [done |]. simpl.
    destruct Hc as (_ & _ & n' & Hn' & Hc). rewrite Hq in Hn'. injection Hn' as <-.
    eapply chain_agree; [| exact Hc]. intros r tr Hr Htr. exists tr.
    simpl in Hpn. apply NoDup_cons in Hnd as [Hqn _]. rewrite unlink_other; [done | |]; set_solver.
  - assert (pre ∈ p' :: l1) as Hin by (by apply last_Some_elem_of).
    simpl. split_and!; [done | done |]. exists t.
    rewrite unlink_other by set_solver. split; [done |]. by apply IH.
Qed.

(** [while(current_node_ptr->next != NULL)] of [vmm_hashmap_remove]: it finds
    the first node behind [p] that carries [k] and unlinks it. *)
Lemma remove_loop_chain fuel (s : state) p l k :
  chain (pt_nodes s) p (p :: l) → NoDup (p :: l) → (length l < fuel)%nat →
  match find_node (pt_nodes s) l k with
  | Some q => ∃ l1 l2 pre c n, p :: l = l1 ++ q :: l2 ∧ last l1 = Some pre ∧
      pt_nodes s !! pre = Some c ∧ pt_nodes s !! q = Some n ∧ pt_paddr n = k ∧
      remove_loop fuel s p k =
        Ok (true, set_tables (set_pt_nodes s (unlink (pt_nodes s) pre q (tables s) c n)) q)
  | None => remove_loop fuel s p k = Ok (false, s)
  end.
Proof.
  revert fuel p. induction l as [|q l IH]; intros [|fuel] p Hc Hnd Hf; simpl in Hf; try lia.
  - destruct Hc as (_ & Hp & c & Hcn & Hn). simpl in Hn. simpl. unfold node_at.
    rewrite Hcn. out_step. by rewrite Hn.
  - destruct Hc as (_ & Hp & c & Hcn & Hc). pose proof Hc as (Hnq & Hq & n & Hqn & Hc').
    apply NoDup_cons in Hnd as [Hpn Hnd]. assert (p ≠ q) by (intros ->; set_solver).
    simpl. unfold node_at. rewrite Hcn. out_step. rewrite Hnq. unfold NULL in *. zdec.
    rewrite Hqn. out_step. destruct (pt_paddr n =? k) eqn:E; zbool.
    + exists [p], l, p, c, n. split_and!; try done.
      by rewrite lookup_insert_ne, Hqn by done.
    + rewrite Hnq in Hc. specialize (IH fuel q Hc Hnd ltac:(lia)).
      destruct (find_node (pt_nodes s) l k) as [r|]; [| done].
      destruct IH as (l1 & l2 & pre & c' & n' & Heq & Hl & ? & ? & ? & ?).
      exists (p :: l1), l2, pre, c', n'. split_and!; try done.
      * simpl. by rewrite Heq.
      * by destruct l1.
Qed.

Lemma unlink_nodes ns pre q f c n p t :
  pre ≠ q → ns !! pre = Some c → ns !! q = Some n → ns !! p = Some t →
  ∃ t', unlink ns pre q f c n !! p = Some t' ∧ pt_paddr t' = pt_paddr t ∧ pt_vaddr t' = pt_vaddr t.
Proof.
  intros Hne Hpre Hq Hp. destruct (decide (p = q)) as [->|].
  - eexists. unfold unlink. rewrite lookup_insert_eq. split; [done |].
    rewrite Hq in Hp. by injection Hp as <-.
  - destruct (decide (p = pre)) as [->|].
    + eexists. unfold unlink. rewrite lookup_insert_ne, lookup_insert_eq by done.
      split; [done |]. rewrite Hpre in Hp. by injection Hp as <-.
    + exists t. by rewrite unlink_other.
Qed.

Lemma hm_wf_unlink (s : state) ls i l1 q l2 pre c n f tb :
  hm_wf s ls → ls !! i = Some (l1 ++ q :: l2) → last l1 = Some pre →
  pt_nodes s !! pre = Some c → pt_nodes s !! q = Some n →
  hm_wf (set_tables (set_pt_nodes s (unlink (pt_nodes s) pre q f c n)) tb) (<[i := l1 ++ l2]> ls).
Proof.
  intros Hwf Hi Hl Hpre Hq. destruct (hm_buckets _ _ Hwf) as (bs & Hbs & Hlen & Hch).
  assert (NoDup (l1 ++ q :: l2)) as Hnd by (by eapply (hm_nodup _ _ Hwf)).
  assert (pre ∈ l1) as Hin by (by apply last_Some_elem_of).
  assert (pre ≠ q) as Hne by (intros ->; apply NoDup_app in Hnd as (_ & Hd & _); by eapply Hd; [| left]).
  assert (i < length ls)%nat as Hilt by (by eapply lookup_lt_Some).
  assert (∀ j lj p t, ls !! j = Some lj → p ∈ lj →
    unlink (pt_nodes s) pre q f c n !! p = Some t → hash_function (pt_paddr t) = Z.of_nat j) as Hh.
  { intros j lj p t Hlj Hp Ht. destruct (hm_is_Some _ _ _ _ _ Hwf Hlj Hp) as [t0 Ht0].
    destruct (unlink_nodes _ pre q f c n _ _ Hne Hpre Hq Ht0) as (t' & Ht' & Hpa & _).
    rewrite Ht in Ht'. injection Ht' as <-. rewrite Hpa. by eapply (hm_hash _ _ Hwf). }
  split.
  - exists bs. split_and!; [done | done |]. intros j b lj Hb Hlj. simpl.
    destruct (decide (j = i)) as [->|Hji].
    + rewrite list_lookup_insert_eq in Hlj by done. injection Hlj as <-.
      apply chain_unlink; try done. by eapply Hch.
    + rewrite list_lookup_insert_ne in Hlj by done. eapply chain_agree; [| by eapply Hch].
      intros p t Hp Ht. exists t. rewrite unlink_other; [done | |];
        intros ->; apply Hji; rewrite (hm_node_chain _ _ _ _ _ _ Hwf Hlj Hp Ht); symmetry;
        eapply (hm_node_chain _ _ _ _ _ _ Hwf Hi); try done; set_solver.
  - rewrite length_insert. apply (hm_length _ _ Hwf).
  - intros j lj Hlj. destruct (decide (j = i)) as [->|Hji].
    + rewrite list_lookup_insert_eq in Hlj by done. injection Hlj as <-.
      eapply sublist_NoDup; [exact Hnd |]. by apply sublist_app, sublist_cons.
    + rewrite list_lookup_insert_ne in Hlj by done. by eapply (hm_nodup _ _ Hwf).
  - intros j lj p t Hlj Hp Ht. destruct (decide (j = i)) as [->|Hji].
    + rewrite list_lookup_insert_eq in Hlj by done. injection Hlj as <-.
      eapply Hh; try done. set_solver.
    + rewrite list_lookup_insert_ne in Hlj by done. by eapply Hh.
Qed.

Lemma find_chain_skip ns l1 q l2 n k :
  (∀ p, p ∈ l1 → is_Some (ns !! p)) → ns !! q = Some n → pt_paddr n ≠ k →
  find_chain ns (l1 ++ l2) k = find_chain ns (l1 ++ q :: l2) k.
Proof.
  intros Hs Hq Hk. rewrite !find_chain_app by done. simpl. rewrite Hq. by zdec.
Qed.

Lemma find_chain_absent ns l k :
  (∀ p t, p ∈ l → ns !! p = Some t → pt_paddr t ≠ k) → find_chain ns l k = None.
Proof.
  induction l as [|p l IH]; intros Hl; [done |]. simpl. destruct (ns !! p) as [t|] eqn:E; [| done].
  specialize (Hl p t) as Hp. rewrite (proj2 (Z.eqb_neq _ _)) by (apply Hp; [left | done]).
  apply IH. intros. eapply Hl; [by right | done].
Qed.

(** Lookups of the other addresses survive the removal of [q]. *)
Lemma lookup_unlinked (s s' : state) ls l1 q l2 n k k' :
  hm_wf s ls → same_addrs s s' → ls !! Z.to_nat (hash_function k) = Some (l1 ++ q :: l2) →
  pt_nodes s !! q = Some n → pt_paddr n = k → k' ≠ k →
  hm_lookup s' (<[Z.to_nat (hash_function k) := l1 ++ l2]> ls) k' = hm_lookup s ls k'.
Proof.
  intros Hwf Hsa Hl Hq Hk Hne. unfold hm_lookup.
  assert (∀ lj, (∀ r, r ∈ lj → is_Some (pt_nodes s !! r)) →
    find_chain (pt_nodes s') lj k' = find_chain (pt_nodes s) lj k') as Hag.
  { intros lj Hs. apply find_chain_agree; [intros; by apply Hsa | done]. }
  assert (∀ r, r ∈ l1 ++ q :: l2 → is_Some (pt_nodes s !! r)) as Hs
    by (intros r Hr; by eapply hm_is_Some).
  destruct (decide (Z.to_nat (hash_function k) = Z.to_nat (hash_function k'))) as [Heq|Hneq].
  - rewrite <- Heq, list_lookup_insert_eq, Hl by (by eapply lookup_lt_Some). simpl.
    rewrite Hag by (intros; apply Hs; set_solver).
    eapply find_chain_skip; [intros; apply Hs; set_solver | done | congruence].
  - rewrite list_lookup_insert_ne by done.
    destruct (hm_chain s ls (hash_function k') Hwf (hash_range k')) as (_ & lk & _ & Hlk & _).
    rewrite Hlk. simpl. apply Hag. intros r Hr. by eapply hm_is_Some.
Qed.

End Unlink.

(** ** The operations of the hash map *)

Section Api.
Context {F H : Type} `{HeapAlloc H}.
Local Abbreviation state := (mm F H).

(** The nodes are live blocks of the kernel heap. *)
Definition nodes_live (s : state) : Prop :=
  ha_inv (kheap s) ∧ ∀ p, is_Some (pt_nodes s !! p) → ha_live (kheap s) p.

(** Well-formedness only reads the nodes and the buckets. *)
Lemma hm_wf_proper (s s' : state) ls :
  vmm_hashmap s' = vmm_hashmap s → pt_nodes s' = pt_nodes s → hm_wf s ls → hm_wf s' ls.
Proof. intros Hh Hn [Hb Hl Hd Hk]. split; rewrite ?Hh, ?Hn; done. Qed.

(** A node outside the map does not change it. *)
Lemma hm_wf_fresh_node (s : state) ls p t :
  hm_wf s ls → pt_nodes s !! p = None → hm_wf (set_node s p t) ls.
Proof.
  intros Hwf Hp. destruct (hm_buckets _ _ Hwf) as (bs & Hbs & Hlen & Hch). split.
  - exists bs. split_and!; [done | done |]. intros i b l Hb Hl.
    apply (chain_agree (pt_nodes s)); [| by eapply Hch]. intros q tq _ Hq. exists tq. simpl.
    rewrite lookup_insert_ne; [done |]. by intros ->; rewrite Hp in Hq.
  - apply (hm_length _ _ Hwf).
  - apply (hm_nodup _ _ Hwf).
  - intros i l q tq Hl Hq Htq. destruct (hm_is_Some _ _ _ _ _ Hwf Hl Hq) as [t0 Ht0].
    simpl in Htq. rewrite lookup_insert_ne in Htq; [by eapply (hm_hash _ _ Hwf) |].
    intros ->. by rewrite Hp in Ht0.
Qed.

Lemma hm_home_node (s : state) ls k p :
  hm_wf s ls → p ∈ home ls k → is_Some (pt_nodes s !! p).
Proof.
  intros Hwf. unfold home.
  destruct (hm_chain s ls (hash_function k) Hwf (hash_range k)) as (_ & l & _ & Hl & _).
  rewrite Hl. by apply (hm_is_Some _ _ _ _ _ Hwf Hl).
Qed.

Lemma hm_lookup_fresh_node (s : state) ls p t k :
  hm_wf s ls → pt_nodes s !! p = None → hm_lookup (set_node s p t) ls k = hm_lookup s ls k.
Proof.
  intros Hwf Hp. apply find_chain_agree; [| intros q Hq; by apply (hm_home_node s ls k)].
  intros q tq _ Hq. exists tq. simpl. rewrite lookup_insert_ne; [done |].
  intros ->. by rewrite Hp in Hq.
Qed.

Lemma find_node_agree ns ns' l k :
  (∀ p, p ∈ l → is_Some (ns !! p) ∧ ns' !! p = ns !! p) → find_node ns' l k = find_node ns l k.
Proof.
  induction l as [|q l IH]; intros Hag; [done |]. simpl.
  destruct (Hag q) as [[t Ht] ->]; [left |]. rewrite Ht. destruct (_ =? k); [done |].
  apply IH. intros. apply Hag. by right.
Qed.

Lemma dup_fresh_node (s : state) ls p t k :
  hm_wf s ls → pt_nodes s !! p = None → dup_node (set_node s p t) ls k = dup_node s ls k.
Proof.
  intros Hwf Hp. apply find_node_agree. intros q Hq.
  assert (is_Some (pt_nodes s !! q)) as Hs.
  { apply (hm_home_node s ls k); [done |]. destruct (home ls k); [done | by right]. }
  split; [done |]. simpl. apply lookup_insert_ne. intros ->. rewrite Hp in Hs.
  by destruct Hs.
Qed.

(** The head of the chain of [paddr] carries [paddr]. *)
Definition head_carries (s : state) (ls : list (list Z)) (paddr : Z) : bool :=
  match home ls paddr with
  | [] => false
  | p :: _ => bool_decide (pt_paddr <$> pt_nodes s !! p = Some paddr)
  end.

(** What lookups of [k] answer after [vaddr] was put under [paddr]: the head
    of the chain is not compared, so that a binding there stays. *)
Definition put_result (s : state) (ls : list (list Z)) (vaddr paddr k : Z) : Z :=
  if k =? paddr then
    if head_carries s ls paddr then default NULL (hm_lookup s ls paddr) else vaddr
  else default NULL (hm_lookup s ls k).

Lemma home_cases (s : state) ls k :
  hm_wf s ls → home ls k = [] ∨
  ∃ p t l, home ls k = p :: l ∧ pt_nodes s !! p = Some t ∧ p ∉ l.
Proof.
  intros Hwf. pose proof (hm_home_node s ls k) as Hn. unfold home in *.
  destruct (hm_chain s ls (hash_function k) Hwf (hash_range k)) as (_ & l & _ & Hl & _ & Hnd & _).
  rewrite Hl in *. simpl in *. destruct l as [|p l]; [by left |]. right.
  destruct (Hn p Hwf) as [t Ht]; [left |]. exists p, t, l. apply NoDup_cons in Hnd as [? _]. done.
Qed.

Lemma find_node_carries ns l k q :
  find_node ns l k = Some q → ∃ t, ns !! q = Some t ∧ pt_paddr t = k.
Proof.
  induction l as [|r l IH]; simpl; intros Hf; [done |].
  destruct (ns !! r) as [t|] eqn:E; [| done]. destruct (_ =? k) eqn:Ek; zbool; [| by apply IH].
  injection Hf as <-. by exists t.
Qed.

(** A binding that is not found behind the head is the head's. *)
Lemma put_append_result (s : state) ls vaddr paddr k :
  hm_wf s ls → dup_node s ls paddr = None →
  default NULL (match hm_lookup s ls k with
    | Some v => Some v
    | None => if k =? paddr then Some vaddr else None
    end) = put_result s ls vaddr paddr k.
Proof.
  intros Hwf Hd. unfold put_result. destruct (k =? paddr) eqn:E; [| by destruct (hm_lookup s ls k)].
  zbool. subst k. unfold hm_lookup, head_carries, dup_node in *. fold (home ls paddr).
  destruct (home_cases s ls paddr Hwf) as [->|(p & t & l & Hh & Ht & _)]; [done |].
  pose proof (hm_home_node s ls paddr) as Hn. rewrite Hh in *. simpl in *. rewrite Ht. simpl.
  destruct (pt_paddr t =? paddr) eqn:Ep; zbool.
  - rewrite bool_decide_eq_true_2 by congruence. done.
  - rewrite bool_decide_eq_false_2 by congruence.
    assert (find_chain (pt_nodes s) l paddr = None) as ->; [| done].
    assert (∀ q, q ∈ l → is_Some (pt_nodes s !! q)) as Hs by (intros; apply Hn; [done | by right]).
    clear -Hd Hs. induction l as [|q l IH]; [done |]. simpl in *.
    destruct (Hs q) as [t Ht]; [left |]. rewrite Ht in *. destruct (_ =? paddr); [done |].
    apply IH; [done |]. intros. apply Hs. by right.
Qed.

Lemma put_update_result (s : state) ls vaddr paddr q k :
  hm_wf s ls → dup_node s ls paddr = Some q →
  default NULL (if decide (find_node (pt_nodes s) (home ls k) k = Some q)
    then Some vaddr else hm_lookup s ls k) = put_result s ls vaddr paddr k.
Proof.
  intros Hwf Hd. unfold put_result. destruct (k =? paddr) eqn:E; zbool.
  - subst k. unfold head_carries, dup_node in *.
    destruct (home_cases s ls paddr Hwf) as [Hh|(p & t & l & Hh & Ht & Hp)]; rewrite Hh in *; [done |].
    simpl in *. rewrite Ht. simpl. destruct (pt_paddr t =? paddr) eqn:Ep; zbool.
    + rewrite bool_decide_eq_true_2 by congruence. rewrite decide_False; [done |].
      intros [= ->]. by apply find_node_in in Hd.
    + rewrite bool_decide_eq_false_2 by congruence. by rewrite decide_True.
  - rewrite decide_False; [done |]. intros Hf%find_node_carries.
    apply find_node_carries in Hd. destruct Hf as (? & ? & ?), Hd as (? & ? & ?). congruence.
Qed.

(** [kmalloc] hands out a node that no chain contains. *)
Lemma kmalloc_loose (s : state) ls t p h :
  hm_wf s ls → nodes_live s → next t = NULL → ha_alloc (kheap s) SIZEOF_PAGE_TABLE_T = Ok (p, h) →
  let s1 := set_node (set_kheap s h) p t in
  pt_nodes s !! p = None ∧ hm_wf s1 ls ∧ nodes_live s1 ∧ loose s1 ls p t.
Proof.
  intros Hwf [Hinv Hlive] Hn Ha s1.
  destruct (ha_alloc_spec _ SIZEOF_PAGE_TABLE_T _ _ Hinv ltac:(done) Ha) as (Hinv' & Hp & Hnl & Hl').
  assert (pt_nodes s !! p = None) as Hnone.
  { destruct (pt_nodes s !! p) eqn:E; [| done]. destruct Hnl. apply Hlive. by eexists. }
  split_and!; [done | | |].
  - apply hm_wf_fresh_node; [| done]. by apply (hm_wf_proper s).
  - split; [done |]. intros q. simpl. destruct (decide (p = q)) as [->|].
    + intros _. apply Hl'. by left.
    + rewrite lookup_insert_ne by done. intros Hq. apply Hl'. right. by apply Hlive.
  - split; [apply lookup_insert_eq | done | unfold NULL; lia |].
    intros i l Hl Hpl. destruct (hm_is_Some _ _ _ _ _ Hwf Hl Hpl) as [x Hx].
    by rewrite Hnone in Hx.
Qed.

Lemma nodes_live_map_only (s s' : state) :
  map_only s s' → (∀ p, is_Some (pt_nodes s' !! p) → is_Some (pt_nodes s !! p)) →
  nodes_live s → nodes_live s'.
Proof. intros (ns & hb & ->) Hsub [Hi Hl]. split; [done |]. intros p Hp. by apply Hl, Hsub. Qed.

(** [C15] vmm_hashmap_put on every branch: it answers false and links nothing
    when a node behind the head of the chain has the address, which gets the
    new virtual address; otherwise it answers true and appends a node with
    both addresses to the chain.  Lookups of other addresses are kept; the
    address is found with its new virtual address, but when it is at the head
    of its chain with its old one, although a second node is appended. *)
Theorem vmm_hashmap_put_spec (s : state) ls vaddr paddr p h :
  hm_wf s ls → nodes_live s → ha_alloc (kheap s) SIZEOF_PAGE_TABLE_T = Ok (p, h) →
  ∃ s', vmm_hashmap_put s vaddr paddr = Ok (bool_decide (dup_node s ls paddr = None), s') ∧
    hm_wf s' (match dup_node s ls paddr with Some _ => ls | None => append_node ls p paddr end) ∧
    (∃ t, pt_nodes s' !! p = Some t ∧ pt_paddr t = paddr ∧ pt_vaddr t = vaddr) ∧ nodes_live s' ∧
    ∀ k, get_ptbl_vaddr s' k = Ok (put_result s ls vaddr paddr k).
Proof.
  intros Hwf Hnl Ha. unfold vmm_hashmap_put, kmalloc_mm.
  destruct (hm_buckets _ _ Hwf) as (bs & Hbs & _). rewrite Hbs, Ha. out_red. simpl pt_nodes.
  set (t := PageTable _ vaddr paddr true NULL).
  destruct (kmalloc_loose s ls t p h Hwf Hnl eq_refl Ha) as (Hnone & Hwf1 & Hnl1 & Hlo).
  set (s1 := set_node (set_kheap s h) p t) in *.
  assert (∀ k, hm_lookup s1 ls k = hm_lookup s ls k) as Hlk
    by (intros k; by apply (hm_lookup_fresh_node (set_kheap s h)); [by apply (hm_wf_proper s) |]).
  assert (dup_node s1 ls paddr = dup_node s ls paddr) as Hdp
    by (by apply (dup_fresh_node (set_kheap s h)); [by apply (hm_wf_proper s) |]).
  assert (∀ k, put_result s1 ls vaddr paddr k = put_result s ls vaddr paddr k) as Hpr.
  { intros k. unfold put_result, head_carries. rewrite !Hlk.
    destruct (home_cases s ls paddr Hwf) as [->|(q & tq & l & -> & Hq & _)]; [done |].
    unfold s1. simpl. rewrite lookup_insert_ne; [done |]. by intros ->; rewrite Hnone in Hq. }
  rewrite <- Hdp. destruct (dup_node s1 ls paddr) as [q|] eqn:Hd.
  - destruct (pg_tbl_insert_update s1 ls p t q Hwf1 Hlo Hd) as (s' & -> & Hwf' & Hmo & Hsub & Hkeep & Hlook).
    exists s'. rewrite bool_decide_eq_false_2 by done. split_and!; [done | done | | |].
    + apply find_node_in in Hd. destruct (hm_chain s1 ls (hash_function paddr) Hwf1 (hash_range _)) as (_ & l & _ & Hl & _).
      assert (q ≠ p) as Hqp.
      { intros ->. apply (loose_fresh _ _ _ _ Hlo _ _ Hl). unfold home in Hd. rewrite Hl in Hd.
        destruct l as [|x l]; simpl in Hd; [set_solver | by right]. }
      exists t. split; [| done]. rewrite (Hkeep p Hqp). apply (loose_node _ _ _ _ Hlo).
    + by eapply nodes_live_map_only.
    + intros k. rewrite (get_ptbl_vaddr_lookup _ _ _ Hwf'), Hlook, <- Hpr. f_equal.
      by apply put_update_result.
  - destruct (pg_tbl_insert_append s1 ls p t Hwf1 Hlo Hd) as (s' & -> & Hwf' & Hmo & Hsa & Hsub & Hlook).
    exists s'. rewrite bool_decide_eq_true_2 by done. split_and!; [done | done | | |].
    + destruct (Hsa p t (loose_node _ _ _ _ Hlo)) as (t' & Ht' & Hp' & Hv'). by exists t'.
    + by eapply nodes_live_map_only.
    + intros k. rewrite (get_ptbl_vaddr_lookup _ _ _ Hwf'), Hlook, <- Hpr. f_equal.
      by apply put_append_result.
Qed.

(** [C27] vmm_hashmap_remove on every branch: a node behind the head of its
    chain is unlinked and put on the list of freed nodes, other lookups are
    kept, the head is never removed, and get_freed_pg_tbl does not return the
    node that was just freed. *)
Theorem vmm_hashmap_remove_spec (s : state) ls k :
  hm_wf s ls →
  match dup_node s ls k with
  | None => vmm_hashmap_remove s k = Ok (false, s)
  | Some q => ∃ s' ls', vmm_hashmap_remove s k = Ok (true, s') ∧ hm_wf s' ls' ∧
      tables s' = q ∧ get_freed_pg_tbl s' = Ok (tables s) ∧
      (∀ k', k' ≠ k → get_ptbl_vaddr s' k' = get_ptbl_vaddr s k') ∧
      ((∀ p t, p ∈ home ls k → p ≠ q → pt_nodes s !! p = Some t → pt_paddr t ≠ k) →
        get_ptbl_vaddr s' k = Ok NULL)
  end.
Proof.
  intros Hwf. destruct (hm_chain s ls (hash_function k) Hwf (hash_range k))
    as (b & l & Hb & Hl & Hc & Hnd & Hlen).
  assert (home ls k = l) as Hhome by (unfold home; by rewrite Hl).
  unfold dup_node. rewrite Hhome. unfold vmm_hashmap_remove.
  destruct (hm_buckets _ _ Hwf) as (bs & Hbs & _). rewrite Hbs, Hb. out_red.
  destruct l as [|p l]; [simpl in Hc; by subst b |].
  pose proof Hc as (-> & Hp & _). unfold NULL in Hp. rewrite (proj2 (Z.eqb_neq p NULL)) by done.
  pose proof (remove_loop_chain (S (chain_fuel s)) s p l k Hc Hnd) as Hr. simpl tail.
  assert (length l < S (chain_fuel s))%nat as Hf by (unfold chain_fuel; simpl in Hlen; lia).
  specialize (Hr Hf). destruct (find_node (pt_nodes s) l k) as [q|]; [| exact Hr].
  destruct Hr as (l1 & l2 & pre & c & n & Heq & Hlast & Hpre & Hq & Hk & ->).
  rewrite Heq in *. set (s' := set_tables _ q).
  assert (pre ≠ q) as Hne.
  { intros ->. apply NoDup_app in Hnd as (_ & Hd & _). eapply (Hd q); [by apply last_Some_elem_of | left]. }
  assert (same_addrs s s') as Hsa by (intros r t Hr; by apply unlink_nodes).
  assert (∀ r, r ∈ l1 ++ q :: l2 → is_Some (pt_nodes s !! r)) as Hs
    by (intros r Hr; by eapply hm_is_Some).
  assert (hm_wf s' (<[Z.to_nat (hash_function k) := l1 ++ l2]> ls)) as Hwf'
    by (by apply hm_wf_unlink).
  eexists s', _. split_and!; [done | exact Hwf' | done | | |].
  - unfold get_freed_pg_tbl, s', node_at, unlink. simpl.
    rewrite lookup_insert_eq. out_step. by rewrite (proj2 (Z.eqb_neq q NULL))
      by (eapply chain_node; [exact Hc | set_solver]).
  - intros k' Hk'. rewrite (get_ptbl_vaddr_lookup _ _ _ Hwf'), (get_ptbl_vaddr_lookup _ _ _ Hwf).
    f_equal. f_equal. by apply lookup_unlinked with (q := q) (n := n).
  - intros Hu. rewrite (get_ptbl_vaddr_lookup _ _ _ Hwf'). unfold hm_lookup.
    rewrite list_lookup_insert_eq by (by eapply lookup_lt_Some). simpl default.
    rewrite find_chain_absent; [done |]. intros r t Hr Ht.
    assert (r ≠ q) by (apply NoDup_app in Hnd as (? & Hd & [? ?]%NoDup_cons); set_solver).
    destruct (Hs r) as [t0 Ht0]; [set_solver |]. destruct (Hsa _ _ Ht0) as (t' & Ht' & Hpa & _).
    simpl in Ht'. rewrite Ht in Ht'. injection Ht' as <-. rewrite Hpa. apply (Hu r); [set_solver | done | done].
Qed.

End Api.

(** ** Evaluation *)

Definition map_state {H} (h : H) (ns : gmap Z page_table_t) (bs : list Z) : mm unit H :=
  Mm tt h ns (Some bs) NULL ∅ ∅ ∅ 0 0 0.

(** A fresh map. *)
Definition fresh_map : mm unit heap := map_state boot_heap ∅ (replicate 20 NULL).

(** Two tables in bucket 16, the second behind the first. *)
Definition two_tables : mm unit unit :=
  map_state tt {[8 := PageTable 0 0xffffff8000301000 0x1000 true 64;
              64 := PageTable 0 0xffffff8000302000 0x6000 true NULL]}
            (<[16%nat := 8]> (replicate 20 NULL)).

Lemma fresh_map_wf : hm_wf fresh_map (replicate 20 []).
Proof.
  split.
  - exists (replicate 20 NULL). split_and!; [done | done |]. intros i b l.
    rewrite !lookup_replicate. by intros [-> _] [-> _].
  - done.
  - intros i l [-> _]%lookup_replicate. constructor.
  - intros i l p t [-> _]%lookup_replicate. set_solver.
Qed.

Lemma two_tables_wf : hm_wf two_tables (<[16%nat := [8; 64]]> (replicate 20 [])).
Proof.
  assert (∀ i l, <[16%nat := [8; 64]]> (replicate 20 []) !! i = Some l →
    (i = 16%nat ∧ l = [8; 64]) ∨ (i ≠ 16%nat ∧ l = [])) as Hcase.
  { intros i l. destruct (decide (i = 16%nat)) as [->|].
    - rewrite list_lookup_insert_eq by (simpl; lia). intros [= <-]. by left.
    - rewrite list_lookup_insert_ne by done. intros [-> _]%lookup_replicate. by right. }
  split.
  - exists (<[16%nat := 8]> (replicate 20 NULL)). split_and!; [done | done |].
    intros i b l Hb [[-> ->]|[Hi ->]]%Hcase.
    + injection Hb as <-. simpl. split_and!; [done | done |].
      eexists. split; [reflexivity |]. simpl. split_and!; [done | done |].
      eexists. split; [reflexivity |]. done.
    + rewrite list_lookup_insert_ne in Hb by done. by apply lookup_replicate in Hb as [-> _].
  - done.
  - intros i l [[-> ->]|[Hi ->]]%Hcase; repeat constructor; set_solver.
  - intros i l p t [[-> ->]|[Hi ->]]%Hcase Hp Ht; [| set_solver].
    apply elem_of_cons in Hp as [->| ->%list_elem_of_singleton]; by injection Ht as <-.
Qed.

Lemma boot_heap_node : ∃ p h, ha_alloc boot_heap SIZEOF_PAGE_TABLE_T = Ok (p, h).
Proof.
  destruct boot_heap_ok as (Hok & Hs & He & Hn).
  destruct (kmalloc_place no_growth (heap_fuel boot_heap) boot_heap 40 _
    _ _ _ Hok ltac:(lia) (heap_fuel_enough _ _ Hok) eq_refl) as (h' & Hk & _).
  eexists _, h'. exact Hk.
Qed.

Lemma vmm_hashmap_put_witness :
  ∃ s', vmm_hashmap_put fresh_map 0xffffff8000301000 0x1000 = Ok (true, s') ∧
    get_ptbl_vaddr s' 0x1000 = Ok 0xffffff8000301000 ∧ get_ptbl_vaddr s' 0x2000 = Ok NULL.
Proof.
  destruct boot_heap_node as (p & h & Ha).
  destruct (vmm_hashmap_put_spec fresh_map (replicate 20 []) 0xffffff8000301000 0x1000 p h fresh_map_wf)
    as (s' & Hput & _ & _ & _ & Hget).
  - split; [exact (ex_intro _ [] boot_heap_inv) |]. intros q [t Ht]. discriminate Ht.
  - exact Ha.
  - exists s'. rewrite !Hget. split_and!; [exact Hput | reflexivity | reflexivity].
Defined.

Lemma vmm_hashmap_remove_witness :
  ∃ s', vmm_hashmap_remove two_tables 0x6000 = Ok (true, s') ∧ tables s' = 64 ∧
    get_freed_pg_tbl s' = Ok NULL ∧ get_ptbl_vaddr s' 0x6000 = Ok NULL ∧
    vmm_hashmap_remove two_tables 0x1000 = Ok (false, two_tables).
Proof.
  pose proof (vmm_hashmap_remove_spec two_tables _ 0x1000 two_tables_wf) as Hfalse.
  destruct (vmm_hashmap_remove_spec two_tables _ 0x6000 two_tables_wf)
    as (s' & ls' & Hr & _ & Ht & Hf & _ & Hn).
  exists s'. split_and!; [exact Hr | exact Ht | exact Hf | apply Hn | exact Hfalse].
  intros p t Hp Hne Hpt. unfold home in Hp. simpl in Hp.
  apply elem_of_cons in Hp as [->| ->%list_elem_of_singleton]; [| done].
  injection Hpt as <-. simpl. discriminate.
Defined.
