(* ===== verification/PageMap.v ===== *)
(** * Page tables (mmap of vmm.c, alloc_pg_table of vmm_hashmap.c)

    [mmap] walks the four levels of page tables and creates the missing ones
    with [alloc_pg_table], which maps the new table into the kernel's window
    of page tables with [mmap] again.  The recursion is bounded by fuel; the
    theorems show that two levels of it are enough. *)

From S2P Require Import Prelude Iface Pmm MmState HashMap.

(** [(vaddr >> (9 * pt_level + 12)) & 0x1ff]. *)
Definition pt_index (vaddr pt_level : Z) : Z :=
  Z.land (Z.shiftr vaddr (9 * pt_level + 12)) 0x1ff.

(** [pt_value & 1] and [pt_value & 0xfffffffffffff000]. *)
Definition present (pt_value : Z) : bool := negb (Z.land pt_value 1 =? 0).
Definition frame_of (pt_value : Z) : Z := Z.land pt_value 0xfffffffffffff000.

Section Ops.
Context {F H : Type} `{FrameAlloc F} `{HeapAlloc H} (sym : symbols).
Local Abbreviation state := (mm F H).

Definition with_paddr (t : page_table_t) (p : Z) : page_table_t :=
  PageTable (level t) (pt_vaddr t) p (used t) (next t).

(** [memset(table->pt_vaddr, 0, PAGE_SIZE)]. *)
Definition clear_page (s : state) (v : Z) : state :=
  set_words s (zero_words 512 v (words s)).

Definition pmm_alloc_page_mm (s : state) : outcome (Z * state) :=
  '(p, f) ← fa_alloc (frames s); Ok (p, set_frames s f).

(** The end of [alloc_pg_table], common to fresh and reused tables. *)
Definition publish_table (s : state) (table : Z) : outcome (Z * state) :=
  t ← node_at s table;
  '(inserted, s1) ← pg_tbl_insert (clear_page s (pt_vaddr t)) table;
  if (inserted : bool) then t1 ← node_at s1 table; Ok (pt_paddr t1, s1) else Ok (NULL, s1).

Definition alloc_pg_table (mmap : state → Z → Z → Z → Z → outcome (bool * state))
    (s : state) : outcome (Z * state) :=
  freed ← get_freed_pg_tbl s;
  if negb (freed =? NULL) then publish_table s freed else
  '(table, s1) ← kmalloc_mm s SIZEOF_PAGE_TABLE_T;
  let t0 := PageTable 0 NULL NULL false NULL in
  '(paddr, s2) ← pmm_alloc_page_mm (set_node s1 table t0);
  let t1 := with_paddr t0 paddr in
  let s3 := set_node s2 table t1 in
  if paddr =? NULL then Ok (NULL, s3) else
  o ← obj_at s3 (kernel_page_tbls_obj sym);
  let o' := VmObject (base o) (u64 (vm_length o + 0x1000)) (flags o) (vm_next o) in
  let s4 := set_obj s3 (kernel_page_tbls_obj sym) o' in
  let vaddr := u64 (base o' + vm_length o') in
  let s5 := set_node s4 table (with_vaddr t1 vaddr) in
  '(mapped, s6) ← mmap s5 (current_pml4t_ptr s5) paddr vaddr VM_FLAG_NONE;
  if (mapped : bool) then publish_table s6 table else Ok (NULL, s6).

(** [for(int pt_level = 3; pt_level > 0; pt_level--)]: the table of the last
    level, or [None] when the function has returned [false]. *)
Fixpoint mmap_levels (alloc : state → outcome (Z * state)) (pt_level : nat)
    (s : state) (pt_vaddr vaddr : Z) : outcome (option Z * state) :=
  match pt_level with
  | O => Ok (Some pt_vaddr, s)
  | S pt_level' =>
      let pt_offset := pt_index vaddr (Z.of_nat pt_level) in
      pt_value ← load_word s (pt_vaddr + 8 * pt_offset);
      if present pt_value then
        t ← get_ptbl_vaddr s (frame_of pt_value);
        if t =? NULL then Ok (None, s) else mmap_levels alloc pt_level' s t vaddr
      else
        '(pt_paddr, s1) ← alloc s;
        s2 ← store_word s1 (pt_vaddr + 8 * pt_offset) (Z.lor pt_paddr 7);
        t ← get_ptbl_vaddr s2 pt_paddr;
        mmap_levels alloc pt_level' s2 t vaddr
  end.

Fixpoint mmap (fuel : nat) (s : state) (root_table paddr vaddr flags : Z)
    : outcome (bool * state) :=
  match fuel with
  | O => NoFuel
  | S fuel' =>
      '(pt, s1) ← mmap_levels (alloc_pg_table (mmap fuel')) 3 s root_table vaddr;
      match pt with
      | None => Ok (false, s1)
      | Some pt_vaddr =>
          s2 ← store_word s1 (pt_vaddr + 8 * pt_index vaddr 0)
                 (Z.lor (Z.lor paddr flags) 7);
          Ok (true, s2)
      end
  end.

(** ** What the tables say *)

(** The table at a physical address. *)
Definition ptbl (s : state) (paddr : Z) : option Z :=
  match get_ptbl_vaddr s paddr with
  | Ok v => if v =? NULL then None else Some v
  | _ => None
  end.

(** The last level table for [vaddr] below table [t] of level [n]. *)
Fixpoint resolve (n : nat) (s : state) (t vaddr : Z) : option Z :=
  match n with
  | O => Some t
  | S n' =>
      w ← words s !! (t + 8 * pt_index vaddr (Z.of_nat n));
      if present w then t' ← ptbl s (frame_of w); resolve n' s t' vaddr else None
  end.

(** The entry the processor uses for [vaddr] with the tables at [root]. *)
Definition translate (s : state) (root vaddr : Z) : option Z :=
  t ← resolve 3 s root vaddr;
  w ← words s !! (t + 8 * pt_index vaddr 0);
  if present w then Some w else None.

(** Virtual page numbers: bits 12 to 47. *)
Definition page_of (vaddr : Z) : Z := (vaddr / 0x1000) mod 2 ^ 36.

End Ops.

(** ** Bits of entries and indices *)

Lemma present_lor p : present (Z.lor p 7) = true.
Proof.
  unfold present. apply negb_true_iff, Z.eqb_neq. intros E.
  assert (Z.testbit (Z.land (Z.lor p 7) 1) 0 = true) as Hb
    by (by rewrite Z.land_spec, Z.lor_spec, orb_true_r).
  by rewrite E in Hb.
Qed.

Lemma frame_of_bit w k :
  Z.testbit (frame_of w) k = (12 <=? k) && (k <? 64) && Z.testbit w k.
Proof.
  unfold frame_of. rewrite Z.land_spec.
  replace 0xfffffffffffff000 with (Z.shiftl (Z.ones 52) 12) by reflexivity.
  destruct (decide (0 ≤ k)); [| rewrite !(Z.testbit_neg_r _ k) by lia; symmetry; apply andb_false_r].
  rewrite Z.shiftl_spec by done. destruct (12 <=? k) eqn:E; zbool.
  - destruct (k <? 64) eqn:E2; zbool.
    + rewrite Z.ones_spec_low by lia. by rewrite andb_true_r.
    + rewrite Z.ones_spec_high by lia. by rewrite andb_false_r.
  - rewrite (Z.testbit_neg_r _ (k - 12)) by lia. by rewrite andb_false_r.
Qed.

Lemma frame_of_lor p : p mod 0x1000 = 0 → 0 ≤ p < 2 ^ 64 → frame_of (Z.lor p 7) = p.
Proof.
  intros Ha Hp. apply Z.bits_inj'. intros k Hk. rewrite frame_of_bit, Z.lor_spec.
  destruct (12 <=? k) eqn:E; zbool; simpl.
  - replace 7 with (Z.ones 3) by reflexivity. rewrite Z.ones_spec_high, orb_false_r by lia.
    destruct (k <? 64) eqn:E2; zbool; [done |]. by rewrite (testbit_high p 64) by lia.
  - change 0x1000 with (2 ^ 12) in Ha. rewrite <- (Z.mod_pow2_bits_low p 12) by lia.
    by rewrite Ha, Z.bits_0.
Qed.

Lemma pt_index_range v l : 0 ≤ pt_index v l < 512.
Proof.
  unfold pt_index. change 0x1ff with (Z.ones 9). rewrite Z.land_ones by lia.
  change 512 with (2 ^ 9). by apply Z.mod_pos_bound.
Qed.

Lemma pt_index_div v l : 0 ≤ l → pt_index v l = v / 2 ^ (9 * l + 12) mod 512.
Proof.
  intros. unfold pt_index. change 0x1ff with (Z.ones 9).
  rewrite Z.land_ones, Z.shiftr_div_pow2 by lia. done.
Qed.

(** Equal indices on the four levels are equal pages. *)
Lemma page_of_indices v1 v2 :
  (∀ l, 0 ≤ l ≤ 3 → pt_index v1 l = pt_index v2 l) → page_of v1 = page_of v2.
Proof.
  intros Hi. pose proof (Hi 0) as H0. pose proof (Hi 1) as H1. pose proof (Hi 2) as H2.
  pose proof (Hi 3) as H3. rewrite !pt_index_div in * by lia. simpl in *.
  unfold page_of. change (2 ^ 36) with 68719476736. change (Z.pow_pos 2 12) with 4096 in *.
  change (Z.pow_pos 2 21) with 2097152 in *. change (Z.pow_pos 2 30) with 1073741824 in *.
  change (Z.pow_pos 2 39) with 549755813888 in *. mlia.
Qed.

(** Addresses in the same 2 MiB region have the same tables. *)
Lemma pt_index_region v1 v2 l :
  v1 / 2 ^ 21 = v2 / 2 ^ 21 → 1 ≤ l → pt_index v1 l = pt_index v2 l.
Proof.
  intros Hr Hl. rewrite !pt_index_div by lia.
  replace (9 * l + 12) with (21 + (9 * l - 9)) by lia. rewrite Z.pow_add_r by lia.
  by rewrite <- !Z.div_div, Hr by lia.
Qed.

(** ** The invariant of the page tables *)

Section Inv.
Context {F H : Type} `{FrameAlloc F} `{HeapAlloc H} (sym : symbols).
Local Abbreviation state := (mm F H).

(** [v] is a page table the hash map knows. *)
Definition is_table (s : state) (v : Z) : Prop := ∃ p, ptbl s p = Some v.

(** Entry [i] of table [v] is [w]. *)
Definition entry (s : state) (v i w : Z) : Prop :=
  is_table s v ∧ 0 ≤ i < 512 ∧ words s !! (v + 8 * i) = Some w.

(** [lv] gives the level of each table: entries of a table of level [n + 1]
    point to tables of level [n], and a table has one parent entry, except
    that the top level tables of several address spaces may share the tables
    below the same index. *)
Record pt_inv (s : state) (lv : Z → Z) : Prop := {
  pi_map : ∃ ls, hm_wf s ls ∧ ∀ p, hm_lookup s ls p ≠ Some NULL;
  pi_live : nodes_live s;
  pi_frames : fa_inv (frames s);
  pi_free : tables s = NULL;
  pi_paddr : ∀ p v, ptbl s p = Some v →
    p mod 0x1000 = 0 ∧ 0 < p < 2 ^ 64 ∧ fa_taken (frames s) p;
  pi_vaddr : ∀ v, is_table s v → v mod 0x1000 = 0 ∧ 0 ≤ lv v ≤ 3;
  pi_words : ∀ v i, is_table s v → 0 ≤ i < 512 → is_Some (words s !! (v + 8 * i));
  pi_inj : ∀ p q v, ptbl s p = Some v → ptbl s q = Some v → p = q;
  pi_down : ∀ v i w, entry s v i w → 1 ≤ lv v → present w = true →
    ∃ v', ptbl s (frame_of w) = Some v' ∧ lv v' = lv v - 1;
  pi_parent : ∀ v1 i1 w1 v2 i2 w2, entry s v1 i1 w1 → entry s v2 i2 w2 →
    1 ≤ lv v1 → 1 ≤ lv v2 → present w1 = true → present w2 = true →
    frame_of w1 = frame_of w2 → i1 = i2 ∧ (v1 = v2 ∨ lv v1 = 3);
}.

Lemma ptbl_ext (s s' : state) p :
  vmm_hashmap s' = vmm_hashmap s → pt_nodes s' = pt_nodes s → ptbl s' p = ptbl s p.
Proof.
  intros Hh Hn. assert (∀ fuel b, get_loop fuel s' b p = get_loop fuel s b p) as Hg.
  { induction fuel as [|fuel IH]; intros b; [done |]. simpl. unfold node_at. rewrite Hn.
    destruct (b =? NULL); [done |]. destruct (pt_nodes s !! b); [| done]. out_step.
    destruct (_ =? p); [done | apply IH]. }
  unfold ptbl, get_ptbl_vaddr, bucket, chain_fuel. rewrite Hh, Hn.
  destruct (vmm_hashmap s); [| done]. destruct (of_option _ _) as [b| |]; [| done | done].
  out_red. by rewrite Hg.
Qed.

Lemma ptbl_get s lv p : pt_inv s lv → get_ptbl_vaddr s p = Ok (default NULL (ptbl s p)).
Proof.
  intros Hi. destruct (pi_map _ _ Hi) as (ls & Hwf & _). unfold ptbl.
  rewrite (get_ptbl_vaddr_lookup _ _ _ Hwf). destruct (_ =? NULL) eqn:E; zbool; by rewrite ?E.
Qed.

Lemma ptbl_lookup (s : state) ls p :
  hm_wf s ls → (∀ q, hm_lookup s ls q ≠ Some NULL) → ptbl s p = hm_lookup s ls p.
Proof.
  intros Hwf Hnn. unfold ptbl. rewrite (get_ptbl_vaddr_lookup _ _ _ Hwf).
  specialize (Hnn p). destruct (hm_lookup s ls p) as [v|]; [| done]. simpl.
  destruct (v =? NULL) eqn:E; zbool; congruence.
Qed.

Lemma ptbl_nonnull (s : state) p v : ptbl s p = Some v → v ≠ NULL.
Proof.
  unfold ptbl. destruct (get_ptbl_vaddr s p); try done.
  destruct (_ =? NULL) eqn:E; zbool; [done |]. by intros [= <-].
Qed.

(** Two entries at the same address are the same entry. *)
Lemma entry_inj s lv v1 i1 v2 i2 :
  pt_inv s lv → is_table s v1 → is_table s v2 → 0 ≤ i1 < 512 → 0 ≤ i2 < 512 →
  v1 + 8 * i1 = v2 + 8 * i2 → v1 = v2 ∧ i1 = i2.
Proof.
  intros Hi Ha Hb Hi1 Hi2 Heq. apply (pi_vaddr _ _ Hi) in Ha as [Ha _], Hb as [Hb _]. mlia.
Qed.

(** [resolve] stays inside the tables and goes down one level per step. *)
Lemma resolve_table n s lv t v pt :
  pt_inv s lv → is_table s t → lv t = Z.of_nat n → resolve n s t v = Some pt →
  is_table s pt ∧ lv pt = 0.
Proof.
  intros Hi. revert t. induction n as [|n IH]; intros t Ht Hl Hr; [by injection Hr as <- |].
  cbn [resolve] in Hr. apply bind_Some in Hr as (w & Hw & Hr).
  destruct (present w) eqn:Hp; [| done]. apply bind_Some in Hr as (t' & Ht' & Hr).
  destruct (pi_down _ _ Hi t (pt_index v (Z.of_nat (S n))) w) as (t2 & Ht2 & Hl2); [| lia | done |].
  { split_and!; try done; apply pt_index_range. }
  rewrite Ht' in Ht2. injection Ht2 as <-. apply (IH t'); [by eexists | lia | done].
Qed.

(** The indices of an address are determined by the table it resolves to. *)
Lemma resolve_inj n s lv t1 t2 v1 v2 pt :
  pt_inv s lv → is_table s t1 → is_table s t2 → lv t1 = Z.of_nat n → lv t2 = Z.of_nat n →
  resolve n s t1 v1 = Some pt → resolve n s t2 v2 = Some pt →
  (∀ l, 1 ≤ l ≤ Z.of_nat n → pt_index v1 l = pt_index v2 l) ∧ (t1 = t2 ∨ n = 3%nat).
Proof.
  intros Hi. revert t1 t2. induction n as [|n IH]; intros t1 t2 Ht1 Ht2 Hl1 Hl2 Hr1 Hr2.
  { simpl in Hr1, Hr2. split; [lia | left; congruence]. }
  cbn [resolve] in Hr1, Hr2.
  apply bind_Some in Hr1 as (w1 & Hw1 & Hr1), Hr2 as (w2 & Hw2 & Hr2).
  destruct (present w1) eqn:Hp1; [| done]. destruct (present w2) eqn:Hp2; [| done].
  apply bind_Some in Hr1 as (t1' & Ht1' & Hr1), Hr2 as (t2' & Ht2' & Hr2).
  assert (entry s t1 (pt_index v1 (Z.of_nat (S n))) w1) as He1
    by (split_and!; try done; apply pt_index_range).
  assert (entry s t2 (pt_index v2 (Z.of_nat (S n))) w2) as He2
    by (split_and!; try done; apply pt_index_range).
  destruct (pi_down _ _ Hi _ _ _ He1 ltac:(lia) Hp1) as (a1 & Ha1 & Hla1).
  destruct (pi_down _ _ Hi _ _ _ He2 ltac:(lia) Hp2) as (a2 & Ha2 & Hla2).
  rewrite Ht1' in Ha1. injection Ha1 as <-. rewrite Ht2' in Ha2. injection Ha2 as <-.
  destruct (IH t1' t2') as [Hix Hsame]; try done; try (by eexists); try lia.
  apply (pi_vaddr _ _ Hi) in Ht1 as [_ Hr3].
  assert (t1' = t2') as -> by (destruct Hsame; [done | lia]).
  destruct (pi_parent _ _ Hi _ _ _ _ _ _ He1 He2 ltac:(lia) ltac:(lia) Hp1 Hp2) as [Hidx Hpar].
  { by apply (pi_inj _ _ Hi _ _ t2'). }
  split; [| destruct Hpar; [by left | right; lia]].
  intros l Hl. destruct (decide (l = Z.of_nat (S n))) as [->|]; [done |]. apply Hix. lia.
Qed.

(** A top level table. *)
Definition is_root (s : state) (lv : Z → Z) (r : Z) : Prop := is_table s r ∧ lv r = 3.

Lemma resolve_page s lv r1 r2 v1 v2 pt :
  pt_inv s lv → is_root s lv r1 → is_root s lv r2 →
  resolve 3 s r1 v1 = Some pt → resolve 3 s r2 v2 = Some pt →
  pt_index v1 0 = pt_index v2 0 → page_of v1 = page_of v2.
Proof.
  intros Hi [Ht1 Hl1] [Ht2 Hl2] Hr1 Hr2 Hi0.
  destruct (resolve_inj 3 s lv r1 r2 v1 v2 pt) as [Hix _]; try done.
  apply page_of_indices. intros l Hl. destruct (decide (l = 0)) as [->|]; [done |].
  apply Hix. lia.
Qed.

(** ** Growth *)

(** [s'] has the tables of [s] and more, and only leaf entries in [C] have
    changed. *)
Record grows (C : Z → Prop) (s : state) (lv : Z → Z) (s' : state) (lv' : Z → Z) : Prop := {
  g_tables : ∀ p v, ptbl s p = Some v → ptbl s' p = Some v;
  g_level : ∀ v, is_table s v → lv' v = lv v;
  g_upper : ∀ v i w, entry s v i w → 1 ≤ lv v → present w = true → entry s' v i w;
  g_leaf : ∀ v i w, entry s v i w → lv v = 0 → ¬ C (v + 8 * i) → entry s' v i w;
}.

Lemma grows_refl C s lv : grows C s lv s lv.
Proof. by split. Qed.

Lemma grows_table C s lv s' lv' v : grows C s lv s' lv' → is_table s v → is_table s' v.
Proof. intros Hg [p Hp]. exists p. by apply (g_tables _ _ _ _ _ Hg). Qed.

Lemma grows_trans C s0 lv0 s1 lv1 s2 lv2 :
  grows C s0 lv0 s1 lv1 → grows C s1 lv1 s2 lv2 → grows C s0 lv0 s2 lv2.
Proof.
  intros H01 H12. assert (∀ v, is_table s0 v → lv1 v = lv0 v) as Hl by apply H01. split.
  - intros p v Hp. by apply (g_tables _ _ _ _ _ H12), (g_tables _ _ _ _ _ H01).
  - intros v Hv. rewrite (g_level _ _ _ _ _ H12) by (by eapply grows_table). by apply Hl.
  - intros v i w He Hv Hp. apply (g_upper _ _ _ _ _ H12); [by apply (g_upper _ _ _ _ _ H01) | | done].
    rewrite Hl; [done | apply He].
  - intros v i w He Hv Hc. apply (g_leaf _ _ _ _ _ H12); [by apply (g_leaf _ _ _ _ _ H01) | | done].
    rewrite Hl; [done | apply He].
Qed.

Lemma grows_weaken (C C' : Z → Prop) s lv s' lv' :
  (∀ a, C a → C' a) → grows C s lv s' lv' → grows C' s lv s' lv'.
Proof. intros Hc [Ht Hl Hu Hf]. split; try done. intros v i w He Hv Hn. apply Hf; auto. Qed.

Lemma grows_root C s lv s' lv' r : grows C s lv s' lv' → is_root s lv r → is_root s' lv' r.
Proof.
  intros Hg [Ht Hl]. split; [by eapply grows_table |]. by rewrite (g_level _ _ _ _ _ Hg).
Qed.

Lemma grows_resolve C n s lv s' lv' t v pt :
  pt_inv s lv → grows C s lv s' lv' → is_table s t → lv t = Z.of_nat n →
  resolve n s t v = Some pt → resolve n s' t v = Some pt.
Proof.
  intros Hi Hg. revert t. induction n as [|n IH]; intros t Ht Hl Hr; [done |].
  cbn [resolve] in Hr |- *. apply bind_Some in Hr as (w & Hw & Hr).
  destruct (present w) eqn:Hp; [| done]. apply bind_Some in Hr as (t' & Ht' & Hr).
  assert (entry s t (pt_index v (Z.of_nat (S n))) w) as He
    by (split_and!; try done; apply pt_index_range).
  destruct (pi_down _ _ Hi _ _ _ He ltac:(lia) Hp) as (a & Ha & Hla).
  rewrite Ht' in Ha. injection Ha as <-.
  destruct (g_upper _ _ _ _ _ Hg _ _ _ He ltac:(lia) Hp) as (_ & _ & ->). simpl.
  rewrite Hp, (g_tables _ _ _ _ _ Hg _ _ Ht'). simpl. apply IH; [by eexists | lia | done].
Qed.

(** A translation survives unless its leaf entry is one of [C]. *)
Lemma grows_translate C s lv s' lv' r v e :
  pt_inv s lv → grows C s lv s' lv' → is_root s lv r → translate s r v = Some e →
  (∀ pt, resolve 3 s r v = Some pt → ¬ C (pt + 8 * pt_index v 0)) →
  translate s' r v = Some e.
Proof.
  intros Hi Hg [Ht Hl] Htr Hc. unfold translate in *.
  apply bind_Some in Htr as (pt & Hr & Htr). apply bind_Some in Htr as (w & Hw & Htr).
  destruct (resolve_table 3 s lv r v pt) as [Hpt Hl0]; try done.
  rewrite (grows_resolve C 3 s lv s' lv' r v pt) by done. simpl.
  destruct (g_leaf _ _ _ _ _ Hg pt (pt_index v 0) w) as (_ & _ & ->); try done; [| by apply Hc].
  split_and!; try done; apply pt_index_range.
Qed.

(** ** Mapping below existing tables *)

Lemma ptbl_get_Some (s : state) p v : ptbl s p = Some v → get_ptbl_vaddr s p = Ok v ∧ v ≠ NULL.
Proof.
  unfold ptbl. destruct (get_ptbl_vaddr s p); try done.
  destruct (_ =? NULL) eqn:E; zbool; [done |]. by intros [= <-].
Qed.

Lemma mmap_levels_existing alloc n (s : state) t v pt :
  resolve n s t v = Some pt → mmap_levels alloc n s t v = Ok (Some pt, s).
Proof.
  revert t. induction n as [|n IH]; intros t Hr; [by injection Hr as -> |].
  cbn [resolve mmap_levels] in *. apply bind_Some in Hr as (w & Hw & Hr).
  destruct (present w) eqn:Hp; [| done]. apply bind_Some in Hr as (t' & Ht' & Hr).
  apply ptbl_get_Some in Ht' as [Hg Hnn]. unfold load_word. rewrite Hw. out_red.
  rewrite Hp, Hg. unfold NULL in *. zdec. by apply IH.
Qed.

Lemma mmap_existing_path fuel (s : state) root paddr vaddr fl pt w :
  resolve 3 s root vaddr = Some pt → words s !! (pt + 8 * pt_index vaddr 0) = Some w →
  mmap sym (S fuel) s root paddr vaddr fl =
  Ok (true, set_words s (<[pt + 8 * pt_index vaddr 0 := Z.lor (Z.lor paddr fl) 7]> (words s))).
Proof.
  intros Hr Hw. cbn [mmap]. rewrite (mmap_levels_existing _ _ _ _ _ _ Hr). out_red.
  unfold store_word. by rewrite Hw.
Qed.

Lemma resolve_ext n (s s' : state) t v :
  words s' = words s → (∀ p, ptbl s' p = ptbl s p) → resolve n s' t v = resolve n s t v.
Proof.
  intros Hw Hp. revert t. induction n as [|n IH]; intros t; [done |]. cbn [resolve].
  rewrite Hw. destruct (words s !! _); [| done]. simpl. destruct (present _); [| done].
  rewrite Hp. destruct (ptbl s _); [| done]. apply IH.
Qed.

Lemma resolve_region n (s : state) t v1 v2 :
  v1 / 2 ^ 21 = v2 / 2 ^ 21 → resolve n s t v1 = resolve n s t v2.
Proof.
  intros Hr. revert t. induction n as [|n IH]; intros t; [done |]. cbn [resolve].
  rewrite (pt_index_region v1 v2) by lia. destruct (words s !! _); [| done]. simpl.
  destruct (present _); [| done]. destruct (ptbl s _); [| done]. apply IH.
Qed.

(** ** A new page table *)

(** The kernel's window of page tables ends at [top] and has room for [n]
    more tables below the last level table that maps [top]. *)
Record window (n : Z) (s : state) (lv : Z → Z) (top : Z) : Prop := {
  w_obj : ∃ o, vm_objs s !! kernel_page_tbls_obj sym = Some o ∧
    base o + vm_length o = top ∧ 0 ≤ vm_length o ∧ 0 ≤ base o;
  w_top : top mod 0x1000 = 0 ∧ top + n * 0x1000 < 2 ^ 64 - 2 ^ 38;
  w_region : (top + n * 0x1000) / 2 ^ 21 = top / 2 ^ 21;
  w_root : is_root s lv (current_pml4t_ptr s);
  w_path : is_Some (resolve 3 s (current_pml4t_ptr s) top);
  w_fresh : ∀ v, is_table s v → v ≤ top ∨ top + n * 0x1000 < v;
}.

(** The state [alloc_pg_table] leaves: the table [p] at [v], cleared, and its
    mapping in the window's last level table [wpt]. *)
Record new_table (s : state) (wpt p v : Z) (f : F) (h : H) (s' : state) : Prop := {
  nt_frames : frames s' = f;
  nt_heap : kheap s' = h;
  nt_tables : tables s' = tables s;
  nt_words : words s' =
    zero_words 512 v (<[wpt + 8 * pt_index v 0 := Z.lor p 7]> (words s));
  nt_objs : ∃ o, vm_objs s !! kernel_page_tbls_obj sym = Some o ∧
    vm_objs s' = <[kernel_page_tbls_obj sym :=
      VmObject (base o) (vm_length o + 0x1000) (flags o) (vm_next o)]> (vm_objs s);
  nt_pml4ts : pml4ts s' = pml4ts s;
  nt_current : cr3 s' = cr3 s ∧ current_pml4t_ptr s' = current_pml4t_ptr s ∧
    current_vmm s' = current_vmm s;
  nt_map : ∃ ls', hm_wf s' ls' ∧ ∀ k, hm_lookup s' ls' k ≠ Some NULL;
  nt_live : nodes_live s';
  nt_ptbl : ∀ k, ptbl s' k = if k =? p then Some v else ptbl s k;
}.

Lemma publish_fresh (s : state) ls tb p v :
  hm_wf s ls → nodes_live s → loose s ls tb (PageTable 0 v p false NULL) →
  (∀ k, hm_lookup s ls k ≠ Some NULL) → hm_lookup s ls p = None → v ≠ NULL →
  ∃ s', publish_table s tb = Ok (p, s') ∧ map_only (clear_page s v) s' ∧ nodes_live s' ∧
    (∃ ls', hm_wf s' ls' ∧ ∀ k, hm_lookup s' ls' k ≠ Some NULL) ∧
    ∀ k, ptbl s' k = if k =? p then Some v else ptbl s k.
Proof.
  intros Hwf Hnl Hlo Hnn Hnone Hv. unfold publish_table. destruct Hlo as [Ht Hn Hp0 Hni].
  assert (node_at s tb = Ok (PageTable 0 v p false NULL)) as -> by (unfold node_at; by rewrite Ht).
  out_red. simpl pt_vaddr.
  assert (hm_wf (clear_page s v) ls) as Hwf1 by (by apply (hm_wf_proper s)).
  destruct (pg_tbl_insert_append (clear_page s v) ls tb (PageTable 0 v p false NULL))
    as (s' & -> & Hwf' & Hmo & Hsa & Hsub & Hlk); [done | by split | |].
  { apply find_node_none.
    - intros q Hq. apply (hm_home_node s ls p); [done |].
      destruct (home ls p) eqn:E; simpl in *; rewrite E in Hq; [done | by right].
    - simpl. unfold hm_lookup in Hnone. fold (home ls p) in Hnone |- *.
      pose proof (hm_home_node s ls p) as Hs.
      destruct (home ls p) as [|q l]; [done |]. simpl in Hnone |- *.
      destruct (Hs q Hwf) as [t Hq]; [left |]. rewrite Hq in Hnone.
      by destruct (pt_paddr t =? p). }
  destruct (Hsa _ _ Ht) as (t' & Ht' & Hpa & _). unfold node_at. rewrite Ht'. out_red.
  set (ls' := append_node ls tb p) in *.
  rewrite Hpa. exists s'. assert (∀ k, hm_lookup s' ls' k =
    if k =? p then Some v else hm_lookup s ls k) as Hlk'.
  { intros k. rewrite Hlk. change (hm_lookup (clear_page s v) ls k) with (hm_lookup s ls k).
    simpl. destruct (k =? p) eqn:E; zbool; [by subst k; rewrite Hnone |].
    by destruct (hm_lookup s ls k). }
  assert (∀ k, hm_lookup s' ls' k ≠ Some NULL) as Hnn'
    by (intros k; rewrite Hlk'; destruct (k =? p); [congruence | done]).
  split_and!; [done | done | by eapply nodes_live_map_only | by exists ls' |].
  intros k. by rewrite (ptbl_lookup s' ls'), (ptbl_lookup s ls), Hlk'.
Qed.

(** A frame from the allocator holds no page table yet. *)
Lemma frame_fresh (s : state) lv p f :
  pt_inv s lv → fa_alloc (frames s) = Ok (p, f) → p ≠ NULL →
  ptbl s p = None ∧ p mod 0x1000 = 0 ∧ 0 < p < 2 ^ 64 ∧ fa_inv f ∧ fa_taken f p ∧
  (∀ q, fa_taken (frames s) q → fa_taken f q).
Proof.
  intros Hi Hf Hp. destruct (fa_alloc_spec (frames s) (pi_frames _ _ Hi)) as (p' & f' & Hf' & Hinv & Hm & Hs).
  rewrite Hf in Hf'. injection Hf' as <- <-. destruct (Hs Hp) as (Ha & Hr & Hnt & Ht).
  split_and!; try done; try lia. destruct (ptbl s p) as [x|] eqn:E; [| done].
  by apply (pi_paddr _ _ Hi) in E as (_ & _ & ?).
Qed.

(** The state in which [alloc_pg_table] calls [mmap]. *)
Definition before_mmap (s : state) (tb v p : Z) (f : F) (h : H) (o : vm_object) : state :=
  set_obj (set_frames (set_node (set_kheap s h) tb (PageTable 0 v p false NULL)) f)
    (kernel_page_tbls_obj sym)
    (VmObject (base o) (vm_length o + 0x1000) (flags o) (vm_next o)).

Lemma alloc_pg_table_run mmap (s : state) tb h p f o v :
  tables s = NULL → ha_alloc (kheap s) SIZEOF_PAGE_TABLE_T = Ok (tb, h) →
  fa_alloc (frames s) = Ok (p, f) → p ≠ NULL →
  vm_objs s !! kernel_page_tbls_obj sym = Some o → 0 ≤ base o → 0 ≤ vm_length o →
  v = base o + vm_length o + 0x1000 → v < 2 ^ 64 →
  alloc_pg_table sym mmap s =
  '(m, s6) ← mmap (before_mmap s tb v p f h o) (current_pml4t_ptr s) p v VM_FLAG_NONE;
  if (m : bool) then publish_table s6 tb else Ok (NULL, s6).
Proof.
  intros Ht Hh Hf Hp Ho Hb Hl Hv Hv64.
  unfold alloc_pg_table, get_freed_pg_tbl. rewrite Ht. simpl (NULL =? NULL). out_red.
  simpl (negb _). cbv iota. unfold kmalloc_mm, pmm_alloc_page_mm. rewrite Hh. out_red.
  simpl frames. rewrite Hf. out_red. rewrite (proj2 (Z.eqb_neq p NULL)) by done.
  unfold obj_at. simpl vm_objs. rewrite Ho. out_red. simpl base. simpl vm_length.
  rewrite (u64_small (vm_length o + 0x1000)), (u64_small (base o + _)) by lia.
  replace (base o + (vm_length o + 0x1000)) with v by lia.
  match goal with |- context [mmap ?x] => replace x with (before_mmap s tb v p f h o) end;
    [done |]. unfold before_mmap, set_obj, set_node. simpl. by rewrite !insert_insert_eq.
Qed.

Lemma alloc_pg_table_fresh fuel (s : state) lv top wpt tb h p f :
  pt_inv s lv → window 1 s lv top → resolve 3 s (current_pml4t_ptr s) top = Some wpt →
  ha_alloc (kheap s) SIZEOF_PAGE_TABLE_T = Ok (tb, h) → fa_alloc (frames s) = Ok (p, f) → p ≠ NULL →
  ∃ s', alloc_pg_table sym (mmap sym (S fuel)) s = Ok (p, s') ∧
    new_table s wpt p (top + 0x1000) f h s'.
Proof.
  intros Hi Hw Hres Hh Hf Hp. destruct (pi_map _ _ Hi) as (ls & Hwf & Hnn).
  destruct (w_obj _ _ _ _ Hw) as (o & Ho & Hob & Hol & Hob0). set (v := top + 0x1000).
  destruct (w_top _ _ _ _ Hw) as [_ Htop64], (w_root _ _ _ _ Hw) as [Hrt Hrl].
  assert (v ≠ NULL) as Hvn by (unfold v, NULL; lia).
  destruct (kmalloc_loose s ls (PageTable 0 v p false NULL) tb h Hwf (pi_live _ _ Hi) eq_refl Hh)
    as (Hnone & Hwf1 & Hnl1 & Hlo).
  set (s5 := before_mmap s tb v p f h o).
  assert (∀ k, hm_lookup s5 ls k = hm_lookup s ls k) as Hlk.
  { intros k. by apply (hm_lookup_fresh_node (set_kheap s h)); [apply (hm_wf_proper s) |]. }
  assert (hm_wf s5 ls) as Hwf5 by (by eapply hm_wf_proper; [| | exact Hwf1]).
  assert (∀ k, ptbl s5 k = ptbl s k) as Hpt.
  { intros k. rewrite (ptbl_lookup s5 ls), (ptbl_lookup s ls); try done.
    intros q. by rewrite Hlk. }
  destruct (frame_fresh s lv p f Hi Hf Hp) as (Hpn & _). rewrite (ptbl_lookup s ls) in Hpn by done.
  set (s6 := set_words s5 (<[wpt + 8 * pt_index v 0 := Z.lor p 7]> (words s5))).
  assert (mmap sym (S fuel) s5 (current_pml4t_ptr s) p v VM_FLAG_NONE = Ok (true, s6)) as Hmm.
  { destruct (resolve_table 3 s lv _ _ _ Hi Hrt Hrl Hres) as [Hwt _].
    destruct (pi_words _ _ Hi wpt (pt_index v 0) Hwt (pt_index_range _ _)) as [w Hword].
    rewrite (mmap_existing_path fuel s5 _ p v VM_FLAG_NONE wpt w); [by rewrite Z.lor_0_r | | done].
    rewrite (resolve_ext 3 s s5), <- Hres by done. apply resolve_region.
    rewrite <- (w_region _ _ _ _ Hw). unfold v. by rewrite Z.mul_1_l. }
  destruct (publish_fresh s6 ls tb p v) as (s' & Hpub & (ns & hb & Hs') & Hnl' & Hm' & Hpt');
    [by apply (hm_wf_proper s5) | by split; apply Hnl1 | by destruct Hlo; split | | | done |].
  { intros k. change (hm_lookup s6 ls k) with (hm_lookup s5 ls k). by rewrite Hlk. }
  { change (hm_lookup s6 ls p) with (hm_lookup s5 ls p). by rewrite Hlk. }
  exists s'. split.
  - rewrite (alloc_pg_table_run _ s tb h p f o v); try done; try lia; [| apply (pi_free _ _ Hi)].
    fold s5. rewrite Hmm. exact Hpub.
  - split; try (rewrite Hs'; done); try done.
    + exists o. split; [done |]. by rewrite Hs'.
    + intros k. rewrite Hpt'. destruct (k =? p); [done |]. rewrite <- Hpt. by apply ptbl_ext.
Qed.

Definition relevel (lv : Z → Z) (v l x : Z) : Z := if x =? v then l else lv x.

(** ** A fresh table of any level *)

Section Fresh.
Variables (s s1 : state) (lv : Z → Z) (n top wpt p L : Z) (f : F) (h : H).
Hypothesis Hinv : pt_inv s lv.
Hypothesis Hn : 0 ≤ n.
Hypothesis Hwin : window (n + 1) s lv top.
Hypothesis Hwpt : resolve 3 s (current_pml4t_ptr s) top = Some wpt.
Hypothesis Hfa : fa_alloc (frames s) = Ok (p, f).
Hypothesis Hp : p ≠ NULL.
Hypothesis Hnt : new_table s wpt p (top + 0x1000) f h s1.
Hypothesis HL : 0 ≤ L ≤ 3.

Local Abbreviation v := (top + 0x1000).
Local Abbreviation lv1 := (relevel lv (top + 0x1000) L).

Lemma fresh_new : ¬ is_table s v.
Proof. intros Hv. apply (w_fresh _ _ _ _ Hwin) in Hv. lia. Qed.

Lemma fresh_wpt : is_table s wpt ∧ lv wpt = 0.
Proof. destruct (w_root _ _ _ _ Hwin) as [Hr Hl]. by eapply (resolve_table 3). Qed.

Lemma fresh_ptbl_old k x : ptbl s k = Some x → ptbl s1 k = Some x.
Proof.
  intros Hk. rewrite (nt_ptbl _ _ _ _ _ _ _ Hnt). destruct (k =? p) eqn:E; zbool; [| done].
  subst k. destruct (frame_fresh s lv p f Hinv Hfa Hp) as [Hpn _]. by rewrite Hpn in Hk.
Qed.

Lemma fresh_table x : is_table s1 x ↔ x = v ∨ is_table s x.
Proof.
  split.
  - intros [k Hk]. rewrite (nt_ptbl _ _ _ _ _ _ _ Hnt) in Hk.
    destruct (k =? p); [left; congruence | right; by exists k].
  - intros [->|[k Hk]]; [| exists k; by apply fresh_ptbl_old].
    exists p. by rewrite (nt_ptbl _ _ _ _ _ _ _ Hnt), Z.eqb_refl.
Qed.

Lemma fresh_word x j :
  is_table s x → 0 ≤ j < 512 →
  words s1 !! (x + 8 * j) =
  if decide (x = wpt ∧ j = pt_index v 0) then Some (Z.lor p 7) else words s !! (x + 8 * j).
Proof.
  intros Hx Hj. destruct fresh_wpt as [Hwt _].
  assert (x ≠ v) as Hxv by (intros ->; by apply fresh_new).
  destruct (pi_vaddr _ _ Hinv _ Hx) as [Hxa _], (w_top _ _ _ _ Hwin) as [Hta _].
  rewrite (nt_words _ _ _ _ _ _ _ Hnt), lookup_zero_words, decide_False by mlia.
  destruct (decide (x = wpt ∧ j = pt_index v 0)) as [[-> ->]|Hne2]; [by rewrite lookup_insert_eq |].
  rewrite lookup_insert_ne; [done |]. intros Heq. apply Hne2.
  destruct (entry_inj s lv wpt (pt_index v 0) x j) as [-> ->]; try done. apply pt_index_range.
Qed.

Lemma fresh_word_new j : 0 ≤ j < 512 → words s1 !! (v + 8 * j) = Some 0.
Proof.
  intros Hj. rewrite (nt_words _ _ _ _ _ _ _ Hnt), lookup_zero_words, decide_True; [done |].
  split; [lia |]. replace (v + 8 * j - v) with (j * 8) by lia. by apply Z.mod_mul.
Qed.

Lemma fresh_level x : is_table s x → lv1 x = lv x.
Proof.
  intros Hx. unfold relevel. destruct (x =? v) eqn:E; zbool; [| done]. subst x. by apply fresh_new in Hx.
Qed.

(** Entries that are read as pointers are those of [s]. *)
Lemma fresh_entry x j w :
  entry s1 x j w → 1 ≤ lv1 x → present w = true → entry s x j w ∧ lv1 x = lv x.
Proof.
  intros (Hx & Hj & Hw) Hl Hpr. apply fresh_table in Hx as [->|Hx].
  - rewrite fresh_word_new in Hw by done. by injection Hw as <-.
  - rewrite fresh_level in * by done. split; [| done]. rewrite fresh_word in Hw by done.
    destruct (decide (x = wpt ∧ j = pt_index v 0)) as [[-> ->]|]; [| done]. destruct fresh_wpt. lia.
Qed.

Lemma fresh_inv : pt_inv s1 lv1.
Proof.
  destruct (frame_fresh s lv p f Hinv Hfa Hp) as (Hpn & Hpa & Hpr & Hfi & Hft & Hfm).
  destruct (w_top _ _ _ _ Hwin) as [Hta _]. split.
  - apply (nt_map _ _ _ _ _ _ _ Hnt).
  - apply (nt_live _ _ _ _ _ _ _ Hnt).
  - by rewrite (nt_frames _ _ _ _ _ _ _ Hnt).
  - rewrite (nt_tables _ _ _ _ _ _ _ Hnt). apply (pi_free _ _ Hinv).
  - intros k x Hk. rewrite (nt_frames _ _ _ _ _ _ _ Hnt). rewrite (nt_ptbl _ _ _ _ _ _ _ Hnt) in Hk.
    destruct (k =? p) eqn:E; zbool; [by subst k |].
    apply (pi_paddr _ _ Hinv) in Hk as (? & ? & ?). auto.
  - intros x [->|Hx]%fresh_table.
    + unfold relevel. rewrite Z.eqb_refl. split; [mlia | lia].
    + rewrite fresh_level by done. by apply (pi_vaddr _ _ Hinv).
  - intros x j [->|Hx]%fresh_table Hj; [by rewrite fresh_word_new |].
    rewrite fresh_word by done. destruct (decide _); [done |]. by apply (pi_words _ _ Hinv).
  - intros k1 k2 x. rewrite !(nt_ptbl _ _ _ _ _ _ _ Hnt).
    destruct (k1 =? p) eqn:E1, (k2 =? p) eqn:E2; zbool; intros Hk1 Hk2.
    + congruence.
    + injection Hk1 as <-. destruct fresh_new. by exists k2.
    + injection Hk2 as <-. destruct fresh_new. by exists k1.
    + by apply (pi_inj _ _ Hinv _ _ x).
  - intros x j w He Hl Hw. destruct (fresh_entry x j w He Hl Hw) as [He' Hlx]. rewrite Hlx in *.
    destruct (pi_down _ _ Hinv _ _ _ He' Hl Hw) as (x' & Hx' & Hlx'). exists x'.
    split; [by apply fresh_ptbl_old |]. rewrite fresh_level; [done | by eexists].
  - intros x1 j1 w1 x2 j2 w2 He1 He2 Hl1 Hl2 Hp1 Hp2 Hfr.
    destruct (fresh_entry _ _ _ He1 Hl1 Hp1) as [He1' Hx1], (fresh_entry _ _ _ He2 Hl2 Hp2) as [He2' Hx2].
    rewrite Hx1, Hx2 in *. by apply (pi_parent _ _ Hinv x1 j1 w1 x2 j2 w2).
Qed.

Lemma fresh_grows : grows (λ a, a = wpt + 8 * pt_index v 0) s lv s1 lv1.
Proof.
  destruct fresh_wpt as [_ Hlw]. split.
  - apply fresh_ptbl_old.
  - apply fresh_level.
  - intros x j w (Hx & Hj & Hw) Hl Hpr. split_and!; [by apply fresh_table; right | lia | lia |].
    rewrite fresh_word by done. destruct (decide _) as [[-> ->]|]; [lia | done].
  - intros x j w (Hx & Hj & Hw) Hl Hc. split_and!; [by apply fresh_table; right | lia | lia |].
    rewrite fresh_word by done. by destruct (decide _) as [[-> ->]|].
Qed.

Lemma fresh_window : window n s1 lv1 v.
Proof.
  destruct (w_obj _ _ _ _ Hwin) as (o & Ho & Hob & Hol & Hob0).
  destruct (w_top _ _ _ _ Hwin) as [Hta Ht64].
  destruct (nt_current _ _ _ _ _ _ _ Hnt) as (_ & Hcur & _).
  assert (v / 2 ^ 21 = top / 2 ^ 21) as Hreg.
  { pose proof (w_region _ _ _ _ Hwin) as Hr. change (2 ^ 21) with 2097152 in *. mlia. }
  split.
  - destruct (nt_objs _ _ _ _ _ _ _ Hnt) as (o' & Ho' & Hobj). rewrite Ho in Ho'.
    injection Ho' as <-. rewrite Hobj, lookup_insert_eq. eexists. split; [done |]. simpl. lia.
  - split; [mlia | lia].
  - rewrite Hreg, <- (w_region _ _ _ _ Hwin). f_equal. lia.
  - rewrite Hcur. eapply grows_root; [apply fresh_grows | apply (w_root _ _ _ _ Hwin)].
  - rewrite Hcur, (resolve_region 3 _ _ v top Hreg).
    destruct (w_root _ _ _ _ Hwin). exists wpt. by eapply grows_resolve; [| apply fresh_grows | ..].
  - intros x [->|Hx]%fresh_table; [lia |]. apply (w_fresh _ _ _ _ Hwin) in Hx. lia.
Qed.

End Fresh.

(** ** Storing an entry *)

(** The entries after a store to entry [i] of table [pt]. *)
Lemma store_entry (s : state) lv pt i x v j w :
  pt_inv s lv → is_table s pt → 0 ≤ i < 512 →
  let s' := set_words s (<[pt + 8 * i := x]> (words s)) in
  entry s' v j w ↔ (v = pt ∧ j = i ∧ w = x) ∨ (entry s v j w ∧ ¬ (v = pt ∧ j = i)).
Proof.
  intros Hi Hpt Hix s'. assert (∀ u, is_table s' u ↔ is_table s u) as Ht.
  { intros u. unfold is_table. split; intros [q Hq]; exists q; rewrite <- Hq; [symmetry |];
      by apply ptbl_ext. }
  unfold entry. rewrite Ht. simpl. destruct (decide (v = pt ∧ j = i)) as [[-> ->]|Hne].
  - rewrite lookup_insert_eq. naive_solver.
  - split.
    + intros (Hv & Hj & Hw). right. rewrite lookup_insert_ne in Hw; [done |].
      intros Heq. apply Hne. by destruct (entry_inj s lv pt i v j) as [-> ->].
    + intros [[-> [-> _]]|[(Hv & Hj & Hw) _]]; [by destruct Hne |]. rewrite lookup_insert_ne; [done |].
      intros Heq. apply Hne. by destruct (entry_inj s lv pt i v j) as [-> ->].
Qed.

(** The invariant after a store, given its effect on the pointers. *)
Lemma store_inv (s : state) lv pt i x :
  pt_inv s lv → is_table s pt → 0 ≤ i < 512 →
  (1 ≤ lv pt → present x = true → ∃ v, ptbl s (frame_of x) = Some v ∧ lv v = lv pt - 1) →
  (∀ v j w, 1 ≤ lv pt → present x = true → entry s v j w → 1 ≤ lv v → present w = true →
     frame_of w = frame_of x → j = i ∧ lv pt = 3) →
  pt_inv (set_words s (<[pt + 8 * i := x]> (words s))) lv.
Proof.
  intros Hi Hpt Hix Hdown Hpar. set (s' := set_words s _).
  pose proof (λ v j w, store_entry s lv pt i x v j w Hi Hpt Hix) as Hent. fold s' in Hent.
  assert (∀ k, ptbl s' k = ptbl s k) as Hp by (intros; by apply ptbl_ext).
  assert (∀ u, is_table s' u → is_table s u) as Ht
    by (intros u [q Hq]; exists q; by rewrite <- Hp).
  assert (∀ v j w, entry s v j w → 1 ≤ lv v → present w = true → 1 ≤ lv pt → present x = true →
    frame_of w = frame_of x → lv v = lv pt) as Hsame.
  { intros v j w He Hv Hw Hl Hx Hf. destruct (pi_down _ _ Hi _ _ _ He Hv Hw) as (a & Ha & Hla).
    destruct (Hdown Hl Hx) as (b & Hb & Hlb). rewrite Hf, Hb in Ha. injection Ha as <-. lia. }
  destruct Hi as [(ls & Hwf & Hnn) Hli Hfr Hfree Hpa Hva Hwo Hin Hdo Hpa2]. split; try done.
  - exists ls. split; [by apply (hm_wf_proper s) | done].
  - intros p v. rewrite Hp. apply Hpa.
  - intros v Hv. apply Hva. by apply Ht.
  - intros v j Hv Hj. simpl. destruct (decide (pt + 8 * i = v + 8 * j)) as [->|].
    + by rewrite lookup_insert_eq.
    + rewrite lookup_insert_ne by done. apply Hwo; [by apply Ht | done].
  - intros p q v. rewrite !Hp. apply Hin.
  - intros v j w [(-> & -> & ->)|[He _]]%Hent Hv Hw; rewrite Hp; [by apply Hdown | by apply (Hdo v j)].
  - intros v1 i1 w1 v2 i2 w2 [(-> & -> & ->)|[He1 _]]%Hent [(-> & -> & ->)|[He2 _]]%Hent Hl1 Hl2 Hp1 Hp2 Hf.
    + by split; [| left].
    + destruct (Hpar v2 i2 w2) as [-> ?]; try done. by split; [| right].
    + destruct (Hpar v1 i1 w1) as [-> ?]; try done. split; [done | right].
      by rewrite (Hsame v1 i w1).
    + by apply (Hpa2 v1 i1 w1 v2 i2 w2).
Qed.

(** A store to an entry that was not present, or to a leaf entry, keeps the
    structure. *)
Lemma store_grows (s : state) lv pt i x w0 :
  pt_inv s lv → entry s pt i w0 → 1 ≤ lv pt → present w0 = false →
  grows (λ _, False) s lv (set_words s (<[pt + 8 * i := x]> (words s))) lv.
Proof.
  intros Hi (Hpt & Hix & Hw0) Hl Habs. split.
  - intros p v Hp. rewrite <- Hp. by apply ptbl_ext.
  - done.
  - intros v j w He Hv Hw. apply (store_entry s lv); try done. right. split; [done |].
    intros [-> ->]. destruct He as (_ & _ & He). rewrite Hw0 in He. injection He as ->. by rewrite Habs in Hw.
  - intros v j w He Hv Hc. apply (store_entry s lv); try done. right. split; [done |]. intros [-> ->]. lia.
Qed.

(** Growth without new tables keeps the window. *)
Lemma grows_window C (s s' : state) lv room top :
  pt_inv s lv → grows C s lv s' lv → (∀ v, is_table s' v → is_table s v) →
  vm_objs s' = vm_objs s → current_pml4t_ptr s' = current_pml4t_ptr s →
  window room s lv top → window room s' lv top.
Proof.
  intros Hi Hg Ht Ho Hc [Hobj Htop Hreg Hrt [wpt Hpa] Hfr]. split; try done.
  - by rewrite Ho.
  - rewrite Hc. by eapply grows_root.
  - rewrite Hc. exists wpt. destruct Hrt. by eapply grows_resolve.
  - intros v Hv. by apply Hfr, Ht.
Qed.

Lemma set_words_table (s : state) wd v : is_table (set_words s wd) v ↔ is_table s v.
Proof.
  unfold is_table. split; intros [q Hq]; exists q; rewrite <- Hq; [symmetry |]; by apply ptbl_ext.
Qed.

(** ** Walking down and creating the missing tables *)

(** The allocators can serve [n] more frames and [n] more list nodes. *)
Fixpoint frames_left (n : nat) (f : F) : Prop :=
  match n with
  | O => True
  | S n' => ∃ p f', fa_alloc f = Ok (p, f') ∧ p ≠ NULL ∧ frames_left n' f'
  end.
Fixpoint nodes_left (n : nat) (h : H) : Prop :=
  match n with
  | O => True
  | S n' => ∃ tb h', ha_alloc h SIZEOF_PAGE_TABLE_T = Ok (tb, h') ∧ nodes_left n' h'
  end.

Lemma frames_left_le n m f : (n ≤ m)%nat → frames_left m f → frames_left n f.
Proof.
  revert m f. induction n as [|n IH]; intros [|m] f Hle Hm; try done; [lia |].
  destruct Hm as (p & f' & Ha & Hp & Hm). exists p, f'. split_and!; try done.
  apply (IH m); [lia | done].
Qed.

Lemma nodes_left_le n m h : (n ≤ m)%nat → nodes_left m h → nodes_left n h.
Proof.
  revert m h. induction n as [|n IH]; intros [|m] h Hle Hm; try done; [lia |].
  destruct Hm as (p & h' & Ha & Hm). exists p, h'. split_and!; try done.
  apply (IH m); [lia | done].
Qed.

(** The address space is the same, but for the length of the window. *)
Record same_space (s s' : state) : Prop := {
  ss_cr3 : cr3 s' = cr3 s;
  ss_ptr : current_pml4t_ptr s' = current_pml4t_ptr s;
  ss_vmm : current_vmm s' = current_vmm s;
  ss_pml4ts : pml4ts s' = pml4ts s;
  ss_objs : ∀ a, a ≠ kernel_page_tbls_obj sym → vm_objs s' !! a = vm_objs s !! a;
  ss_window : ∀ o, vm_objs s !! kernel_page_tbls_obj sym = Some o →
    ∃ l, vm_objs s' !! kernel_page_tbls_obj sym = Some (VmObject (base o) l (flags o) (vm_next o));
}.

#[global] Instance same_space_preorder : PreOrder same_space.
Proof.
  split.
  - intros s. split; try done. intros o Ho. exists (vm_length o). rewrite Ho. by destruct o.
  - intros s0 s1 s2 [H1a H1b H1c H1d H1e H1f] [H2a H2b H2c H2d H2e H2f]. split; try congruence.
    + intros a Ha. by rewrite H2e, H1e.
    + intros o Ho. destruct (H1f _ Ho) as [l Hl]. by destruct (H2f _ Hl) as [l' Hl']; exists l'.
Qed.

Lemma set_words_space (s : state) wd : same_space s (set_words s wd).
Proof. split; try done. intros o Ho. exists (vm_length o). simpl. rewrite Ho. by destruct o. Qed.

(** The leaf entries of the window pages in [(lo, hi]]. *)
Definition win_leaf (wpt lo hi a : Z) : Prop :=
  ∃ v, lo < v ≤ hi ∧ v mod 0x1000 = 0 ∧ a = wpt + 8 * pt_index v 0.

(** What a walk that may create up to [n] tables leaves. *)
Record walked (n : nat) (room : Z) (s : state) (lv : Z → Z) (top wpt : Z)
    (s' : state) (lv' : Z → Z) (top' : Z) : Prop := {
  wk_inv : pt_inv s' lv';
  wk_top : top ≤ top' ≤ top + Z.of_nat n * 0x1000 ∧ (top' - top) mod 0x1000 = 0;
  wk_window : window (room - (top' - top) / 0x1000) s' lv' top';
  wk_grows : grows (win_leaf wpt top top') s lv s' lv';
  wk_space : same_space s s';
  wk_frames : ∀ a, frames_left (n + a) (frames s) → frames_left a (frames s');
  wk_nodes : ∀ a, nodes_left (n + a) (kheap s) → nodes_left a (kheap s');
  wk_taken : ∀ q, fa_taken (frames s) q → fa_taken (frames s') q;
  wk_live : ∀ q, ha_live (kheap s) q → ha_live (kheap s') q;
}.

Lemma walked_refl n room s lv top wpt :
  pt_inv s lv → window room s lv top → walked n room s lv top wpt s lv top.
Proof.
  intros Hi Hw. split; try done.
  - split; [lia |]. by rewrite Z.sub_diag.
  - by rewrite Z.sub_diag, Z.sub_0_r.
  - intros a. apply frames_left_le. lia.
  - intros a. apply nodes_left_le. lia.
Qed.

Lemma new_table_space (s s1 : state) wpt p v f h wd :
  new_table s wpt p v f h s1 → same_space s (set_words s1 wd).
Proof.
  intros Hnt. destruct (nt_current _ _ _ _ _ _ _ Hnt) as (? & ? & ?).
  destruct (nt_objs _ _ _ _ _ _ _ Hnt) as (o & Ho & Hobj). split; simpl; try done.
  - apply (nt_pml4ts _ _ _ _ _ _ _ Hnt).
  - intros a Ha. by rewrite Hobj, lookup_insert_ne.
  - intros o' Ho'. rewrite Ho in Ho'. injection Ho' as <-. rewrite Hobj, lookup_insert_eq. by eexists.
Qed.

Lemma walked_le n m room s lv top wpt s' lv' top' :
  (n ≤ m)%nat → walked n room s lv top wpt s' lv' top' → walked m room s lv top wpt s' lv' top'.
Proof.
  intros Hle [Hi Ht Hw Hg Hs Hf Hn Hk Hlv]. split; try done; [lia | |].
  - intros a Ha. apply Hf. eapply frames_left_le; [| exact Ha]. lia.
  - intros a Ha. apply Hn. eapply nodes_left_le; [| exact Ha]. lia.
Qed.

Lemma walked_trans n m room s lv top wpt s1 lv1 top1 s2 lv2 top2 :
  walked n room s lv top wpt s1 lv1 top1 →
  walked m (room - (top1 - top) / 0x1000) s1 lv1 top1 wpt s2 lv2 top2 →
  walked (n + m) room s lv top wpt s2 lv2 top2.
Proof.
  intros [Hi1 Ht1 Hw1 Hg1 Hs1 Hf1 Hn1 Hk1 Hlv1] [Hi2 Ht2 Hw2 Hg2 Hs2 Hf2 Hn2 Hk2 Hlv2]. split.
  - done.
  - split; [lia |]. mlia.
  - replace (room - (top2 - top) / 0x1000)
      with (room - (top1 - top) / 0x1000 - (top2 - top1) / 0x1000) by mlia. done.
  - eapply grows_trans; eapply grows_weaken; [| exact Hg1 | | exact Hg2];
      intros a (v & ? & ? & ->); exists v; split_and!; try done; lia.
  - by transitivity s1.
  - intros a Ha. apply Hf2, Hf1. by rewrite Nat.add_assoc.
  - intros a Ha. apply Hn2, Hn1. by rewrite Nat.add_assoc.
  - auto.
  - auto.
Qed.

(** One missing table: allocate, link, and go on in it. *)
Section LinkStep.
Variables (fuel : nat) (s s1 : state) (lv : Z → Z) (room top wpt p t i w0 : Z) (f : F) (tb : Z) (h : H).
Hypothesis Hi : pt_inv s lv.
Hypothesis Hr : 0 ≤ room.
Hypothesis Hw : window (room + 1) s lv top.
Hypothesis Hres : resolve 3 s (current_pml4t_ptr s) top = Some wpt.
Hypothesis Hf : fa_alloc (frames s) = Ok (p, f).
Hypothesis Hh : ha_alloc (kheap s) SIZEOF_PAGE_TABLE_T = Ok (tb, h).
Hypothesis Hp : p ≠ NULL.
Hypothesis Hnt : new_table s wpt p (top + 0x1000) f h s1.
Hypothesis He : entry s t i w0.
Hypothesis Habs : present w0 = false.
Hypothesis Hl : 1 ≤ lv t.

Local Abbreviation lv1 := (relevel lv (top + 0x1000) (lv t - 1)).
Local Abbreviation s2 := (set_words s1 (<[t + 8 * i := Z.lor p 7]> (words s1))).

Lemma link_range : 0 ≤ lv t - 1 ≤ 3.
Proof. destruct He as (Ht & _). apply (pi_vaddr _ _ Hi) in Ht. lia. Qed.

(** The entry is still absent once the table has been allocated. *)
Lemma link_absent : entry s1 t i w0 ∧ lv1 t = lv t.
Proof.
  destruct He as (Ht & Hix & Hw0). assert (lv1 t = lv t) as Hlt by (by eapply fresh_level).
  split; [| done]. split_and!; [eapply fresh_table; try done; by right | lia | lia |].
  erewrite (fresh_word s s1) by done. destruct (decide _) as [[-> _]|]; [| done].
  destruct (fresh_wpt s lv room top wpt Hi Hw Hres). lia.
Qed.

Lemma link_inv : pt_inv s2 lv1.
Proof.
  pose proof link_range as HL. destruct link_absent as [(Ht & Hix & _) Hlt].
  destruct (frame_fresh s lv p f Hi Hf Hp) as (Hpn & Hpa & Hpr & _).
  apply store_inv; try done.
  - by eapply fresh_inv.
  - intros _ _. exists (top + 0x1000). rewrite frame_of_lor, (nt_ptbl _ _ _ _ _ _ _ Hnt), Z.eqb_refl by lia.
    split; [done |]. rewrite Hlt. unfold relevel. by rewrite Z.eqb_refl.
  - intros v j w _ _ Hev Hv Hpw Hfr. exfalso. rewrite frame_of_lor in Hfr by lia.
    destruct (fresh_entry s s1 lv room top wpt p (lv t - 1) f h Hi Hr Hw Hres Hf Hp Hnt v j w)
      as [Hev' Hlv]; try done. rewrite Hlv in Hv.
    destruct (pi_down _ _ Hi _ _ _ Hev' Hv Hpw) as (? & Hx & _). by rewrite Hfr, Hpn in Hx.
Qed.

Lemma link_grows : grows (λ a, a = wpt + 8 * pt_index (top + 0x1000) 0) s lv s2 lv1.
Proof.
  pose proof link_range as HL. destruct link_absent as [Hent Hlt].
  eapply grows_trans; [by eapply fresh_grows |].
  eapply grows_weaken; [| eapply store_grows; [by eapply fresh_inv | exact Hent | lia | done]]. done.
Qed.

Lemma link_window : window room s2 lv1 (top + 0x1000).
Proof.
  pose proof link_range as HL. destruct link_absent as [Hent Hlt].
  eapply (grows_window _ s1); [by eapply fresh_inv | | | done | done | by eapply fresh_window].
  - eapply store_grows; [by eapply fresh_inv | exact Hent | lia | done].
  - intros v. apply set_words_table.
Qed.

Lemma link_walked : walked 1 (room + 1) s lv top wpt s2 lv1 (top + 0x1000).
Proof.
  destruct (frame_fresh s lv p f Hi Hf Hp) as (_ & Hpa & Hpr & _ & _ & Hfm). split.
  - apply link_inv.
  - split; [lia |]. by replace (top + 4096 - top) with 4096 by lia.
  - replace (room + 1 - (top + 4096 - top) / 4096) with room by mlia. apply link_window.
  - eapply grows_weaken; [| apply link_grows]. intros a ->. exists (top + 0x1000).
    destruct (w_top _ _ _ _ Hw). split_and!; [lia | lia | mlia | done].
  - by eapply new_table_space.
  - intros a (p' & f' & Hf' & _ & Ha). rewrite Hf in Hf'. injection Hf' as <- <-.
    simpl. by rewrite (nt_frames _ _ _ _ _ _ _ Hnt).
  - intros a (tb' & h' & Hh' & Ha). rewrite Hh in Hh'. injection Hh' as <- <-.
    simpl. by rewrite (nt_heap _ _ _ _ _ _ _ Hnt).
  - intros q. simpl. rewrite (nt_frames _ _ _ _ _ _ _ Hnt). apply Hfm.
  - intros q Hq. simpl. rewrite (nt_heap _ _ _ _ _ _ _ Hnt).
    destruct (ha_alloc_spec _ SIZEOF_PAGE_TABLE_T _ _ (proj1 (pi_live _ _ Hi)) ltac:(done) Hh) as (_ & _ & _ & Hlv).
    apply Hlv. by right.
Qed.

End LinkStep.

Lemma window_le n m (s : state) lv top : 0 ≤ n ≤ m → window m s lv top → window n s lv top.
Proof.
  intros Hle [Ho [Ha Hb] Hreg Hrt Hpa Hfr]. split; try done.
  - split; [done | lia].
  - change (2 ^ 21) with 2097152 in *. mlia.
  - intros v Hv. destruct (Hfr v Hv); lia.
Qed.

Lemma link_step fuel (s : state) lv room top wpt t i w0 :
  pt_inv s lv → 0 ≤ room → window (room + 1) s lv top →
  resolve 3 s (current_pml4t_ptr s) top = Some wpt →
  frames_left 1 (frames s) → nodes_left 1 (kheap s) →
  entry s t i w0 → present w0 = false → 1 ≤ lv t →
  ∃ p s1 s2 lv2, alloc_pg_table sym (mmap sym (S fuel)) s = Ok (p, s1) ∧
    store_word s1 (t + 8 * i) (Z.lor p 7) = Ok s2 ∧
    walked 1 (room + 1) s lv top wpt s2 lv2 (top + 0x1000) ∧
    ptbl s2 p = Some (top + 0x1000) ∧ lv2 (top + 0x1000) = lv t - 1 ∧
    entry s2 t i (Z.lor p 7) ∧ frame_of (Z.lor p 7) = p.
Proof.
  intros Hi Hr Hw Hres (p & f & Hf & Hp & _) (tb & h & Hh & _) He Habs Hl.
  destruct (alloc_pg_table_fresh fuel s lv top wpt tb h p f) as (s1 & Hal & Hnt); try done.
  { eapply window_le; [| exact Hw]. lia. }
  destruct (link_absent s s1 lv room top wpt p t i w0 f h Hi Hr Hw Hres Hf Hp Hnt He Hl)
    as [(Ht & Hix & Hw0) Hlt].
  destruct (frame_fresh s lv p f Hi Hf Hp) as (_ & Hpa & Hpr & _).
  exists p, s1. eexists _, (relevel lv (top + 0x1000) (lv t - 1)).
  split; [done |]. split; [unfold store_word; by rewrite Hw0 |].
  split; [by eapply link_walked |]. split; [| split; [| split]].
  - rewrite (ptbl_ext s1) by done. by rewrite (nt_ptbl _ _ _ _ _ _ _ Hnt), Z.eqb_refl.
  - unfold relevel. by rewrite Z.eqb_refl.
  - split_and!; [by apply set_words_table | lia | lia | by simpl; rewrite lookup_insert_eq].
  - apply frame_of_lor; [done | lia].
Qed.

Lemma walked_resolve n room s lv top wpt s' lv' top' :
  pt_inv s lv → is_root s lv (current_pml4t_ptr s) → top / 2 ^ 21 = top' / 2 ^ 21 →
  resolve 3 s (current_pml4t_ptr s) top = Some wpt →
  walked n room s lv top wpt s' lv' top' →
  resolve 3 s' (current_pml4t_ptr s') top' = Some wpt.
Proof.
  intros Hi [Hr Hl] Hreg Hres Hwk. rewrite (ss_ptr _ _ (wk_space _ _ _ _ _ _ _ _ _ Hwk)).
  rewrite <- (resolve_region 3 _ _ top top' Hreg).
  by eapply grows_resolve; [| apply (wk_grows _ _ _ _ _ _ _ _ _ Hwk) | ..].
Qed.

Lemma mmap_levels_walk fuel n (s : state) lv room top wpt t v :
  pt_inv s lv → Z.of_nat n ≤ room → window room s lv top →
  resolve 3 s (current_pml4t_ptr s) top = Some wpt →
  frames_left n (frames s) → nodes_left n (kheap s) →
  is_table s t → lv t = Z.of_nat n →
  ∃ pt s' lv' top',
    mmap_levels (alloc_pg_table sym (mmap sym (S fuel))) n s t v = Ok (Some pt, s') ∧
    walked n room s lv top wpt s' lv' top' ∧ resolve n s' t v = Some pt.
Proof.
  revert s lv room top t. induction n as [|n IH]; intros s lv room top t Hi Hr Hw Hres Hf Hh Ht Hl.
  { exists t, s, lv, top. split_and!; try done. by apply walked_refl. }
  destruct (pi_words _ _ Hi t (pt_index v (Z.of_nat (S n))) Ht (pt_index_range _ _)) as [w Hword].
  assert (entry s t (pt_index v (Z.of_nat (S n))) w) as He
    by (split_and!; try done; apply pt_index_range).
  cbn [mmap_levels resolve]. unfold load_word. rewrite Hword. out_red.
  destruct (present w) eqn:Hp.
  - destruct (pi_down _ _ Hi _ _ _ He ltac:(lia) Hp) as (t' & Ht' & Hl').
    destruct (ptbl_get_Some _ _ _ Ht') as [-> Hnn]. rewrite (proj2 (Z.eqb_neq t' NULL)) by done.
    destruct (IH s lv room top t') as (pt & s' & lv' & top' & Hm & Hwk & Hpt); try done;
      [lia | by eapply frames_left_le; [| exact Hf]; lia | by eapply nodes_left_le; [| exact Hh]; lia
      | by eexists | lia |].
    exists pt, s', lv', top'. split_and!; [done | by eapply walked_le; [| done]; lia |].
    destruct (g_upper _ _ _ _ _ (wk_grows _ _ _ _ _ _ _ _ _ Hwk) _ _ _ He ltac:(lia) Hp) as (_ & _ & ->).
    cbn -[resolve]. rewrite Hp.
    by rewrite (g_tables _ _ _ _ _ (wk_grows _ _ _ _ _ _ _ _ _ Hwk) _ _ Ht').
  - destruct (link_step fuel s lv (room - 1) top wpt t (pt_index v (Z.of_nat (S n))) w)
      as (p & s1 & s2 & lv2 & Hal & Hst & Hwk1 & Hpt1 & Hlv1 & He2 & Hfr); try done; try lia.
    { by rewrite Z.sub_add. }
    { by eapply frames_left_le; [| exact Hf]; lia. }
    { by eapply nodes_left_le; [| exact Hh]; lia. }
    rewrite Hal. out_red. rewrite Hst. out_red.
    destruct (ptbl_get_Some _ _ _ Hpt1) as [-> _]. rewrite Z.sub_add in Hwk1.
    assert (top / 2 ^ 21 = (top + 0x1000) / 2 ^ 21) as Hreg.
    { pose proof (w_region _ _ _ _ Hw) as Hrg. change (2 ^ 21) with 2097152 in *. mlia. }
    pose proof (walked_resolve _ _ _ _ _ _ _ _ _ Hi (w_root _ _ _ _ Hw) Hreg Hres Hwk1) as Hres2.
    pose proof (g_level _ _ _ _ _ (wk_grows _ _ _ _ _ _ _ _ _ Hwk1) t Ht) as Hlt.
    destruct (IH s2 lv2 (room - (top + 0x1000 - top) / 0x1000) (top + 0x1000) (top + 0x1000))
      as (pt & s' & lv' & top' & Hm & Hwk & Hpt); try done.
    { apply (wk_inv _ _ _ _ _ _ _ _ _ Hwk1). }
    { mlia. }
    { apply (wk_window _ _ _ _ _ _ _ _ _ Hwk1). }
    { by apply (wk_frames _ _ _ _ _ _ _ _ _ Hwk1). }
    { by apply (wk_nodes _ _ _ _ _ _ _ _ _ Hwk1). }
    { by eexists. }
    { lia. }
    exists pt, s', lv', top'. split_and!; [done | by apply (walked_trans 1 n _ _ _ _ _ s2 lv2 (top + 0x1000)) |].
    pose proof (wk_grows _ _ _ _ _ _ _ _ _ Hwk) as Hg.
    destruct (g_upper _ _ _ _ _ Hg _ _ _ He2) as (_ & _ & ->); [lia | by apply present_lor |].
    cbn -[resolve]. rewrite present_lor, Hfr. by rewrite (g_tables _ _ _ _ _ Hg _ _ Hpt1).
Qed.

(** The leaf store keeps the invariant: entries of last level tables are not
    pointers to tables. *)
Lemma leaf_inv (s : state) lv pt i x :
  pt_inv s lv → is_table s pt → lv pt = 0 → 0 ≤ i < 512 →
  pt_inv (set_words s (<[pt + 8 * i := x]> (words s))) lv.
Proof. intros Hi Hpt Hl Hix. apply store_inv; try done; lia. Qed.

Lemma leaf_grows (s : state) lv pt i x :
  pt_inv s lv → is_table s pt → lv pt = 0 → 0 ≤ i < 512 →
  grows (λ a, a = pt + 8 * i) s lv (set_words s (<[pt + 8 * i := x]> (words s))) lv.
Proof.
  intros Hi Hpt Hl Hix. split.
  - intros p v Hp. rewrite <- Hp. by apply ptbl_ext.
  - done.
  - intros v j w He Hv Hw. apply (store_entry s lv); try done. right. split; [done |].
    intros [-> _]. lia.
  - intros v j w He Hv Hc. apply (store_entry s lv); try done. right. split; [done |].
    by intros [-> ->].
Qed.

Lemma leaf_window (s : state) lv room top pt i x :
  pt_inv s lv → is_table s pt → lv pt = 0 → 0 ≤ i < 512 → window room s lv top →
  window room (set_words s (<[pt + 8 * i := x]> (words s))) lv top.
Proof.
  intros Hi Hpt Hl Hix Hw. eapply grows_window; [exact Hi | by apply leaf_grows | | done | done | done].
  intros v. apply set_words_table.
Qed.

(** [s'] is [s] with [vaddr] mapped to the entry [e] below [root]: every other
    translation is kept, apart from those of the pages [(top, top']] at which
    new page tables have been put. *)
Record page_mapped (room : Z) (s : state) (lv : Z → Z) (top root vaddr e : Z)
    (s' : state) (lv' : Z → Z) (top' : Z) : Prop := {
  mp_inv : pt_inv s' lv';
  mp_top : top ≤ top' ≤ top + 3 * 0x1000 ∧ (top' - top) mod 0x1000 = 0;
  mp_window : window (room - (top' - top) / 0x1000) s' lv' top';
  mp_space : same_space s s';
  mp_frames : ∀ a, frames_left (3 + a) (frames s) → frames_left a (frames s');
  mp_nodes : ∀ a, nodes_left (3 + a) (kheap s) → nodes_left a (kheap s');
  mp_taken : ∀ q, fa_taken (frames s) q → fa_taken (frames s') q;
  mp_live : ∀ q, ha_live (kheap s) q → ha_live (kheap s') q;
  mp_roots : ∀ r, is_root s lv r → is_root s' lv' r;
  mp_entry : translate s' root vaddr = Some e;
  mp_keep : ∀ r v e', is_root s lv r → translate s r v = Some e' →
    page_of v ≠ page_of vaddr → (∀ u, top < u ≤ top' → page_of v ≠ page_of u) →
    translate s' r v = Some e';
}.

(** A leaf entry of a window page belongs to that page. *)
Lemma win_leaf_page (s : state) lv room top wpt top' r v pt :
  pt_inv s lv → window room s lv top → top' ≤ top + room * 0x1000 →
  resolve 3 s (current_pml4t_ptr s) top = Some wpt → is_root s lv r →
  resolve 3 s r v = Some pt → win_leaf wpt top top' (pt + 8 * pt_index v 0) →
  ∃ u, top < u ≤ top' ∧ page_of v = page_of u.
Proof.
  intros Hi Hw Hle Hres Hr Hpt (u & Hu & Hua & Heq). exists u. split; [done |].
  destruct (resolve_table 3 s lv r v pt Hi) as [Hpt1 _]; [apply Hr.. | done |].
  destruct (w_root _ _ _ _ Hw) as [Hct Hcl].
  destruct (resolve_table 3 s lv _ _ wpt Hi Hct Hcl Hres) as [Hwt _].
  destruct (entry_inj s lv pt (pt_index v 0) wpt (pt_index u 0)) as [-> Hix]; try done;
    [apply pt_index_range.. |].
  apply (resolve_page s lv r (current_pml4t_ptr s) v u wpt); try done.
  rewrite <- Hres. apply resolve_region. pose proof (w_region _ _ _ _ Hw) as Hreg.
  change (2 ^ 21) with 2097152 in *. mlia.
Qed.

Lemma mmap_mapped fuel (s : state) lv room top root paddr vaddr fl :
  pt_inv s lv → 3 ≤ room → window room s lv top →
  frames_left 3 (frames s) → nodes_left 3 (kheap s) → is_root s lv root →
  ∃ s' lv' top', mmap sym (S (S fuel)) s root paddr vaddr fl = Ok (true, s') ∧
    page_mapped room s lv top root vaddr (Z.lor (Z.lor paddr fl) 7) s' lv' top'.
Proof.
  intros Hi Hr Hw Hf Hn [Hrt Hrl]. destruct (w_path _ _ _ _ Hw) as [wpt Hres].
  destruct (mmap_levels_walk fuel 3 s lv room top wpt root vaddr)
    as (pt & s1 & lv1 & top' & Hm & Hwk & Hpt); try done.
  destruct Hwk as [Hi1 Ht1 Hw1 Hg1 Hs1 Hf1 Hn1 Hk1 Hlv1].
  assert (is_root s1 lv1 root) as Hr1 by (by eapply grows_root).
  destruct (resolve_table 3 s1 lv1 root vaddr pt Hi1) as [Hptt Hptl]; [apply Hr1.. | done |].
  pose proof (pt_index_range vaddr 0) as Hix.
  destruct (pi_words _ _ Hi1 pt (pt_index vaddr 0) Hptt Hix) as [w Hword].
  set (e := Z.lor (Z.lor paddr fl) 7).
  pose proof (leaf_grows s1 lv1 pt (pt_index vaddr 0) e Hi1 Hptt Hptl Hix) as Hg2.
  set (s2 := set_words s1 (<[pt + 8 * pt_index vaddr 0 := e]> (words s1))) in *.
  exists s2, lv1, top'. split.
  { cbn [mmap]. cbn [mmap] in Hm. rewrite Hm. out_red. unfold store_word. by rewrite Hword. }
  split; try done.
  - by apply leaf_inv.
  - by apply leaf_window.
  - etransitivity; [exact Hs1 | apply set_words_space].
  - intros r Hrr. eapply grows_root; [exact Hg2 |]. by eapply grows_root.
  - unfold translate. erewrite (grows_resolve _ 3 s1 lv1 s2 lv1 root vaddr pt); try done; [| apply Hr1..].
    cbn -[resolve present]. rewrite lookup_insert_eq. cbn -[present]. unfold e. by rewrite present_lor.
  - intros r v e' Hrr Htr Hpg Hwin.
    assert (translate s1 r v = Some e') as Htr1.
    { eapply grows_translate; [exact Hi | exact Hg1 | done | done |]. intros pt' Hpt' Hc.
      destruct (win_leaf_page s lv room top wpt top' r v pt') as (u & Hu & Heq); try done; [lia |].
      by apply (Hwin u). }
    eapply grows_translate; [exact Hi1 | exact Hg2 | by eapply grows_root | done |].
    intros pt' Hpt' Hc. apply Hpg.
    assert (is_root s1 lv1 r) as Hr1' by (by eapply grows_root).
    destruct (resolve_table 3 s1 lv1 r v pt' Hi1) as [Hptt' _]; [apply Hr1'.. | done |].
    destruct (entry_inj s1 lv1 pt' (pt_index v 0) pt (pt_index vaddr 0)) as [-> Hixe]; try done;
      [apply pt_index_range |].
    by apply (resolve_page s1 lv1 r root v vaddr pt).
Qed.

(** [C1] With three page tables, three list nodes and room in the window of
    page tables, mmap always returns true with two levels of its recursion;
    vaddr then translates to paddr, the invariant of the page tables holds
    again, and every other translation is kept, apart from the pages at which
    new page tables were put. *)
Theorem mmap_maps fuel (s : state) lv room top root paddr vaddr fl :
  pt_inv s lv → 3 ≤ room → window room s lv top →
  frames_left 3 (frames s) → nodes_left 3 (kheap s) → is_root s lv root →
  ∃ s' lv' top',
    mmap sym (S (S fuel)) s root paddr vaddr fl = Ok (true, s') ∧
    pt_inv s' lv' ∧ top ≤ top' ≤ top + 3 * 0x1000 ∧
    window (room - (top' - top) / 0x1000) s' lv' top' ∧ same_space s s' ∧
    translate s' root vaddr = Some (Z.lor (Z.lor paddr fl) 7) ∧
    ∀ r v e, is_root s lv r → translate s r v = Some e →
      page_of v ≠ page_of vaddr → (∀ u, top < u ≤ top' → page_of v ≠ page_of u) →
      translate s' r v = Some e.
Proof.
  intros Hi Hr Hw Hf Hn Hrt.
  destruct (mmap_mapped fuel s lv room top root paddr vaddr fl)
    as (s' & lv' & top' & Hm & [Hi' Ht Hw' Hs _ _ _ _ _ He Hk]); try done.
  exists s', lv', top'. split_and!; try done; lia.
Qed.

(** When the page tables for vaddr exist, mmap returns true after one
    store to the last level entry and changes nothing else. *)
Theorem mmap_existing fuel (s : state) lv root paddr vaddr fl pt :
  pt_inv s lv → is_root s lv root → resolve 3 s root vaddr = Some pt →
  mmap sym (S fuel) s root paddr vaddr fl =
  Ok (true, set_words s (<[pt + 8 * pt_index vaddr 0 := Z.lor (Z.lor paddr fl) 7]> (words s))).
Proof.
  intros Hi [Hr Hl] Hres. destruct (resolve_table 3 s lv _ _ _ Hi Hr Hl Hres) as [Hpt _].
  destruct (pi_words _ _ Hi pt (pt_index vaddr 0) Hpt (pt_index_range _ _)) as [w Hw].
  by eapply mmap_existing_path.
Qed.

(** ** Changes that the page tables do not see *)

Record same_tables (s s' : state) : Prop := {
  st_map : vmm_hashmap s' = vmm_hashmap s;
  st_nodes : pt_nodes s' = pt_nodes s;
  st_words : words s' = words s;
}.

Lemma st_ptbl s s' p : same_tables s s' → ptbl s' p = ptbl s p.
Proof. intros [Hm Hn _]. by apply ptbl_ext. Qed.

Lemma st_table s s' v : same_tables s s' → is_table s' v ↔ is_table s v.
Proof. intros Hst. unfold is_table. by setoid_rewrite (st_ptbl _ _ _ Hst). Qed.

Lemma st_entry s s' v i w : same_tables s s' → entry s' v i w ↔ entry s v i w.
Proof. intros Hst. unfold entry. by rewrite (st_table _ _ _ Hst), (st_words _ _ Hst). Qed.

Lemma st_root s s' lv r : same_tables s s' → is_root s' lv r ↔ is_root s lv r.
Proof. intros Hst. unfold is_root. by rewrite (st_table _ _ _ Hst). Qed.

Lemma st_resolve n s s' t v : same_tables s s' → resolve n s' t v = resolve n s t v.
Proof. intros Hst. apply resolve_ext; [apply Hst | intros; by apply st_ptbl]. Qed.

Lemma st_translate s s' r v : same_tables s s' → translate s' r v = translate s r v.
Proof. intros Hst. unfold translate. by rewrite (st_resolve _ _ _ _ _ Hst), (st_words _ _ Hst). Qed.

Lemma pt_inv_same s s' lv :
  same_tables s s' → pt_inv s lv → nodes_live s' → fa_inv (frames s') → tables s' = NULL →
  (∀ q, fa_taken (frames s) q → fa_taken (frames s') q) → pt_inv s' lv.
Proof.
  intros Hst [(ls & Hwf & Hnn) Hl Hf Hfr Hpa Hv Hw Hin Hd Hp] Hl' Hf' Hfr' Hm. split; try done.
  - exists ls. split; [by apply (hm_wf_proper s); [apply Hst.. |] |].
    intros p. unfold hm_lookup. rewrite (st_nodes _ _ Hst). apply Hnn.
  - intros p v. rewrite (st_ptbl _ _ _ Hst). intros (? & ? & ?)%Hpa. auto.
  - intros v. rewrite (st_table _ _ _ Hst). apply Hv.
  - intros v i. rewrite (st_table _ _ _ Hst), (st_words _ _ Hst). apply Hw.
  - intros p q v. rewrite !(st_ptbl _ _ _ Hst). apply Hin.
  - intros v i w. rewrite (st_entry _ _ _ _ _ Hst), (st_ptbl _ _ _ Hst). apply Hd.
  - intros v1 i1 w1 v2 i2 w2. rewrite !(st_entry _ _ _ _ _ Hst). apply Hp.
Qed.

Lemma window_same s s' lv room top :
  same_tables s s' → current_pml4t_ptr s' = current_pml4t_ptr s →
  (∀ o, vm_objs s !! kernel_page_tbls_obj sym = Some o →
     ∃ o', vm_objs s' !! kernel_page_tbls_obj sym = Some o' ∧ base o' = base o ∧
       vm_length o' = vm_length o) →
  window room s lv top → window room s' lv top.
Proof.
  intros Hst Hc Ho [(o & Hobj & Hob) Ht Hr Hrt Hp Hf]. destruct (Ho o Hobj) as (o' & Ho' & Hb & Hl).
  split; try done.
  - exists o'. by rewrite Hb, Hl.
  - rewrite Hc. by apply (st_root _ _ _ _ Hst).
  - by rewrite Hc, (st_resolve _ _ _ _ _ Hst).
  - intros v. rewrite (st_table _ _ _ Hst). apply Hf.
Qed.

(** ** The end of the window *)

(** The walk for [vaddr] from table [t] of level [n] ends at an entry that is
    not present. *)
Fixpoint stops (n : nat) (s : state) (t vaddr : Z) : Prop :=
  match n with
  | O => False
  | S n' => ∃ w, words s !! (t + 8 * pt_index vaddr (Z.of_nat n)) = Some w ∧
      if present w then ∃ t', ptbl s (frame_of w) = Some t' ∧ stops n' s t' vaddr else True
  end.

Lemma stops_levels alloc n (s : state) t v :
  stops n s t v → alloc s = NoFuel → mmap_levels alloc n s t v = NoFuel.
Proof.
  intros Hs Ha. revert t Hs. induction n as [|n IH]; intros t Hs; [done |].
  destruct Hs as (w & Hw & Hs). cbn [mmap_levels]. unfold load_word. rewrite Hw. out_red.
  destruct (present w); [| by rewrite Ha].
  destruct Hs as (t' & [-> Hnn]%ptbl_get_Some & Hs). rewrite (proj2 (Z.eqb_neq t' NULL)) by done.
  by apply IH.
Qed.

Lemma stops_ext n (s s' : state) t v v' :
  words s' = words s → (∀ p, ptbl s' p = ptbl s p) → v' / 2 ^ 21 = v / 2 ^ 21 →
  stops n s t v → stops n s' t v'.
Proof.
  intros Hw Hp Hv. revert t. induction n as [|n IH]; intros t; [done |]. cbn [stops].
  rewrite Hw, (pt_index_region v' v) by (done || lia). intros (w & Hlk & Hs). exists w. split; [done |].
  destruct (present w); [| done]. destruct Hs as (t' & Ht' & Hs). exists t'. rewrite Hp. auto.
Qed.

(** [C28] When the window of page tables reaches a 2 MiB region that is not
    mapped, mmap recurses as deep as there are frames and nodes left: each new
    page table needs another one to be mapped. *)
Theorem mmap_window_end fuel (s : state) ls root o paddr vaddr fl :
  hm_wf s ls → nodes_live s → tables s = NULL →
  vm_objs s !! kernel_page_tbls_obj sym = Some o → 0 ≤ base o → 0 ≤ vm_length o →
  base o + vm_length o + Z.of_nat fuel * 0x1000 < 2 ^ 64 →
  (∀ k, 1 ≤ k ≤ Z.of_nat fuel →
    (base o + vm_length o + k * 0x1000) / 2 ^ 21 = vaddr / 2 ^ 21) →
  root = current_pml4t_ptr s → stops 3 s root vaddr →
  frames_left fuel (frames s) → nodes_left fuel (kheap s) →
  mmap sym fuel s root paddr vaddr fl = NoFuel.
Proof.
  revert s ls o paddr vaddr fl. induction fuel as [|fuel IH];
    intros s ls o paddr vaddr fl Hwf Hnl Ht Ho Hb Hl H64 Hreg -> Hst Hf Hn; [done |].
  destruct Hf as (p & f & Hfa & Hp & Hf), Hn as (tb & h & Hha & Hn).
  cbn [mmap]. rewrite stops_levels; [done | exact Hst |].
  set (v := base o + vm_length o + 0x1000).
  rewrite (alloc_pg_table_run _ s tb h p f o v); try done; try lia.
  destruct (kmalloc_loose s ls (PageTable 0 v p false NULL) tb h Hwf Hnl eq_refl Hha)
    as (Hnone & Hwf1 & Hnl1 & _).
  set (s5 := before_mmap s tb v p f h o).
  assert (hm_wf s5 ls) as Hwf5 by (by eapply hm_wf_proper; [| | exact Hwf1]).
  assert (∀ k, ptbl s5 k = ptbl s k) as Hpt.
  { intros k. unfold ptbl. rewrite (get_ptbl_vaddr_lookup _ _ _ Hwf5), (get_ptbl_vaddr_lookup _ _ _ Hwf).
    assert (hm_lookup s5 ls k = hm_lookup s ls k) as ->; [| done].
    by apply (hm_lookup_fresh_node (set_kheap s h)); [apply (hm_wf_proper s) |]. }
  rewrite (IH s5 ls (VmObject (base o) (vm_length o + 0x1000) (flags o) (vm_next o))); try done.
  - simpl. by rewrite lookup_insert_eq.
  - simpl. lia.
  - simpl. lia.
  - intros k Hk. simpl base. simpl vm_length.
    replace (base o + (vm_length o + 4096) + k * 4096) with (base o + vm_length o + (k + 1) * 4096) by lia.
    transitivity (vaddr / 2 ^ 21); [apply Hreg; lia |]. symmetry. unfold v.
    rewrite <- (Hreg 1) by lia. by rewrite Z.mul_1_l.
  - eapply (stops_ext 3 s s5); [done | done | | exact Hst]. unfold v.
    rewrite <- (Hreg 1) by lia. by rewrite Z.mul_1_l.
Qed.

End Inv.

(** ** Evaluation *)

Module PageMapDemo.

(** A heap that hands out 64 byte blocks and remembers the live ones. *)
Definition next_block (l : list Z) : Z := 64 + foldr Z.max 0 l.

Lemma next_block_above l p : p ∈ l → p < next_block l.
Proof.
  unfold next_block. induction l as [|q l IH]; [set_solver |].
  intros [->|Hp]%elem_of_cons; simpl; [lia |]. specialize (IH Hp). lia.
Qed.

Program Definition list_heap : HeapAlloc (list Z) := {|
  ha_alloc l _ := Ok (next_block l, next_block l :: l);
  ha_free l p := Ok (filter (.≠ p) l);
  ha_inv _ := True;
  ha_live l p := p ∈ l;
|}.
Next Obligation.
  intros l n p l' _ _ [= <- <-]. split_and!; [done | | |].
  - unfold next_block. induction l; simpl; lia.
  - intros Hp%next_block_above. lia.
  - intros q. apply elem_of_cons.
Qed.
Next Obligation.
  intros l p _ _. eexists. split_and!; [done | done |]. intros q. by rewrite list_elem_of_filter.
Qed.
#[local] Existing Instance list_heap.

Definition demo_sym : symbols := Symbols 1 2 3 4.

(** Four tables, one per level, at the start of the window; the frames 0 to 4
    are taken. *)
Definition V (k : Z) : Z := KERNEL_PAGE_TBL_START + 0x1000 * k.

Definition demo_words : gmap Z Z :=
  <[V 1 + 8 * 511 := 0x2007]> (<[V 2 := 0x3007]> (<[V 3 + 8 := 0x4007]>
    (zero_words 2048 (V 1) ∅))).

Definition demo_nodes : gmap Z page_table_t :=
  {[64 := PageTable 1 (V 1) 0x1000 true NULL; 128 := PageTable 1 (V 2) 0x2000 true NULL;
    192 := PageTable 1 (V 3) 0x3000 true NULL; 256 := PageTable 1 (V 4) 0x4000 true NULL]}.

Definition demo_buckets : list Z :=
  <[16%nat := 64]> (<[12%nat := 128]> (<[8%nat := 192]> (<[4%nat := 256]> (replicate 20 NULL)))).

Definition demo_frames : pmm_state := PmmState 128 [0x1f; 0].

Definition demo (len : Z) : mm pmm_state (list Z) :=
  Mm demo_frames [256; 192; 128; 64] demo_nodes (Some demo_buckets) NULL demo_words
    {[1 := VmObject KERNEL_PAGE_TBL_START len VM_FLAG_READ_WRITE NULL]} ∅ 0x1000 (V 1) NULL.

Definition demo_chains : list (list Z) :=
  <[16%nat := [64]]> (<[12%nat := [128]]> (<[8%nat := [192]]> (<[4%nat := [256]]> (replicate 20 [])))).

Definition demo_level (v : Z) : Z := if v =? V 1 then 3 else if v =? V 2 then 2 else if v =? V 3 then 1 else 0.

Lemma demo_frames_wf : pmm_wf demo_frames.
Proof.
  split; [| by vm_compute]. repeat constructor; try lia; intros k Hk.
  - rewrite !(testbit_high _ 5) by lia. done.
  - by rewrite !Z.bits_0.
Qed.

Lemma demo_hm len : hm_wf (demo len) demo_chains.
Proof.
  split.
  - exists demo_buckets. split_and!; [done | done |]. intros i b l Hb Hl.
    do 20 (destruct i as [|i];
      [vm_compute in Hb, Hl; injection Hb as <-; injection Hl as <-;
       first [done | simpl; split_and!; [done | done |]; eexists; split; [reflexivity | done]] |]).
    done.
  - done.
  - intros i l Hl. do 20 (destruct i as [|i];
      [vm_compute in Hl; injection Hl as <-; repeat constructor; set_solver |]). done.
  - intros i l p t Hl Hp Ht. do 20 (destruct i as [|i];
      [vm_compute in Hl; injection Hl as <-;
       first [by apply not_elem_of_nil in Hp
             | apply list_elem_of_singleton in Hp as ->; vm_compute in Ht; by injection Ht as <-] |]).
    done.
Qed.

Lemma demo_lookup len p v :
  hm_lookup (demo len) demo_chains p = Some v →
  ∃ k, 1 ≤ k ≤ 4 ∧ p = 0x1000 * k ∧ v = V k.
Proof.
  intros (q & t & Ht & <- & <-)%find_chain_Some. revert Ht. simpl. unfold demo_nodes.
  rewrite !lookup_insert_Some, lookup_singleton_Some.
  intros [[_ <-]|[_ [[_ <-]|[_ [[_ <-]|[_ [_ <-]]]]]]]; simpl;
    [exists 1 | exists 2 | exists 3 | exists 4]; split_and!; (lia || done).
Qed.

Lemma demo_ptbl len p v : ptbl (demo len) p = Some v ↔ ∃ k, 1 ≤ k ≤ 4 ∧ p = 0x1000 * k ∧ v = V k.
Proof.
  split.
  - rewrite (ptbl_lookup _ demo_chains); [apply demo_lookup | apply demo_hm |].
    intros q (k & Hk & _ & Hv)%demo_lookup. unfold V, KERNEL_PAGE_TBL_START, NULL in Hv. lia.
  - intros (k & Hk & -> & ->).
    assert (k = 1 ∨ k = 2 ∨ k = 3 ∨ k = 4) as [->|[->|[->| ->]]] by lia; reflexivity.
Qed.

Lemma demo_table len v : is_table (demo len) v ↔ ∃ k, 1 ≤ k ≤ 4 ∧ v = V k.
Proof.
  unfold is_table. setoid_rewrite demo_ptbl. split.
  - intros (p & k & Hk & _ & Hv). by exists k.
  - intros (k & Hk & Hv). by exists (0x1000 * k), k.
Qed.

Lemma demo_entry len v i w :
  entry (demo len) v i w → present w = true →
  (v = V 1 ∧ i = 511 ∧ w = 0x2007) ∨ (v = V 2 ∧ i = 0 ∧ w = 0x3007) ∨ (v = V 3 ∧ i = 1 ∧ w = 0x4007).
Proof.
  intros ((k & Hk & ->)%demo_table & Hi & Hw) Hp. revert Hw. simpl. unfold demo_words.
  rewrite !lookup_insert_Some, lookup_zero_words. unfold V, KERNEL_PAGE_TBL_START.
  intros [[Ha <-]|[_ [[Ha <-]|[_ [[Ha <-]|[_ Hw]]]]]].
  - left. assert (k = 1) by lia. subst k. split_and!; (done || lia).
  - right; left. assert (k = 2) by lia. subst k. split_and!; (done || lia).
  - right; right. assert (k = 3) by lia. subst k. split_and!; (done || lia).
  - destruct (decide _); [by injection Hw as <- | done].
Qed.

Lemma demo_inv len : pt_inv (demo len) demo_level.
Proof.
  split.
  - exists demo_chains. split; [apply demo_hm |]. intros q (k & Hk & _ & Hv)%demo_lookup.
    unfold V, KERNEL_PAGE_TBL_START, NULL in Hv. lia.
  - split; [done |]. intros p [t Ht]. simpl in *. revert Ht. unfold demo_nodes.
    rewrite !lookup_insert_Some, lookup_singleton_Some. set_solver.
  - split; [apply demo_frames_wf | by vm_compute].
  - done.
  - intros p v (k & Hk & -> & ->)%demo_ptbl.
    assert (k = 1 ∨ k = 2 ∨ k = 3 ∨ k = 4) as [->|[->|[->| ->]]] by lia; by vm_compute.
  - intros v (k & Hk & ->)%demo_table.
    assert (k = 1 ∨ k = 2 ∨ k = 3 ∨ k = 4) as [->|[->|[->| ->]]] by lia; by vm_compute.
  - intros v i (k & Hk & ->)%demo_table Hi. simpl. unfold demo_words.
    do 3 (apply lookup_insert_is_Some'; right). rewrite lookup_zero_words, decide_True; [done |].
    unfold V. split; [lia |]. replace (_ - _) with ((512 * (k - 1) + i) * 8) by lia. by apply Z.mod_mul.
  - intros p q v (k & Hk & -> & ->)%demo_ptbl (j & Hj & -> & Hv)%demo_ptbl. unfold V in Hv. lia.
  - intros v i w He Hl Hp. pose proof (demo_entry _ _ _ _ He Hp) as [(-> & _ & ->)|[(-> & _ & ->)|(-> & _ & ->)]].
    + exists (V 2). by vm_compute.
    + exists (V 3). by vm_compute.
    + exists (V 4). by vm_compute.
  - intros v1 i1 w1 v2 i2 w2 He1 He2 _ _ Hp1 Hp2 Hf.
    pose proof (demo_entry _ _ _ _ He1 Hp1) as [(-> & -> & ->)|[(-> & -> & ->)|(-> & -> & ->)]];
    pose proof (demo_entry _ _ _ _ He2 Hp2) as [(-> & -> & ->)|[(-> & -> & ->)|(-> & -> & ->)]];
      first [by split; [| left] | by vm_compute in Hf].
Qed.

Lemma demo_root len : is_root (demo len) demo_level (V 1).
Proof. split; [apply demo_table; by exists 1 | done]. Qed.

Lemma demo_resolve len : resolve 3 (demo len) (V 1) (V 4) = Some (V 4).
Proof. by vm_compute. Qed.

Lemma demo_window n : 0 ≤ n ≤ 0xfb → window demo_sym n (demo 0x4000) demo_level (V 4).
Proof.
  intros Hn. split.
  - eexists. split_and!; [reflexivity | reflexivity | done | done].
  - split; [done |]. unfold V, KERNEL_PAGE_TBL_START. lia.
  - unfold V, KERNEL_PAGE_TBL_START. change (2 ^ 21) with 2097152. mlia.
  - apply demo_root.
  - exists (V 4). apply demo_resolve.
  - intros v (k & Hk & ->)%demo_table. left. unfold V. lia.
Qed.

Lemma demo_nodes_left n l : nodes_left n l.
Proof. revert l. induction n as [|n IH]; intros l; [done |]. by eexists _, _; split; [| apply IH]. Qed.

Lemma demo_frames_left : frames_left 3 demo_frames.
Proof. do 3 (eexists _, _; split; [vm_compute; reflexivity |]; split; [done |]). done. Qed.

End PageMapDemo.

Import PageMapDemo.
#[local] Existing Instance list_heap.

Lemma mmap_maps_witness :
  ∃ s', mmap demo_sym 2 (demo 0x4000) (V 1) 0x9000 0x400000 VM_FLAG_READ_WRITE = Ok (true, s') ∧
    translate s' (V 1) 0x400000 = Some 0x9007.
Proof.
  destruct (mmap_maps demo_sym 0 (demo 0x4000) demo_level 3 (V 4) (V 1) 0x9000 0x400000 VM_FLAG_READ_WRITE)
    as (s' & lv' & top' & Hm & _ & _ & _ & _ & He & _).
  - apply demo_inv.
  - lia.
  - apply demo_window. lia.
  - exact demo_frames_left.
  - apply demo_nodes_left.
  - apply demo_root.
  - exists s'. split; [exact Hm | exact He].
Defined.

Lemma mmap_existing_witness :
  mmap demo_sym 1 (demo 0x4000) (V 1) 0x9000 (V 7) VM_FLAG_NONE =
  Ok (true, set_words (demo 0x4000) (<[V 4 + 8 * pt_index (V 7) 0 := 0x9007]> demo_words)).
Proof.
  apply (mmap_existing demo_sym 0 (demo 0x4000) demo_level (V 1) 0x9000 (V 7) VM_FLAG_NONE (V 4)).
  - apply demo_inv.
  - apply demo_root.
  - vm_compute. reflexivity.
Defined.

Lemma mmap_window_end_witness :
  mmap demo_sym 3 (demo 0xff000) (V 1) 0x9000 (V 0x100) VM_FLAG_NONE = NoFuel.
Proof.
  apply (mmap_window_end demo_sym 3 (demo 0xff000) demo_chains (V 1)
           (VmObject KERNEL_PAGE_TBL_START 0xff000 VM_FLAG_READ_WRITE NULL)).
  - apply demo_hm.
  - apply (pi_live _ _ (demo_inv 0xff000)).
  - reflexivity.
  - reflexivity.
  - vm_compute. discriminate.
  - vm_compute. discriminate.
  - vm_compute. reflexivity.
  - intros k Hk. simpl. unfold V, KERNEL_PAGE_TBL_START. change (Z.pow_pos 2 21) with 2097152. mlia.
  - reflexivity.
  - cbn [stops]. do 2 (eexists; split; [vm_compute; reflexivity |]; cbn -[stops];
      eexists; split; [vm_compute; reflexivity |]). eexists. split; [vm_compute; reflexivity |]. exact I.
  - exact demo_frames_left.
  - apply demo_nodes_left.
Defined.
