(* ===== verification/Vmm.v ===== *)
(** * The virtual memory manager (vmm.c)

    Address spaces as sorted lists of [vm_object]s, the operations that add,
    grow and remove regions, and the allocators of kernel stacks and device
    memory built on them. *)

From S2P Require Import Prelude Iface LibTitan Pmm MmState HashMap PageMap.

Definition SIZEOF_VM_OBJECT : Z := 32.
Definition SIZEOF_VMM_T : Z := 48.

Definition CODE_SECTION : Z := 0.
Definition STACK_SECTION : Z := 1.

(** [section_t]. *)
Record section_t := Section_t {
  sec_type : Z;
  sec_flags : Z;
  sec_start : Z;
  sec_length : Z;
}.

(** [get_index], a [uint16_t]. *)
Definition get_index (addr table_level : Z) : Z :=
  u16 (Z.land (Z.shiftr addr (9 * table_level + 12)) 0x1ff).

(** [get_block_vaddr].  [table_index << n] is an [int] shift, which C leaves
    undefined from 32 on; the x86 instruction takes the count modulo 32. *)
Definition get_block_vaddr (table_virt_addr table_index table_level : Z) : Z :=
  u64 (table_virt_addr + i32 (Z.shiftl table_index ((9 * table_level + 12) mod 32))).

Section Ops.
Context {F H : Type} `{FrameAlloc F} `{HeapAlloc H} (sym : symbols).
Local Abbreviation state := (mm F H).

(** The depth to which [mmap] may call itself. *)
Variable depth : nat.

(** The value an uninitialised local holds. *)
Variable uninit : Z.

Definition switch_vm_space (s : state) (vmm : Z) : outcome state :=
  pml4t ← of_option (PageFault vmm) (pml4ts s !! vmm);
  t ← get_ptbl_vaddr s pml4t;
  Ok (set_current s pml4t t vmm).

(** [umap]. *)
Fixpoint umap (table_level : nat) (s : state)
    (table_ptr table_virt_addr region_start_addr region_end_addr : Z) : outcome state :=
  let lvl := Z.of_nat table_level in
  let start_index := get_index region_start_addr lvl in
  let end_index := get_index region_start_addr lvl in
  (fix loop (n : nat) (i : Z) (s : state) : outcome state :=
     match n with
     | O => Ok s
     | S n' =>
         w ← load_word s (table_ptr + 8 * i);
         let pt_phys_addr := PAGE_ALIGN_DOWN w in
         s' ← match table_level with
              | S level' =>
                  let block_start_addr := get_block_vaddr table_virt_addr i lvl in
                  let block_end_addr := get_block_vaddr table_virt_addr (i + 1) lvl in
                  let start_addr :=
                    if (region_start_addr <=? block_start_addr) || (block_end_addr <=? region_end_addr)
                    then block_start_addr else region_start_addr in
                  t ← get_ptbl_vaddr s pt_phys_addr;
                  s1 ← umap level' s t block_start_addr start_addr region_end_addr;
                  if (region_start_addr <=? block_start_addr) && (block_end_addr <=? region_end_addr) then
                    w1 ← load_word s1 (table_ptr + 8 * i);
                    '(_, s2) ← vmm_hashmap_remove s1 (PAGE_ALIGN_DOWN w1);
                    store_word s2 (table_ptr + 8 * i) 0
                  else Ok s1
              | O =>
                  f ← fa_release (frames s) pt_phys_addr;
                  store_word (set_frames s f) (table_ptr + 8 * i) 0
              end;
         loop n' (u16 (i + 1)) s'
     end) (Z.to_nat (end_index - start_index)) start_index s.

(** Fuel for a walk over the region list. *)
Definition objs_fuel (s : state) : nat := S (size (vm_objs s)).

(** [while(curr_vm_obj != NULL)] of [vmm_lengthen]: the region with this base,
    or [NULL]. *)
Fixpoint find_region (fuel : nat) (s : state) (curr start_region : Z) : outcome Z :=
  match fuel with
  | O => NoFuel
  | S fuel' =>
      if curr =? NULL then Ok NULL else
      o ← obj_at s curr;
      if base o =? start_region then Ok curr else find_region fuel' s (vm_next o) start_region
  end.

(** The [for] of [vmm_lengthen] that backs the new pages. *)
Fixpoint lengthen_loop (fuel : nat) (s : state) (curr pt_vaddr : Z) : outcome (bool * state) :=
  match fuel with
  | O => NoFuel
  | S fuel' =>
      o ← obj_at s curr;
      if pt_vaddr <? u64 (base o + vm_length o) then
        if negb (Z.land (flags o) VM_FLAG_MMIO =? 0) then Ok (false, s) else
        '(pt_paddr, s1) ← pmm_alloc_page_mm s;
        '(ok, s2) ← mmap sym depth s1 (current_pml4t_ptr s1) pt_paddr pt_vaddr (flags o);
        if (ok : bool) then lengthen_loop fuel' s2 curr (u64 (pt_vaddr + 0x1000))
        else Ok (false, s2)
      else Ok (true, s)
  end.

Definition with_length (o : vm_object) (l : Z) : vm_object :=
  VmObject (base o) l (flags o) (vm_next o).

Definition with_vm_next (o : vm_object) (n : Z) : vm_object :=
  VmObject (base o) (vm_length o) (flags o) n.

Definition vmm_lengthen (s : state) (start_region inc0 : Z) : outcome (bool * state) :=
  let inc := PAGE_ALIGN_int inc0 in
  curr ← find_region (S (objs_fuel s)) s (current_vmm s) start_region;
  if curr =? NULL then Ok (false, s) else
  o ← obj_at s curr;
  room ← (if vm_next o =? NULL then Ok true else
          n ← obj_at s (vm_next o);
          Ok (u64 (base o + vm_length o + inc) <=? base n));
  if (room : bool) then
    let pt_vaddr := u64 (base o + vm_length o) in
    let s1 := set_obj s curr (with_length o (u64 (vm_length o + inc))) in
    lengthen_loop (S (Z.to_nat (inc / 0x1000))) s1 curr pt_vaddr
  else Ok (false, s).

(** The [while] of [vmm_free]: the object in front of the region. *)
Fixpoint find_before (fuel : nat) (s : state) (curr start_region : Z) : outcome Z :=
  match fuel with
  | O => NoFuel
  | S fuel' =>
      o ← obj_at s curr;
      n ← obj_at s (vm_next o);
      if base n =? start_region then Ok curr else find_before fuel' s (vm_next o) start_region
  end.

Definition vmm_free (s : state) (start_region : Z) : outcome state :=
  h ← obj_at s (current_vmm s);
  if base h =? start_region then Ok s else
  curr ← find_before (objs_fuel s) s (current_vmm s) start_region;
  o ← obj_at s curr;
  n ← obj_at s (vm_next o);
  s1 ← umap 3 s (cr3 s) (current_pml4t_ptr s) start_region (u64 (start_region + vm_length n));
  let tmp_obj := vm_next o in
  let s2 := set_obj s1 curr (with_vm_next o (vm_next n)) in
  h' ← ha_free (kheap s2) tmp_obj;
  Ok (set_kheap s2 h').

(** First fit: the object in front of the first gap that is large enough and
    the gap's address, or the last object. *)
Fixpoint first_fit (fuel : nat) (s : state) (curr length : Z) : outcome (Z * option Z) :=
  match fuel with
  | O => NoFuel
  | S fuel' =>
      o ← obj_at s curr;
      if vm_next o =? NULL then Ok (curr, None) else
      n ← obj_at s (vm_next o);
      let b := u64 (base o + vm_length o) in
      if u64 (b + length) <? base n then Ok (curr, Some b)
      else first_fit fuel' s (vm_next o) length
  end.

(** The search for a requested address: the object the new region goes behind,
    or [None] when the request is refused. *)
Fixpoint find_slot (fuel : nat) (s : state) (curr start_region length : Z) : outcome (option Z) :=
  match fuel with
  | O => NoFuel
  | S fuel' =>
      o ← obj_at s curr;
      if vm_next o =? NULL then Ok (Some curr) else
      n ← obj_at s (vm_next o);
      if (base o <=? start_region) && (start_region <? base n) then
        if (start_region <? u64 (base o + vm_length o)) && (u64 (start_region + length) <? base n)
        then Ok None else Ok (Some curr)
      else find_slot fuel' s (vm_next o) start_region length
  end.

(** The [for] of [vmm_alloc] that backs [n] pages from [pt_vaddr]. *)
Fixpoint back_pages (n : nat) (s : state) (pt_vaddr fl args : Z) : outcome (bool * state) :=
  match n with
  | O => Ok (true, s)
  | S n' =>
      '(pt_paddr, s1) ← (if negb (args =? NULL) then
                           '(_, f) ← fa_reserve (frames s) args; Ok (args, set_frames s f)
                         else pmm_alloc_page_mm s);
      '(ok, s2) ← mmap sym depth s1 (current_pml4t_ptr s1) pt_paddr pt_vaddr fl;
      if (ok : bool) then
        back_pages n' s2 (u64 (pt_vaddr + 0x1000)) fl
          (if negb (args =? NULL) then u64 (args + 0x1000) else args)
      else Ok (false, s2)
  end.

(** The insertion and mapping of [vmm_alloc] once a place has been found. *)
Definition add_region (s : state) (after found length fl args : Z) : outcome (Z * state) :=
  '(new_region, s1) ← kmalloc_mm s SIZEOF_VM_OBJECT;
  o ← obj_at s1 after;
  let s2 := set_obj s1 new_region (VmObject found length fl (vm_next o)) in
  o2 ← obj_at s2 after;
  let s3 := set_obj s2 after (with_vm_next o2 new_region) in
  '(ok, s4) ← back_pages (Z.to_nat (u64 (length + 0xfff) / 0x1000)) s3 found fl args;
  if (ok : bool) then Ok (found, s4) else Ok (NULL, s4).

Definition vmm_alloc (s : state) (start_region0 length0 fl args0 : Z) : outcome (Z * state) :=
  let length := PAGE_ALIGN length0 in
  let start_region := PAGE_ALIGN_DOWN start_region0 in
  let args := PAGE_ALIGN_DOWN args0 in
  if start_region =? NULL then
    '(after, found) ← first_fit (objs_fuel s) s (current_vmm s) length;
    add_region s after (default uninit found) length fl args
  else
    slot ← find_slot (objs_fuel s) s (current_vmm s) start_region length;
    match slot with
    | None => Ok (NULL, s)
    | Some after => add_region s after start_region length fl args
    end.

(** [memset] on user or stack memory: it faults on the first page that is not
    mapped; the contents of data pages are not part of the state. *)
Fixpoint touch_pages (n : nat) (s : state) (v : Z) : outcome unit :=
  match n with
  | O => Ok tt
  | S n' => match translate s (current_pml4t_ptr s) v with
            | Some _ => touch_pages n' s (v + 0x1000)
            | None => Fault (PageFault v)
            end
  end.

(** How many pages the bytes [[v, v + len)] touch. *)
Definition pages_of (v len : Z) : nat :=
  if len =? 0 then O else Z.to_nat ((v + len - 1) / 0x1000 - v / 0x1000 + 1).

(** [create_sections] with the console [c]; [error] is the report of an unknown
    section on it, [ERROR("vmm", "unknown section type")]. *)
Fixpoint create_sections {C : Type} (error : C → outcome C) (c : C) (s : state) (sections : list section_t)
    : outcome (C * state) :=
  match sections with
  | [] => Ok (c, s)
  | section :: rest =>
      '(c', s') ← (if sec_type section =? CODE_SECTION then
              '(r, s1) ← vmm_alloc s (sec_start section) (sec_length section) (sec_flags section) NULL;
              if r =? NULL then Fault (Panic "vmm") else Ok (c, s1)
            else if sec_type section =? STACK_SECTION then
              '(r, s1) ← vmm_alloc s (sec_start section) (sec_length section) (sec_flags section) NULL;
              if r =? NULL then Fault (Panic "vmm") else
              _ ← touch_pages (pages_of (sec_start section) (sec_length section)) s1
                    (PAGE_ALIGN_DOWN (sec_start section));
              Ok (c, s1)
            else c1 ← error c; Ok (c1, s));
      create_sections error c' s' rest
  end.

(** A stack section reports nothing, so its callers have no console. *)
Definition create_stack (s : state) (start : Z) : outcome state :=
  '(_, s1) ← create_sections Ok tt s [Section_t STACK_SECTION VM_FLAG_READ_WRITE start KERNEL_STACK_SIZE];
  Ok s1.

(** [get_mmio_ptr] on its static variable [mmio_region]: the pointer and the
    new value of the variable. *)
Definition get_mmio_ptr (mmio_region length : Z) : Z * Z :=
  let r := u64 (mmio_region + PAGE_ALIGN length) in
  (u64 (r - PAGE_ALIGN length), r).

Definition alloc_mmio (s : state) (mmio_region phys_region_start length extra_flags : Z)
    : outcome (Z * Z * state) :=
  let '(ptr, mmio_region') := get_mmio_ptr mmio_region length in
  '(_, s1) ← vmm_alloc s ptr length (Z.lor VM_FLAG_MMIO extra_flags) phys_region_start;
  Ok (ptr, mmio_region', s1).

(** [alloc_kernel_stack] on its static variable [kernel_stack_ptr]. *)
Definition alloc_kernel_stack (s : state) (kernel_stack_ptr : Z) : outcome (Z * state) :=
  let p := u64 (kernel_stack_ptr - (KERNEL_STACK_SIZE + 0x1000)) in
  s1 ← create_stack s p;
  Ok (p, s1).

(** [alloc_user_stack]; [current_process_vmm] is [&current_process->vmm]. *)
Definition alloc_user_stack (s : state) (user_stack vmm current_process_vmm : Z)
    : outcome (Z * state) :=
  s1 ← switch_vm_space s vmm;
  s2 ← create_stack s1 user_stack;
  s3 ← switch_vm_space s2 current_process_vmm;
  Ok (user_stack, s3).

(** The console is left alone by sections of the known types. *)
Lemma create_sections_silent {C : Type} (error : C → outcome C) c sections : ∀ s,
  Forall (λ x, sec_type x = CODE_SECTION ∨ sec_type x = STACK_SECTION) sections →
  create_sections error c s sections = ('(_, s') ← create_sections Ok tt s sections; Ok (c, s')).
Proof.
  induction sections as [|x sections IH]; intros s Hs; [done |]. apply Forall_cons in Hs as [Hx Hs].
  cbn [create_sections]. destruct (sec_type x =? CODE_SECTION) eqn:E1.
  - destruct (vmm_alloc _ _ _ _ _) as [[r s1]| |]; [| done ..]. out_red. destruct (r =? NULL); [done |]. by apply IH.
  - destruct (sec_type x =? STACK_SECTION) eqn:E2; [| zbool; by destruct Hx].
    destruct (vmm_alloc _ _ _ _ _) as [[r s1]| |]; [| done ..]. out_red. destruct (r =? NULL); [done |].
    destruct (touch_pages _ _ _); [| done ..]. out_red. by apply IH.
Qed.

Definition create_new_pml4t (s : state) : outcome (Z * state) :=
  '(new_pml4t_paddr, s1) ← alloc_pg_table sym (mmap sym depth) s;
  new_pml4t_vaddr ← get_ptbl_vaddr s1 new_pml4t_paddr;
  w ← load_word s1 (current_pml4t_ptr s1 + 8 * 511);
  s2 ← store_word s1 (new_pml4t_vaddr + 8 * 511) w;
  Ok (new_pml4t_paddr, s2).

(** [create_vmm]: the head and the [pml4t] of the structure it returns. *)
Definition create_vmm (s : state) : outcome (vm_object * Z * state) :=
  '(pml4t, s1) ← create_new_pml4t s;
  Ok (VmObject 0 0 VM_FLAG_READ_WRITE (kernel_text_obj sym), pml4t, s1).

(** The calls [vmm_hashmap_put(vmm_hashmap, 1, v, p)] of [vmm_init]. *)
Fixpoint put_tables (s : state) (ts : list (Z * Z)) : outcome state :=
  match ts with
  | [] => Ok s
  | (v, p) :: ts' => '(_, s1) ← vmm_hashmap_put s v p; put_tables s1 ts'
  end.

(** [vmm_init]; [initial_tables] are the virtual and physical addresses of the
    boot page tables, [KERNEL_SIZE] is the linker's. *)
Definition vmm_init (s : state) (KERNEL_SIZE : Z) (initial_tables : list (Z * Z)) : outcome state :=
  o ← obj_at s (kernel_text_obj sym);
  let s0 := set_obj s (kernel_text_obj sym) (with_length o KERNEL_SIZE) in
  '(m, s1) ← vmm_hashmap_init s0;
  s2 ← put_tables (set_vmm_hashmap s1 (Some m)) initial_tables;
  '(v, s3) ← kmalloc_mm s2 SIZEOF_VMM_T;
  let s4 := set_obj s3 v (VmObject 0 0 VM_FLAG_READ_WRITE (kernel_text_obj sym)) in
  Ok (set_current (set_pml4ts s4 (<[v := cr3 s]> (pml4ts s4))) (cr3 s) (current_pml4t_ptr s) v).

End Ops.

(** ** Backing pages *)

Lemma page_of_add v i j :
  v mod 0x1000 = 0 → 0 ≤ i < 2 ^ 36 → 0 ≤ j < 2 ^ 36 →
  page_of (v + i * 0x1000) = page_of (v + j * 0x1000) → i = j.
Proof.
  intros Hv Hi Hj. unfold page_of. rewrite !Z.div_add by lia.
  change (2 ^ 36) with 68719476736 in *. mlia.
Qed.

Section Backing.
Context {F H : Type} `{FrameAlloc F} `{HeapAlloc H} (sym : symbols).
Local Abbreviation state := (mm F H).

(** [s'] is [s] with the [n] pages from [v] mapped to the frames [ps], which
    were free before; every other translation is kept. *)
Record pages_mapped (n : nat) (room : Z) (s : state) (lv : Z → Z) (top v fl : Z)
    (s' : state) (lv' : Z → Z) (top' : Z) (ps : list Z) : Prop := {
  pm_inv : pt_inv s' lv';
  pm_top : top ≤ top' ≤ top + 3 * Z.of_nat n * 0x1000 ∧ (top' - top) mod 0x1000 = 0;
  pm_window : window sym (room - (top' - top) / 0x1000) s' lv' top';
  pm_space : same_space sym s s';
  pm_taken : ∀ q, fa_taken (frames s) q → fa_taken (frames s') q;
  pm_live : ∀ q, ha_live (kheap s) q → ha_live (kheap s') q;
  pm_roots : ∀ r, is_root s lv r → is_root s' lv' r;
  pm_length : length ps = n;
  pm_nodup : NoDup ps;
  pm_free : ∀ p, p ∈ ps → p mod 0x1000 = 0 ∧ 0 < p ∧ ¬ fa_taken (frames s) p;
  pm_entry : ∀ i p, ps !! i = Some p →
    translate s' (current_pml4t_ptr s) (v + Z.of_nat i * 0x1000) = Some (Z.lor (Z.lor p fl) 7);
  pm_keep : ∀ r x e, is_root s lv r → translate s r x = Some e →
    (∀ i, 0 ≤ i < Z.of_nat n → page_of x ≠ page_of (v + i * 0x1000)) →
    (∀ u, top < u ≤ top' → page_of x ≠ page_of u) → translate s' r x = Some e;
}.

(** A region that the window of page tables will not run into. *)
Definition off_window (n : nat) (v top room : Z) : Prop :=
  ∀ i u, 0 ≤ i < Z.of_nat n → top < u ≤ top + room * 0x1000 → page_of (v + i * 0x1000) ≠ page_of u.

(** Everything that backing [n] pages from [v] may need: three page tables and
    one frame per page. *)
Record can_back (n : nat) (room : Z) (s : state) (lv : Z → Z) (top v : Z) : Prop := {
  cb_inv : pt_inv s lv;
  cb_room : 3 * Z.of_nat n ≤ room;
  cb_window : window sym room s lv top;
  cb_frames : frames_left (4 * n) (frames s);
  cb_nodes : nodes_left (3 * n) (kheap s);
  cb_aligned : v mod 0x1000 = 0;
  cb_range : 0 ≤ v ∧ v + Z.of_nat n * 0x1000 < 2 ^ 64 ∧ Z.of_nat n ≤ 2 ^ 36;
  cb_off : off_window n v top room;
}.

(** One page: the frame [p] is allocated in [s1] and mapped in [s2]. *)
Record page_backed (room : Z) (s : state) (lv : Z → Z) (top v fl p : Z)
    (s1 s2 : state) (lv2 : Z → Z) (top2 : Z) : Prop := {
  bp_same : same_tables s s1;
  bp_space : same_space sym s s1;
  bp_heap : kheap s1 = kheap s;
  bp_map : page_mapped sym room s1 lv top (current_pml4t_ptr s) v (Z.lor (Z.lor p fl) 7) s2 lv2 top2;
  bp_frames : ∀ a, frames_left (4 + a) (frames s) → frames_left a (frames s2);
  bp_taken : ∀ q, fa_taken (frames s) q → fa_taken (frames s1) q;
  bp_frame : p mod 0x1000 = 0 ∧ 0 < p ∧ ¬ fa_taken (frames s) p ∧ fa_taken (frames s2) p;
}.

Lemma back_page fuel n (s : state) lv room top v fl :
  can_back (S n) room s lv top v →
  ∃ p s1 s2 lv2 top2, pmm_alloc_page_mm s = Ok (p, s1) ∧
    mmap sym (S (S fuel)) s1 (current_pml4t_ptr s1) p v fl = Ok (true, s2) ∧
    page_backed room s lv top v fl p s1 s2 lv2 top2.
Proof.
  intros [Hi Hr Hw (p & f & Hf & Hp & Hfl) Hn _ _ _].
  destruct (fa_alloc_spec (frames s) (pi_frames _ _ Hi)) as (p' & f' & Hf' & Hfi & Hm & Hfs).
  rewrite Hf in Hf'. injection Hf' as <- <-. destruct (Hfs Hp) as (Hpa & Hpr & Hnt & Ht).
  set (s1 := set_frames s f). assert (same_tables s s1) as Hst by done.
  assert (pt_inv s1 lv) as Hi1.
  { apply (pt_inv_same s); try done; [exact (pi_live _ _ Hi) | exact (pi_free _ _ Hi)]. }
  assert (window sym room s1 lv top) as Hw1 by (eapply window_same; [done | done | | exact Hw]; eauto).
  destruct (mmap_mapped sym fuel s1 lv room top (current_pml4t_ptr s) p v fl)
    as (s2 & lv2 & top2 & Hmm & Hpm); try done; try lia.
  { by eapply frames_left_le; [| exact Hfl]; lia. }
  { by eapply nodes_left_le; [| exact Hn]; lia. }
  { apply (w_root _ _ _ _ _ Hw1). }
  exists p, s1, s2, lv2, top2. split; [unfold pmm_alloc_page_mm; by rewrite Hf |]. split; [done |].
  split; try done.
  - split; try done. intros o Ho. exists (vm_length o). simpl. rewrite Ho. by destruct o.
  - intros b (p' & f' & Hf' & _ & Hb). apply (mp_frames _ _ _ _ _ _ _ _ _ _ _ Hpm).
    rewrite Hf in Hf'. by injection Hf' as <- <-.
  - split_and!; try done; [lia |]. by apply (mp_taken _ _ _ _ _ _ _ _ _ _ _ Hpm).
Qed.

(** The next page can be backed as well. *)
Lemma page_backed_next n room (s : state) lv top v fl p s1 s2 lv2 top2 :
  can_back (S n) room s lv top v → page_backed room s lv top v fl p s1 s2 lv2 top2 →
  can_back n (room - (top2 - top) / 0x1000) s2 lv2 top2 (v + 0x1000).
Proof.
  intros [Hi Hr Hw Hf Hn Hv Hrg Hoff] [Hst Hs1 Hh1 Hpm Hfr Hk1 _].
  destruct (mp_top _ _ _ _ _ _ _ _ _ _ _ Hpm). split.
  - apply (mp_inv _ _ _ _ _ _ _ _ _ _ _ Hpm).
  - mlia.
  - apply (mp_window _ _ _ _ _ _ _ _ _ _ _ Hpm).
  - apply Hfr. by replace (4 + 4 * n)%nat with (4 * S n)%nat by lia.
  - apply (mp_nodes _ _ _ _ _ _ _ _ _ _ _ Hpm). rewrite Hh1.
    by replace (3 + 3 * n)%nat with (3 * S n)%nat by lia.
  - mlia.
  - lia.
  - intros i u Hi0 Hu0. replace (v + 0x1000 + i * 0x1000) with (v + (i + 1) * 0x1000) by lia.
    apply Hoff; [lia | mlia].
Qed.

(** The translation of the first page survives the mapping of the others. *)
Lemma page_backed_first n room (s : state) lv top v fl p s1 s2 lv2 top2 s' lv' top' ps :
  can_back (S n) room s lv top v → page_backed room s lv top v fl p s1 s2 lv2 top2 →
  pages_mapped n (room - (top2 - top) / 0x1000) s2 lv2 top2 (v + 0x1000) fl s' lv' top' ps →
  translate s' (current_pml4t_ptr s) v = Some (Z.lor (Z.lor p fl) 7).
Proof.
  intros [_ Hr Hw _ _ Hv Hrg Hoff] Hb Hp. pose proof (bp_map _ _ _ _ _ _ _ _ _ _ _ Hb) as Hpm.
  destruct (mp_top _ _ _ _ _ _ _ _ _ _ _ Hpm). destruct (pm_top _ _ _ _ _ _ _ _ _ _ _ Hp).
  apply (pm_keep _ _ _ _ _ _ _ _ _ _ _ Hp).
  - apply (mp_roots _ _ _ _ _ _ _ _ _ _ _ Hpm), (st_root s); [apply Hb | apply (w_root _ _ _ _ _ Hw)].
  - apply (mp_entry _ _ _ _ _ _ _ _ _ _ _ Hpm).
  - intros i Hi0 Heq. replace v with (v + 0 * 0x1000) in Heq at 1 by lia.
    replace (v + 0x1000 + i * 0x1000) with (v + (i + 1) * 0x1000) in Heq by lia.
    apply page_of_add in Heq; [lia | done | lia | lia].
  - intros u Hu0. replace v with (v + 0 * 0x1000) by lia. apply Hoff; [lia | mlia].
Qed.

Lemma pages_mapped_cons n room (s : state) lv top v fl p s1 s2 lv2 top2 s' lv' top' ps :
  can_back (S n) room s lv top v → page_backed room s lv top v fl p s1 s2 lv2 top2 →
  pages_mapped n (room - (top2 - top) / 0x1000) s2 lv2 top2 (v + 0x1000) fl s' lv' top' ps →
  pages_mapped (S n) room s lv top v fl s' lv' top' (p :: ps).
Proof.
  intros Hc Hb Hp. pose proof (page_backed_first _ _ _ _ _ _ _ _ _ _ _ _ _ _ _ _ Hc Hb Hp) as Hfirst.
  destruct Hb as [Hst Hs1 Hh1 [Hi2 Ht2 Hw2 Hs2 _ Hn2 Hk2 Hlv2 Hr2 He2 Hkeep] Hf2 Hk1 (Hpa & Hp0 & Hnt & Htk)].
  destruct Hp as [Hi' Ht' Hw' Hs' Hk' Hlv' Hr' Hlen Hnd Hfree Hent Hkp].
  assert (current_pml4t_ptr s2 = current_pml4t_ptr s) as Hptr
    by (by rewrite (ss_ptr _ _ _ Hs2), (ss_ptr _ _ _ Hs1)).
  assert (∀ r, is_root s lv r → is_root s2 lv2 r) as Hroot
    by (intros r Hrr; apply Hr2; by apply (st_root s)).
  split; try done.
  - split; [lia | mlia].
  - by replace (room - (top' - top) / 0x1000)
      with (room - (top2 - top) / 0x1000 - (top' - top2) / 0x1000) by mlia.
  - by transitivity s1; [| transitivity s2].
  - auto.
  - rewrite <- Hh1. auto.
  - auto.
  - simpl. by rewrite Hlen.
  - constructor; [| done]. intros (_ & _ & Hx)%Hfree. by apply Hx.
  - intros q [->|Hq]%elem_of_cons; [done |]. apply Hfree in Hq as (? & ? & Hnq).
    split_and!; try done. intros Hq. by apply Hnq, Hk2, Hk1.
  - intros [|i] q Hq; simpl in Hq.
    + injection Hq as ->. by rewrite Z.mul_0_l, Z.add_0_r.
    + rewrite <- Hptr. replace (v + Z.of_nat (S i) * 4096) with (v + 4096 + Z.of_nat i * 4096) by lia.
      by apply Hent.
  - intros r x e Hrr Htr Hx Hux. apply Hkp; [by apply Hroot | | |].
    + apply Hkeep; [by apply (st_root s) | by rewrite (st_translate s) | | intros u Hu0; apply Hux; lia].
      replace v with (v + 0 * 0x1000) by lia. apply Hx. lia.
    + intros i Hi0. replace (v + 4096 + i * 4096) with (v + (i + 1) * 4096) by lia. apply Hx. lia.
    + intros u Hu0. apply Hux. lia.
Qed.

Lemma pages_mapped_nil room (s : state) lv top v fl :
  can_back 0 room s lv top v → pages_mapped 0 room s lv top v fl s lv top [].
Proof.
  intros [Hi Hr Hw Hf Hn Hv Hrg Hoff]. split; try done.
  - split; [lia | by rewrite Z.sub_diag].
  - by rewrite Z.sub_diag, Z.sub_0_r.
  - constructor.
  - set_solver.
Qed.

Lemma back_pages_spec fuel n (s : state) lv room top v fl :
  can_back n room s lv top v →
  ∃ s' lv' top' ps, back_pages sym (S (S fuel)) n s v fl NULL = Ok (true, s') ∧
    pages_mapped n room s lv top v fl s' lv' top' ps.
Proof.
  revert s lv room top v. induction n as [|n IH]; intros s lv room top v Hc.
  { exists s, lv, top, []. split; [done | by apply pages_mapped_nil]. }
  destruct (back_page fuel n s lv room top v fl Hc) as (p & s1 & s2 & lv2 & top2 & Ha & Hm & Hb).
  destruct (IH s2 lv2 _ top2 (v + 0x1000) (page_backed_next _ _ _ _ _ _ _ _ _ _ _ _ Hc Hb))
    as (s' & lv' & top' & ps & Hbs & Hp).
  exists s', lv', top', (p :: ps). split; [| by eapply pages_mapped_cons].
  destruct (cb_range _ _ _ _ _ _ Hc).
  cbn [back_pages]. simpl (negb _). cbv iota. rewrite Ha. out_red. rewrite Hm. out_red.
  by rewrite u64_small, Hbs by lia.
Qed.

(** [lengthen_loop] backs the pages between [v] and the new end of the region. *)
Lemma lengthen_loop_spec fuel n (s : state) lv room top v curr o :
  can_back n room s lv top v → vm_objs s !! curr = Some o → curr ≠ kernel_page_tbls_obj sym →
  base o + vm_length o = v + Z.of_nat n * 0x1000 → Z.land (flags o) VM_FLAG_MMIO = 0 →
  ∃ s' lv' top' ps, lengthen_loop sym (S (S fuel)) (S n) s curr v = Ok (true, s') ∧
    pages_mapped n room s lv top v (flags o) s' lv' top' ps.
Proof.
  revert s lv room top v. induction n as [|n IH]; intros s lv room top v Hc Ho Hk Hend Hfl;
    destruct (cb_range _ _ _ _ _ _ Hc) as (Hv0 & H64 & _); cbn [lengthen_loop]; unfold obj_at;
    rewrite Ho; out_red; rewrite u64_small, Hend by lia.
  { rewrite (proj2 (Z.ltb_ge _ _)) by lia. exists s, lv, top, [].
    split; [done | by apply pages_mapped_nil]. }
  rewrite (proj2 (Z.ltb_lt _ _)) by lia. rewrite Hfl. simpl (negb _). cbv iota.
  destruct (back_page fuel n s lv room top v (flags o) Hc) as (p & s1 & s2 & lv2 & top2 & -> & Hm & Hb).
  out_red. rewrite Hm. out_red. rewrite (u64_small (v + 0x1000)) by lia.
  assert (vm_objs s2 !! curr = Some o) as Ho2.
  { destruct Hb as [_ Hs1 _ [_ _ _ Hs2 _ _ _ _ _ _ _] _ _ _].
    by rewrite (ss_objs _ _ _ Hs2), (ss_objs _ _ _ Hs1). }
  destruct (IH s2 lv2 _ top2 (v + 0x1000) (page_backed_next _ _ _ _ _ _ _ _ _ _ _ _ Hc Hb) Ho2)
    as (s' & lv' & top' & ps & Hbs & Hp); [done | lia | done |].
  exists s', lv', top', (p :: ps). split; [exact Hbs | by eapply pages_mapped_cons].
Qed.

End Backing.

(** ** The list of regions of an address space *)

(** The objects from [p] on, with their addresses. *)
Fixpoint region_list (objs : gmap Z vm_object) (p : Z) (l : list (Z * vm_object)) : Prop :=
  match l with
  | [] => p = NULL
  | (a, o) :: l' => p = a ∧ a ≠ NULL ∧ objs !! a = Some o ∧ region_list objs (vm_next o) l'
  end.

Definition region_end (o : vm_object) : Z := base o + vm_length o.

(** Sorted by address, without overlaps. *)
Fixpoint ordered (l : list vm_object) : Prop :=
  match l with
  | o :: ((n :: _) as l') => region_end o ≤ base n ∧ ordered l'
  | _ => True
  end.

(** Below the top of the address space, so that the sums of the code do not
    wrap around. *)
Definition VM_LIMIT : Z := 2 ^ 64 - 2 ^ 38.

Definition bounded (o : vm_object) : Prop :=
  0 ≤ base o ∧ 0 ≤ vm_length o ∧ region_end o < VM_LIMIT.

(** First fit on the list: the address of the object in front of the gap and
    the address of the gap. *)
Fixpoint fit (len : Z) (l : list (Z * vm_object)) : Z * option Z :=
  match l with
  | [] => (NULL, None)
  | (a, o) :: l' =>
      match l' with
      | [] => (a, None)
      | (_, n) :: _ => if region_end o + len <? base n then (a, Some (region_end o)) else fit len l'
      end
  end.

(** The place of a requested region: behind which object, or refused. *)
Fixpoint slot_for (start len : Z) (l : list (Z * vm_object)) : option Z :=
  match l with
  | [] => None
  | (a, o) :: l' =>
      match l' with
      | [] => Some a
      | (_, n) :: _ =>
          if (base o <=? start) && (start <? base n) then
            if (start <? region_end o) && (start + len <? base n) then None else Some a
          else slot_for start len l'
      end
  end.

Section Regions.
Context {F H : Type} `{FrameAlloc F} `{HeapAlloc H} (sym : symbols).
Local Abbreviation state := (mm F H).

Lemma region_list_obj objs p l a o :
  region_list objs p l → (a, o) ∈ l → objs !! a = Some o ∧ a ≠ NULL.
Proof.
  revert p. induction l as [|[b n] l IH]; intros p; [set_solver |].
  intros (-> & Hb & Ho & Hl) [[= -> ->]|Hin]%elem_of_cons; [done | by eapply IH].
Qed.

(** A list is no longer than the map of objects. *)
Lemma region_list_length objs p l :
  region_list objs p l → NoDup l.*1 → (length l ≤ size objs)%nat.
Proof.
  intros Hl Hnd. rewrite <- (length_fmap fst), <- size_dom, <- (size_list_to_set (C := gset Z) _ Hnd).
  apply subseteq_size. intros a ([b o] & -> & Hin)%elem_of_list_to_set%list_elem_of_fmap.
  apply elem_of_dom. eapply region_list_obj in Hin as [Hin _]; [| done]. by eexists.
Qed.

Lemma first_fit_list fuel (s : state) p l len :
  region_list (vm_objs s) p l → l ≠ [] → Forall bounded l.*2 → 0 ≤ len < 2 ^ 38 →
  (length l ≤ fuel)%nat → first_fit fuel s p len = Ok (fit len l).
Proof.
  intros Hl Hne Hb Hlen. revert fuel p Hl Hne Hb.
  induction l as [|[a o] l IH]; intros [|fuel] p Hl Hne Hb Hf; simpl in Hf; [done | done | lia |].
  destruct Hl as (-> & Ha & Ho & Hl). simpl in Hb. apply Forall_cons in Hb as [Hbo Hb].
  cbn [first_fit fit]. unfold obj_at. rewrite Ho. out_red. destruct l as [|[m n] l].
  - simpl in Hl. rewrite Hl. done.
  - pose proof Hl as (Hnx & Hm & Hn & _). rewrite Hnx, (proj2 (Z.eqb_neq m NULL)), Hn by done.
    out_red. unfold bounded, region_end, VM_LIMIT in *. rewrite (u64_small (base o + vm_length o)), u64_small by lia.
    destruct (_ <? _); [done |]. rewrite Hnx in Hl. apply IH; try done. simpl in *. lia.
Qed.

Lemma find_slot_list fuel (s : state) p l start len :
  region_list (vm_objs s) p l → l ≠ [] → Forall bounded l.*2 → 0 ≤ start < VM_LIMIT →
  0 ≤ len < 2 ^ 38 → (length l ≤ fuel)%nat →
  find_slot fuel s p start len = Ok (slot_for start len l).
Proof.
  intros Hl Hne Hb Hst Hlen. revert fuel p Hl Hne Hb.
  induction l as [|[a o] l IH]; intros [|fuel] p Hl Hne Hb Hf; simpl in Hf; [done | done | lia |].
  destruct Hl as (-> & Ha & Ho & Hl). simpl in Hb. apply Forall_cons in Hb as [Hbo Hb].
  cbn [find_slot slot_for]. unfold obj_at. rewrite Ho. out_red. destruct l as [|[m n] l].
  - simpl in Hl. rewrite Hl. done.
  - pose proof Hl as (Hnx & Hm & Hn & _). rewrite Hnx, (proj2 (Z.eqb_neq m NULL)), Hn by done.
    out_red. unfold bounded, region_end, VM_LIMIT in *. rewrite !u64_small by lia.
    destruct (_ && _); [by destruct (_ && _) |]. rewrite Hnx in Hl. apply IH; try done. simpl in *. lia.
Qed.

Lemma fit_gap len l a b :
  fit len l = (a, Some b) →
  ∃ l1 o m n l2, l = l1 ++ (a, o) :: (m, n) :: l2 ∧ b = region_end o ∧ b + len < base n.
Proof.
  induction l as [|[c o] l IH]; [done |]. cbn [fit]. destruct l as [|[m n] l]; [done |].
  destruct (_ <? _) eqn:E; zbool.
  - intros [= -> <-]. by exists [], o, m, n, l.
  - intros (l1 & o' & m' & n' & l2 & -> & ? & ?)%IH. by exists ((c, o) :: l1), o', m', n', l2.
Qed.

(** Writing objects that are not on the list. *)
Lemma region_list_other objs a o p l :
  region_list objs p l → a ∉ l.*1 → region_list (<[a := o]> objs) p l.
Proof.
  revert p. induction l as [|[b x] l IH]; intros p; [done |].
  intros (-> & Hb & Hx & Hq) Hni. rewrite fmap_cons in Hni. simpl in Hni.
  split_and!; try done.
  - rewrite lookup_insert_ne; [done | set_solver].
  - apply IH; [done | set_solver].
Qed.

(** Replacing the tail of the list behind [a]. *)
Lemma region_list_relink objs p l1 a o l2 o' l2' :
  region_list objs p (l1 ++ (a, o) :: l2) → NoDup (l1 ++ (a, o) :: l2).*1 →
  region_list (<[a := o']> objs) (vm_next o') l2' →
  region_list (<[a := o']> objs) p (l1 ++ (a, o') :: l2').
Proof.
  intros Hl Hnd Hl2. revert p Hl Hnd. induction l1 as [|[b x] l1 IH]; intros p Hl Hnd.
  - destruct Hl as (-> & Ha & Ho & Hl). simpl. by rewrite lookup_insert_eq.
  - destruct Hl as (-> & Hb & Hx & Hl). simpl in Hnd. apply NoDup_cons in Hnd as [Hni Hnd].
    simpl. split_and!; try done; [| by apply IH].
    rewrite lookup_insert_ne; [done |]. intros ->. apply Hni. rewrite fmap_app. set_solver.
Qed.

(** Inserting an object behind [a]. *)
Lemma region_list_insert objs p l1 a o l2 na no :
  region_list objs p (l1 ++ (a, o) :: l2) → NoDup (l1 ++ (a, o) :: l2).*1 →
  na ∉ (l1 ++ (a, o) :: l2).*1 → na ≠ NULL → vm_next no = vm_next o →
  region_list (<[a := with_vm_next o na]> (<[na := no]> objs)) p
    (l1 ++ (a, with_vm_next o na) :: (na, no) :: l2).
Proof.
  intros Hl Hnd Hna Hn0 Hno. apply (region_list_relink _ _ _ _ o l2); [by apply region_list_other | done |].
  assert (a ≠ na ∧ na ∉ l2.*1) as [Hane Hnl2] by (rewrite fmap_app, fmap_cons in Hna; set_solver).
  assert (a ∉ l2.*1) as Hal2.
  { rewrite fmap_app, fmap_cons in Hnd. by apply NoDup_app in Hnd as (_ & _ & [? _]%NoDup_cons). }
  assert (region_list objs (vm_next o) l2) as Hl2.
  { clear -Hl. revert p Hl. induction l1 as [|[b x] l1 IH]; intros p; [by intros (_ & _ & _ & ?) |].
    intros (_ & _ & _ & Hl). by eapply IH. }
  simpl. split_and!; [done | done | by rewrite lookup_insert_ne, lookup_insert_eq |].
  rewrite Hno. by do 2 (apply region_list_other; [| done]).
Qed.

Lemma ordered_app l1 o l2 :
  ordered (l1 ++ o :: l2) ↔ ordered (l1 ++ [o]) ∧ ordered (o :: l2).
Proof.
  induction l1 as [|x l1 IH]; [simpl; naive_solver |].
  destruct l1 as [|y l1]; simpl in *; [naive_solver |]. rewrite IH. naive_solver.
Qed.

(** The objects the linker placed. *)
Definition statics : list Z :=
  [kernel_page_tbls_obj sym; kernel_pmm_obj sym; vga_text_buffer_obj sym; kernel_text_obj sym].

(** The invariant of the current address space: its regions are the list [l],
    in order, the window of page tables being the last one. *)
Record vm_ok (s : state) (l : list (Z * vm_object)) : Prop := {
  vo_list : region_list (vm_objs s) (current_vmm s) l;
  vo_nodup : NoDup l.*1;
  vo_ordered : ordered l.*2;
  vo_bounded : Forall bounded l.*2;
  vo_window : ∀ o, (kernel_page_tbls_obj sym, o) ∈ l → vm_next o = NULL;
  vo_live : ∀ a, a ∈ l.*1 → a ∈ statics ∨ ha_live (kheap s) a;
}.

(** The same region, up to the length of the window. *)
Definition same_region (x y : Z * vm_object) : Prop :=
  x.1 = y.1 ∧ base x.2 = base y.2 ∧ flags x.2 = flags y.2 ∧ vm_next x.2 = vm_next y.2 ∧
  (x.1 ≠ kernel_page_tbls_obj sym → vm_length x.2 = vm_length y.2).

(** The regions after [mmap] has lengthened the window. *)
Lemma region_list_space (s s' : state) p l :
  same_space sym s s' → region_list (vm_objs s) p l →
  ∃ l', region_list (vm_objs s') p l' ∧ Forall2 same_region l l'.
Proof.
  intros Hs. revert p. induction l as [|[a o] l IH]; intros p Hl; [by exists []; split |].
  destruct Hl as (-> & Ha & Ho & Hl). destruct (IH _ Hl) as (l' & Hl' & Hf).
  destruct (decide (a = kernel_page_tbls_obj sym)) as [->|Hne].
  - destruct (ss_window _ _ _ Hs o Ho) as [n Hn]. eexists ((_, _) :: l'). split.
    + simpl. split_and!; [done | done | exact Hn | done].
    + constructor; [| done]. by split_and!.
  - exists ((a, o) :: l'). split.
    + simpl. split_and!; try done. by rewrite (ss_objs _ _ _ Hs).
    + constructor; [| done]. by split_and!.
Qed.

Lemma same_region_fst l l' : Forall2 same_region l l' → l'.*1 = l.*1.
Proof. induction 1 as [|x y l l' (Heq & _) _ IH]; [done |]. by rewrite !fmap_cons, IH, Heq. Qed.

Lemma same_region_in l l' a x :
  Forall2 same_region l l' → (a, x) ∈ l' → ∃ y, (a, y) ∈ l ∧ vm_next y = vm_next x.
Proof.
  intros Hf Hx. apply list_elem_of_lookup in Hx as [i Hx].
  destruct (Forall2_lookup_r _ _ _ _ _ Hf Hx) as ([b y] & Hy & (Heq & _ & _ & Hn & _)).
  simpl in *. subst b. exists y. split; [by eapply list_elem_of_lookup_2 | done].
Qed.

(** Order survives, the window being the last region. *)
Lemma ordered_same objs p l l' :
  region_list objs p l → (∀ o, (kernel_page_tbls_obj sym, o) ∈ l → vm_next o = NULL) →
  Forall2 same_region l l' → ordered l.*2 → ordered l'.*2.
Proof.
  intros Hl Hw Hf. revert p Hl Hw. induction Hf as [|[a o] [a' o'] l l' Hs Hf IH]; intros p Hl Hw Hord; [done |].
  destruct Hl as (-> & Ha & Ho & Hl).
  assert (ordered l'.*2) as Hord'.
  { eapply IH; [exact Hl | intros x Hx; apply Hw; by right | by destruct l; [| destruct Hord]]. }
  destruct Hf as [|[m n] [m' n'] l l' (_ & Hbn & _) Hf]; [done |]. simpl in *.
  split; [| done]. destruct Hord as [Hle _]. destruct Hs as (Heq & Hb & _ & _ & Hlen). simpl in *.
  unfold region_end in *. rewrite <- Hbn, <- Hb, <- Hlen; [done |].
  intros ->. destruct Hl as (Hm & Hm0 & _). apply Hm0. rewrite <- Hm. apply Hw. left.
Qed.

Lemma bounded_same (s' : state) p l l' room lv top :
  Forall2 same_region l l' → region_list (vm_objs s') p l' → Forall bounded l.*2 →
  window sym room s' lv top → top < VM_LIMIT → Forall bounded l'.*2.
Proof.
  intros Hf Hl Hb Hw Htop. revert p Hl Hb.
  induction Hf as [|[a o] [a' o'] l l' (Heq & Hbase & _ & _ & Hlen) Hf IH]; intros p Hl Hb; [done |].
  simpl in *. subst a'. destruct Hl as (-> & Ha & Ho & Hl). apply Forall_cons in Hb as [Hbo Hb].
  constructor; [| by eapply IH]. unfold bounded, region_end in *. rewrite <- Hbase.
  destruct (decide (a = kernel_page_tbls_obj sym)) as [->|Hne]; [| rewrite <- Hlen by done; done].
  destruct (w_obj _ _ _ _ _ Hw) as (ow & How & ? & ? & ?). rewrite Ho in How. injection How as <-. lia.
Qed.

Lemma kmalloc_object (s : state) lv l room top na h :
  pt_inv s lv → window sym room s lv top → vm_ok s l →
  ha_alloc (kheap s) SIZEOF_VM_OBJECT = Ok (na, h) → na ∉ statics →
  na ≠ NULL ∧ (na ∉ l.*1) ∧ ha_inv h ∧
  (∀ q, ha_live h q ↔ q = na ∨ ha_live (kheap s) q) ∧ nodes_live (set_kheap s h).
Proof.
  intros Hi Hw Hv Hh Hns. destruct (pi_live _ _ Hi) as [Hhi Hnl].
  destruct (ha_alloc_spec _ SIZEOF_VM_OBJECT _ _ Hhi ltac:(done) Hh) as (Hhi' & Hp & Hnn & Hlv).
  split_and!; try done.
  - unfold NULL. lia.
  - intros Hin. by destruct (vo_live _ _ Hv na Hin).
  - split; [done |]. intros p Hpn. apply Hlv. right. by apply Hnl.
Qed.

(** ** A new region *)

(** [s'] is [s] with the region [found, len, fl] behind object [a], its [n]
    pages mapped to the frames [ps]; [l'] are the regions of [s']. *)
Record region_backed (n : nat) (room : Z) (s : state) (lv : Z → Z) (top : Z)
    (l1 : list (Z * vm_object)) (a : Z) (o : vm_object) (l2 : list (Z * vm_object))
    (na found len fl : Z) (s' : state) (lv' : Z → Z) (top' : Z) (ps : list Z)
    (l' : list (Z * vm_object)) : Prop := {
  rb_inv : pt_inv s' lv';
  rb_window : window sym (room - (top' - top) / 0x1000) s' lv' top';
  rb_top : top ≤ top' ≤ top + 3 * Z.of_nat n * 0x1000;
  rb_ptr : current_pml4t_ptr s' = current_pml4t_ptr s;
  rb_vm : vm_ok s' l';
  rb_list : Forall2 same_region
    (l1 ++ (a, with_vm_next o na) :: (na, VmObject found len fl (vm_next o)) :: l2) l';
  rb_frames : length ps = n ∧ NoDup ps ∧
    ∀ p, p ∈ ps → p mod 0x1000 = 0 ∧ 0 < p ∧ ¬ fa_taken (frames s) p;
  rb_entry : ∀ i p, ps !! i = Some p →
    translate s' (current_pml4t_ptr s') (found + Z.of_nat i * 0x1000) = Some (Z.lor (Z.lor p fl) 7);
  rb_keep : ∀ r x e, is_root s lv r → translate s r x = Some e →
    (∀ i, 0 ≤ i < Z.of_nat n → page_of x ≠ page_of (found + i * 0x1000)) →
    (∀ u, top < u ≤ top' → page_of x ≠ page_of u) → translate s' r x = Some e;
}.

(** The list with the new region is in order. *)
Lemma ordered_insert (l1 l2 : list (Z * vm_object)) a o na no nx :
  ordered (l1 ++ (a, o) :: l2).*2 → region_end o ≤ base no →
  (∀ m x l3, l2 = (m, x) :: l3 → region_end no ≤ base x) →
  ordered (l1 ++ (a, with_vm_next o nx) :: (na, no) :: l2).*2.
Proof.
  rewrite !fmap_app, !fmap_cons. intros Hord Hle Hgap.
  apply ordered_app in Hord as [Hpre Hr]. apply ordered_app. split.
  - revert Hpre. simpl. induction l1.*2 as [|x l IH]; [done |].
    destruct l as [|y l]; [done |]. simpl in *. intros [? ?]. split; [done |]. by apply IH.
  - simpl. split; [done |]. destruct l2 as [|[m x] l3]; [done |]. simpl in *.
    split; [by eapply Hgap | apply Hr].
Qed.

Section AddRegion.
Variables (fuel n : nat) (s : state) (lv : Z → Z) (room top : Z).
Variables (l1 l2 : list (Z * vm_object)) (a na found len fl : Z) (o : vm_object) (h : H).
Hypothesis Hinv : pt_inv s lv.
Hypothesis Hwin : window sym room s lv top.
Hypothesis Hvm : vm_ok s (l1 ++ (a, o) :: l2).
Hypothesis Hh : ha_alloc (kheap s) SIZEOF_VM_OBJECT = Ok (na, h).
Hypothesis Hna : na ∉ statics.
Hypothesis Ha : a ≠ kernel_page_tbls_obj sym.
Hypothesis Hlen : len mod 0x1000 = 0 ∧ 0 ≤ len < 2 ^ 38 ∧ n = Z.to_nat (len / 0x1000).
Hypothesis Hfound : found mod 0x1000 = 0 ∧ region_end o ≤ found ∧ found + len < VM_LIMIT.
Hypothesis Hgap : ∀ m x l3, l2 = (m, x) :: l3 → found + len ≤ base x.

Local Abbreviation no := (VmObject found len fl (vm_next o)).
Local Abbreviation linked :=
  (set_vm_objs (set_kheap s h) (<[a := with_vm_next o na]> (<[na := no]> (vm_objs s)))).

Lemma add_region_pages :
  add_region sym (S (S fuel)) s a found len fl NULL =
  '(ok, s4) ← back_pages sym (S (S fuel)) n linked found fl NULL;
  if (ok : bool) then Ok (found, s4) else Ok (NULL, s4).
Proof.
  destruct (kmalloc_object s lv _ room top na h Hinv Hwin Hvm Hh Hna) as (Hn0 & Hnone & _).
  destruct (region_list_obj _ _ _ a o (vo_list _ _ Hvm)) as [Ho Ha0]; [set_solver |].
  assert (a ≠ na) by (intros ->; apply Hnone; rewrite fmap_app; set_solver).
  destruct Hlen as (Hl0 & Hl & ->).
  unfold add_region, kmalloc_mm. rewrite Hh. out_red. unfold obj_at. simpl vm_objs. rewrite Ho. out_red.
  simpl vm_objs. rewrite lookup_insert_ne, Ho by done. out_red. unfold set_obj. simpl vm_objs.
  rewrite u64_small by lia. by replace ((len + 0xfff) / 0x1000) with (len / 0x1000) by mlia.
Qed.

Lemma linked_regions :
  vm_ok linked (l1 ++ (a, with_vm_next o na) :: (na, no) :: l2).
Proof.
  destruct (kmalloc_object s lv _ room top na h Hinv Hwin Hvm Hh Hna) as (Hn0 & Hnone & _ & Hlv & _).
  rename Hnone into Hnl.
  destruct Hvm as [Hl Hnd Hord Hb Hw Hli]. destruct Hlen as (_ & Hl0 & _), Hfound as (_ & Hf1 & Hf2).
  rewrite fmap_app, fmap_cons in Hnd, Hnl. simpl in Hnd, Hnl. split.
  - apply region_list_insert; try done; by rewrite fmap_app, fmap_cons.
  - rewrite fmap_app, !fmap_cons. simpl.
    assert (l1.*1 ++ a :: na :: l2.*1 ≡ₚ na :: (l1.*1 ++ a :: l2.*1)) as ->; [| by constructor].
    replace (l1.*1 ++ a :: na :: l2.*1) with ((l1.*1 ++ [a]) ++ na :: l2.*1) by (by rewrite <- app_assoc).
    replace (l1.*1 ++ a :: l2.*1) with ((l1.*1 ++ [a]) ++ l2.*1) by (by rewrite <- app_assoc).
    symmetry. apply Permutation_middle.
  - by apply ordered_insert.
  - rewrite fmap_app, !fmap_cons in Hb |- *. simpl in *.
    apply Forall_app in Hb as [Hb1 Hb2]. apply Forall_cons in Hb2 as [Hbo Hb2].
    apply Forall_app. split; [done |]. constructor; [done |]. constructor; [| done].
    unfold bounded, region_end in *. simpl in *. lia.
  - intros x. rewrite elem_of_app, !elem_of_cons. intros [Hx|[Heq|[Heq|Hx]]].
    + apply Hw. set_solver.
    + destruct Ha. congruence.
    + destruct Hna. injection Heq as Hk _. rewrite <- Hk. unfold statics. set_solver.
    + apply Hw. set_solver.
  - intros b Hb'. rewrite fmap_app, !fmap_cons in Hb', Hli. simpl in *.
    destruct (decide (b = na)) as [->|]; [right; apply Hlv; by left |].
    destruct (Hli b) as [?|?]; [set_solver | by left | right; apply Hlv; by right].
Qed.

Lemma add_region_spec :
  3 * Z.of_nat n ≤ room → Z.of_nat n ≤ 2 ^ 36 → 0 ≤ found →
  frames_left (4 * n) (frames s) → nodes_left (3 * n) h → off_window n found top room →
  ∃ s' lv' top' ps l',
    add_region sym (S (S fuel)) s a found len fl NULL = Ok (found, s') ∧
    region_backed n room s lv top l1 a o l2 na found len fl s' lv' top' ps l'.
Proof.
  intros Hr H36 Hf0 Hfl Hnl Hoff.
  destruct (kmalloc_object s lv _ room top na h Hinv Hwin Hvm Hh Hna) as (Hn0 & Hnone & Hhi & Hlv & Hlive).
  assert (same_tables s linked) as Hst by done.
  assert (pt_inv linked lv) as Hi1.
  { apply (pt_inv_same s); try done; [exact (pi_frames _ _ Hinv) | exact (pi_free _ _ Hinv)]. }
  pose proof linked_regions as Hvm1.
  assert (window sym room linked lv top) as Hw1.
  { eapply window_same; [exact Hst | done | | exact Hwin]. intros w Hw. exists w.
    simpl. rewrite !lookup_insert_ne; [done | | by apply not_eq_sym].
    intros ->. apply Hna. unfold statics. set_solver. }
  destruct Hlen as (Hl0 & Hl1 & Hn), Hfound as (Hfa & Hf1 & Hf2).
  assert (Z.of_nat n * 0x1000 = len) as Hnlen by (rewrite Hn; mlia).
  destruct (back_pages_spec sym fuel n linked lv room top found fl)
    as (s' & lv' & top' & ps & Hb & [Hi' Ht' Hw' Hs' Hk' Hli' Hr' Hpl Hnd Hfree Hent Hkp]).
  { split; try done. unfold VM_LIMIT in *. lia. }
  destruct (region_list_space linked s' _ _ Hs' (vo_list _ _ Hvm1)) as (l' & Hl' & Hf2l).
  assert (current_vmm s' = current_vmm linked) as Hcv by apply Hs'.
  exists s', lv', top', ps, l'. split.
  { rewrite add_region_pages, Hb. done. }
  split; try done.
  - lia.
  - apply (ss_ptr _ _ _ Hs').
  - split.
    + by rewrite Hcv.
    + rewrite (same_region_fst _ _ Hf2l). apply (vo_nodup _ _ Hvm1).
    + eapply ordered_same; [apply (vo_list _ _ Hvm1) | apply (vo_window _ _ Hvm1) | done |].
      apply (vo_ordered _ _ Hvm1).
    + eapply bounded_same; [exact Hf2l | exact Hl' | apply (vo_bounded _ _ Hvm1) | exact Hw' |].
      pose proof (w_top _ _ _ _ _ Hwin). unfold VM_LIMIT. lia.
    + intros x Hx. destruct (same_region_in _ _ _ _ Hf2l Hx) as (y & Hy & <-).
      by apply (vo_window _ _ Hvm1).
    + intros b Hb'. rewrite (same_region_fst _ _ Hf2l) in Hb'.
      destruct (vo_live _ _ Hvm1 b Hb') as [?|?]; [by left | right; by apply Hli'].
  - intros i p Hp. rewrite (ss_ptr _ _ _ Hs'). by apply Hent.
  - intros r x e Hrr Htr. apply Hkp; [by apply (st_root s) | by rewrite (st_translate s)].
Qed.

End AddRegion.

(** A gap is never behind the window. *)
Lemma gap_not_window s l1 a o m n l2 :
  vm_ok s (l1 ++ (a, o) :: (m, n) :: l2) → a ≠ kernel_page_tbls_obj sym.
Proof.
  intros [Hl _ _ _ Hw _] ->. specialize (Hw o).
  assert (vm_next o = NULL) as Hn by (apply Hw; set_solver). clear Hw.
  revert Hl. generalize (current_vmm s). induction l1 as [|[b x] l1 IH]; intros p.
  - intros (_ & _ & _ & Hm & Hm0 & _). congruence.
  - intros (_ & _ & _ & Hl). by eapply IH.
Qed.

Lemma vm_ok_fuel s l : vm_ok s l → (length l ≤ objs_fuel s)%nat.
Proof.
  intros [Hl Hnd _ _ _ _]. pose proof (region_list_length _ _ _ Hl Hnd). unfold objs_fuel. lia.
Qed.

Lemma region_list_next objs p l1 a o l2 :
  region_list objs p (l1 ++ (a, o) :: l2) → region_list objs (vm_next o) l2.
Proof.
  revert p. induction l1 as [|[b x] l1 IH]; intros p; [by intros (_ & _ & _ & ?) |].
  intros (_ & _ & _ & Hl). by eapply IH.
Qed.

(** The list without the region behind [a] is in order. *)
Lemma ordered_remove (l1 l2 : list (Z * vm_object)) a o m x nx :
  ordered (l1 ++ (a, o) :: (m, x) :: l2).*2 → Forall bounded (l1 ++ (a, o) :: (m, x) :: l2).*2 →
  ordered (l1 ++ (a, with_vm_next o nx) :: l2).*2.
Proof.
  intros Hord Hb. rewrite !fmap_app, !fmap_cons in *. simpl in *.
  apply Forall_app in Hb as [_ Hb]. apply Forall_cons in Hb as [_ Hb].
  apply Forall_cons in Hb as [(_ & Hx & _) _].
  apply ordered_app in Hord as [Hpre Hr]. apply ordered_app. split.
  - revert Hpre. induction l1.*2 as [|y l IH]; [done |].
    destruct l as [|z l]; [done |]. simpl in *. intros [? ?]. split; [done |]. by apply IH.
  - simpl in *. destruct l2.*2 as [|y l]; [done |]. destruct Hr as (? & ? & ?).
    unfold region_end in *. simpl. split; [lia | done].
Qed.

(** [C2] vmm_alloc without a requested address takes the first gap of the
    region list, keeps the list sorted and free of overlaps, and backs every
    page of the region with a distinct frame that was free before; no other
    translation changes. *)
Theorem vmm_alloc_first_fit fuel uninit s lv room top l len0 fl a b na h :
  let len := PAGE_ALIGN len0 in
  let n := Z.to_nat (len / 0x1000) in
  pt_inv s lv → window sym room s lv top → vm_ok s l →
  0 ≤ len0 ≤ 2 ^ 37 → fit len l = (a, Some b) → b mod 0x1000 = 0 →
  ha_alloc (kheap s) SIZEOF_VM_OBJECT = Ok (na, h) → na ∉ statics →
  3 * Z.of_nat n ≤ room → frames_left (4 * n) (frames s) → nodes_left (3 * n) h →
  off_window n b top room →
  ∃ s' lv' top' ps l' l1 o l2, l = l1 ++ (a, o) :: l2 ∧ b = region_end o ∧
    vmm_alloc sym (S (S fuel)) uninit s NULL len0 fl NULL = Ok (b, s') ∧
    region_backed n room s lv top l1 a o l2 na b len fl s' lv' top' ps l'.
Proof.
  intros len n Hi Hw Hv Hl0 Hfit Hb Hh Hna Hr Hfl Hnl Hoff.
  destruct (page_align_least len0) as [Hlr Hla]; [lia |]. fold len in Hla, Hlr.
  destruct (fit_gap _ _ _ _ Hfit) as (l1 & o & m & x & l2 & Hl & Hbe & Hgap).
  assert (l ≠ []) as Hne by (intros ->; done).
  pose proof (vo_bounded _ _ Hv) as Hbd. subst l.
  assert (bounded o ∧ bounded x) as [Ho Hx].
  { rewrite fmap_app, !fmap_cons in Hbd. apply Forall_app in Hbd as [_ Hbd].
    apply Forall_cons in Hbd as [? Hbd]. by apply Forall_cons in Hbd as [? _]. }
  unfold bounded, region_end, VM_LIMIT in *.
  destruct (add_region_spec fuel n s lv room top l1 ((m, x) :: l2) a na b len fl o h)
    as (s' & lv' & top' & ps & l' & Hadd & Hrb); try done; try lia.
  { by eapply gap_not_window. }
  { unfold region_end, VM_LIMIT. lia. }
  { intros ? ? ? [= <- <- <-]. lia. }
  { unfold n. mlia. }
  exists s', lv', top', ps, l', l1, o, ((m, x) :: l2).
  split; [done |]. split; [done |]. split; [| exact Hrb].
  unfold vmm_alloc. fold len. change (PAGE_ALIGN_DOWN NULL) with NULL. simpl (NULL =? NULL). cbv iota.
  rewrite (first_fit_list _ s _ _ len (vo_list _ _ Hv)); try done; [| lia | by apply vm_ok_fuel].
  out_red. rewrite Hfit. simpl default. exact Hadd.
Qed.

(** Bases do not decrease along an ordered list. *)
Lemma ordered_base (x : Z * vm_object) l a o :
  ordered (x :: l).*2 → Forall bounded (x :: l).*2 → (a, o) ∈ l → region_end x.2 ≤ base o.
Proof.
  revert x. induction l as [|y l IH]; intros x Hord Hb Hin; [by apply not_elem_of_nil in Hin |].
  rewrite !fmap_cons in Hord, Hb. destruct Hord as [Hle Hord]. apply Forall_cons in Hb as [Hbx Hb].
  apply elem_of_cons in Hin as [<-|Hin]; [done |].
  specialize (IH y Hord Hb Hin). apply Forall_cons in Hb as [(_ & Hy & _) _].
  unfold region_end in *. lia.
Qed.

(** The search stops at the object the address lies behind. *)
Lemma slot_for_at l1 a o l2 start len :
  ordered (l1 ++ (a, o) :: l2).*2 → Forall bounded (l1 ++ (a, o) :: l2).*2 → base o ≤ start →
  (∀ m x l3, l2 = (m, x) :: l3 → start < base x) →
  slot_for start len (l1 ++ (a, o) :: l2) =
  match l2 with
  | [] => Some a
  | (_, x) :: _ => if (start <? region_end o) && (start + len <? base x) then None else Some a
  end.
Proof.
  intros Hord Hb Ho Hgap. induction l1 as [|[b y] l1 IH].
  - simpl. destruct l2 as [|[m x] l3]; [done |]. specialize (Hgap m x l3 eq_refl). by zdec.
  - assert (∀ z, ordered (z :: l1 ++ (a, o) :: l2).*2 → ordered (l1 ++ (a, o) :: l2).*2) as Htl.
    { intros z. rewrite fmap_cons. by destruct (l1 ++ (a, o) :: l2)  as [|? ?]; [| intros [_ ?]]. }
    pose proof (ordered_base (b, y) _ a o Hord Hb ltac:(set_solver)) as Hle. simpl in Hle.
    specialize (IH (Htl _ Hord) (Forall_inv_tail Hb)). rewrite <- IH. cbn [slot_for app].
    destruct l1 as [|[c z] l1]; cbn [app] in *.
    + rewrite (proj2 (Z.ltb_ge start (base o))) by lia. by rewrite andb_false_r.
    + assert (base z ≤ start).
      { assert (region_end z ≤ base o).
        { apply (ordered_base (c, z) (l1 ++ (a, o) :: l2) a o);
            [by apply Htl in Hord | by apply Forall_inv_tail in Hb | set_solver]. }
        rewrite !fmap_cons in Hb. apply Forall_cons in Hb as [_ Hb].
        apply Forall_cons in Hb as [(_ & Hz & _) _]. unfold region_end in *. simpl in *. lia. }
      rewrite (proj2 (Z.ltb_ge start (base z))) by lia. by rewrite andb_false_r.
Qed.

(** [C19] vmm_alloc at a requested address inside a gap returns that address,
    inserts the region in order and backs each of its pages with a frame of
    its own. *)
Theorem vmm_alloc_at fuel uninit s lv room top l1 a o l2 start len0 fl na h :
  let len := PAGE_ALIGN len0 in
  let n := Z.to_nat (len / 0x1000) in
  pt_inv s lv → window sym room s lv top → vm_ok s (l1 ++ (a, o) :: l2) →
  a ≠ kernel_page_tbls_obj sym → start mod 0x1000 = 0 → 0 < start →
  0 < len0 ≤ 2 ^ 37 → region_end o ≤ start → start + len < VM_LIMIT →
  (∀ m x l3, l2 = (m, x) :: l3 → start + len ≤ base x) →
  ha_alloc (kheap s) SIZEOF_VM_OBJECT = Ok (na, h) → na ∉ statics →
  3 * Z.of_nat n ≤ room → frames_left (4 * n) (frames s) → nodes_left (3 * n) h →
  off_window n start top room →
  ∃ s' lv' top' ps l',
    vmm_alloc sym (S (S fuel)) uninit s start len0 fl NULL = Ok (start, s') ∧
    region_backed n room s lv top l1 a o l2 na start len fl s' lv' top' ps l'.
Proof.
  intros len n Hi Hw Hv Ha Hsa Hs0 Hl0 Ho Hlim Hgap Hh Hna Hr Hfl Hnl Hoff.
  destruct (page_align_least len0) as [Hlr Hla]; [lia |]. fold len in Hla, Hlr.
  destruct (add_region_spec fuel n s lv room top l1 l2 a na start len fl o h)
    as (s' & lv' & top' & ps & l' & Hadd & Hrb); try done; try lia; [unfold n; mlia |].
  exists s', lv', top', ps, l'. split; [| done].
  unfold vmm_alloc. fold len. rewrite page_align_down_spec, Hsa, Z.sub_0_r by (unfold VM_LIMIT in *; lia).
  rewrite (proj2 (Z.eqb_neq start NULL)) by (unfold NULL; lia).
  pose proof (vo_bounded _ _ Hv) as Hb.
  assert (bounded o) as (_ & Hol & _).
  { rewrite fmap_app, !fmap_cons in Hb. apply Forall_app in Hb as [_ Hb]. by apply Forall_cons in Hb as [? _]. }
  rewrite (find_slot_list _ s _ (l1 ++ (a, o) :: l2) start len (vo_list _ _ Hv));
    try done; [| by destruct l1 | lia | lia | by apply vm_ok_fuel].
  rewrite (slot_for_at l1 a o l2); [| apply (vo_ordered _ _ Hv) | done | unfold region_end in *; lia |].
  - out_red. rewrite (proj2 (Z.ltb_ge start (region_end o))) by lia.
    change (PAGE_ALIGN_DOWN NULL) with NULL. by destruct l2 as [|[m x] l3].
  - intros m x l3 Heq. specialize (Hgap m x l3 Heq). lia.
Qed.

(** A request that starts inside a region is refused exactly when it
    ends below the next region; one that runs into the next region is
    inserted. *)
Theorem vmm_alloc_overlap_check depth uninit s l1 a o m x l2 start len0 fl :
  let len := PAGE_ALIGN len0 in
  vm_ok s (l1 ++ (a, o) :: (m, x) :: l2) → start mod 0x1000 = 0 → 0 < start → 0 ≤ len0 ≤ 2 ^ 37 →
  base o ≤ start < region_end o →
  vmm_alloc sym depth uninit s start len0 fl NULL =
  if start + len <? base x then Ok (NULL, s) else add_region sym depth s a start len fl NULL.
Proof.
  intros len Hv Hsa Hs0 Hl0 Hst. destruct (page_align_least len0) as [Hlr Hla]; [lia |]. fold len in Hla, Hlr.
  pose proof (vo_bounded _ _ Hv) as Hb. pose proof (vo_ordered _ _ Hv) as Hord.
  assert (bounded o ∧ region_end o ≤ base x) as [(_ & Hol & Hlim) Hox].
  { rewrite fmap_app, !fmap_cons in Hb, Hord. apply Forall_app in Hb as [_ Hb].
    apply Forall_cons in Hb as [? _]. by apply ordered_app in Hord as (_ & ? & _). }
  unfold vmm_alloc. fold len. rewrite page_align_down_spec, Hsa, Z.sub_0_r by (unfold VM_LIMIT in *; lia).
  rewrite (proj2 (Z.eqb_neq start NULL)) by (unfold NULL; lia).
  rewrite (find_slot_list _ s _ (l1 ++ (a, o) :: (m, x) :: l2) start len (vo_list _ _ Hv));
    try done; [| by destruct l1 | lia | lia | by apply vm_ok_fuel].
  rewrite (slot_for_at l1 a o ((m, x) :: l2)); [| done | done | lia | intros ? ? ? [= <- <- <-]; lia].
  rewrite (proj2 (Z.ltb_lt start (region_end o))) by lia. simpl. by destruct (_ <? _).
Qed.

(** ** Removing a region *)

(** The loop of [umap] runs from [start_index] to an [end_index] that is
    computed from the same address. *)
Lemma umap_nothing n (s : state) table_ptr table_virt_addr rs re :
  umap n s table_ptr table_virt_addr rs re = Ok s.
Proof. destruct n; simpl; by rewrite Z.sub_diag. Qed.

Lemma find_before_list fuel (s : state) p l1 a o m x l2 start :
  region_list (vm_objs s) p (l1 ++ (a, o) :: (m, x) :: l2) → base x = start →
  (∀ b y, (b, y) ∈ tail (l1 ++ [(a, o)]) → base y ≠ start) → (length l1 < fuel)%nat →
  find_before fuel s p start = Ok a.
Proof.
  intros Hl Hx. revert fuel p Hl. induction l1 as [|[b y] l1 IH]; intros [|fuel] p Hl Hne Hf;
    simpl in Hf; try lia.
  - destruct Hl as (-> & Ha & Ho & Hnx & Hm & Hxm & _). cbn [find_before]. unfold obj_at.
    rewrite Ho. out_red. rewrite Hnx, Hxm. out_red. by rewrite Hx, Z.eqb_refl.
  - destruct Hl as (-> & Hb & Hy & Hl). cbn [find_before]. unfold obj_at. rewrite Hy. out_red.
    assert (∃ c z, vm_objs s !! vm_next y = Some z ∧ (c, z) ∈ l1 ++ [(a, o)]) as (c & z & Hz & Hin).
    { destruct l1 as [|[c z] l1]; simpl in Hl.
      - destruct Hl as (-> & _ & Ho & _). exists a, o. split; [done | simpl; set_solver].
      - destruct Hl as (-> & _ & Ho & _). exists c, z. split; [done | simpl; set_solver]. }
    rewrite Hz. out_red. rewrite (proj2 (Z.eqb_neq (base z) start)) by (by apply (Hne c)).
    apply IH; [done | | lia]. intros c' z' Hin'. apply (Hne c'). simpl.
    destruct l1; simpl in *; [by apply not_elem_of_nil in Hin' | by right].
Qed.

(** [C17] vmm_free unlinks the region and frees its object, but leaves every
    translation and every frame of the region as it was. *)
Theorem vmm_free_unlinks s l1 a o m x l2 :
  ha_inv (kheap s) → vm_ok s (l1 ++ (a, o) :: (m, x) :: l2) → m ∉ statics →
  (∀ b y, (b, y) ∈ l1 ++ [(a, o)] → base y ≠ base x) →
  ∃ s', vmm_free s (base x) = Ok s' ∧
    vm_ok s' (l1 ++ (a, with_vm_next o (vm_next x)) :: l2) ∧ ¬ ha_live (kheap s') m ∧
    frames s' = frames s ∧ ∀ r v, translate s' r v = translate s r v.
Proof.
  intros Hhi Hv Hm Hne. pose proof Hv as [Hl Hnd Hord Hb Hw Hli].
  pose proof (gap_not_window _ _ _ _ _ _ _ Hv) as Hak.
  destruct (region_list_obj _ _ _ a o Hl) as [Ho Ha0]; [set_solver |].
  destruct (region_list_obj _ _ _ m x Hl) as [Hx Hm0]; [set_solver |].
  destruct (region_list_next _ _ _ _ _ _ Hl) as (Hnx & _ & _ & Hl2).
  destruct (Hli m) as [|Hlm]; [rewrite fmap_app; set_solver | done |].
  destruct (ha_free_spec _ _ Hhi Hlm) as (h' & Hfr & Hhi' & Hlv).
  assert (∃ b y, vm_objs s !! current_vmm s = Some y ∧ (b, y) ∈ l1 ++ [(a, o)]) as (b & y & Hy & Hyin).
  { destruct l1 as [|[b y] l1]; destruct Hl as (-> & _ & Hy & _);
      [exists a, o | exists b, y]; (split; [done | simpl; set_solver]). }
  set (o' := with_vm_next o (vm_next x)).
  exists (set_kheap (set_obj s a o') h'). split.
  - unfold vmm_free, obj_at. rewrite Hy. out_red.
    rewrite (proj2 (Z.eqb_neq _ _)) by (by eapply Hne).
    rewrite (find_before_list _ s _ l1 a o m x l2); [| done | done | |].
    + out_red. rewrite Ho. out_red. rewrite Hnx, Hx. out_red. rewrite umap_nothing. out_red.
      simpl kheap. by rewrite Hfr.
    + intros c z Hin. apply (Hne c). destruct (l1 ++ [(a, o)]); [done | by right].
    + pose proof (vm_ok_fuel _ _ Hv) as Hf. rewrite length_app in Hf. simpl in Hf. lia.
  - split; [| split_and!; [by rewrite Hlv; intros [? _] | done | intros; by apply st_translate]].
    rewrite fmap_app, !fmap_cons in Hnd. simpl in Hnd.
    assert (NoDup (l1 ++ (a, o') :: l2).*1 ∧ m ∉ (l1 ++ (a, o') :: l2).*1) as [Hnd' Hm'].
    { rewrite fmap_app, fmap_cons. simpl. apply NoDup_app in Hnd as (Hn1 & Hd & Hn2).
      apply NoDup_cons in Hn2 as [Ha2 Hn2]. apply NoDup_cons in Hn2 as [Hm2 Hn2]. split; [| set_solver].
      apply NoDup_app. split_and!; [done | set_solver |]. constructor; [set_solver | done]. }
    split; try done.
    + simpl. apply (region_list_relink _ _ _ _ o ((m, x) :: l2)); [done | by rewrite fmap_app, !fmap_cons |].
      apply region_list_other; [done |]. rewrite fmap_app, fmap_cons in Hnd'. simpl in Hnd'.
      by apply NoDup_app in Hnd' as (_ & _ & [? _]%NoDup_cons).
    + by eapply ordered_remove.
    + rewrite fmap_app, !fmap_cons in Hb |- *. apply Forall_app in Hb as [Hb1 Hb2].
      apply Forall_cons in Hb2 as [? Hb2]. apply Forall_cons in Hb2 as [_ Hb2].
      apply Forall_app. split; [done |]. by constructor.
    + intros z Hz. apply Hw. rewrite elem_of_app, elem_of_cons in Hz.
      destruct Hz as [?|[Heq|?]]; [set_solver | congruence | set_solver].
    + intros c Hc. assert (c ≠ m) by (by intros ->). destruct (Hli c) as [?|?]; [| by left | right; by apply Hlv].
      rewrite fmap_app, !fmap_cons in Hc |- *. set_solver.
Qed.

(** ** Lengthening a region *)

Lemma find_region_hit fuel (s : state) p l1 a o l2 start :
  region_list (vm_objs s) p (l1 ++ (a, o) :: l2) → base o = start →
  (∀ b y, (b, y) ∈ l1 → base y ≠ start) → (length l1 < fuel)%nat →
  find_region fuel s p start = Ok a.
Proof.
  intros Hl Ho. revert fuel p Hl. induction l1 as [|[b y] l1 IH]; intros [|fuel] p Hl Hne Hf;
    simpl in Hf; try lia; destruct Hl as (-> & Hb & Hy & Hl); cbn [find_region]; unfold obj_at;
    rewrite (proj2 (Z.eqb_neq _ NULL)), Hy by done; out_red.
  - by rewrite Ho, Z.eqb_refl.
  - rewrite (proj2 (Z.eqb_neq _ _)) by (apply (Hne b); left).
    apply IH; [done | intros; apply (Hne b0); by right | lia].
Qed.

Lemma find_region_miss fuel (s : state) p l start :
  region_list (vm_objs s) p l → (∀ b y, (b, y) ∈ l → base y ≠ start) → (length l < fuel)%nat →
  find_region fuel s p start = Ok NULL.
Proof.
  revert fuel p. induction l as [|[b y] l IH]; intros [|fuel] p Hl Hne Hf; simpl in Hf; try lia.
  - simpl in Hl. by subst p.
  - destruct Hl as (-> & Hb & Hy & Hl). cbn [find_region]. unfold obj_at.
    rewrite (proj2 (Z.eqb_neq _ NULL)), Hy by done. out_red.
    rewrite (proj2 (Z.eqb_neq _ _)) by (apply (Hne b); left).
    apply IH; [done | intros; apply (Hne b0); by right | lia].
Qed.

(** What [vmm_lengthen] does once it has found the region. *)
Lemma vmm_lengthen_found depth (s : state) l1 a o l2 inc0 :
  let inc := PAGE_ALIGN_int inc0 in
  vm_ok s (l1 ++ (a, o) :: l2) → (∀ b y, (b, y) ∈ l1 → base y ≠ base o) →
  0 ≤ inc0 < 2 ^ 31 - 0x1000 →
  vmm_lengthen sym depth s (base o) inc0 =
  if match l2 with [] => true | (_, x) :: _ => region_end o + inc <=? base x end
  then lengthen_loop sym depth (S (Z.to_nat (inc / 0x1000)))
         (set_obj s a (with_length o (vm_length o + inc))) a (region_end o)
  else Ok (false, s).
Proof.
  intros inc Hv Hne Hinc. destruct (page_align_int_least inc0 Hinc) as [Hr Ha]. fold inc in Hr, Ha.
  pose proof (vo_list _ _ Hv) as Hl. pose proof (vo_bounded _ _ Hv) as Hb.
  destruct (region_list_obj _ _ _ a o Hl) as [Ho Ha0]; [set_solver |].
  assert (bounded o) as (Hob & Hol & Hoe).
  { rewrite fmap_app, !fmap_cons in Hb. apply Forall_app in Hb as [_ Hb]. by apply Forall_cons in Hb as [? _]. }
  unfold vmm_lengthen. fold inc. rewrite (find_region_hit _ s _ l1 a o l2); try done.
  - out_red. rewrite (proj2 (Z.eqb_neq a NULL)) by done. unfold obj_at. rewrite Ho. out_red.
    unfold region_end, VM_LIMIT in *.
    rewrite (u64_small (base o + vm_length o)), (u64_small (vm_length o + inc)) by lia.
    apply region_list_next in Hl. destruct l2 as [|[m x] l2].
    + simpl in Hl. rewrite Hl. done.
    + destruct Hl as (-> & Hm & Hx & _). rewrite (proj2 (Z.eqb_neq m NULL)), Hx by done. out_red.
      rewrite (u64_small (base o + vm_length o + inc)) by lia. done.
  - pose proof (vm_ok_fuel _ _ Hv) as Hf. rewrite length_app in Hf. simpl in Hf. lia.
Qed.

(** vmm_lengthen returns false and changes nothing when no region starts
    at the address, as for the kernel heap, and when the next region is in the
    way. *)
Theorem vmm_lengthen_refused depth (s : state) l start inc0 :
  vm_ok s l →
  ((∀ b y, (b, y) ∈ l → base y ≠ start) → vmm_lengthen sym depth s start inc0 = Ok (false, s)) ∧
  (∀ l1 a o m x l2, l = l1 ++ (a, o) :: (m, x) :: l2 → base o = start →
    (∀ b y, (b, y) ∈ l1 → base y ≠ start) → 0 ≤ inc0 < 2 ^ 31 - 0x1000 →
    base x < region_end o + inc0 → vmm_lengthen sym depth s start inc0 = Ok (false, s)).
Proof.
  intros Hv. split.
  - intros Hne. unfold vmm_lengthen.
    rewrite (find_region_miss _ s _ l); [done | apply (vo_list _ _ Hv) | done |].
    pose proof (vm_ok_fuel _ _ Hv). lia.
  - intros l1 a o m x l2 -> <- Hne Hinc Hx. destruct (page_align_int_least inc0 Hinc) as [Hr _].
    rewrite (vmm_lengthen_found depth s l1 a o ((m, x) :: l2)) by done. cbv zeta beta iota.
    by rewrite (proj2 (Z.leb_gt _ _)) by lia.
Qed.

(** vmm_lengthen of a device region returns false, but only after it has
    added to the length of the region without mapping anything. *)
Theorem vmm_lengthen_mmio depth (s : state) l1 a o l2 inc0 :
  let inc := PAGE_ALIGN_int inc0 in
  vm_ok s (l1 ++ (a, o) :: l2) → (∀ b y, (b, y) ∈ l1 → base y ≠ base o) →
  0 < inc0 < 2 ^ 31 - 0x1000 → Z.land (flags o) VM_FLAG_MMIO ≠ 0 →
  (∀ m x l3, l2 = (m, x) :: l3 → region_end o + inc ≤ base x) →
  vmm_lengthen sym depth s (base o) inc0 =
  Ok (false, set_obj s a (with_length o (vm_length o + inc))).
Proof.
  intros inc Hv Hne Hinc Hfl Hgap. rewrite (vmm_lengthen_found depth s l1 a o l2) by (done || lia).
  fold inc. destruct (page_align_int_least inc0) as [Hr _]; [lia |]. fold inc in Hr.
  pose proof (vo_bounded _ _ Hv) as Hb.
  assert (bounded o) as (Hob & Hol & Hoe).
  { rewrite fmap_app, !fmap_cons in Hb. apply Forall_app in Hb as [_ Hb]. by apply Forall_cons in Hb as [? _]. }
  replace (match l2 with [] => true | (_, x) :: _ => region_end o + inc <=? base x end) with true
    by (destruct l2 as [|[m x] l3]; [done | specialize (Hgap m x l3 eq_refl); by zdec]).
  cbn [lengthen_loop]. unfold obj_at. simpl vm_objs. rewrite lookup_insert_eq. out_red.
  simpl base. simpl vm_length. simpl flags. unfold region_end, VM_LIMIT in *. rewrite u64_small by lia.
  rewrite (proj2 (Z.ltb_lt _ _)) by lia. by rewrite (proj2 (Z.eqb_neq _ _) Hfl).
Qed.

(** The part of [vmm_lengthen_grows] about regions of memory. *)
Lemma vmm_lengthen_memory fuel (s : state) lv room top l1 a o l2 inc0 :
  let inc := PAGE_ALIGN_int inc0 in
  let n := Z.to_nat (inc / 0x1000) in
  vm_ok s (l1 ++ (a, o) :: l2) → (∀ b y, (b, y) ∈ l1 → base y ≠ base o) →
  a ≠ kernel_page_tbls_obj sym → 0 ≤ inc0 < 2 ^ 31 - 0x1000 → Z.land (flags o) VM_FLAG_MMIO = 0 →
  (∀ m x l3, l2 = (m, x) :: l3 → region_end o + inc ≤ base x) →
  can_back sym n room s lv top (region_end o) →
  ∃ s' lv' top' ps, vmm_lengthen sym (S (S fuel)) s (base o) inc0 = Ok (true, s') ∧
    pages_mapped sym n room (set_obj s a (with_length o (vm_length o + inc))) lv top
      (region_end o) (flags o) s' lv' top' ps ∧
    vm_objs s' !! a = Some (with_length o (vm_length o + inc)) ∧
    (∀ i p, ps !! i = Some p → translate s' (current_pml4t_ptr s') (region_end o + Z.of_nat i * 0x1000) =
       Some (Z.lor (Z.lor p (flags o)) 7)).
Proof.
  intros inc n Hv Hne Ha Hinc Hfl Hgap Hc. rewrite (vmm_lengthen_found _ s l1 a o l2) by done. fold inc.
  destruct (page_align_int_least inc0 Hinc) as [Hr Hal]. fold inc in Hr, Hal.
  replace (match l2 with [] => true | (_, x) :: _ => region_end o + inc <=? base x end) with true
    by (destruct l2 as [|[m x] l3]; [done | specialize (Hgap m x l3 eq_refl); by zdec]).
  set (s1 := set_obj s a (with_length o (vm_length o + inc))).
  assert (vm_objs s1 !! a = Some (with_length o (vm_length o + inc))) as Ho1
    by (simpl; by rewrite lookup_insert_eq).
  assert (can_back sym n room s1 lv top (region_end o)) as Hc1.
  { destruct Hc as [Hi Hrm Hw Hf Hn Hv0 Hrg Hoff]. split; try done.
    - apply (pt_inv_same s); try done; [exact (pi_live _ _ Hi) | exact (pi_frames _ _ Hi) | exact (pi_free _ _ Hi)].
    - apply (window_same sym s); [done | done | | exact Hw]. intros w Hwo. exists w. simpl.
      rewrite lookup_insert_ne; done. }
  destruct (lengthen_loop_spec sym fuel n s1 lv room top (region_end o) a _ Hc1 Ho1 Ha)
    as (s' & lv' & top' & ps & Hll & Hp); [simpl; unfold region_end, n; mlia | done |].
  exists s', lv', top', ps. split; [exact Hll |]. split; [exact Hp |].
  pose proof (pm_space _ _ _ _ _ _ _ _ _ _ _ _ Hp) as Hsp. split.
  - by rewrite (ss_objs _ _ _ Hsp).
  - intros i p Hi. rewrite (ss_ptr _ _ _ Hsp). by apply (pm_entry _ _ _ _ _ _ _ _ _ _ _ _ Hp).
Qed.

(** [C20] vmm_lengthen of a region with room behind it adds the rounded length
    to the region.  For a region of memory other than the window of page
    tables it returns true and maps every new page to a distinct free frame;
    for a device region it returns false and maps nothing, but the length has
    grown. *)
Theorem vmm_lengthen_grows fuel (s : state) lv room top l1 a o l2 inc0 :
  let inc := PAGE_ALIGN_int inc0 in
  let n := Z.to_nat (inc / 0x1000) in
  let longer := with_length o (vm_length o + inc) in
  vm_ok s (l1 ++ (a, o) :: l2) → (∀ b y, (b, y) ∈ l1 → base y ≠ base o) →
  0 ≤ inc0 < 2 ^ 31 - 0x1000 → (∀ m x l3, l2 = (m, x) :: l3 → region_end o + inc ≤ base x) →
  (Z.land (flags o) VM_FLAG_MMIO = 0 → a ≠ kernel_page_tbls_obj sym → can_back sym n room s lv top (region_end o) →
    ∃ s' lv' top' ps, vmm_lengthen sym (S (S fuel)) s (base o) inc0 = Ok (true, s') ∧
      pages_mapped sym n room (set_obj s a longer) lv top (region_end o) (flags o) s' lv' top' ps ∧
      vm_objs s' !! a = Some longer ∧
      (∀ i p, ps !! i = Some p → translate s' (current_pml4t_ptr s') (region_end o + Z.of_nat i * 0x1000) =
         Some (Z.lor (Z.lor p (flags o)) 7))) ∧
  (Z.land (flags o) VM_FLAG_MMIO ≠ 0 → 0 < inc0 →
    vmm_lengthen sym (S (S fuel)) s (base o) inc0 = Ok (false, set_obj s a longer)).
Proof.
  intros inc n longer Hv Hne Hinc Hgap. split.
  - intros Hfl Ha Hc. by eapply vmm_lengthen_memory.
  - intros Hfl Hpos. apply (vmm_lengthen_mmio (S (S fuel)) s l1 a o l2 inc0); try done. lia.
Qed.

End Regions.

(** ** New address spaces *)

Section Spaces.
Context {F H : Type} `{FrameAlloc F} `{HeapAlloc H} (sym : symbols).
Local Abbreviation state := (mm F H).

(** [s1] with the kernel's top level entry copied into the fresh table [v]. *)
Lemma copy_kernel_entry (s1 : state) lv1 cur v w :
  pt_inv s1 lv1 → is_root s1 lv1 cur → is_root s1 lv1 v → entry s1 cur 511 w →
  (∀ j, 0 ≤ j < 512 → words s1 !! (v + 8 * j) = Some 0) → cur ≠ v →
  let s2 := set_words s1 (<[v + 8 * 511 := w]> (words s1)) in
  pt_inv s2 lv1 ∧ grows (λ _, False) s1 lv1 s2 lv1 ∧
  ∀ x, translate s2 v x = if pt_index x 3 =? 511 then translate s2 cur x else None.
Proof.
  intros Hi [Hc Hcl] [Hv Hvl] He Hz Hne s2. split; [| split].
  - apply store_inv; try done.
    + intros _ Hw. rewrite Hvl, <- Hcl. apply (pi_down _ _ Hi cur 511); [done | lia | done].
    + intros u j w' _ Hw Hu Hlu Hw' Hf. split; [| done].
      symmetry. apply (pi_parent _ _ Hi cur 511 w u j w'); try done; lia.
  - apply (store_grows s1 lv1 v 511 w 0); try done; [| lia]. split_and!; [done | lia | lia | by apply Hz].
  - intros x. unfold translate. pose proof (pt_index_range x 3) as Hx. cbn [resolve].
    change (Z.of_nat 3) with 3. destruct (pt_index x 3 =? 511) eqn:E; zbool.
    + rewrite E. simpl words. rewrite lookup_insert_eq, lookup_insert_ne.
      * destruct He as (_ & _ & ->). done.
      * intros Heq. apply Hne. by destruct (entry_inj s1 lv1 v 511 cur 511).
    + simpl words. rewrite lookup_insert_ne by lia. by rewrite Hz.
Qed.

(** The table of the new space is at an address that was no table before. *)
Lemma create_vmm_new fuel (s : state) lv room top :
  pt_inv s lv → 0 ≤ room → window sym (room + 1) s lv top →
  frames_left 1 (frames s) → nodes_left 1 (kheap s) →
  ∃ pml4t v s' lv',
    create_vmm sym (S fuel) s =
      Ok (VmObject 0 0 VM_FLAG_READ_WRITE (kernel_text_obj sym), pml4t, s') ∧
    ptbl s pml4t = None ∧ pt_inv s' lv' ∧ ptbl s' pml4t = Some v ∧ is_root s' lv' v ∧ ¬ is_table s v ∧
    (∀ x, translate s' v x =
       if pt_index x 3 =? 511 then translate s' (current_pml4t_ptr s') x else None) ∧
    ∀ r x e, is_root s lv r → translate s r x = Some e → page_of x ≠ page_of (top + 0x1000) →
      translate s' r x = Some e.
Proof.
  intros Hi Hr Hw (p & f & Hf & Hp & _) (tb & h & Hh & _).
  destruct (w_path _ _ _ _ _ Hw) as [wpt Hres].
  destruct (alloc_pg_table_fresh sym fuel s lv top wpt tb h p f) as (s1 & Hal & Hnt); try done.
  { eapply window_le; [| exact Hw]. lia. }
  set (v := top + 0x1000). set (lv1 := relevel lv v 3).
  assert (pt_inv s1 lv1) as Hi1 by (by eapply (fresh_inv sym s s1)).
  assert (grows (λ a, a = wpt + 8 * pt_index v 0) s lv s1 lv1) as Hg1 by (by eapply (fresh_grows sym s s1)).
  destruct (nt_current _ _ _ _ _ _ _ _ Hnt) as (_ & Hcur & _).
  pose proof (w_root _ _ _ _ _ Hw) as Hrt.
  assert (is_root s1 lv1 (current_pml4t_ptr s)) as Hrt1 by (by eapply grows_root).
  assert (ptbl s1 p = Some v) as Hpv by (by rewrite (nt_ptbl _ _ _ _ _ _ _ _ Hnt), Z.eqb_refl).
  assert (is_root s1 lv1 v) as Hrv
    by (split; [by exists p | unfold lv1, relevel; by rewrite Z.eqb_refl]).
  assert (¬ is_table s v) as Hnew by (by eapply fresh_new).
  assert (current_pml4t_ptr s ≠ v) as Hne by (intros Heq; apply Hnew; rewrite <- Heq; apply Hrt).
  destruct (pi_words _ _ Hi1 (current_pml4t_ptr s) 511) as [w Hword]; [apply Hrt1 | lia |].
  assert (∀ j, 0 ≤ j < 512 → words s1 !! (v + 8 * j) = Some 0) as Hz
    by (intros j Hj; by eapply (fresh_word_new sym s s1)).
  destruct (copy_kernel_entry s1 lv1 (current_pml4t_ptr s) v w) as (Hi2 & Hg2 & Htr); try done.
  { split_and!; [apply Hrt1 | lia | lia | done]. }
  set (s2 := set_words s1 (<[v + 8 * 511 := w]> (words s1))) in *.
  destruct (frame_fresh s lv p f Hi Hf Hp) as [Hnone _].
  exists p, v, s2, lv1. split_and!; try done.
  - unfold create_vmm, create_new_pml4t. rewrite Hal. out_red.
    destruct (ptbl_get_Some _ _ _ Hpv) as [-> _]. out_red. unfold load_word, store_word.
    rewrite Hcur, Hword. out_red.
    by rewrite Hz by lia.
  - rewrite <- Hpv. by apply ptbl_ext.
  - by eapply grows_root.
  - intros x. rewrite Htr. simpl current_pml4t_ptr. by rewrite Hcur.
  - intros r x e Hrr Htr' Hpg. eapply grows_translate; [exact Hi1 | exact Hg2 | by eapply grows_root | | auto].
    eapply grows_translate; [exact Hi | exact Hg1 | done | done |]. intros pt Hpt Hc.
    apply Hpg. pose proof (w_root _ _ _ _ _ Hw) as [Hct Hcl].
    destruct (resolve_table 3 s lv r x pt Hi) as [Hpt1 _]; [apply Hrr.. | done |].
    destruct (resolve_table 3 s lv _ _ wpt Hi Hct Hcl Hres) as [Hwt _].
    destruct (entry_inj s lv pt (pt_index x 0) wpt (pt_index v 0)) as [-> Hix]; try done;
      [apply pt_index_range.. |].
    apply (resolve_page s lv r (current_pml4t_ptr s) x v wpt); try done.
    rewrite <- Hres. apply resolve_region. unfold v. pose proof (w_region _ _ _ _ _ Hw) as Hreg.
    change (2 ^ 21) with 2097152 in *. mlia.
Qed.

(** [C14] create_vmm returns a new top level table that shares the kernel half
    (entry 511) with the current one and translates nothing else; existing
    translations are kept. *)
Theorem create_vmm_shares fuel (s : state) lv room top :
  pt_inv s lv → 0 ≤ room → window sym (room + 1) s lv top →
  frames_left 1 (frames s) → nodes_left 1 (kheap s) →
  ∃ pml4t v s' lv',
    create_vmm sym (S fuel) s =
      Ok (VmObject 0 0 VM_FLAG_READ_WRITE (kernel_text_obj sym), pml4t, s') ∧
    pt_inv s' lv' ∧ ptbl s' pml4t = Some v ∧ is_root s' lv' v ∧ ¬ is_table s v ∧
    (∀ x, translate s' v x =
       if pt_index x 3 =? 511 then translate s' (current_pml4t_ptr s') x else None) ∧
    ∀ r x e, is_root s lv r → translate s r x = Some e → page_of x ≠ page_of (top + 0x1000) →
      translate s' r x = Some e.
Proof.
  intros Hi Hr Hw Hf Hn. destruct (create_vmm_new fuel s lv room top Hi Hr Hw Hf Hn) as (p & v & s' & lv' & Hc & _ & Hrest).
  by exists p, v, s', lv'.
Qed.

End Spaces.

(** ** Device memory *)

(** The pointers [get_mmio_ptr] hands out for a sequence of lengths. *)
Fixpoint mmio_ptrs (mmio_region : Z) (lens : list Z) : list Z :=
  match lens with
  | [] => []
  | n :: lens' =>
      let '(p, r) := get_mmio_ptr mmio_region n in p :: mmio_ptrs r lens'
  end.

(** The device windows that get_mmio_ptr hands out one after the other
    do not overlap. *)
Theorem mmio_disjoint r lens :
  0 ≤ r → Forall (λ n, 0 ≤ n) lens → r + foldr (λ n a, n + 0x1000 + a) 0 lens < 2 ^ 64 - 0x1000 →
  ∀ i j p q n, mmio_ptrs r lens !! i = Some p → mmio_ptrs r lens !! j = Some q →
    lens !! i = Some n → (i < j)%nat → r ≤ p ∧ p + n ≤ q.
Proof.
  intros Hr Hl. revert r Hr. induction Hl as [|m lens Hm Hl IH]; intros r Hr Hsum; [done |].
  simpl in Hsum. assert (∀ r, 0 ≤ r → r + foldr (λ n a, n + 0x1000 + a) 0 lens < 2 ^ 64 - 0x1000 →
    ∀ k q, mmio_ptrs r lens !! k = Some q → r ≤ q) as Hge.
  { clear -Hl. induction Hl as [|m lens Hm Hl IH]; intros r Hr Hs k q Hq; [done |].
    simpl in Hs. assert (0 ≤ foldr (λ n a, n + 0x1000 + a) 0 lens) as H0
      by (clear -Hl; induction Hl; simpl; lia).
    destruct (page_align_least m) as [Hle _]; [lia |]. simpl in Hq.
    rewrite (u64_small (r + PAGE_ALIGN m)), u64_small in Hq by lia.
    destruct k as [|k]; simpl in Hq; [injection Hq as <-; lia |].
    apply IH in Hq; lia. }
  assert (0 ≤ foldr (λ n a, n + 0x1000 + a) 0 lens) as H0 by (clear -Hl; induction Hl; simpl; lia).
  destruct (page_align_least m) as [Hle _]; [lia |].
  intros i j p q n Hp Hq Hn Hij. simpl in Hp, Hq.
  rewrite (u64_small (r + PAGE_ALIGN m)), u64_small in Hp by lia.
  rewrite (u64_small (r + PAGE_ALIGN m)), u64_small in Hq by lia.
  destruct j as [|j]; [lia |]. simpl in Hq. destruct i as [|i]; simpl in Hp, Hn.
  - injection Hp as <-. injection Hn as <-. apply Hge in Hq; lia.
  - destruct (IH (r + PAGE_ALIGN m) ltac:(lia) ltac:(lia) i j p q n); try done; lia.
Qed.

(** ** Evaluation *)

Module VmmDemo.

Import PageMapDemo.
#[local] Existing Instance list_heap.

Definition head_obj : vm_object := VmObject 0 0 VM_FLAG_READ_WRITE 32.
Definition user_obj : vm_object := VmObject 0x400000 0x1000 VM_FLAG_READ_WRITE 4.
Definition text_obj : vm_object := VmObject KERNEL_TEXT_START 0x13000 VM_FLAG_READ_WRITE 3.
Definition vga_obj : vm_object := VmObject VGA_TEXT_BUFFER_BASE 0x1000 VM_FLAG_MMIO 1.
Definition window_obj : vm_object := VmObject KERNEL_PAGE_TBL_START 0x4000 VM_FLAG_READ_WRITE NULL.

(** The tables of [demo] with the regions head, user, kernel text, VGA buffer
    and window of page tables. *)
Definition demo_objs : gmap Z vm_object :=
  {[16 := head_obj; 32 := user_obj; 4 := text_obj; 3 := vga_obj; 1 := window_obj]}.

Definition demo_vm : mm pmm_state (list Z) :=
  set_current (set_vm_objs (set_kheap (demo 0x4000) [32; 16; 256; 192; 128; 64]) demo_objs) 0x1000 (V 1) 16.

Definition demo_regions : list (Z * vm_object) :=
  [(16, head_obj); (32, user_obj); (4, text_obj); (3, vga_obj); (1, window_obj)].

Lemma demo_same : same_tables (demo 0x4000) demo_vm.
Proof. done. Qed.

Lemma demo_vm_inv : pt_inv demo_vm demo_level.
Proof.
  apply (pt_inv_same (demo 0x4000)); [exact demo_same | apply demo_inv | | | done | done].
  - split; [done |]. intros p Hp. destruct (pi_live _ _ (demo_inv 0x4000)) as [_ Hl].
    specialize (Hl p Hp). change (p ∈ [256; 192; 128; 64]) in Hl. change (p ∈ [32; 16; 256; 192; 128; 64]).
    by do 2 right.
  - apply (pi_frames _ _ (demo_inv 0x4000)).
Qed.

Lemma demo_vm_window n : 0 ≤ n ≤ 0xfb → window demo_sym n demo_vm demo_level (V 4).
Proof.
  intros Hn. apply (window_same demo_sym (demo 0x4000)); [exact demo_same | done | | by apply demo_window].
  intros o Ho. exists window_obj. split; [reflexivity |]. by injection Ho as <-.
Qed.

Lemma demo_vm_ok : vm_ok demo_sym demo_vm demo_regions.
Proof.
  split.
  - simpl. by split_and!.
  - by repeat constructor; set_solver.
  - by vm_compute.
  - by repeat constructor.
  - intros o Ho. unfold demo_regions in Ho. simpl in Ho. rewrite !elem_of_cons, elem_of_nil in Ho.
    destruct Ho as [Ho|[Ho|[Ho|[Ho|[Ho|[]]]]]]; [discriminate Ho.. |]. by injection Ho as ->.
  - intros a Ha. change (a ∈ [16; 32; 4; 3; 1]) in Ha. change (a ∈ [1; 2; 3; 4] ∨ a ∈ [32; 16; 256; 192; 128; 64]).
    set_solver.
Qed.

End VmmDemo.

Import PageMapDemo VmmDemo.
#[local] Existing Instance list_heap.

Lemma demo_vm_frames n : (n ≤ 4)%nat → frames_left n demo_frames.
Proof.
  intros Hn. apply (frames_left_le n 4); [done |].
  do 4 (eexists _, _; split; [vm_compute; reflexivity |]; split; [done |]). done.
Qed.

(** Low pages are not in the window of page tables. *)
Lemma demo_off_window v : 0 ≤ v < 2 ^ 30 → off_window 1 v (V 4) 3.
Proof.
  intros Hv i u Hi Hu. unfold page_of, V, KERNEL_PAGE_TBL_START in *.
  change (2 ^ 30) with 1073741824 in *. change (2 ^ 36) with 68719476736.
  assert (i = 0) as -> by lia. mlia.
Qed.

Lemma demo_head_block :
  ha_alloc (kheap demo_vm) SIZEOF_VM_OBJECT = Ok (320, [320; 32; 16; 256; 192; 128; 64]).
Proof. reflexivity. Qed.

(** The first gap of an address space is at address 0. *)
Lemma vmm_alloc_first_fit_witness :
  ∃ s' e, vmm_alloc demo_sym 2 7 demo_vm NULL 0x1000 VM_FLAG_READ_WRITE NULL = Ok (NULL, s') ∧
    translate s' (V 1) 0 = Some e.
Proof.
  destruct (vmm_alloc_first_fit demo_sym 0 7 demo_vm demo_level 3 (V 4) demo_regions 0x1000
    VM_FLAG_READ_WRITE 16 0 320 [320; 32; 16; 256; 192; 128; 64])
    as (s' & lv' & top' & ps & l' & l1 & o & l2 & _ & _ & Ha & Hrb).
  - exact demo_vm_inv.
  - apply demo_vm_window. lia.
  - exact demo_vm_ok.
  - lia.
  - reflexivity.
  - reflexivity.
  - exact demo_head_block.
  - vm_compute. set_solver.
  - vm_compute. discriminate.
  - apply demo_vm_frames. vm_compute. lia.
  - apply demo_nodes_left.
  - change (Z.to_nat (PAGE_ALIGN 0x1000 / 0x1000)) with 1%nat. apply demo_off_window. lia.
  - destruct (rb_frames _ _ _ _ _ _ _ _ _ _ _ _ _ _ _ _ _ _ _ Hrb) as (Hlen & _).
    destruct ps as [|p [|q ps]]; [discriminate Hlen | | discriminate Hlen].
    pose proof (rb_entry _ _ _ _ _ _ _ _ _ _ _ _ _ _ _ _ _ _ _ Hrb 0%nat p eq_refl) as He.
    rewrite (rb_ptr _ _ _ _ _ _ _ _ _ _ _ _ _ _ _ _ _ _ _ Hrb) in He.
    exists s'. eexists. split; [exact Ha | exact He].
Defined.

Lemma vmm_alloc_at_witness :
  ∃ s', vmm_alloc demo_sym 2 7 demo_vm 0x800000 0x1000 VM_FLAG_READ_WRITE NULL = Ok (0x800000, s').
Proof.
  destruct (vmm_alloc_at demo_sym 0 7 demo_vm demo_level 3 (V 4) [(16, head_obj)] 32 user_obj
    [(4, text_obj); (3, vga_obj); (1, window_obj)] 0x800000 0x1000
    VM_FLAG_READ_WRITE 320 [320; 32; 16; 256; 192; 128; 64])
    as (s' & lv' & top' & ps & l' & Ha & _).
  - exact demo_vm_inv.
  - apply demo_vm_window. lia.
  - exact demo_vm_ok.
  - discriminate.
  - reflexivity.
  - lia.
  - lia.
  - vm_compute. discriminate.
  - vm_compute. reflexivity.
  - intros m x l3 [= <- <- <-]. vm_compute. discriminate.
  - exact demo_head_block.
  - vm_compute. set_solver.
  - vm_compute. discriminate.
  - apply demo_vm_frames. vm_compute. lia.
  - apply demo_nodes_left.
  - change (Z.to_nat (PAGE_ALIGN 0x1000 / 0x1000)) with 1%nat. apply demo_off_window. lia.
  - exists s'. exact Ha.
Defined.

(** A request inside [user_obj] that ends behind it is refused; one that runs
    into the kernel text is not. *)
Lemma vmm_alloc_overlap_check_witness :
  vmm_alloc demo_sym 2 7 demo_vm 0x400000 0x2000 VM_FLAG_READ_WRITE NULL = Ok (NULL, demo_vm).
Proof.
  apply (vmm_alloc_overlap_check demo_sym 2 7 demo_vm [(16, head_obj)] 32 user_obj 4 text_obj
    [(3, vga_obj); (1, window_obj)] 0x400000 0x2000 VM_FLAG_READ_WRITE).
  - exact demo_vm_ok.
  - reflexivity.
  - lia.
  - lia.
  - vm_compute. split; [discriminate | reflexivity].
Defined.

Lemma vmm_free_unlinks_witness :
  ∃ s', vmm_free demo_vm 0x400000 = Ok s' ∧
    ∀ r v, translate s' r v = translate demo_vm r v.
Proof.
  destruct (vmm_free_unlinks demo_sym demo_vm [] 16 head_obj 32 user_obj
    [(4, text_obj); (3, vga_obj); (1, window_obj)]) as (s' & Hf & _ & _ & _ & Ht).
  - exact I.
  - exact demo_vm_ok.
  - vm_compute. set_solver.
  - intros b y [= _ ->]%list_elem_of_singleton. discriminate.
  - exists s'. split; [exact Hf | exact Ht].
Defined.

Lemma vmm_lengthen_refused_witness :
  vmm_lengthen demo_sym 2 demo_vm KERNEL_HEAP_START 0x1000 = Ok (false, demo_vm).
Proof.
  apply (vmm_lengthen_refused demo_sym 2 demo_vm demo_regions KERNEL_HEAP_START 0x1000 demo_vm_ok).
  intros b y Hin. unfold demo_regions in Hin. rewrite !elem_of_cons, elem_of_nil in Hin.
  destruct Hin as [Hin|[Hin|[Hin|[Hin|[Hin|[]]]]]]; injection Hin as _ ->; vm_compute; discriminate.
Defined.

Lemma vmm_lengthen_mmio_witness :
  vmm_lengthen demo_sym 2 demo_vm VGA_TEXT_BUFFER_BASE 0x1000 =
  Ok (false, set_obj demo_vm 3 (with_length vga_obj 0x2000)).
Proof.
  apply (vmm_lengthen_mmio demo_sym 2 demo_vm [(16, head_obj); (32, user_obj); (4, text_obj)] 3 vga_obj
    [(1, window_obj)] 0x1000 demo_vm_ok).
  - intros b y Hin. rewrite !elem_of_cons, elem_of_nil in Hin.
    destruct Hin as [Hin|[Hin|[Hin|[]]]]; injection Hin as _ ->; vm_compute; discriminate.
  - lia.
  - vm_compute. discriminate.
  - intros m x l3 [= <- <- <-]. vm_compute. discriminate.
Defined.

Lemma vmm_lengthen_grows_witness :
  (∃ s', vmm_lengthen demo_sym 2 demo_vm 0x400000 0x1000 = Ok (true, s') ∧
    vm_objs s' !! 32 = Some (with_length user_obj 0x2000)) ∧
  vmm_lengthen demo_sym 2 demo_vm VGA_TEXT_BUFFER_BASE 0x1000 =
    Ok (false, set_obj demo_vm 3 (with_length vga_obj 0x2000)).
Proof.
  split.
  - destruct (vmm_lengthen_grows demo_sym 0 demo_vm demo_level 3 (V 4) [(16, head_obj)] 32 user_obj
      [(4, text_obj); (3, vga_obj); (1, window_obj)] 0x1000 demo_vm_ok) as [Hmem _].
    + intros b y [= _ ->]%list_elem_of_singleton. discriminate.
    + lia.
    + intros m x l3 [= <- <- <-]. vm_compute. discriminate.
    + destruct Hmem as (s' & lv' & top' & ps & Hl & _ & Ho & _); [reflexivity | discriminate | |].
      * change (Z.to_nat (PAGE_ALIGN_int 0x1000 / 0x1000)) with 1%nat. split.
        -- exact demo_vm_inv.
        -- lia.
        -- apply demo_vm_window. lia.
        -- apply demo_vm_frames. lia.
        -- apply demo_nodes_left.
        -- reflexivity.
        -- vm_compute. split_and!; (reflexivity || discriminate).
        -- apply demo_off_window. vm_compute. split; [discriminate | reflexivity].
      * exists s'. split; [exact Hl | exact Ho].
  - apply (vmm_lengthen_grows demo_sym 0 demo_vm demo_level 3 (V 4) [(16, head_obj); (32, user_obj); (4, text_obj)]
      3 vga_obj [(1, window_obj)] 0x1000 demo_vm_ok).
    + intros b y Hin. rewrite !elem_of_cons, elem_of_nil in Hin.
      destruct Hin as [Hin|[Hin|[Hin|[]]]]; injection Hin as _ ->; vm_compute; discriminate.
    + lia.
    + intros m x l3 [= <- <- <-]. vm_compute. discriminate.
    + vm_compute. discriminate.
    + lia.
Defined.

Lemma create_vmm_shares_witness :
  ∃ o pml4t s', create_vmm demo_sym 1 demo_vm = Ok (o, pml4t, s') ∧ vm_next o = kernel_text_obj demo_sym.
Proof.
  destruct (create_vmm_shares demo_sym 0 demo_vm demo_level 3 (V 4)) as (p & v & s' & lv' & Hc & _).
  - exact demo_vm_inv.
  - lia.
  - apply demo_vm_window. lia.
  - apply demo_vm_frames. lia.
  - apply demo_nodes_left.
  - eexists _, p, s'. split; [exact Hc | reflexivity].
Defined.

Lemma mmio_disjoint_witness :
  ∃ p q, mmio_ptrs 0xffffff80000c1000 [0x10; 0x2000] = [p; q] ∧ p + 0x10 ≤ q.
Proof.
  exists 0xffffff80000c1000, 0xffffff80000c2000. split; [reflexivity |].
  apply (mmio_disjoint 0xffffff80000c1000 [0x10; 0x2000]) with (i := 0%nat) (j := 1%nat);
    [lia | repeat constructor; lia | simpl; lia | reflexivity | reflexivity | reflexivity | lia].
Defined.
