(* ===== verification/Space.v ===== *)
(** * The current address space

    Allocating memory never switches the address space, however it ends: CR3,
    the pointer to the top level table, the region list and the structures of
    the address spaces are those from before. *)

From S2P Require Import Prelude Iface MmState HashMap PageMap Vmm.

(** Follows a call that returned [Ok], step by step. *)
Ltac steps H := repeat match type of H with
  | _ ≫= _ = Ok _ => let x := fresh "r" in let Hx := fresh "Hr" in apply bind_Ok in H as (x & Hx & H)
  | (let '(_, _) := ?x in _) = Ok _ => destruct x
  | (if ?b then _ else _) = Ok _ => destruct b
  | Ok _ = Ok _ => injection H; clear H; intros; subst
  | Fault _ = Ok _ => discriminate H
  | NoFuel = Ok _ => discriminate H
  end.

(** Also the calls that made up its parts. *)
Ltac all_steps H := steps H; repeat match goal with
  | Hx : _ ≫= _ = Ok _ |- _ => progress steps Hx
  | Hx : (if _ then _ else _) = Ok _ |- _ => progress steps Hx
  end.

Section Space.
Context {F H : Type} `{FrameAlloc F} `{HeapAlloc H} (sym : symbols) (depth : nat) (uninit : Z).
Local Abbreviation state := (mm F H).

(** The address space is the same in both states. *)
Record same_space (s s' : state) : Prop := {
  ss_cr3 : cr3 s' = cr3 s;
  ss_root : current_pml4t_ptr s' = current_pml4t_ptr s;
  ss_vmm : current_vmm s' = current_vmm s;
  ss_pml4ts : pml4ts s' = pml4ts s;
}.

#[export] Instance same_space_preorder : PreOrder same_space.
Proof.
  split; [by intros s |]. intros s1 s2 s3 [A1 A2 A3 A4] [B1 B2 B3 B4]. split; congruence.
Qed.

Lemma store_word_space (s s' : state) a v : store_word s a v = Ok s' → same_space s s'.
Proof. unfold store_word. destruct (words s !! a); [| done]. by intros [= <-]. Qed.

Lemma kmalloc_mm_space (s s' : state) n p : kmalloc_mm s n = Ok (p, s') → same_space s s'.
Proof. unfold kmalloc_mm. intros Hk. steps Hk. done. Qed.

Lemma pmm_alloc_page_space (s s' : state) p : pmm_alloc_page_mm s = Ok (p, s') → same_space s s'.
Proof. unfold pmm_alloc_page_mm. intros Hk. steps Hk. done. Qed.

Lemma insert_loop_space fuel : ∀ (s s' : state) c t b, insert_loop fuel s c t = Ok (b, s') → same_space s s'.
Proof.
  induction fuel as [|fuel IH]; intros s s' c t b Hi; [done |]. cbn [insert_loop] in Hi. steps Hi; [done | done |].
  by eapply IH.
Qed.

Lemma pg_tbl_insert_space (s s' : state) t b : pg_tbl_insert s t = Ok (b, s') → same_space s s'.
Proof. unfold pg_tbl_insert. intros Hi. steps Hi; [done |]. by eapply insert_loop_space. Qed.

(** Puts the facts together. *)
Ltac keeps := repeat match goal with
  | Hs : same_space _ _ |- _ => destruct Hs
  | Hs : store_word _ _ _ = Ok _ |- _ => apply store_word_space in Hs
  | Hs : kmalloc_mm _ _ = Ok (_, _) |- _ => apply kmalloc_mm_space in Hs
  | Hs : pmm_alloc_page_mm _ = Ok (_, _) |- _ => apply pmm_alloc_page_space in Hs
  | Hs : pg_tbl_insert _ _ = Ok (_, _) |- _ => apply pg_tbl_insert_space in Hs
  end; split; simpl in *; congruence.

Lemma publish_table_space (s s' : state) t p : publish_table s t = Ok (p, s') → same_space s s'.
Proof. unfold publish_table, clear_page. intros Hp. steps Hp; keeps. Qed.

(** For the mutual recursion: what a call of [mmap] keeps, [alloc_pg_table]
    keeps, and the other way round. *)
Definition keeps_space {A} (f : state → outcome (A * state)) : Prop :=
  ∀ s x s', f s = Ok (x, s') → same_space s s'.

Lemma alloc_pg_table_keeps m :
  (∀ r p v fl, keeps_space (λ s, m s r p v fl)) → keeps_space (alloc_pg_table sym m).
Proof.
  intros Hm s p s' Ha. unfold alloc_pg_table in Ha. steps Ha;
    repeat match goal with
    | Hs : publish_table _ _ = Ok (_, _) |- _ => apply publish_table_space in Hs
    | Hs : m _ _ _ _ _ = Ok (_, _) |- _ => apply Hm in Hs
    end; keeps.
Qed.

Lemma mmap_levels_keeps alloc n : ∀ t v, keeps_space alloc → keeps_space (λ s, mmap_levels alloc n s t v).
Proof.
  induction n as [|n IH]; intros t v Ha s x s' Hl; cbn [mmap_levels] in Hl; steps Hl; try done.
  - by eapply IH.
  - apply IH in Hl; [| done]. match goal with Hs : alloc _ = Ok _ |- _ => apply Ha in Hs end. keeps.
Qed.

Lemma mmap_keeps fuel : ∀ r p v fl, keeps_space (λ s, mmap sym fuel s r p v fl).
Proof.
  induction fuel as [|fuel IH]; intros r p v fl s x s' Hm; [done |]. cbn [mmap] in Hm. steps Hm.
  match goal with Hs : mmap_levels _ _ _ _ _ = Ok _ |- _ => apply (mmap_levels_keeps _ _ _ _ (alloc_pg_table_keeps _ IH)) in Hs end.
  destruct o; steps Hm; keeps.
Qed.

Lemma back_pages_keeps n : ∀ v fl args, keeps_space (λ s, back_pages sym depth n s v fl args).
Proof.
  induction n as [|n IH]; intros v fl args s x s' Hb; cbn [back_pages] in Hb; all_steps Hb; try done;
    repeat match goal with Hs : mmap _ _ _ _ _ _ _ = Ok _ |- _ => apply mmap_keeps in Hs end;
    try apply IH in Hb; keeps.
Qed.

Lemma add_region_keeps a b n fl args : keeps_space (λ s, add_region sym depth s a b n fl args).
Proof.
  intros s x s' Ha. unfold add_region in Ha. steps Ha;
    match goal with Hs : back_pages _ _ _ _ _ _ _ = Ok _ |- _ => apply back_pages_keeps in Hs end; keeps.
Qed.

Lemma vmm_alloc_keeps a n fl args : keeps_space (λ s, vmm_alloc sym depth uninit s a n fl args).
Proof.
  intros s x s' Ha. unfold vmm_alloc in Ha. cbv zeta in Ha. steps Ha; [by apply add_region_keeps in Ha |].
  destruct r; steps Ha; [by apply add_region_keeps in Ha | done].
Qed.

Lemma create_sections_space {C : Type} (error : C → outcome C) l : ∀ c (s : state) c' s',
  create_sections sym depth uninit error c s l = Ok (c', s') → same_space s s'.
Proof.
  induction l as [|x l IH]; intros c s c' s' Hc; cbn [create_sections] in Hc; steps Hc; [done |].
  apply IH in Hc. etrans; [| exact Hc]. clear IH Hc.
  match goal with Hr : _ = Ok (_, _) |- _ => steps Hr end; try done;
    match goal with Hs : vmm_alloc _ _ _ _ _ _ _ _ = Ok _ |- _ => by apply vmm_alloc_keeps in Hs end.
Qed.

Lemma create_stack_space (s s' : state) a : create_stack sym depth uninit s a = Ok s' → same_space s s'.
Proof.
  unfold create_stack. intros Hc. apply bind_Ok in Hc as ([c s1] & Hc & [= <-]). by eapply create_sections_space.
Qed.

Lemma create_new_pml4t_keeps : keeps_space (create_new_pml4t sym depth).
Proof.
  intros s x s' Hc. unfold create_new_pml4t in Hc. steps Hc.
  match goal with Hs : alloc_pg_table _ _ _ = Ok _ |- _ => apply (alloc_pg_table_keeps _ (mmap_keeps depth)) in Hs end.
  keeps.
Qed.

Lemma create_vmm_keeps : keeps_space (create_vmm sym depth).
Proof.
  intros s x s' Hc. unfold create_vmm in Hc. steps Hc. by eapply create_new_pml4t_keeps.
Qed.

Lemma switch_vm_space_spec (s s' : state) vmm :
  switch_vm_space s vmm = Ok s' → pml4ts s !! vmm = Some (cr3 s') ∧ current_vmm s' = vmm ∧ pml4ts s' = pml4ts s.
Proof.
  unfold switch_vm_space. intros Hs. steps Hs.
  match goal with Hx : of_option _ _ = Ok _ |- _ => apply of_option_Ok in Hx end. done.
Qed.

(** The user stack of another process: the space of the running one is switched
    to at the end. *)
Lemma alloc_user_stack_space (s s' : state) a vmm cur p :
  alloc_user_stack sym depth uninit s a vmm cur = Ok (p, s') →
  p = a ∧ pml4ts s' = pml4ts s ∧ pml4ts s !! cur = Some (cr3 s') ∧ current_vmm s' = cur.
Proof.
  unfold alloc_user_stack. intros Ha. steps Ha.
  repeat match goal with
  | Hs : switch_vm_space _ _ = Ok _ |- _ => apply switch_vm_space_spec in Hs as (? & ? & ?)
  | Hs : create_stack _ _ _ _ _ = Ok _ |- _ => apply create_stack_space in Hs; destruct Hs
  end. split_and!; congruence.
Qed.

End Space.
