(* ===== verification/VmmInit.v ===== *)
(** * Start of the virtual memory manager ([vmm_init] of vmm.c)

    The regions that vmm.c declares statically, and the state in which
    [vmm_init] leaves the memory manager: the invariants that the theorems of
    Vmm.v and PageMap.v ask for hold there. *)

From S2P Require Import Prelude Iface Pmm MmState HashMap PageMap Vmm.

(** ** Putting tables that the map does not know yet *)

Section Put.
Context {F H : Type} `{HeapAlloc H}.
Local Abbreviation state := (mm F H).

(** [s'] is [s] with another heap and another hash map. *)
Definition map_heap_only (s s' : state) : Prop :=
  ∃ h ns hb, s' = set_vmm_hashmap (set_pt_nodes (set_kheap s h) ns) hb.

Lemma map_heap_only_trans s1 s2 s3 : map_heap_only s1 s2 → map_heap_only s2 s3 → map_heap_only s1 s3.
Proof. intros (? & ? & ? & ->) (h & ns & hb & ->). by exists h, ns, hb. Qed.

(** The hash map of [s] with the chains [ls] answers like [f]. *)
Record answers (s : state) (ls : list (list Z)) (f : Z → option Z) : Prop := {
  an_wf : hm_wf s ls;
  an_live : nodes_live s;
  an_lookup : ∀ k, hm_lookup s ls k = f k;
}.

Lemma put_new s ls f vaddr paddr p h :
  answers s ls f → f paddr = None → ha_alloc (kheap s) SIZEOF_PAGE_TABLE_T = Ok (p, h) →
  ∃ s' ls', vmm_hashmap_put s vaddr paddr = Ok (true, s') ∧ map_heap_only s s' ∧ kheap s' = h ∧
    answers s' ls' (λ k, if k =? paddr then Some vaddr else f k).
Proof.
  intros [Hwf Hnl Hf] Hnew Ha. unfold vmm_hashmap_put, kmalloc_mm.
  destruct (hm_buckets _ _ Hwf) as (bs & Hbs & _). rewrite Hbs, Ha. out_red. simpl pt_nodes.
  set (t := PageTable _ vaddr paddr true NULL).
  destruct (kmalloc_loose s ls t p h Hwf Hnl eq_refl Ha) as (Hnone & Hwf1 & Hnl1 & Hlo).
  set (s1 := set_node (set_kheap s h) p t) in *.
  assert (∀ k, hm_lookup s1 ls k = f k) as Hlk.
  { intros k. rewrite <- Hf. by apply (hm_lookup_fresh_node (set_kheap s h)); [by apply (hm_wf_proper s) |]. }
  assert (dup_node s1 ls paddr = None) as Hdup.
  { apply find_node_none.
    - intros q Hq. apply (hm_home_node s1 ls paddr); [done |]. destruct (home ls paddr); [done | by right].
    - specialize (Hlk paddr). rewrite Hnew in Hlk. unfold hm_lookup in Hlk. fold (home ls paddr) in Hlk.
      destruct (home ls paddr) as [|q l] eqn:Eh; [done |]. cbn [find_chain] in Hlk. cbn [tail].
      destruct (hm_home_node s1 ls paddr q Hwf1) as [x Hx]; [rewrite Eh; left |]. rewrite Hx in Hlk.
      by destruct (_ =? _). }
  destruct (pg_tbl_insert_append s1 ls p t Hwf1 Hlo Hdup) as (s' & Hins & Hwf' & Hmo & _ & Hsub & Hlook).
  exists s', (append_node ls p (pt_paddr t)). split; [exact Hins |]. pose proof Hmo as (ns & hb & ->).
  split_and!; [by exists h, ns, hb | done |]. split; [done | by eapply nodes_live_map_only |].
  intros k. rewrite Hlook, Hlk. change (pt_paddr t) with paddr. change (pt_vaddr t) with vaddr.
  destruct (k =? paddr) eqn:E; [| by destruct (f k)]. zbool. subst k. by rewrite Hnew.
Qed.

(** [kmalloc] succeeds on the sizes, one after the other, with pointers in
    [P]. *)
Fixpoint heap_gives (P : Z → Prop) (h : H) (sizes : list Z) : Prop :=
  match sizes with
  | [] => True
  | n :: sizes' => ∃ p h', ha_alloc h n = Ok (p, h') ∧ P p ∧ heap_gives P h' sizes'
  end.

(** The map from the physical address to the virtual one. *)
Fixpoint vaddr_of (ts : list (Z * Z)) (k : Z) : option Z :=
  match ts with
  | [] => None
  | (v, p) :: ts' => if k =? p then Some v else vaddr_of ts' k
  end.

Lemma vaddr_of_in ts k v : vaddr_of ts k = Some v → (v, k) ∈ ts.
Proof.
  induction ts as [|[v' p] ts IH]; [done |]. simpl. destruct (k =? p) eqn:E; zbool.
  - intros [= ->]. subst p. left.
  - intros Hv. right. by apply IH.
Qed.

Lemma vaddr_of_spec ts k v : NoDup ts.*2 → vaddr_of ts k = Some v ↔ (v, k) ∈ ts.
Proof.
  intros Hnd. split; [apply vaddr_of_in |]. induction ts as [|[v' p] ts IH]; [set_solver |].
  simpl in *. apply NoDup_cons in Hnd as [Hp Hnd]. intros [[= -> ->]|Hin]%elem_of_cons; [by rewrite Z.eqb_refl |].
  rewrite (proj2 (Z.eqb_neq _ _)); [by apply IH |]. intros ->. apply Hp. apply list_elem_of_fmap. by exists (v, p).
Qed.

Lemma put_tables_answers ts : ∀ s ls f P sizes,
  answers s ls f → NoDup ts.*2 → (∀ v p, (v, p) ∈ ts → f p = None) →
  heap_gives P (kheap s) (replicate (length ts) SIZEOF_PAGE_TABLE_T ++ sizes) →
  ∃ s' ls', put_tables s ts = Ok s' ∧ map_heap_only s s' ∧ heap_gives P (kheap s') sizes ∧
    answers s' ls' (λ k, match vaddr_of ts k with Some v => Some v | None => f k end).
Proof.
  induction ts as [|[v p] ts IH]; intros s ls f P sizes Ha Hnd Hf Hg.
  - exists s, ls. split_and!; [done | | done | done]. exists (kheap s), (pt_nodes s), (vmm_hashmap s). by destruct s.
  - cbn [length replicate app heap_gives] in Hg. destruct Hg as (q & h & Hq & _ & Hg).
    cbn [fmap list_fmap] in Hnd. apply NoDup_cons in Hnd as [Hp Hnd].
    destruct (put_new s ls f v p q h Ha) as (s1 & ls1 & Hput & Hm1 & Hh1 & Ha1); [apply (Hf v p); left | done |].
    cbn [put_tables]. rewrite Hput. out_red. rewrite <- Hh1 in Hg.
    destruct (IH s1 ls1 _ P sizes Ha1 Hnd) as (s2 & ls2 & Hts & Hm2 & Hg2 & Ha2); [| done |].
    + intros v' p' Hin. rewrite (proj2 (Z.eqb_neq _ _)); [apply (Hf v'); by right |].
      intros ->. apply Hp. apply list_elem_of_fmap. by exists (v', p).
    + exists s2, ls2. split_and!; [done | by eapply map_heap_only_trans | done |].
      destruct Ha2 as [A1 A2 A3]. split; [done | done |]. intros k. rewrite A3. cbn [vaddr_of].
      destruct (k =? p) eqn:E; [| done]. zbool. subst k. destruct (vaddr_of ts p) as [v'|] eqn:Ev; [| done].
      destruct Hp. apply list_elem_of_fmap. exists (v', p). split; [done |]. by apply vaddr_of_in.
Qed.

End Put.

(** ** The regions of vmm.c *)

Section Init.
Context {F H : Type} `{FrameAlloc F} `{HeapAlloc H} (sym : symbols).
Local Abbreviation state := (mm F H).

(** [kernel_text_obj], [vga_text_buffer_obj], [kernel_pmm_obj] and
    [kernel_page_tbls_obj] as they are declared. *)
Definition static_objs : list (Z * vm_object) :=
  [(kernel_text_obj sym, VmObject KERNEL_TEXT_START 0x13000 VM_FLAG_READ_WRITE (vga_text_buffer_obj sym));
   (vga_text_buffer_obj sym, VmObject VGA_TEXT_BUFFER_BASE 0x1000 VM_FLAG_MMIO (kernel_pmm_obj sym));
   (kernel_pmm_obj sym, VmObject KERNEL_PMM_START 0x1000 VM_FLAG_READ_WRITE (kernel_page_tbls_obj sym));
   (kernel_page_tbls_obj sym, VmObject KERNEL_PAGE_TBL_START 0x6000 VM_FLAG_READ_WRITE NULL)].

(** The regions of an address space whose head is at [v]. *)
Definition initial_regions (v KERNEL_SIZE : Z) : list (Z * vm_object) :=
  (v, VmObject 0 0 VM_FLAG_READ_WRITE (kernel_text_obj sym)) ::
  (kernel_text_obj sym, VmObject KERNEL_TEXT_START KERNEL_SIZE VM_FLAG_READ_WRITE (vga_text_buffer_obj sym)) ::
  tail static_objs.

(** The state at the start of [vmm_init]: the objects are where the linker put
    them, and the heap is initialised but holds no table. *)
Record before_init (s : state) : Prop := {
  bi_objs : Forall (λ x, vm_objs s !! x.1 = Some x.2) static_objs;
  bi_statics : NoDup (statics sym) ∧ NULL ∉ statics sym;
  bi_live : nodes_live s;
}.

(** The page tables of the boot code, with the frames they lie in reserved in
    [f]: what [pt_inv] asks for, table by table. *)
Record boot_tables (s : state) (f : F) (lv : Z → Z) (ts : list (Z * Z)) : Prop := {
  bt_frames : fa_inv f;
  bt_freed : tables s = NULL;
  bt_table : ∀ v p, (v, p) ∈ ts → v mod 0x1000 = 0 ∧ 0 ≤ lv v ≤ 3 ∧ p mod 0x1000 = 0 ∧ 0 < p < 2 ^ 64 ∧ fa_taken f p;
  bt_inj : ∀ v p q, (v, p) ∈ ts → (v, q) ∈ ts → p = q;
  bt_words : ∀ v i, v ∈ ts.*1 → 0 ≤ i < 512 → is_Some (words s !! (v + 8 * i));
  bt_down : ∀ v i w, v ∈ ts.*1 → 0 ≤ i < 512 → words s !! (v + 8 * i) = Some w → 1 ≤ lv v → present w = true →
    ∃ v', (v', frame_of w) ∈ ts ∧ lv v' = lv v - 1;
  bt_parent : ∀ v1 i1 w1 v2 i2 w2, v1 ∈ ts.*1 → 0 ≤ i1 < 512 → words s !! (v1 + 8 * i1) = Some w1 →
    v2 ∈ ts.*1 → 0 ≤ i2 < 512 → words s !! (v2 + 8 * i2) = Some w2 → 1 ≤ lv v1 → 1 ≤ lv v2 →
    present w1 = true → present w2 = true → frame_of w1 = frame_of w2 → i1 = i2 ∧ (v1 = v2 ∨ lv v1 = 3);
}.

(** What [vmm_init] leaves. *)
Record initialised (s s' : state) (KERNEL_SIZE v : Z) (ts : list (Z * Z)) : Prop := {
  in_current : current_vmm s' = v ∧ pml4ts s' !! v = Some (cr3 s) ∧ cr3 s' = cr3 s ∧
    current_pml4t_ptr s' = current_pml4t_ptr s;
  in_words : words s' = words s ∧ frames s' = frames s ∧ tables s' = tables s;
  in_regions : region_list (vm_objs s') v (initial_regions v KERNEL_SIZE);
  in_map : ∃ ls, answers s' ls (vaddr_of ts);
  in_head : ha_live (kheap s') v ∧ (v ∉ statics sym) ∧ v ≠ NULL;
}.

Lemma static_regions (s : state) v KERNEL_SIZE :
  before_init s → v ∉ statics sym → v ≠ NULL →
  region_list
    (<[v := VmObject 0 0 VM_FLAG_READ_WRITE (kernel_text_obj sym)]>
       (<[kernel_text_obj sym := VmObject KERNEL_TEXT_START KERNEL_SIZE VM_FLAG_READ_WRITE (vga_text_buffer_obj sym)]>
          (vm_objs s))) v (initial_regions v KERNEL_SIZE).
Proof.
  intros [Ho [Hnd Hn] _] Hv Hv0. unfold static_objs in Ho. rewrite !Forall_cons in Ho. simpl in Ho.
  destruct Ho as (_ & Hg & Hp & Ht & _). unfold statics in *.
  rewrite !not_elem_of_cons in Hn, Hv. rewrite !NoDup_cons, !not_elem_of_cons in Hnd.
  destruct Hn as (? & ? & ? & ? & _), Hv as (? & ? & ? & ? & _), Hnd as ((? & ? & ? & _) & (? & ? & _) & (? & _) & _).
  unfold initial_regions, static_objs. cbn [tail region_list vm_next].
  rewrite lookup_insert_eq, !(lookup_insert_ne _ v) by done. rewrite lookup_insert_eq, !lookup_insert_ne by done.
  by split_and!.
Qed.

Lemma vmm_init_spec (s : state) KERNEL_SIZE ts :
  before_init s → NoDup ts.*2 →
  heap_gives (λ p, p ∉ statics sym) (kheap s)
    (SIZEOF_PTR * HASH_MAP_BUCKETS :: replicate (length ts) SIZEOF_PAGE_TABLE_T ++ [SIZEOF_VMM_T]) →
  ∃ s' v, vmm_init sym s KERNEL_SIZE ts = Ok s' ∧ initialised s s' KERNEL_SIZE v ts.
Proof.
  intros Hb Hnd Hg. cbn [heap_gives] in Hg. destruct Hg as (q & h & Hq & _ & Hg).
  pose proof Hb as [Ho _ [Hi Hnl]]. unfold static_objs in Ho. rewrite Forall_cons in Ho. destruct Ho as [Ho _].
  cbn [fst snd] in Ho. unfold vmm_init, obj_at. rewrite Ho. out_red. unfold vmm_hashmap_init, kmalloc_mm.
  cbn [kheap set_obj set_vm_objs]. rewrite Hq. out_red.
  destruct (ha_alloc_spec _ (SIZEOF_PTR * HASH_MAP_BUCKETS) _ _ Hi ltac:(done) Hq) as (Hi1 & _ & _ & Hl1).
  match goal with |- context [put_tables ?s ts] => set (s1 := s) end.
  assert (answers s1 (replicate 20 []) (λ _, None)) as Ha.
  { split.
    - split.
      + exists (replicate 20 NULL). split_and!; [done | done |].
        intros i b l [-> _]%lookup_replicate [-> _]%lookup_replicate. done.
      + done.
      + intros i l [-> _]%lookup_replicate. constructor.
      + intros i l p t [-> _]%lookup_replicate Hp. by apply not_elem_of_nil in Hp.
    - split; [done |]. intros p Hp. apply Hl1. right. by apply Hnl.
    - intros k. unfold hm_lookup. pose proof (hash_range k). by rewrite lookup_replicate_2 by lia. }
  destruct (put_tables_answers ts s1 _ _ (λ p, p ∉ statics sym) [SIZEOF_VMM_T] Ha Hnd) as (s2 & ls & -> & (h2 & ns & hb & ->) & Hg2 & Ha2);
    [done | exact Hg |]. out_red. destruct Hg2 as (v & h3 & Hv & Hvs & _). unfold kmalloc_mm. rewrite Hv. out_red.
  set (s2 := set_vmm_hashmap _ hb) in *. destruct Ha2 as [A1 [A2 A4] A3]. destruct (ha_alloc_spec _ SIZEOF_VMM_T _ _ A2 ltac:(done) Hv) as (Hi3 & Hv0 & _ & Hl3).
  eexists _, v. split; [reflexivity |]. split.
  - split_and!; try done. apply lookup_insert_eq.
  - done.
  - by apply static_regions; [| | unfold NULL; lia].
  - exists ls. split.
    + by apply (hm_wf_proper s2).
    + split; [done |]. intros p Hp. apply Hl3. right. by apply A4.
    + intros k. transitivity (hm_lookup s2 ls k); [done |]. rewrite A3. by destruct (vaddr_of ts k).
  - split_and!; [apply Hl3; by left | done | unfold NULL; lia].
Qed.

(** The regions are in order when the kernel ends in front of the text
    buffer. *)
Lemma initialised_vm_ok (s s' : state) KERNEL_SIZE v ts :
  before_init s → initialised s s' KERNEL_SIZE v ts → 0 ≤ KERNEL_SIZE →
  vm_ok sym s' (initial_regions v KERNEL_SIZE) ↔ KERNEL_SIZE ≤ VGA_TEXT_BUFFER_BASE - KERNEL_TEXT_START.
Proof.
  intros [_ [Hnd Hn] _] [(Hc & _) _ Hr _ (Hl & Hvs & _)] HK. split.
  - intros [_ _ Hord _ _ _]. destruct Hord as (_ & Ho & _). unfold region_end in Ho. simpl in Ho. lia.
  - intros Hle. unfold VGA_TEXT_BUFFER_BASE, KERNEL_TEXT_START in *. split.
    + by rewrite Hc.
    + unfold statics in *. rewrite !not_elem_of_cons in Hvs. rewrite !NoDup_cons, !not_elem_of_cons in Hnd.
      cbn [initial_regions static_objs tail fmap list_fmap fst]. rewrite !NoDup_cons, !not_elem_of_cons. naive_solver.
    + cbn [initial_regions static_objs tail fmap list_fmap snd ordered]. unfold region_end. cbn [base vm_length].
      unfold VGA_TEXT_BUFFER_BASE, KERNEL_TEXT_START, KERNEL_PMM_START, KERNEL_PAGE_TBL_START. unfold VGA_TEXT_BUFFER_BASE. lia.
    + cbn [initial_regions static_objs tail fmap list_fmap snd]. rewrite !Forall_cons. unfold bounded, region_end, VM_LIMIT.
      cbn [base vm_length]. unfold VGA_TEXT_BUFFER_BASE, KERNEL_TEXT_START, KERNEL_PMM_START, KERNEL_PAGE_TBL_START.
      unfold VGA_TEXT_BUFFER_BASE. change (2 ^ 64) with 18446744073709551616. change (2 ^ 38) with 274877906944.
      split_and!; (lia || apply Forall_nil_2).
    + intros o Ho. unfold statics in *. rewrite !not_elem_of_cons in Hvs. rewrite !NoDup_cons, !not_elem_of_cons in Hnd.
      apply list_elem_of_lookup in Ho as [i Hi]. do 5 (destruct i as [|i]; [naive_solver |]). done.
    + intros a Ha. cbn [initial_regions static_objs tail fmap list_fmap fst] in Ha. unfold statics. set_solver.
Qed.

Lemma initialised_ptbl (s s' : state) KERNEL_SIZE v ts p x :
  initialised s s' KERNEL_SIZE v ts → NoDup ts.*2 → (∀ x p, (x, p) ∈ ts → x ≠ NULL) →
  ptbl s' p = Some x ↔ (x, p) ∈ ts.
Proof.
  intros [_ _ _ (ls & [A1 _ A3]) _] Hnd Hnn. rewrite (ptbl_lookup _ ls), A3; [by apply vaddr_of_spec | done |].
  intros k. rewrite A3. intros Hk%vaddr_of_in. by apply Hnn in Hk.
Qed.

(** The invariant of the page tables, once the frames are set up. *)
Lemma initialised_pt_inv (s s' : state) KERNEL_SIZE v ts f lv :
  initialised s s' KERNEL_SIZE v ts → boot_tables s f lv ts → NoDup ts.*2 → (∀ x p, (x, p) ∈ ts → x ≠ NULL) →
  pt_inv (set_frames s' f) lv.
Proof.
  intros Hst [B1 B2 B3 B4 B5 B6 B7] Hnd Hnn. pose proof Hst as [_ (Hw & _ & Ht) _ (ls & [A1 A2 A3]) _].
  assert (∀ k x, ptbl (set_frames s' f) k = Some x ↔ (x, k) ∈ ts) as Hp
    by (intros k x; rewrite (ptbl_ext s') by done; by eapply initialised_ptbl).
  assert (∀ x, is_table (set_frames s' f) x ↔ x ∈ ts.*1) as His.
  { intros x. unfold is_table. setoid_rewrite Hp. rewrite list_elem_of_fmap. split.
    - intros [p Hin]. by exists (x, p).
    - intros ([y p] & -> & Hin). by exists p. }
  assert (∀ x i w, entry (set_frames s' f) x i w ↔ x ∈ ts.*1 ∧ 0 ≤ i < 512 ∧ words s !! (x + 8 * i) = Some w) as He.
  { intros x i w. unfold entry. rewrite His. cbn [words set_frames]. by rewrite Hw. }
  split; try done.
  - exists ls. split; [by apply (hm_wf_proper s') |]. intros k. change (hm_lookup s' ls k ≠ Some NULL). rewrite A3.
    intros Hk%vaddr_of_in. by apply Hnn in Hk.
  - by rewrite <- B2, <- Ht.
  - intros p x Hx%Hp. destruct (B3 _ _ Hx) as (_ & _ & ? & ? & ?). done.
  - intros x ([y p] & -> & Hin)%His%list_elem_of_fmap. by destruct (B3 _ _ Hin) as (? & ? & _).
  - intros x i Hx%His Hi. cbn [words set_frames]. rewrite Hw. by apply B5.
  - intros p q x Hx%Hp Hy%Hp. by eapply B4.
  - intros x i w (Hx & Hi & Hwd)%He Hlv Hpr. destruct (B6 x i w) as (x' & Hx' & Hl'); try done.
    exists x'. split; [by apply Hp | done].
  - intros x1 i1 w1 x2 i2 w2 (? & ? & ?)%He (? & ? & ?)%He. by eapply B7.
Qed.

(** [C13] vmm_init on the objects of the linker and a fresh heap returns the
    address space of its argument, and the hash map answers for exactly the
    page tables of the boot code; the regions are well formed exactly when the
    kernel ends in front of the text buffer, and the page tables are when
    their frames are reserved. *)
Theorem vmm_init_establishes (s : state) KERNEL_SIZE ts :
  before_init s → 0 ≤ KERNEL_SIZE → NoDup ts.*2 → (∀ x p, (x, p) ∈ ts → x ≠ NULL) →
  heap_gives (λ p, p ∉ statics sym) (kheap s)
    (SIZEOF_PTR * HASH_MAP_BUCKETS :: replicate (length ts) SIZEOF_PAGE_TABLE_T ++ [SIZEOF_VMM_T]) →
  ∃ s' v, vmm_init sym s KERNEL_SIZE ts = Ok s' ∧ current_vmm s' = v ∧ pml4ts s' !! v = Some (cr3 s) ∧
    region_list (vm_objs s') v (initial_regions v KERNEL_SIZE) ∧
    (vm_ok sym s' (initial_regions v KERNEL_SIZE) ↔ KERNEL_SIZE ≤ VGA_TEXT_BUFFER_BASE - KERNEL_TEXT_START) ∧
    (∀ p x, ptbl s' p = Some x ↔ (x, p) ∈ ts) ∧
    (∀ f lv, boot_tables s f lv ts → pt_inv (set_frames s' f) lv).
Proof.
  intros Hb HK Hnd Hnn Hg. destruct (vmm_init_spec s KERNEL_SIZE ts Hb Hnd Hg) as (s' & v & Hv & Hi).
  exists s', v. pose proof Hi as [(? & ? & _) _ ? _ _]. split_and!; try done.
  - by eapply initialised_vm_ok.
  - intros p x. by eapply initialised_ptbl.
  - intros f lv Hbt. by eapply initialised_pt_inv.
Qed.

End Init.

(** ** Evaluation *)

Module VmmInitDemo.

Import PageMapDemo.
#[local] Existing Instance list_heap.

Definition boot_tables_demo : list (Z * Z) := [(V 1, 0x1000); (V 2, 0x2000); (V 3, 0x3000); (V 4, 0x4000)].

(** The page tables of [demo] before the memory manager knows them. *)
Definition boot_vm : mm pmm_state (list Z) :=
  Mm demo_frames [8] ∅ None NULL demo_words (list_to_map (static_objs demo_sym)) ∅ 0x1000 (V 1) NULL.

Lemma boot_vm_before : before_init demo_sym boot_vm.
Proof.
  split.
  - by repeat constructor.
  - split; [by apply (bool_decide_unpack _); vm_compute |]. by apply (bool_decide_unpack _); vm_compute.
  - split; [done |]. intros p [t Ht]. by apply (lookup_empty_Some (M := gmap Z) p t) in Ht.
Qed.

Lemma boot_demo_in v p : (v, p) ∈ boot_tables_demo ↔ ∃ k, 1 ≤ k ≤ 4 ∧ p = 0x1000 * k ∧ v = V k.
Proof.
  unfold boot_tables_demo. rewrite !elem_of_cons. split.
  - intros [[= -> ->]|[[= -> ->]|[[= -> ->]|[[= -> ->]|[]%elem_of_nil]]]];
      [exists 1 | exists 2 | exists 3 | exists 4]; split_and!; (lia || done).
  - intros (k & Hk & -> & ->). assert (k = 1 ∨ k = 2 ∨ k = 3 ∨ k = 4) as [->|[->|[->| ->]]] by lia; tauto.
Qed.

Lemma boot_demo_table x : x ∈ boot_tables_demo.*1 ↔ is_table (demo 0x4000) x.
Proof.
  rewrite demo_table, list_elem_of_fmap. split.
  - intros ([v p] & -> & (k & Hk & _ & Hv)%boot_demo_in). by exists k.
  - intros (k & Hk & ->). exists (V k, 0x1000 * k). split; [done |]. apply boot_demo_in. by exists k.
Qed.

(** Everything that is asked of the boot tables holds in [demo]. *)
Lemma boot_demo_tables : boot_tables boot_vm demo_frames demo_level boot_tables_demo.
Proof.
  pose proof (demo_inv 0x4000) as [I1 I2 I3 I4 I5 I6 I7 I8 I9 I10].
  assert (∀ v p, (v, p) ∈ boot_tables_demo → ptbl (demo 0x4000) p = Some v) as Hp
    by (intros v p Hin%boot_demo_in; by apply demo_ptbl).
  assert (words boot_vm = words (demo 0x4000)) as Hwd by reflexivity. split; rewrite ?Hwd.
  - exact I3.
  - reflexivity.
  - intros v p Hin. pose proof (Hp _ _ Hin) as Hv. destruct (I5 _ _ Hv) as (H1 & H2 & H3).
    destruct (I6 v) as (H4 & H5); [by exists p |]. exact (conj H4 (conj H5 (conj H1 (conj H2 H3)))).
  - intros v p q H1 H2. exact (I8 _ _ _ (Hp _ _ H1) (Hp _ _ H2)).
  - intros v i Hv%boot_demo_table Hi. exact (I7 _ _ Hv Hi).
  - intros v i w Hv%boot_demo_table Hi Hw Hl Hpr.
    destruct (I9 v i w (conj Hv (conj Hi Hw)) Hl Hpr) as (v' & Hv' & Hl').
    exists v'. split; [| exact Hl']. apply boot_demo_in. by apply demo_ptbl in Hv'.
  - intros v1 i1 w1 v2 i2 w2 H1%boot_demo_table Hi1 Hw1 H2%boot_demo_table Hi2 Hw2.
    exact (I10 _ _ _ _ _ _ (conj H1 (conj Hi1 Hw1)) (conj H2 (conj Hi2 Hw2))).
Qed.

End VmmInitDemo.

Import PageMapDemo VmmInitDemo.
#[local] Existing Instance list_heap.

Lemma vmm_init_establishes_witness : ∃ s',
  vmm_init demo_sym boot_vm 0x13000 boot_tables_demo = Ok s' ∧
  vm_ok demo_sym s' (initial_regions demo_sym (current_vmm s') 0x13000) ∧
  pt_inv (set_frames s' demo_frames) demo_level.
Proof.
  destruct (vmm_init_establishes demo_sym boot_vm 0x13000 boot_tables_demo boot_vm_before)
    as (s' & v & Hi & Hc & _ & _ & Hvm & _ & Hpt).
  - lia.
  - by apply (bool_decide_unpack _); vm_compute.
  - intros x p (k & Hk & _ & ->)%boot_demo_in. unfold V, KERNEL_PAGE_TBL_START, NULL. lia.
  - simpl. repeat (eexists _, _; split; [reflexivity |]; split; [by apply (bool_decide_unpack _); vm_compute |]). done.
  - exists s'. split; [exact Hi |]. split; [| exact (Hpt _ _ boot_demo_tables)].
    rewrite Hc. apply Hvm. vm_compute. discriminate.
Defined.
