(* ===== verification/Boot.v ===== *)
(** * Starting the memory managers (pmm_init of pmm.c)

    [pmm_init] sets up the bitmap, walks the reserved regions of the boot
    loader's memory map, marks the kernel's own frames and asks the virtual
    memory manager for the rest of the bitmap. *)

From S2P Require Import Prelude Iface LibTitan Vga Mb2 Pmm MmState HashMap PageMap Vmm VmmInit.

(** [TMP_PMM_BYTE_SIZE]. *)
Definition TMP_PMM_BYTE_SIZE : Z := KERNEL_HEAP_START - KERNEL_PMM_START.

(** [for(p = e->addr; p > (e->addr + e->len); p += PAGE_SIZE)]. *)
Fixpoint mark_reserved (fuel : nat) (pm : pmm_state) (p limit : Z) : outcome pmm_state :=
  match fuel with
  | O => NoFuel
  | S fuel' =>
      if limit <? p then
        '(_, pm') ← pmm_alloc_specific_page pm p;
        mark_reserved fuel' pm' (u64 (p + PAGE_SIZE)) limit
      else Ok pm
  end.

(** [for(; e != entries + length || (e->addr + e->len) >= ...; e++)]. *)
Fixpoint reserved_loop (fuel : nat) (l : mmap_region_list_t) (i : nat) (pm : pmm_state)
    : outcome pmm_state :=
  match fuel with
  | O => NoFuel
  | S fuel' =>
      e ← of_option (OutOfBounds "entries") (rl_entries l !! i);
      if negb (Z.of_nat i =? rl_length l)
         || (PAGE_SIZE * 8 * PAGE_SIZE <=? u64 (e_addr e + e_len e)) then
        pm' ← mark_reserved fuel pm (e_addr e) (u64 (e_addr e + e_len e));
        reserved_loop fuel' l (S i) pm'
      else Ok pm
  end.

(** The loop that marks the kernel, its heap and the first page of the bitmap. *)
Fixpoint mark_kernel (fuel : nat) (pm : pmm_state) (p limit : Z) : outcome pmm_state :=
  match fuel with
  | O => NoFuel
  | S fuel' =>
      if p <? limit then
        '(_, pm') ← pmm_alloc_specific_page pm p;
        mark_kernel fuel' pm' (u64 (p + PAGE_SIZE)) limit
      else Ok pm
  end.

(** The bitmap as [pmm_init] clears it: its first page. *)
Definition cleared : pmm_state := PmmState (TMP_PMM_BYTE_SIZE * 8) (replicate 512 0).

(** The marking half of [pmm_init]. *)
Definition pmm_mark (fuel : nat) (reserved : mmap_region_list_t) (KERNEL_PHYS kernel_byte_size : Z)
    : outcome pmm_state :=
  pm ← reserved_loop fuel reserved 0 cleared;
  mark_kernel fuel pm KERNEL_PHYS (u64 (kernel_byte_size + KERNEL_PHYS + PAGE_SIZE * 2)).

Section Init.
Context {H : Type} `{HeapAlloc H} (sym : symbols) (depth : nat).

(** [pmm_init].  [fresh] are the words found in the frames that the bitmap is
    lengthened by: nothing clears them. *)
Definition pmm_init (fuel : nat) (c : console) (s : mm pmm_state H) (reserved : mmap_region_list_t)
    (KERNEL_PHYS kernel_byte_size : Z) (fresh : list Z) : outcome (console * mm pmm_state H) :=
  pm ← pmm_mark fuel reserved KERNEL_PHYS kernel_byte_size;
  let s1 := set_frames s pm in
  if TMP_PMM_BYTE_SIZE <=? PAGE_SIZE then Ok (c, s1) else
  '(ok, s2) ← vmm_lengthen sym depth s1 KERNEL_PMM_START (TMP_PMM_BYTE_SIZE - PAGE_SIZE);
  if (ok : bool)
  then Ok (c, set_frames s2 (PmmState (num_pages (frames s2)) (bitmap (frames s2) ++ fresh)))
  else
    c' ← ERROR c "pmm" "bitmap lengthening failed";
    Ok (c', set_frames s2 (PmmState (8 * 0x1000) (bitmap (frames s2)))).

End Init.

(** ** What is marked *)

(** The inner loop runs while [p] is above the end of the region. *)
Lemma mark_reserved_nothing fuel pm a n :
  0 ≤ a → 0 ≤ n → a + n < 2 ^ 64 → (0 < fuel)%nat → mark_reserved fuel pm a (u64 (a + n)) = Ok pm.
Proof.
  intros Ha Hn H64 Hf. destruct fuel as [|fuel]; [lia |]. cbn [mark_reserved]. rewrite u64_small by lia.
  by rewrite (proj2 (Z.ltb_ge _ _)) by lia.
Qed.

(** No reserved region is marked. *)
Lemma reserved_loop_nothing fuel l es e pm i :
  holds l es → rl_entries l !! length es = Some e →
  e_addr e + e_len e < PAGE_SIZE * 8 * PAGE_SIZE →
  Forall (λ x, 0 ≤ e_addr x ∧ 0 ≤ e_len x ∧ e_addr x + e_len x < 2 ^ 64) (es ++ [e]) →
  (i ≤ length es)%nat → (length es - i < fuel)%nat → reserved_loop fuel l i pm = Ok pm.
Proof.
  intros (Hn & Hl & Ht) He Hlast Hwf. apply Forall_app in Hwf as [Hwf He0].
  apply Forall_singleton in He0 as (He1 & He2 & He3).
  revert i. induction fuel as [|fuel IH]; intros i Hi Hf; [lia |]. cbn [reserved_loop].
  destruct (decide (i = length es)) as [->|Hne].
  - rewrite He. out_red. rewrite Hn, Z.eqb_refl, u64_small by lia. cbn [negb orb].
    by rewrite (proj2 (Z.leb_gt _ _)).
  - destruct (lookup_lt_is_Some_2 es i) as [x Hx]; [lia |].
    assert (rl_entries l !! i = Some x) as ->.
    { rewrite <- Ht in Hx. by apply lookup_take_Some in Hx as [? _]. }
    out_red. rewrite Hn, (proj2 (Z.eqb_neq _ _)) by lia. cbn [negb orb].
    destruct (Forall_lookup_1 _ _ _ _ Hwf Hx) as (Hx1 & Hx2 & Hx3).
    rewrite mark_reserved_nothing by (done || lia). out_red. apply IH; lia.
Qed.

(** Reserving frame [k] sets the bit of slot [freed_frame k]. *)
Lemma reserve_slot pm k :
  Forall word_ok (bitmap pm) → 0 ≤ k < 64 * Z.of_nat (length (bitmap pm)) → k < 2 ^ 38 →
  ∃ b pm', pmm_alloc_specific_page pm (0x1000 * k) = Ok (b, pm') ∧
    length (bitmap pm') = length (bitmap pm) ∧ Forall word_ok (bitmap pm') ∧
    ∀ q, 0 ≤ q → slot_taken pm' q = (q =? freed_frame k) || slot_taken pm q.
Proof.
  intros Hok Hk Hk38. unfold pmm_alloc_specific_page, read_word. rewrite paddr_to_bitmap_frame by lia.
  simpl y. simpl x. destruct (lookup_lt_is_Some_2 (bitmap pm) (Z.to_nat (k / 64))) as [w Hw]; [mlia |].
  rewrite Hw. out_red. change shl1 with x86_shl1.
  assert (word_ok w) as Hwok by (by eapply Forall_lookup_1).
  rewrite land_shl1_zero, negb_involutive by (done || mlia).
  replace (k mod 64 mod 32) with (k mod 32) by mlia.
  assert (∀ v q, 0 ≤ q → slot_taken (write_word pm (k / 64) v) q =
    if q / 32 =? k / 64 then Z.testbit v (q mod 32) else slot_taken pm q) as Hwrite.
  { intros v q Hq. unfold slot_taken. simpl. destruct (q / 32 =? k / 64) eqn:E; zbool.
    - rewrite E, list_lookup_insert_eq; [done | by eapply lookup_lt_Some].
    - rewrite list_lookup_insert_ne; [done | mlia]. }
  assert (∀ q, 0 ≤ q → q / 32 = k / 64 → (q mod 32 =? k mod 32) = (q =? freed_frame k)) as Heqb.
  { intros q Hq Hd. unfold freed_frame. destruct (q =? _) eqn:E; zbool; [apply Z.eqb_eq | apply Z.eqb_neq]; mlia. }
  assert (∀ q, 0 ≤ q → q / 32 = k / 64 → slot_taken pm q = Z.testbit w (q mod 32)) as Hold
    by (intros q Hq Hd; unfold slot_taken; by rewrite Hd, Hw).
  destruct (Z.testbit w (k mod 32)) eqn:Hb.
  - exists true, pm. split_and!; try done. intros q Hq. destruct (q =? freed_frame k) eqn:E; zbool; [| done].
    subst q. rewrite Hold by (unfold freed_frame; mlia).
    replace (freed_frame k mod 32) with (k mod 32) by (unfold freed_frame; mlia). by rewrite Hb.
  - eexists _, _. split; [done |]. simpl. split; [apply length_insert |]. split.
    + apply Forall_insert; [done |]. apply lor_shl1_ok; [done | mlia].
    + intros q Hq. rewrite Hwrite by done. destruct (q / 32 =? k / 64) eqn:E; zbool.
      * rewrite lor_shl1_bit by mlia. replace (k mod 64 mod 32) with (k mod 32) by mlia.
        by rewrite Heqb, <- Hold.
      * destruct (q =? freed_frame k) eqn:E2; zbool; [| done]. destruct E. subst q.
        unfold freed_frame. mlia.
Qed.

(** The marks of [n] frames from [k]. *)
Lemma mark_kernel_spec n fuel pm k limit :
  Forall word_ok (bitmap pm) → 0 ≤ k → k + Z.of_nat n ≤ 64 * Z.of_nat (length (bitmap pm)) →
  k + Z.of_nat n < 2 ^ 38 → 0x1000 * (k + Z.of_nat n - 1) < limit ≤ 0x1000 * (k + Z.of_nat n) →
  (n < fuel)%nat →
  ∃ pm', mark_kernel fuel pm (0x1000 * k) limit = Ok pm' ∧ Forall word_ok (bitmap pm') ∧
    ∀ q, 0 ≤ q → slot_taken pm' q = true ↔
      slot_taken pm q = true ∨ ∃ j, k ≤ j < k + Z.of_nat n ∧ q = freed_frame j.
Proof.
  revert fuel pm k. induction n as [|n IH]; intros [|fuel] pm k Hok Hk Hb H38 Hlim Hf; try lia;
    cbn [mark_kernel].
  - rewrite (proj2 (Z.ltb_ge _ _)) by lia. exists pm. split_and!; try done. intros q _.
    split; [by left | intros [|(j & ? & _)]; [done | lia]].
  - rewrite (proj2 (Z.ltb_lt _ _)) by lia.
    destruct (reserve_slot pm k Hok) as (b & pm1 & -> & Hlen & Hok1 & Ht1); [lia | lia |]. out_red.
    unfold PAGE_SIZE. rewrite u64_small by lia.
    replace (0x1000 * k + 0x1000) with (0x1000 * (k + 1)) by lia.
    destruct (IH fuel pm1 (k + 1)) as (pm' & -> & Hok' & Ht'); try done; try lia.
    exists pm'. split_and!; try done. intros q Hq. rewrite Ht', Ht1, orb_true_iff, Z.eqb_eq by done. split.
    + intros [[->|?]|(j & Hj & ->)]; [right; exists k; split; [lia | done] | by left |].
      right. exists j. split; [lia | done].
    + intros [?|(j & Hj & ->)]; [left; by right |]. destruct (decide (j = k)) as [->|]; [left; by left |].
      right. exists j. split; [lia | done].
Qed.

Lemma cleared_free q : 0 ≤ q < 16384 → slot_taken cleared q = false.
Proof.
  intros Hq. unfold slot_taken. change (bitmap cleared) with (replicate 512 0).
  assert (0 ≤ q / 32 < 512) by mlia. rewrite lookup_replicate_2 by lia. apply Z.bits_0.
Qed.

(** What [pmm_init] is called with: a memory map whose slots hold [es], the
    next one being [e], and a kernel of [size] bytes from frame [k] on, which
    takes [n] frames with the two behind it. *)
Record boot_map (fuel : nat) (l : mmap_region_list_t) (es : list mmap_entry_t) (e : mmap_entry_t) (k : Z) (n : nat)
    (size : Z) : Prop := {
  bm_holds : holds l es;
  bm_next : rl_entries l !! length es = Some e ∧ e_addr e + e_len e < PAGE_SIZE * 8 * PAGE_SIZE;
  bm_regions : Forall (λ x, 0 ≤ e_addr x ∧ 0 ≤ e_len x ∧ e_addr x + e_len x < 2 ^ 64) (es ++ [e]);
  bm_kernel : 0 ≤ k ∧ 0 ≤ size ∧ Z.of_nat n = (size + 0xfff) / 0x1000 + 2 ∧ k + Z.of_nat n ≤ 32768;
  bm_fuel : (n < fuel)%nat ∧ (length es < fuel)%nat;
}.

Lemma pmm_mark_spec fuel l es e k n size :
  boot_map fuel l es e k n size →
  ∃ pm, pmm_mark fuel l (0x1000 * k) size = Ok pm ∧
    ∀ q, 0 ≤ q < 16384 → slot_taken pm q = true ↔ ∃ j, k ≤ j < k + Z.of_nat n ∧ q = freed_frame j.
Proof.
  intros [Hh [He Hlast] Hwf (Hk & Hs & Hn & Hb) [Hfn Hfe]]. unfold pmm_mark.
  rewrite (reserved_loop_nothing fuel l es e cleared 0) by (done || lia). out_red.
  unfold PAGE_SIZE. rewrite u64_small by mlia.
  destruct (mark_kernel_spec n fuel cleared k (size + 0x1000 * k + 0x1000 * 2)) as (pm & -> & _ & Ht).
  - apply Forall_replicate. split; [lia |]. intros j Hj. by rewrite !Z.bits_0.
  - done.
  - change (bitmap cleared) with (replicate 512 0). rewrite length_replicate. lia.
  - lia.
  - mlia.
  - done.
  - exists pm. split; [done |]. intros q Hq. rewrite Ht, cleared_free by lia. naive_solver.
Qed.

(** The slots of a kernel that lies behind its own size. *)
Lemma kernel_slot_free pm k n q :
  (∀ q, 0 ≤ q < 16384 → slot_taken pm q = true ↔ ∃ j, k ≤ j < k + Z.of_nat n ∧ q = freed_frame j) →
  62 + Z.of_nat n < k → k ≤ q < k + Z.of_nat n → q < 16384 → slot_taken pm q = false.
Proof.
  intros Ht Hk Hq Hq2. destruct (slot_taken pm q) eqn:E; [| done].
  apply Ht in E as (j & Hj & Hqj); [| lia]. unfold freed_frame in Hqj. mlia.
Qed.

(** [C39] pmm_init marks no reserved region, and of the kernel it marks the
    bits 32 * (f / 64) + f mod 32 instead of the bits f that the allocator
    hands out: when the kernel lies behind frame 62 and its own size, all of
    its frames stay free. *)
Theorem pmm_mark_slots fuel l es e k n size :
  boot_map fuel l es e k n size →
  ∃ pm, pmm_mark fuel l (0x1000 * k) size = Ok pm ∧
    (∀ q, 0 ≤ q < 16384 →
      slot_taken pm q = true ↔ ∃ j, k ≤ j < k + Z.of_nat n ∧ q = 32 * (j / 64) + j mod 32) ∧
    (62 + Z.of_nat n < k → ∀ q, k ≤ q < k + Z.of_nat n → q < 16384 → slot_taken pm q = false).
Proof.
  intros Hb. destruct (pmm_mark_spec fuel l es e k n size Hb) as (pm & Hpm & Ht).
  exists pm. split_and!; [done | done |]. intros Hk q. by apply kernel_slot_free.
Qed.

(** The page tables of the boot code lie in the kernel, whose frames
    pmm_init leaves free: what the invariant of the page tables asks of the
    frames does not hold when the allocator starts. *)
Theorem boot_tables_unreserved {H : Type} `{HeapAlloc H} fuel l es e k n size (s : mm pmm_state H) lv ts v q :
  boot_map fuel l es e k n size → 62 + Z.of_nat n < k → k + Z.of_nat n ≤ 16384 →
  (v, 0x1000 * q) ∈ ts → k ≤ q < k + Z.of_nat n →
  ∃ pm, pmm_mark fuel l (0x1000 * k) size = Ok pm ∧ ¬ fa_taken pm (0x1000 * q) ∧ ¬ boot_tables s pm lv ts.
Proof.
  intros Hb Hk Hkn Hin Hq. destruct (pmm_mark_spec fuel l es e k n size Hb) as (pm & Hpm & Ht).
  assert (¬ fa_taken pm (0x1000 * q)) as Hfree.
  { intros [_ Htk]. rewrite (Z.mul_comm 0x1000), Z.div_mul in Htk by lia.
    rewrite (kernel_slot_free pm k n q) in Htk by (done || lia). done. }
  exists pm. split_and!; [done | done |]. intros [_ _ B3 _ _ _ _]. by destruct (B3 _ _ Hin) as (_ & _ & _ & _ & ?).
Qed.

(** A memory map with one reserved region, and a kernel of [0x14000] bytes at
    1 MiB. *)
Definition demo_reserved : mmap_region_list_t :=
  RegionList 1 (<[0%nat := MmapEntry 0x9fc00 0x400 2 0]> (rl_entries empty_list)).

Lemma demo_boot_map : boot_map 30 demo_reserved [MmapEntry 0x9fc00 0x400 2 0] (MmapEntry 0 0 0 0) 256 22 0x14000.
Proof.
  split.
  - split_and!; reflexivity.
  - split; [reflexivity |]. unfold PAGE_SIZE. cbn [e_addr e_len]. lia.
  - repeat apply Forall_cons_2; simpl; try lia. apply Forall_nil_2.
  - split_and!; (lia || reflexivity).
  - simpl. lia.
Qed.

Lemma pmm_mark_slots_witness : ∃ pm,
  pmm_mark 30 demo_reserved (0x1000 * 256) 0x14000 = Ok pm ∧ slot_taken pm 256 = false ∧ slot_taken pm 277 = false.
Proof.
  destruct (pmm_mark_slots 30 demo_reserved [MmapEntry 0x9fc00 0x400 2 0] (MmapEntry 0 0 0 0)
    256 22 0x14000 demo_boot_map) as (pm & Hpm & _ & Hk).
  exists pm. split; [exact Hpm |]. split; apply Hk; lia.
Defined.

(** The tables of [boot_vm], in the frames 256 to 259. *)
Lemma boot_tables_unreserved_witness : ∃ pm,
  pmm_mark 30 demo_reserved (0x1000 * 256) 0x14000 = Ok pm ∧ ¬ fa_taken pm 0x100000.
Proof.
  destruct (@boot_tables_unreserved _ PageMapDemo.list_heap 30 demo_reserved [MmapEntry 0x9fc00 0x400 2 0]
    (MmapEntry 0 0 0 0) 256 22 0x14000 VmmInitDemo.boot_vm PageMapDemo.demo_level
    [(PageMapDemo.V 1, 0x1000 * 256); (PageMapDemo.V 2, 0x1000 * 257)] (PageMapDemo.V 1) 256 demo_boot_map)
    as (pm & Hpm & Hf & _).
  - lia.
  - lia.
  - left.
  - lia.
  - exists pm. split; [exact Hpm | exact Hf].
Defined.
