(* ===== verification/Locks.v ===== *)
(** * Spin locks (locks.c, locks.h)

    The two operations on the lock, and the interleavings of any number of
    processors that use them. *)

From stdpp Require Import relations.
From S2P Require Import Prelude.

(** [spinlock_t]. *)
Record spinlock_t := Spinlock { locked : bool }.

(** [__atomic_test_and_set]: the old value and the lock. *)
Definition test_and_set (lock : spinlock_t) : bool * spinlock_t := (locked lock, Spinlock true).

(** [while(__atomic_test_and_set(&lock->locked, ...));] *)
Fixpoint acquire (fuel : nat) (lock : spinlock_t) : outcome spinlock_t :=
  match fuel with
  | O => NoFuel
  | S fuel' =>
      let '(old, lock') := test_and_set lock in
      if (old : bool) then acquire fuel' lock' else Ok lock'
  end.

Definition release (lock : spinlock_t) : spinlock_t := Spinlock false.

(** Where a processor is: outside, in the loop of [acquire], or between its
    return and [release]. *)
Inductive place := Outside | Spinning | Inside.

#[global] Instance place_eq_dec : EqDecision place.
Proof. solve_decision. Defined.

(** One step of one processor: it calls [acquire], makes one turn of its loop,
    or calls [release].  The atomic operations are the steps. *)
Inductive step : spinlock_t * list place → spinlock_t * list place → Prop :=
| StepCall lock ps i :
    ps !! i = Some Outside → step (lock, ps) (lock, <[i := Spinning]> ps)
| StepTurn lock ps i old lock' :
    ps !! i = Some Spinning → test_and_set lock = (old, lock') →
    step (lock, ps) (lock', <[i := if old then Spinning else Inside]> ps)
| StepRelease lock ps i :
    ps !! i = Some Inside → step (lock, ps) (release lock, <[i := Outside]> ps).

(** The lock is held exactly when a processor is inside, and by one at most. *)
Definition lock_inv (s : spinlock_t * list place) : Prop :=
  (∀ i j, s.2 !! i = Some Inside → s.2 !! j = Some Inside → i = j) ∧
  (locked s.1 = true ↔ ∃ i, s.2 !! i = Some Inside).

(** Moving a processor that stays outside. *)
Lemma inside_insert (ps : list place) i p k :
  p ≠ Inside → ps !! i ≠ Some Inside → <[i := p]> ps !! k = Some Inside ↔ ps !! k = Some Inside.
Proof.
  intros Hp Hi. rewrite list_lookup_insert_Some. split.
  - intros [(_ & ? & _)|[_ ?]]; [done | done].
  - intros Hk. right. split; [by intros -> | done].
Qed.

Lemma lock_inv_step s s' : lock_inv s → step s s' → lock_inv s'.
Proof.
  intros [Hone Hheld] Hs. destruct Hs as [lock ps i Hi|lock ps i old lock' Hi Ht|lock ps i Hi]; simpl in *.
  - unfold lock_inv. simpl. setoid_rewrite inside_insert; [done | done | congruence | done | congruence | done | congruence].
  - injection Ht as <- <-. destruct (locked lock) eqn:El.
    + split; simpl.
      * intros k1 k2. rewrite !inside_insert by (done || congruence). apply Hone.
      * split; [| done]. intros _. destruct (proj1 Hheld eq_refl) as [k Hk]. exists k.
        by apply inside_insert; [| congruence |].
    + assert (∀ k, ps !! k ≠ Some Inside) as Hnone.
      { intros k Hk. assert (false = true); [| done]. apply Hheld. by exists k. }
      unfold lock_inv. simpl. split.
      * intros k1 k2 [(-> & _ & _)|[_ ?%Hnone]]%list_lookup_insert_Some; [| done].
        by intros [(-> & _ & _)|[_ ?%Hnone]]%list_lookup_insert_Some.
      * split; [| done]. intros _. exists i. apply list_lookup_insert_eq. by eapply lookup_lt_Some.
  - assert (∀ k, <[i:=Outside]> ps !! k ≠ Some Inside) as Hnone.
    { intros k [(_ & ? & _)|[Hne Hk]]%list_lookup_insert_Some; [done |]. by destruct Hne; apply Hone. }
    split; simpl; [by intros k1 k2 ?%Hnone |]. split; [done |]. by intros [k ?%Hnone].
Qed.

(** An invariant of the steps holds in every state they reach. *)
Lemma rtc_invariant {A} (R : relation A) (I : A → Prop) s s' :
  (∀ x y, I x → R x y → I y) → I s → rtc R s s' → I s'.
Proof. intros Hstep Hi Hr. induction Hr; eauto. Qed.

Lemma acquire_held fuel : acquire fuel (Spinlock true) = NoFuel.
Proof. induction fuel as [|fuel IH]; [done |]. exact IH. Qed.

(** [C32] In every interleaving of any number of processors at most one is
    between acquire and release; while one is, acquire does not return, and
    otherwise its next turn takes the lock. *)
Theorem spinlock_mutex n s :
  rtc step (Spinlock false, replicate n Outside) s →
  (∀ i j, s.2 !! i = Some Inside → s.2 !! j = Some Inside → i = j) ∧
  (∀ i fuel, s.2 !! i = Some Inside → acquire fuel s.1 = NoFuel) ∧
  ((∀ i, s.2 !! i ≠ Some Inside) → ∀ fuel, acquire (S fuel) s.1 = Ok (Spinlock true)).
Proof.
  intros Hr. assert (lock_inv s) as [Hone Hheld].
  { apply (rtc_invariant step lock_inv (Spinlock false, replicate n Outside)); [exact lock_inv_step | | done].
    split; simpl; [by intros i j [? _]%lookup_replicate |]. split; [done |]. by intros [i [? _]%lookup_replicate]. }
  destruct s as [[held] ps]. simpl in *. split_and!; [done | |].
  - intros i fuel Hi. rewrite (proj2 Hheld) by (by exists i). apply acquire_held.
  - intros Hnone fuel. destruct held; [| done]. destruct (proj1 Hheld eq_refl) as [i Hi]. by destruct (Hnone i).
Qed.

(** Two processors: the first is inside, the second in its loop. *)
Lemma spinlock_mutex_witness : ∃ s, rtc step (Spinlock false, replicate 2 Outside) s ∧
  s.2 = [Inside; Spinning] ∧ ∀ fuel, acquire fuel s.1 = NoFuel.
Proof.
  assert (rtc step (Spinlock false, replicate 2 Outside) (Spinlock true, [Inside; Spinning])) as Hr.
  { eapply rtc_l; [apply (StepCall _ _ 0); reflexivity |].
    eapply rtc_l; [apply (StepTurn _ _ 0); reflexivity |].
    eapply rtc_l; [apply (StepCall _ _ 1); reflexivity |].
    eapply rtc_l; [apply (StepTurn _ _ 1); reflexivity |]. apply rtc_refl. }
  eexists. split; [exact Hr |]. split; [reflexivity |]. intros fuel.
  destruct (spinlock_mutex 2 _ Hr) as (_ & Hspin & _). apply (Hspin 0%nat). reflexivity.
Defined.
