(* ===== verification/View.v ===== *)
(** * Bytes behind mapped pages

    The page tables of PageMap.v are words, the memory of Mem.v is bytes.
    When a caller maps pages and then uses them, the bytes of their frames in
    physical memory become visible at the virtual addresses. *)

From S2P Require Import Prelude Iface Mem LibTitan MmState PageMap.

(** [n] bytes of physical memory from [p] appear at [a]. *)
Fixpoint show_bytes (n : nat) (phys m : mem) (p a : Z) : mem :=
  match n with
  | O => m
  | S n' => show_bytes n' phys (match phys !! p with Some b => <[a := b]> m | None => m end) (p + 1) (a + 1)
  end.

Definition page_bytes : nat := Z.to_nat PAGE_SIZE.

Lemma page_bytes_Z : Z.of_nat page_bytes = 0x1000.
Proof. unfold page_bytes, PAGE_SIZE. by rewrite Z2Nat.id. Qed.

(** The [n] pages from [a], each with the bytes of the frame that the page
    tables from [root] give it. *)
Fixpoint show_pages (n : nat) (phys : mem) (tr : Z → option Z) (m : mem) (a : Z) : mem :=
  match n with
  | O => m
  | S n' =>
      show_pages n' phys tr
        (match tr a with Some e => show_bytes page_bytes phys m (frame_of e) a | None => m end) (a + 0x1000)
  end.

Section View.
Context {F H : Type}.

(** The translation of the current address space. *)
Definition current_tr (v : mm F H) : Z → option Z := translate v (current_pml4t_ptr v).

(** The [n] pages at [ptr] are the frames from [p] on. *)
Definition pages_at (v : mm F H) (ptr p : Z) (n : nat) : Prop :=
  ∀ i, 0 ≤ i < Z.of_nat n → ∃ e, current_tr v (ptr + i * 0x1000) = Some e ∧ frame_of e = p + i * 0x1000.

End View.

Lemma show_bytes_outside n phys m p a : agree_outside a (Z.of_nat n) m (show_bytes n phys m p a).
Proof.
  revert m p a. induction n as [|n IH]; intros m p a i Hi; [done |]. cbn [show_bytes].
  rewrite IH by lia. destruct (phys !! p); [| done]. by rewrite lookup_insert_ne by lia.
Qed.

Lemma show_bytes_mapped n phys m p a x k : mapped m x k → mapped (show_bytes n phys m p a) x k.
Proof.
  revert m p a. induction n as [|n IH]; intros m p a Hm; [done |]. cbn [show_bytes]. apply IH.
  destruct (phys !! p); [by apply mapped_insert | done].
Qed.

Lemma show_bytes_ok n phys m p a : bytes_ok phys → bytes_ok m → bytes_ok (show_bytes n phys m p a).
Proof.
  intros Hp. revert m p a. induction n as [|n IH]; intros m p a Hm; [done |]. cbn [show_bytes]. apply IH.
  destruct (phys !! p) as [b|] eqn:E; [| done]. apply map_Forall_insert_2; [by eapply Hp | done].
Qed.

Lemma show_pages_outside n phys tr m a : agree_outside a (Z.of_nat n * 0x1000) m (show_pages n phys tr m a).
Proof.
  revert m a. induction n as [|n IH]; intros m a i Hi; [done |]. cbn [show_pages].
  rewrite IH by lia. destruct (tr a); [| done]. apply show_bytes_outside. rewrite page_bytes_Z. lia.
Qed.

Lemma show_pages_mapped n phys tr m a x k : mapped m x k → mapped (show_pages n phys tr m a) x k.
Proof.
  revert m a. induction n as [|n IH]; intros m a Hm; [done |]. cbn [show_pages]. apply IH.
  destruct (tr a); [by apply show_bytes_mapped | done].
Qed.

Lemma show_pages_ok n phys tr m a : bytes_ok phys → bytes_ok m → bytes_ok (show_pages n phys tr m a).
Proof.
  intros Hp. revert m a. induction n as [|n IH]; intros m a Hm; [done |]. cbn [show_pages]. apply IH.
  destruct (tr a); [by apply show_bytes_ok | done].
Qed.

Lemma show_bytes_lookup n phys m p a i b :
  phys !! (p + i) = Some b → 0 ≤ i < Z.of_nat n → show_bytes n phys m p a !! (a + i) = Some b.
Proof.
  revert m p a i. induction n as [|n IH]; intros m p a i Hb Hi; [lia |]. cbn [show_bytes].
  destruct (decide (i = 0)) as [->|].
  - rewrite Z.add_0_r in Hb |- *. rewrite Hb, show_bytes_outside by lia. apply lookup_insert_eq.
  - replace (a + i) with (a + 1 + (i - 1)) by lia. apply IH; [| lia].
    by replace (p + 1 + (i - 1)) with (p + i) by lia.
Qed.

(** Pages mapped one behind the other show the bytes of physical memory. *)
Lemma show_pages_lookup n phys tr m p a i b :
  (∀ i, 0 ≤ i < Z.of_nat n → ∃ e, tr (a + i * 0x1000) = Some e ∧ frame_of e = p + i * 0x1000) →
  phys !! (p + i) = Some b → 0 ≤ i < Z.of_nat n * 0x1000 → show_pages n phys tr m a !! (a + i) = Some b.
Proof.
  revert m p a i. induction n as [|n IH]; intros m p a i Htr Hb Hi; [lia |].
  cbn [show_pages]. destruct (Htr 0) as (e & He & Hf); [lia |].
  rewrite Z.mul_0_l, Z.add_0_r in He, Hf. rewrite He, Hf. pose proof page_bytes_Z as Hpb.
  destruct (decide (i < 0x1000)).
  - rewrite show_pages_outside by lia. apply show_bytes_lookup; [done | lia].
  - replace (a + i) with (a + 0x1000 + (i - 0x1000)) by lia. apply (IH _ (p + 0x1000)); [| | lia].
    + intros k Hk. destruct (Htr (k + 1)) as (e' & He' & Hf'); [lia |]. exists e'.
      replace (a + (k + 1) * 0x1000) with (a + 0x1000 + k * 0x1000) in He' by lia. split; [done | lia].
    + by replace (p + 0x1000 + (i - 0x1000)) with (p + i) by lia.
Qed.

Lemma show_pages_at n phys tr m p a off l :
  (∀ i, 0 ≤ i < Z.of_nat n → ∃ e, tr (a + i * 0x1000) = Some e ∧ frame_of e = p + i * 0x1000) →
  bytes_at phys (p + off) l → 0 ≤ off → off + Z.of_nat (length l) ≤ Z.of_nat n * 0x1000 →
  bytes_at (show_pages n phys tr m a) (a + off) l.
Proof.
  intros Htr Hl Ho Hn i b Hi. pose proof (lookup_lt_Some _ _ _ Hi). rewrite <- Z.add_assoc.
  apply (show_pages_lookup _ _ _ _ p); [done | | lia]. rewrite Z.add_assoc. by apply Hl.
Qed.

Lemma show_bytes_all n phys m p a :
  mapped phys p (Z.of_nat n) → mapped (show_bytes n phys m p a) a (Z.of_nat n).
Proof.
  revert m p a. induction n as [|n IH]; intros m p a Hp i Hi; [lia |]. cbn [show_bytes].
  destruct (Hp p) as [b Hb]; [lia |]. rewrite Hb. destruct (decide (i = a)) as [->|].
  - rewrite show_bytes_outside by lia. rewrite lookup_insert_eq. by eexists.
  - apply (IH _ (p + 1) (a + 1)); [apply (mapped_sub _ _ _ _ _ Hp); lia | lia].
Qed.

(** Pages whose frames exist are mapped. *)
Lemma show_pages_all n phys tr m a :
  (∀ i, 0 ≤ i < Z.of_nat n → ∃ e, tr (a + i * 0x1000) = Some e ∧ mapped phys (frame_of e) 0x1000) →
  mapped (show_pages n phys tr m a) a (Z.of_nat n * 0x1000).
Proof.
  revert m a. induction n as [|n IH]; intros m a Htr x Hx; [lia |]. cbn [show_pages].
  destruct (Htr 0) as (e & He & Hf); [lia |]. rewrite Z.mul_0_l, Z.add_0_r in He. rewrite He.
  destruct (decide (x < a + 0x1000)).
  - apply (show_pages_mapped _ _ _ _ _ a 0x1000); [| lia].
    rewrite <- page_bytes_Z in Hf |- *. by apply show_bytes_all.
  - apply (IH _ (a + 0x1000)); [| lia]. intros i Hi.
    destruct (Htr (i + 1)) as (e' & He' & Hf'); [lia |]. exists e'.
    by replace (a + 0x1000 + i * 0x1000) with (a + (i + 1) * 0x1000) by lia.
Qed.
