(* ===== verification/Keyboard.v ===== *)
(** * The keyboard (keyboard.c, keyboard.h)

    The handler of the keyboard's interrupt: a byte of scan code set 1 is
    echoed on the console and put into a ring of 32 characters.  What a port
    delivers is an argument. *)

From S2P Require Import Prelude Mem Vga.

Definition DATA_PORT : Z := 0x60.
Definition STATUS_PORT : Z := 0x64.
Definition KEYBOARD_BUFFER_SIZE : Z := 32.

(** The initialiser has 89 characters; C clears the rest of the array. *)
Definition keyboard_layout : list Z :=
  [0; 0; 49; 50; 51; 52; 53; 54; 55; 56; 57; 48; 45; 61; 0; 0;
   113; 119; 101; 114; 116; 121; 117; 105; 111; 112; 91; 93; 0; 0;
   97; 115; 100; 102; 103; 104; 106; 107; 108; 59; 39; 96; 0; 92;
   122; 120; 99; 118; 98; 110; 109; 44; 46; 47; 0; 0; 0; 32; 0;
   0; 0; 0; 0; 0; 0; 0; 0; 0; 0; 0; 0; 0; 0; 0; 45; 0; 0; 0; 43; 0; 0; 0; 0; 0; 0; 0; 0; 0; 0] ++
  replicate 39 0.

(** The globals of keyboard.c. *)
Record keyboard := Keyboard {
  keyboard_buffer : list Z;
  keyboard_pos : Z;
  is_make : bool;
}.

Definition keyboard_start : keyboard := Keyboard (replicate 32 0) 0 true.

(** [keyboard_handler] when the data port delivers [data]. *)
Definition keyboard_handler (k : keyboard) (s : console) (data : Z) : outcome (keyboard * console) :=
  let status := Z.land data 0x7f in
  if (is_make k : bool) then
    status ← of_option (OutOfBounds "keyboard_layout") (keyboard_layout !! Z.to_nat status);
    '(k', s') ← (if negb (status =? 0) then
                   s1 ← printc s status;
                   let s2 := move_cursor s1 in
                   Ok (Keyboard (<[Z.to_nat (keyboard_pos k) := status]> (keyboard_buffer k))
                         (u8 ((keyboard_pos k + 1) mod KEYBOARD_BUFFER_SIZE)) (is_make k), s2)
                 else Ok (k, s));
    Ok (Keyboard (keyboard_buffer k') (keyboard_pos k') false, s')
  else Ok (Keyboard (keyboard_buffer k) (keyboard_pos k) true, s).

(** Reading the next byte of what the ports deliver. *)
Definition inb (ins : list Z) : outcome (Z * list Z) :=
  match ins with [] => NoFuel | b :: ins' => Ok (b, ins') end.

Definition is_full (status : Z) : bool := negb (Z.land (Z.shiftr status 1) 1 =? 0).

(** [while(is_full()) outb(DATA_PORT, 0x00)]. *)
Fixpoint drain (ins : list Z) (s : console) : outcome (list Z * console) :=
  match ins with
  | [] => NoFuel
  | status :: ins' => if is_full status then drain ins' (outb s DATA_PORT 0x00) else Ok (ins', s)
  end.

(** The [do ... while] of [check_scanset]. *)
Fixpoint scan_loop (ins : list Z) (s : console) : outcome (list Z * console) :=
  match ins with
  | [] => NoFuel
  | status :: ins1 =>
      if is_full status then drain ins1 (outb s DATA_PORT 0xf0)
      else match ins1 with
           | [] => NoFuel
           | d :: ins2 => if d =? 0xfe then scan_loop ins2 s else Ok (ins2, s)
           end
  end.

Definition check_scanset (ins : list Z) (s : console) : outcome (list Z * console) :=
  '(ins1, s1) ← scan_loop ins s;
  s2 ← printstr s1 (bytes_of "Response from keyboard: ");
  '(a, ins2) ← inb ins1;
  s3 ← printlong s2 a;
  s4 ← printc s3 10;
  '(b, ins3) ← inb ins2;
  s5 ← printlong s4 b;
  s6 ← printc s5 10;
  Ok (ins3, s6).

(** ** What is typed *)

(** One interrupt per byte. *)
Fixpoint key_events (k : keyboard) (s : console) (codes : list Z) : outcome (keyboard * console) :=
  match codes with
  | [] => Ok (k, s)
  | d :: codes' => '(k', s') ← keyboard_handler k s d; key_events k' s' codes'
  end.

(** The character of a scan code, the release bit left out. *)
Definition key_char (d : Z) : Z := default 0 (keyboard_layout !! Z.to_nat (Z.land d 0x7f)).

(** Every other byte is taken for the press of a key, and those without a
    character are dropped. *)
Fixpoint typed (make : bool) (codes : list Z) : list Z :=
  match codes with
  | [] => []
  | d :: codes' =>
      if make then (if key_char d =? 0 then [] else [key_char d]) ++ typed false codes'
      else typed true codes'
  end.

(** The ring holds the last 32 characters of [str], each in the slot of its
    position. *)
Record ring (k : keyboard) (str : list Z) : Prop := {
  rg_length : length (keyboard_buffer k) = 32%nat;
  rg_pos : keyboard_pos k = Z.of_nat (length str) mod 32;
  rg_last : ∀ i c, str !! i = Some c → (length str ≤ i + 32)%nat →
    keyboard_buffer k !! (i mod 32)%nat = Some c;
}.

Lemma ring_start : ring keyboard_start [].
Proof. split; [done | done |]. intros i c Hi. by rewrite lookup_nil in Hi. Qed.

Lemma ring_push k str c b :
  ring k str →
  ring (Keyboard (<[Z.to_nat (keyboard_pos k) := c]> (keyboard_buffer k))
          (u8 ((keyboard_pos k + 1) mod KEYBOARD_BUFFER_SIZE)) b) (str ++ [c]).
Proof.
  intros [Hl Hp Hr]. assert (Z.to_nat (keyboard_pos k) = length str mod 32)%nat as Hn.
  { rewrite Hp. change 32 with (Z.of_nat 32). by rewrite <- Nat2Z.inj_mod, Nat2Z.id. }
  split; cbn [keyboard_buffer keyboard_pos].
  - by rewrite length_insert.
  - rewrite length_app. simpl length. unfold KEYBOARD_BUFFER_SIZE. rewrite Hp, u8_small by mlia. mlia.
  - intros i d Hi Hlast. rewrite length_app in Hlast. simpl in Hlast. rewrite Hn.
    apply lookup_app_Some in Hi as [Hi|[Hge Hi]].
    + pose proof (lookup_lt_Some _ _ _ Hi). rewrite list_lookup_insert_ne.
      * apply Hr; [done | lia].
      * pose proof (Nat.div_mod_eq i 32). pose proof (Nat.div_mod_eq (length str) 32).
        pose proof (Nat.mod_upper_bound i 32 ltac:(lia)). lia.
    + apply list_lookup_singleton_Some in Hi as [Hz ->]. replace i with (length str) by lia.
      apply list_lookup_insert_eq. rewrite Hl. apply Nat.mod_upper_bound. lia.
Qed.

Lemma ring_flag k str b : ring k str → ring (Keyboard (keyboard_buffer k) (keyboard_pos k) b) str.
Proof. by intros []. Qed.

Lemma layout_lookup d : 0 ≤ d → keyboard_layout !! Z.to_nat (Z.land d 0x7f) = Some (key_char d).
Proof.
  intros Hd. unfold key_char. assert (0 ≤ Z.land d 0x7f < 128).
  { change 0x7f with (Z.ones 7). rewrite Z.land_ones by lia. mlia. }
  destruct (lookup_lt_is_Some_2 keyboard_layout (Z.to_nat (Z.land d 0x7f))) as [c Hc]; [simpl; lia |].
  by rewrite Hc.
Qed.

(** One interrupt. *)
Lemma keyboard_handler_spec k s t str d :
  shows s t → ring k str → 0 ≤ d →
  let new := typed (is_make k) [d] in
  ∃ k' s', keyboard_handler k s d = Ok (k', s') ∧ shows s' (puts t new) ∧ only_screen s s' ∧
    ring k' (str ++ new) ∧ is_make k' = negb (is_make k).
Proof.
  intros Hs Hr Hd. unfold keyboard_handler. cbn [typed]. destruct (is_make k) eqn:Em.
  - rewrite layout_lookup by done. out_red. destruct (key_char d =? 0) eqn:E; cbn [negb app].
    + rewrite app_nil_r. eexists _, s. split; [done |].
      split_and!; [done | apply only_screen_refl | by apply ring_flag | done].
    + destruct (printc_shows s t (key_char d) Hs) as (s1 & -> & Hs1 & Ho1). out_red.
      destruct (move_cursor_shows _ _ Hs1) as [Hs2 Ho2]. eexists _, _. split; [done |].
      split_and!; [exact Hs2 | by eapply only_screen_trans | | done].
      apply (ring_flag (Keyboard _ _ true)). by apply ring_push.
  - rewrite app_nil_r. eexists _, s. split; [done |].
    split_and!; [done | apply only_screen_refl | by apply ring_flag | done].
Qed.

Lemma typed_app make d codes : typed make (d :: codes) = typed make [d] ++ typed (negb make) codes.
Proof. destruct make; simpl; [by rewrite app_nil_r | done]. Qed.

Lemma key_events_spec codes : ∀ k s t str,
  shows s t → ring k str → Forall (λ d, 0 ≤ d) codes →
  ∃ k' s', key_events k s codes = Ok (k', s') ∧
    shows s' (puts t (typed (is_make k) codes)) ∧ only_screen s s' ∧ ring k' (str ++ typed (is_make k) codes).
Proof.
  induction codes as [|d codes IH]; intros k s t str Hs Hr Hc.
  - exists k, s. rewrite app_nil_r. split_and!; [done | done | apply only_screen_refl | done].
  - apply Forall_cons in Hc as [Hd Hc].
    destruct (keyboard_handler_spec k s t str d Hs Hr Hd) as (k1 & s1 & H1 & Hs1 & Ho1 & Hr1 & Hm1).
    destruct (IH k1 s1 _ _ Hs1 Hr1 Hc) as (k2 & s2 & H2 & Hs2 & Ho2 & Hr2).
    exists k2, s2. rewrite Hm1 in Hs2, Hr2. rewrite typed_app, app_assoc. unfold puts in *.
    rewrite foldl_app. split_and!; try done; [| by eapply only_screen_trans].
    cbn [key_events]. rewrite H1. out_red. exact H2.
Qed.

(** [C24] Any sequence of bytes at the port of the keyboard is decoded to the
    characters of every other byte; they appear on the screen, and the last 32
    of them are in the circular buffer in front of its position. *)
Theorem keyboard_ring s t codes :
  shows s t → Forall (λ d, 0 ≤ d) codes →
  ∃ k' s', key_events keyboard_start s codes = Ok (k', s') ∧
    shows s' (puts t (typed true codes)) ∧ only_screen s s' ∧ ring k' (typed true codes).
Proof. intros Hs Hc. by apply (key_events_spec codes keyboard_start s t []); [| apply ring_start |]. Qed.

(** The bit that tells a release from a press is never looked at: a press
    that the keyboard repeats counts as the release of the key, and the
    following release as another press. *)
Theorem keyboard_release_bit k s d :
  0 ≤ d < 0x80 → keyboard_handler k s (d + 0x80) = keyboard_handler k s d.
Proof.
  intros Hd. unfold keyboard_handler. replace (Z.land (d + 0x80) 0x7f) with (Z.land d 0x7f); [done |].
  change 0x7f with (Z.ones 7). rewrite !Z.land_ones by lia. change (2 ^ 7) with 128. mlia.
Qed.

Lemma keyboard_release_bit_witness :
  keyboard_handler keyboard_start blank (30 + 0x80) = keyboard_handler keyboard_start blank 30.
Proof. apply (keyboard_release_bit keyboard_start blank 30). lia. Defined.

(** The keys a and b. *)
Lemma keyboard_ring_witness : ∃ k' s',
  key_events keyboard_start blank [30; 158; 48; 176] = Ok (k', s') ∧ ring k' [97; 98].
Proof.
  destruct (keyboard_ring blank blank_terminal [30; 158; 48; 176] blank_shows) as (k' & s' & H & _ & _ & Hr);
    [repeat constructor; lia |].
  exists k', s'. split; [exact H | exact Hr].
Defined.
