(* ===== verification/Tar.v ===== *)
(** * The initial archive (tar.c, tar.h)

    The walk over a ustar archive in memory, the search for a file by name,
    and the file descriptors of its members, with the archive format they are
    meant for.  The console carries the memory, as the walk prints the names
    it finds. *)

From S2P Require Import Prelude Mem LibTitan Mb2 Vga.

Definition HEADER_LIST_SIZE : Z := 5.
Definition VFS_PATH_LENGTH : Z := 64.

(** [file_descriptor_t]. *)
Record file_descriptor_t := Fd {
  fs_file_id : Z;
  mountpoint_id : Z;
  filename : list Z;
  buf_read_pos : Z;
  buf_write_pos : Z;
  file_size : Z;
  file_buffer : Z;
}.

(** Offset of [size] in [tar_header_t]. *)
Definition OFF_SIZE : Z := 124.

(** The loop of [get_file_size] from [j]; [char] is signed. *)
Fixpoint size_loop (j : nat) (m : mem) (in_ size count : Z) : outcome Z :=
  match j with
  | O => Ok size
  | S j' =>
      b ← load8 m (in_ + Z.of_nat j');
      size_loop j' m in_ (u64 (size + u64 (i8 b - 48) * count)) (u64 (count * 8))
  end.

Definition get_file_size (m : mem) (in_ : Z) : outcome Z := size_loop 11 m in_ 0 1.

(** The characters of a C string in front of its terminator. *)
Fixpoint c_string_loop (fuel : nat) (m : mem) (a : Z) : outcome (list Z) :=
  match fuel with
  | O => NoFuel
  | S fuel' =>
      b ← load8 m a;
      if b =? 0 then Ok [] else l ← c_string_loop fuel' m (a + 1); Ok (b :: l)
  end.

Definition c_string (m : mem) (a : Z) : outcome (list Z) := c_string_loop (S (size m)) m a.

Definition found_file : list Z := bytes_of "tar: found file ".

(** The loop of [parse_tar_file]: [header] is also [header_addr]. *)
Fixpoint parse_loop (fuel : nat) (s : console) (file_headers : list Z) (header : Z) (i : nat)
    : outcome (list Z * console) :=
  match fuel with
  | O => NoFuel
  | S fuel' =>
      b ← load8 (vmem s) header;
      if b =? 0 then Ok (file_headers, s) else
      name ← c_string (vmem s) header;
      s1 ← printk s (found_file ++ [37; 115] ++ [10]) [AStr name];
      file_size ← get_file_size (vmem s1) (header + OFF_SIZE);
      let header_addr := u64 (header + u64 (u64 (file_size / 512 + 1) * 512)) in
      let header_addr' := if file_size mod 512 =? 0 then header_addr else u64 (header_addr + 512) in
      if (i <? length file_headers)%nat
      then parse_loop fuel' s1 (<[i := header]> file_headers) header_addr' (S i)
      else Fault (OutOfBounds "file_headers")
  end.

Definition parse_tar_file (fuel : nat) (s : console) (file_headers : list Z) (header : Z)
    : outcome (list Z * console) := parse_loop fuel s file_headers header 0.

(** The loop of [get_file_header] over the slots from [i] on. *)
Fixpoint header_loop (m : mem) (file_headers : list Z) (file_name i : Z) : outcome Z :=
  match file_headers with
  | [] => Ok (-1)
  | h :: hs =>
      r ← strncmp m h file_name 100;
      if r =? 0 then Ok i else header_loop m hs file_name (i + 1)
  end.

Definition get_file_header (m : mem) (file_headers : list Z) (file_name : Z) : outcome Z :=
  header_loop m file_headers file_name 0.

(** The [n] bytes from [a]. *)
Fixpoint load_bytes (n : nat) (m : mem) (a : Z) : outcome (list Z) :=
  match n with
  | O => Ok []
  | S n' => b ← load8 m a; l ← load_bytes n' m (a + 1); Ok (b :: l)
  end.

(** [strncpy] into an array of [dsize] characters that is a field of a
    structure: what it holds afterwards. *)
Definition strncpy_array (m : mem) (src dsize : Z) : outcome (list Z) :=
  src_len ← strnlen m src dsize;
  l ← load_bytes (Z.to_nat src_len) m src;
  Ok (l ++ replicate (Z.to_nat (dsize - src_len)) 0).

(** [ustar_open]; after the error message it goes on with index [-1]. *)
Definition ustar_open (s : console) (file_headers : list Z) (file_name : Z)
    : outcome (file_descriptor_t * console) :=
  file_handle ← get_file_header (vmem s) file_headers file_name;
  s1 ← (if file_handle =? -1 then ERROR s "tar" "file not found" else Ok s);
  file_header ← (if file_handle =? -1 then Fault (OutOfBounds "file_headers")
                 else of_option (OutOfBounds "file_headers") (file_headers !! Z.to_nat file_handle));
  size ← get_file_size (vmem s1) (file_header + OFF_SIZE);
  name ← strncpy_array (vmem s1) file_name VFS_PATH_LENGTH;
  Ok (Fd 0 0 name 0 0 (i32 size) (file_header + 512), s1).

(** [ustar_read]: the number of bytes and the memory. *)
Definition ustar_read (m : mem) (file_handle buffer nbytes : Z) : outcome (Z * mem) :=
  '(_, m') ← memcpy m buffer file_handle nbytes; Ok (nbytes, m').

(** ** The archive format *)

(** [k] octal digits, the most significant first. *)
Fixpoint octal (k : nat) (n : Z) : list Z :=
  match k with
  | O => []
  | S k' => octal k' (n / 8) ++ [48 + n mod 8]
  end.

(** A member: its name, what its header holds besides name and size, and its
    contents. *)
Record member := Member {
  m_name : list Z;
  m_mode_uid_gid : list Z;
  m_rest : list Z;
  m_data : list Z;
}.

Record member_ok (f : member) : Prop := {
  mo_name : (0 < length (m_name f) < 100)%nat ∧ Forall char_ok (m_name f);
  mo_ids : length (m_mode_uid_gid f) = 24%nat;
  mo_rest : length (m_rest f) = 376%nat;
  mo_data : Z.of_nat (length (m_data f)) < 8 ^ 11;
}.

Definition padding (f : member) : nat := Z.to_nat ((- Z.of_nat (length (m_data f))) mod 512).

Definition member_header (f : member) : list Z :=
  m_name f ++ replicate (100 - length (m_name f)) 0 ++ m_mode_uid_gid f ++
  octal 11 (Z.of_nat (length (m_data f))) ++ [0] ++ m_rest f.

(** Header, contents and padding to a multiple of 512 bytes. *)
Definition member_bytes (f : member) : list Z :=
  member_header f ++ m_data f ++ replicate (padding f) 0.

(** The members and the first byte of the block of zeros behind them. *)
Definition archive (fs : list member) : list Z := flat_map member_bytes fs ++ [0].

(** Where the headers of the members lie in an archive at [a]. *)
Fixpoint headers_at (a : Z) (fs : list member) : list Z :=
  match fs with
  | [] => []
  | f :: fs' => a :: headers_at (a + Z.of_nat (length (member_bytes f))) fs'
  end.

(** What the walk prints. *)
Definition listing (fs : list member) : list Z := flat_map (λ f, found_file ++ m_name f ++ [10]) fs.

(** ** Reading numbers and strings *)

Lemma length_octal k n : length (octal k n) = k.
Proof. revert n. induction k; intros n; simpl; [done |]. rewrite length_app, IHk. simpl. lia. Qed.

Lemma size_loop_octal k m in_ n size count :
  bytes_at m in_ (octal k n) → 0 ≤ n → 0 ≤ count →
  size_loop k m in_ size count = Ok (if (k =? 0)%nat then size else u64 (size + count * (n mod 8 ^ Z.of_nat k))).
Proof.
  revert n size count. induction k as [|k IH]; intros n size count Hb Hn Hc; [done |].
  simpl octal in Hb. apply bytes_at_app in Hb as [Hb1 Hb2]. rewrite length_octal in Hb2.
  apply bytes_at_cons in Hb2 as [Hd _]. cbn [size_loop]. rewrite (proj2 (load8_Ok _ _ _) Hd). out_red.
  assert (u64 (i8 (48 + n mod 8) - 48) = n mod 8) as ->.
  { unfold i8, sext. rewrite Z.mod_small by mlia. rewrite u64_small; mlia. }
  rewrite (IH (n / 8)); [| done | mlia | unfold u64; mlia]. cbn [Nat.eqb].
  assert (n mod 8 ^ Z.of_nat (S k) = n mod 8 + 8 * ((n / 8) mod 8 ^ Z.of_nat k)) as ->.
  { rewrite Nat2Z.inj_succ, Z.pow_succ_r, Z.rem_mul_r by lia. lia. }
  destruct k as [|k]; simpl Nat.eqb.
  - rewrite Z.mod_1_r. do 2 f_equal. lia.
  - f_equal. unfold u64. rewrite Zplus_mod_idemp_l, <- Zplus_mod_idemp_r, Zmult_mod_idemp_l, Zplus_mod_idemp_r.
    f_equal. lia.
Qed.

(** Twelve characters of octal digits and a terminator round-trip. *)
Lemma get_file_size_octal m in_ n :
  bytes_at m in_ (octal 11 n) → 0 ≤ n < 8 ^ 11 → get_file_size m in_ = Ok n.
Proof.
  intros Hb Hn. unfold get_file_size. rewrite (size_loop_octal 11 _ _ n) by (done || lia).
  cbn [Nat.eqb]. rewrite Z.mod_small by lia. rewrite Z.add_0_l, Z.mul_1_l, u64_small; [done | lia].
Qed.

Lemma bytes_at_size m a l : bytes_at m a l → (length l ≤ size m)%nat.
Proof.
  intros Hb. set (ks := seqZ a (Z.of_nat (length l))).
  assert (length l = length ks) as -> by (unfold ks; rewrite length_seqZ; lia).
  rewrite <- (size_list_to_set (C:=gset Z) ks), <- size_dom by apply NoDup_seqZ.
  apply subseteq_size. unfold ks. intros i. rewrite elem_of_list_to_set, elem_of_seqZ, elem_of_dom.
  apply (bytes_at_mapped _ _ _ Hb).
Qed.

Lemma c_string_loop_spec l m a fuel :
  bytes_at m a (l ++ [0]) → Forall char_ok l → (length l < fuel)%nat → c_string_loop fuel m a = Ok l.
Proof.
  revert a fuel. induction l as [|b l IH]; intros a [|fuel] Hb Hn Hf; simpl in Hf; try lia;
    apply bytes_at_cons in Hb as [Hb Hr]; cbn [c_string_loop]; rewrite (proj2 (load8_Ok _ _ _) Hb); out_red.
  - done.
  - apply Forall_cons in Hn as [Hc Hn]. unfold char_ok in Hc. rewrite (proj2 (Z.eqb_neq b 0)) by lia.
    by rewrite (IH (a + 1)) by (done || lia).
Qed.

Lemma c_string_spec m a l : bytes_at m a (l ++ [0]) → Forall char_ok l → c_string m a = Ok l.
Proof.
  intros Hb Hn. apply c_string_loop_spec; [done | done |].
  apply bytes_at_size in Hb. rewrite length_app in Hb. simpl in Hb. lia.
Qed.

(** ** Members *)

Lemma length_member_header f : member_ok f → length (member_header f) = 512%nat.
Proof.
  intros [[Hn _] Hi Hr _]. unfold member_header.
  rewrite !length_app, length_replicate, length_octal, Hi, Hr. simpl. lia.
Qed.

(** The step of the walk is the length of the member. *)
Lemma member_step f : member_ok f →
  let n := Z.of_nat (length (m_data f)) in
  Z.of_nat (length (member_bytes f)) = (n / 512 + 1) * 512 + (if n mod 512 =? 0 then 0 else 512).
Proof.
  intros Hf n. unfold member_bytes. rewrite !length_app, length_replicate, length_member_header by done.
  unfold padding. fold n. rewrite !Nat2Z.inj_add. fold n.
  rewrite Z2Nat.id by mlia. destruct (n mod 512 =? 0) eqn:E; zbool; mlia.
Qed.

Lemma member_at m a f :
  member_ok f → bytes_at m a (member_bytes f) →
  bytes_at m a (m_name f ++ [0]) ∧
  bytes_at m (a + OFF_SIZE) (octal 11 (Z.of_nat (length (m_data f)))) ∧
  bytes_at m (a + 512) (m_data f).
Proof.
  intros Hf Hb. pose proof (length_member_header f Hf) as Hlen. destruct Hf as [[Hn _] Hi Hr _].
  unfold member_bytes in Hb. apply bytes_at_app in Hb as [Hh Hd]. apply bytes_at_app in Hd as [Hd _].
  rewrite Hlen in Hd. unfold member_header in Hh.
  destruct (100 - length (m_name f))%nat as [|k] eqn:Ek; [lia |].
  replace (m_name f ++ replicate (S k) 0 ++ m_mode_uid_gid f ++ octal 11 (Z.of_nat (length (m_data f))) ++ [0] ++ m_rest f)
    with ((m_name f ++ [0]) ++ replicate k 0 ++ m_mode_uid_gid f ++ octal 11 (Z.of_nat (length (m_data f))) ++ [0] ++ m_rest f)
    in Hh by (simpl; by rewrite <- !app_assoc).
  apply bytes_at_app in Hh as [H1 Hh]. apply bytes_at_app in Hh as [_ Hh]. apply bytes_at_app in Hh as [_ Hh].
  apply bytes_at_app in Hh as [H2 _].
  split_and!; [done | | exact Hd].
  rewrite length_app, length_replicate, Hi in H2. simpl length in H2. unfold OFF_SIZE.
  by replace (a + 124) with (a + Z.of_nat (length (m_name f) + 1) + Z.of_nat k + Z.of_nat 24) by lia.
Qed.

Lemma archive_cons m a f fs :
  bytes_at m a (archive (f :: fs)) →
  bytes_at m a (member_bytes f) ∧ bytes_at m (a + Z.of_nat (length (member_bytes f))) (archive fs).
Proof. unfold archive. simpl. rewrite <- app_assoc. by rewrite bytes_at_app. Qed.

Lemma member_first m a f : member_ok f → bytes_at m a (member_bytes f) → ∃ b, m !! a = Some b ∧ b ≠ 0.
Proof.
  intros Hf Hb. destruct (member_at _ _ _ Hf Hb) as (Hn & _). destruct Hf as [[Hl Hc] _ _ _].
  destruct (m_name f) as [|b l]; [simpl in Hl; lia |].
  apply bytes_at_cons in Hn as [Hb0 _]. apply Forall_cons in Hc as [Hc _]. exists b.
  unfold char_ok in Hc. split; [done | lia].
Qed.

Lemma length_headers_at a fs : length (headers_at a fs) = length fs.
Proof. revert a. induction fs; intros; simpl; [done | by f_equal]. Qed.

(** The archive lies outside the screen. *)
Definition off_screen (s : console) (a n : Z) : Prop :=
  a + n ≤ vga_out s ∨ vga_out s + VGA_LENGTH ≤ a.

Lemma only_screen_bytes s s' a l :
  only_screen s s' → off_screen s a (Z.of_nat (length l)) → bytes_at (vmem s) a l → bytes_at (vmem s') a l.
Proof.
  intros (Ha & _) Ho Hb. apply (bytes_at_agree (vmem s)); [| done].
  intros i Hi. apply Ha. destruct Ho; lia.
Qed.

Lemma only_screen_off s s' a n : only_screen s s' → off_screen s a n → off_screen s' a n.
Proof. unfold off_screen. intros (_ & Hv & _). by rewrite Hv. Qed.

Lemma not_percent_found : 37 ∉ found_file.
Proof. by apply (bool_decide_unpack (37 ∉ found_file)). Qed.

(** The memory and the screen in front of the walk over [fs] from [a]. *)
Record walk (s : console) (t : terminal) (a : Z) (fs : list member) : Prop := {
  wk_shows : shows s t;
  wk_lock : locked s = false;
  wk_ok : Forall member_ok fs;
  wk_bytes : bytes_at (vmem s) a (archive fs);
  wk_off : off_screen s a (Z.of_nat (length (archive fs)));
  wk_range : 0 ≤ a ∧ a + Z.of_nat (length (archive fs)) ≤ 2 ^ 64;
}.

Lemma parse_loop_step fuel s t file_headers a i f fs :
  walk s t a (f :: fs) →
  ∃ s', walk s' (puts t (found_file ++ m_name f ++ [10])) (a + Z.of_nat (length (member_bytes f))) fs ∧
    only_screen s s' ∧
    parse_loop (S fuel) s file_headers a i =
      if (i <? length file_headers)%nat
      then parse_loop fuel s' (<[i := a]> file_headers) (a + Z.of_nat (length (member_bytes f))) (S i)
      else Fault (OutOfBounds "file_headers").
Proof.
  intros [Hs Hl Hok Hb Ho Hr]. apply Forall_cons in Hok as [Hf Hok].
  pose proof (archive_cons _ _ _ _ Hb) as [Hm _].
  destruct (member_at _ _ _ Hf Hm) as (Hname & _). destruct (member_first _ _ _ Hf Hm) as (b & Hb0 & Hnz).
  destruct (printk_message s t found_file (m_name f) [10])
    as (s' & Hp & Hs' & Hon); [done | done | apply not_percent_found | set_solver |].
  exists s'. pose proof (only_screen_bytes _ _ _ _ Hon Ho Hb) as Hb'.
  pose proof (archive_cons _ _ _ _ Hb') as [Hm' Hfs]. destruct (member_at _ _ _ Hf Hm') as (_ & Hsize & _).
  assert (length (archive (f :: fs)) = length (member_bytes f) + length (archive fs))%nat as Hlen.
  { unfold archive. simpl. rewrite <- app_assoc. apply length_app. }
  assert (0 < length (archive fs))%nat by (unfold archive; rewrite length_app; simpl; lia).
  split_and!; [| done |].
  - split; [done | by destruct Hon as (_ & _ & ->) | done | exact Hfs | | lia].
    apply (only_screen_off _ _ _ _ Hon) in Ho. unfold off_screen in *. lia.
  - cbn [parse_loop]. rewrite (proj2 (load8_Ok _ _ _) Hb0). out_red. rewrite (proj2 (Z.eqb_neq b 0)) by done.
    rewrite (c_string_spec _ _ (m_name f)) by (done || apply Hf). out_red. rewrite Hp. out_red.
    rewrite (get_file_size_octal _ _ (Z.of_nat (length (m_data f)))); [| done | split; [lia | apply Hf]]. out_red.
    pose proof (member_step f Hf) as Hstep. cbv zeta in Hstep. pose proof (mo_data _ Hf) as Hd.
    set (n := Z.of_nat (length (m_data f))) in *.
    rewrite (u64_small (n / 512 + 1)) by mlia. rewrite (u64_small ((n / 512 + 1) * 512)) by mlia.
    destruct (n mod 512 =? 0).
    + rewrite (u64_small (a + _)) by lia. by rewrite Hstep, Z.add_0_r.
    + rewrite (u64_small (a + (n / 512 + 1) * 512)) by (zbool; mlia).
      rewrite u64_small by lia. by rewrite Hstep, Z.add_assoc.
Qed.

Lemma parse_loop_spec fs s t file_headers a i k :
  walk s t a fs → (i + length fs ≤ length file_headers)%nat →
  ∃ s', parse_loop (S (length fs) + k) s file_headers a i =
      Ok (take i file_headers ++ headers_at a fs ++ drop (i + length fs) file_headers, s') ∧
    shows s' (puts t (listing fs)) ∧ only_screen s s'.
Proof.
  revert s t file_headers a i. induction fs as [|f fs IH]; intros s t hs a i Hw Hi.
  - exists s. cbn [parse_loop Nat.add length]. destruct Hw as [Hs _ _ Hb _ _]. apply bytes_at_cons in Hb as [Hb _].
    rewrite (proj2 (load8_Ok _ _ _) Hb). out_red. simpl. rewrite Nat.add_0_r, take_drop.
    split_and!; [done | done | apply only_screen_refl].
  - cbn [length Nat.add] in *. destruct (parse_loop_step (S (length fs + k)) s t hs a i f fs Hw) as (s1 & Hw1 & Ho1 & ->).
    rewrite (proj2 (Nat.ltb_lt _ _)) by lia.
    destruct (IH s1 _ (<[i:=a]> hs) _ (S i) Hw1) as (s2 & H2 & Hs2 & Ho2); [rewrite length_insert; lia |].
    exists s2. cbn [Nat.add] in H2. rewrite H2. split_and!; [| | by eapply only_screen_trans].
    + f_equal. f_equal. rewrite drop_insert_lt by lia. cbn [headers_at].
      assert (take (S i) (<[i:=a]> hs) = take i hs ++ [a]) as ->.
      { rewrite (take_S_r _ _ a) by (apply list_lookup_insert_eq; lia). by rewrite take_insert_ge by lia. }
      rewrite <- app_assoc. simpl. do 3 f_equal. f_equal. lia.
    + change (listing (f :: fs)) with ((found_file ++ m_name f ++ [10]) ++ listing fs).
      unfold puts in *. by rewrite foldl_app.
Qed.

Lemma parse_loop_full fs s t file_headers a i k :
  walk s t a fs → (i ≤ length file_headers < i + length fs)%nat →
  parse_loop (S (length fs) + k) s file_headers a i = Fault (OutOfBounds "file_headers").
Proof.
  revert s t file_headers a i. induction fs as [|f fs IH]; intros s t hs a i Hw Hi; [simpl in Hi; lia |].
  cbn [length Nat.add] in *. destruct (parse_loop_step (S (length fs + k)) s t hs a i f fs Hw) as (s1 & Hw1 & _ & ->).
  destruct (Nat.ltb_spec i (length hs)); [| done].
  eapply (IH s1); [exact Hw1 |]. rewrite length_insert. lia.
Qed.

(** parse_tar_file on an archive. *)
Theorem parse_tar_file_headers fs s t file_headers a k :
  walk s t a fs → length file_headers = 5%nat →
  ((length fs ≤ 5)%nat → ∃ s', parse_tar_file (S (length fs) + k) s file_headers a =
      Ok (headers_at a fs ++ drop (length fs) file_headers, s') ∧
    shows s' (puts t (listing fs)) ∧ only_screen s s') ∧
  ((5 < length fs)%nat →
   parse_tar_file (S (length fs) + k) s file_headers a = Fault (OutOfBounds "file_headers")).
Proof.
  intros Hw Hl. split; intros Hn.
  - by apply (parse_loop_spec fs s t file_headers a 0 k); [| lia].
  - by apply (parse_loop_full fs s t file_headers a 0 k); [| lia].
Qed.

(** ** Looking a name up *)

(** What [strncmp] takes for equal: from the second character on, one name is
    the beginning of the other. *)
Definition names_match (n1 n2 : list Z) : bool :=
  bool_decide (tail n1 `prefix_of` tail n2 ∨ tail n2 `prefix_of` tail n1).

Lemma char_ok_nonzero l : Forall char_ok l → Forall (λ b, b ≠ 0) l.
Proof. intros H. apply (Forall_impl _ _ _ H). unfold char_ok. lia. Qed.

Lemma bytes_at_tail m a l : l ≠ [] → bytes_at m a (l ++ [0]) → bytes_at m (a + 1) (tail l ++ [0]).
Proof. destruct l; [done |]. intros _ [_ Hb]%bytes_at_cons. exact Hb. Qed.

Lemma Forall_tail {A} (P : A → Prop) l : Forall P l → Forall P (tail l).
Proof. destruct 1; simpl; [constructor | done]. Qed.

Lemma strncmp_names m h p n1 n2 :
  bytes_ok m → bytes_at m h (n1 ++ [0]) → bytes_at m p (n2 ++ [0]) → n1 ≠ [] → n2 ≠ [] →
  Forall char_ok n1 → Forall char_ok n2 → (length n1 < 100)%nat →
  ∃ r, strncmp m h p 100 = Ok r ∧ (r =? 0) = names_match n1 n2.
Proof.
  intros Hok H1 H2 Hn1 Hn2 Hc1 Hc2 Hl.
  destruct (strncmp_loop_zero (tail n1) (tail n2) m h p 1 (Z.to_nat (100 - 1))) as (r & Hr & Hz);
    [done | by apply bytes_at_tail | by apply bytes_at_tail | by apply char_ok_nonzero, Forall_tail
    | by apply char_ok_nonzero, Forall_tail | |].
  - destruct n1; simpl in *; lia.
  - exists r. split; [exact Hr |]. unfold names_match.
    destruct (r =? 0) eqn:E; zbool; symmetry; [apply bool_decide_true | apply bool_decide_false]; tauto.
Qed.

Lemma header_loop_spec fs m a p n2 rest i :
  bytes_ok m → Forall member_ok fs → bytes_at m a (archive fs) →
  bytes_at m p (n2 ++ [0]) → n2 ≠ [] → Forall char_ok n2 →
  header_loop m (headers_at a fs ++ rest) p i =
    match list_find (λ f, names_match (m_name f) n2 = true) fs with
    | Some (j, _) => Ok (i + Z.of_nat j)
    | None => header_loop m rest p (i + Z.of_nat (length fs))
    end.
Proof.
  intros Hok. revert a i. induction fs as [|f fs IH]; intros a i Hfs Hb Hp Hn Hc.
  - simpl. by rewrite Z.add_0_r.
  - apply Forall_cons in Hfs as [Hf Hfs]. apply archive_cons in Hb as [Hm Hb].
    destruct (member_at _ _ _ Hf Hm) as (Hname & _). destruct (mo_name _ Hf) as [Hl Hcf].
    cbn [headers_at app header_loop list_find].
    destruct (strncmp_names m a p (m_name f) n2) as (r & -> & Hr); try done; [| lia |].
    { intros E. rewrite E in Hl. simpl in Hl. lia. }
    out_red. rewrite Hr. destruct (names_match (m_name f) n2) eqn:E.
    + rewrite decide_True by done. by rewrite Z.add_0_r.
    + rewrite decide_False by done. rewrite IH by done. cbn [length].
      destruct (list_find _ fs) as [[j g]|]; cbn; f_equal; lia.
Qed.

Lemma header_loop_null m p i k :
  m !! 1 = None → header_loop m (replicate (S k) 0) p i = Fault (PageFault 1).
Proof.
  intros H1. cbn [replicate header_loop]. unfold strncmp. simpl strncmp_loop.
  by rewrite (load8_fault m (0 + 1)).
Qed.

Lemma load_bytes_spec l m a : bytes_at m a l → load_bytes (length l) m a = Ok l.
Proof.
  revert a. induction l as [|b l IH]; intros a Hb; [done |]. apply bytes_at_cons in Hb as [Hb Hr].
  simpl. rewrite (proj2 (load8_Ok _ _ _) Hb). out_red. by rewrite (IH (a + 1)).
Qed.

Lemma strncpy_array_spec m src l n :
  bytes_at m src (l ++ [0]) → Forall char_ok l → (length l < n)%nat →
  strncpy_array m src (Z.of_nat n) = Ok (l ++ replicate (n - length l) 0).
Proof.
  intros Hb Hc Hl. unfold strncpy_array, strnlen.
  rewrite (strnlen_loop_spec l) by (rewrite ?Z.add_0_r; done || (by apply char_ok_nonzero) || lia). out_red.
  apply bytes_at_app in Hb as [Hb _]. rewrite Z.add_0_l, Nat2Z.id, (load_bytes_spec _ _ _ Hb). out_red.
  do 3 f_equal. lia.
Qed.

(** [strncpy_array] is what [strncpy] leaves in its destination. *)
Lemma strncpy_array_bytes m dst src l n :
  bytes_ok m → bytes_at m src (l ++ [0]) → Forall char_ok l → (length l < n)%nat →
  mapped m dst (Z.of_nat n) → dst + Z.of_nat n ≤ src ∨ src + Z.of_nat (length l) < dst →
  ∃ m' bs, strncpy m dst src (Z.of_nat n) = Ok (dst, m') ∧
    strncpy_array m src (Z.of_nat n) = Ok bs ∧ bytes_at m' dst bs.
Proof.
  intros Hok Hb Hc Hl Hm Hd. destruct (strncpy_spec m dst src l (Z.of_nat n)) as (m' & H1 & H2 & _);
    try done; [by apply char_ok_nonzero | lia |].
  exists m', (l ++ replicate (n - length l) 0). rewrite Nat2Z.id in H2.
  split_and!; [done | by apply strncpy_array_spec | done].
Qed.

(** The headers of the archive at [a] fill the slots from the first on. *)
Record parsed (s : console) (t : terminal) (file_headers : list Z) (a : Z) (fs : list member) : Prop := {
  pa_walk : walk s t a fs;
  pa_slots : file_headers = headers_at a fs ++ replicate (5 - length fs) 0;
  pa_length : (length fs ≤ 5)%nat;
}.

(** The path at [p] is the string [n]. *)
Record path_at (m : mem) (p : Z) (n : list Z) : Prop := {
  pt_bytes : bytes_at m p (n ++ [0]);
  pt_chars : Forall char_ok n;
  pt_length : (0 < length n < 64)%nat;
}.

Lemma header_at_lookup fs m a j f :
  Forall member_ok fs → bytes_at m a (archive fs) → fs !! j = Some f →
  ∃ h, headers_at a fs !! j = Some h ∧
    bytes_at m (h + OFF_SIZE) (octal 11 (Z.of_nat (length (m_data f)))) ∧
    bytes_at m (h + 512) (m_data f) ∧
    a ≤ h ∧ h + 512 + Z.of_nat (length (m_data f)) < a + Z.of_nat (length (archive fs)).
Proof.
  revert a j. induction fs as [|g fs IH]; intros a j Hfs Hb Hj; [done |].
  apply Forall_cons in Hfs as [Hg Hfs]. pose proof (archive_cons _ _ _ _ Hb) as [Hm Hb'].
  assert (length (archive (g :: fs)) = length (member_bytes g) + length (archive fs))%nat as Hlen.
  { unfold archive. simpl. rewrite <- app_assoc. apply length_app. }
  assert (512 + length (m_data g) ≤ length (member_bytes g))%nat.
  { unfold member_bytes. rewrite !length_app, (length_member_header g Hg). lia. }
  assert (0 < length (archive fs))%nat by (unfold archive; rewrite length_app; simpl; lia).
  destruct j as [|j]; simpl in Hj.
  - injection Hj as ->. destruct (member_at _ _ _ Hg Hm) as (_ & H1 & H2). exists a. split_and!; try done; lia.
  - destruct (IH _ _ Hfs Hb' Hj) as (h & Hh & H1 & H2 & H3 & H4). exists h. split_and!; try done; lia.
Qed.

(** The first member that the name matches. *)
Definition find_member (fs : list member) (n : list Z) : option (nat * member) :=
  list_find (λ f, names_match (m_name f) n = true) fs.

Lemma ustar_open_spec fs s t file_headers a p n :
  parsed s t file_headers a fs → path_at (vmem s) p n → vmem s !! 1 = None →
  match find_member fs n with
  | Some (_, f) => ∃ b, ustar_open s file_headers p =
        Ok (Fd 0 0 (n ++ replicate (64 - length n) 0) 0 0 (i32 (Z.of_nat (length (m_data f)))) b, s) ∧
      bytes_at (vmem s) b (m_data f) ∧
      a ≤ b ∧ b + Z.of_nat (length (m_data f)) < a + Z.of_nat (length (archive fs))
  | None => ustar_open s file_headers p =
      Fault (if (length fs <? 5)%nat then PageFault 1 else OutOfBounds "file_headers")
  end.
Proof.
  intros [[Hs Hlk Hok Hb _ Hr] -> Hl] [Hp Hc Hn] H1. unfold ustar_open, get_file_header.
  rewrite (header_loop_spec fs _ _ _ n); try done; [| apply Hs | by intros -> ; simpl in Hn; lia].
  fold (find_member fs n). destruct (find_member fs n) as [[j f]|] eqn:E.
  - apply list_find_Some in E as (Hj & _ & _). out_red. rewrite (proj2 (Z.eqb_neq _ _)) by lia. out_red.
    destruct (header_at_lookup _ _ _ _ _ Hok Hb Hj) as (h & Hh & Hsz & Hd & Hlo & Hhi).
    rewrite Z.add_0_l, Nat2Z.id, lookup_app_l by by eapply lookup_lt_Some. rewrite Hh.
    rewrite (get_file_size_octal _ _ (Z.of_nat (length (m_data f)))); [| done |]; out_red.
    2: { split; [lia |]. eapply (mo_data f), (proj1 (Forall_forall _ _) Hok), list_elem_of_lookup_2, Hj. }
    change VFS_PATH_LENGTH with (Z.of_nat 64). rewrite (strncpy_array_spec _ _ n) by (done || lia). out_red.
    exists (h + 512). split_and!; [done | done | lia | lia].
  - destruct (5 - length fs)%nat as [|k] eqn:Ek.
    + rewrite (proj2 (Nat.ltb_ge _ _)) by lia. cbn [replicate header_loop]. out_red.
      change (-1 =? -1) with true. cbn [negb]. destruct (ERROR_shows s t "tar" "file not found") as (s' & -> & _); done.
    + rewrite (proj2 (Nat.ltb_lt _ _)) by lia. by rewrite header_loop_null.
Qed.
