(* ===== verification/Vfs.v ===== *)
(** * Mount points and open files (vfs.c, vfs.h)

    A mount point is a structure of bytes on the heap, an open file a slot of a
    static table.  Paths, names and the buffers of readers are addresses in
    the memory of the console. *)

From S2P Require Import Prelude Iface Mem LibTitan Mb2 MmState Vga Tar.

Definition MAX_MOUNTPOINTS : Z := 12.
Definition MAX_OPENED_FILES : Z := 10.
Definition VFS_TYPE_LEGNTH : Z := 32.

(** [mountpoint_t]: its size and the offsets of its fields. *)
Definition SIZEOF_MOUNTPOINT_T : Z := 176.
Definition OFF_DEVICE : Z := 32.
Definition OFF_MOUNTPOINT : Z := 96.
Definition OFF_OPEN : Z := 160.
Definition OFF_READ : Z := 168.

Definition zero_fd : file_descriptor_t := Fd 0 0 (replicate 64 0) 0 0 0 0.

(** The globals of vfs.c and tar.c. *)
Record vfs := Vfs {
  con : console;
  file_headers : list Z;
  mountpoints : list Z;
  vfs_opened_files : list file_descriptor_t;
}.

Definition set_con (s : vfs) (c : console) : vfs := Vfs c (file_headers s) (mountpoints s) (vfs_opened_files s).
Definition set_fs_mem (s : vfs) (m : mem) : vfs := set_con s (set_vmem (con s) m).
Definition set_mountpoints (s : vfs) (l : list Z) : vfs := Vfs (con s) (file_headers s) l (vfs_opened_files s).
Definition set_opened (s : vfs) (l : list file_descriptor_t) : vfs := Vfs (con s) (file_headers s) (mountpoints s) l.
Definition fs_mem (s : vfs) : mem := vmem (con s).

(** Addresses the linker fixes: of string literals and of the functions of
    tar.c. *)
Record fs_symbols := FsSymbols {
  lit_tar : Z;
  lit_root : Z;
  lit_initramfs : Z;
  sym_ustar_open : Z;
  sym_ustar_read : Z;
}.

Definition store64 (m : mem) (a v : Z) : outcome mem :=
  m1 ← store32 m a (v mod 2 ^ 32); store32 m1 (a + 4) (v / 2 ^ 32).

Definition with_read_pos (fd : file_descriptor_t) (pos : Z) : file_descriptor_t :=
  Fd (fs_file_id fd) (mountpoint_id fd) (filename fd) pos (buf_write_pos fd) (file_size fd) (file_buffer fd).

Section Vfs.
Context {H : Type} `{HeapAlloc H} (sym : fs_symbols).

(** The mount point or [NULL]. *)
Definition create_mountpoint (h : H) (m : mem) (device target fs_type : Z) : outcome (Z * H * mem) :=
  '(new_mountpoint, h1) ← ha_alloc h SIZEOF_MOUNTPOINT_T;
  '(_, m1) ← strncpy m (new_mountpoint + OFF_DEVICE) device VFS_PATH_LENGTH;
  '(_, m2) ← strncpy m1 new_mountpoint fs_type 32;
  '(_, m3) ← strncpy m2 (new_mountpoint + OFF_MOUNTPOINT) target VFS_PATH_LENGTH;
  r ← strncmp m3 fs_type (lit_tar sym) VFS_PATH_LENGTH;
  if r =? 0 then
    m4 ← store64 m3 (new_mountpoint + OFF_OPEN) (sym_ustar_open sym);
    m5 ← store64 m4 (new_mountpoint + OFF_READ) (sym_ustar_read sym);
    Ok (new_mountpoint, h1, m5)
  else
    h2 ← ha_free h1 new_mountpoint;
    Ok (NULL, h2, m3).

(** The loop of [add_mountpoint] over the slots. *)
Fixpoint add_mountpoint (l : list Z) (mountpoint : Z) : bool * list Z :=
  match l with
  | [] => (false, [])
  | p :: l' =>
      if p =? NULL then (true, mountpoint :: l')
      else let '(b, l'') := add_mountpoint l' mountpoint in (b, p :: l'')
  end.

(** The loop of [get_mountpoint] and of [vfs_umount]: the index of the first
    mount point whose field at [off] is the string, or the number of slots. *)
Fixpoint find_mountpoint (m : mem) (l : list Z) (off str : Z) (i : nat) : outcome nat :=
  match l with
  | [] => Ok i
  | p :: l' =>
      r ← strncmp m (p + off) str VFS_PATH_LENGTH;
      if r =? 0 then Ok i else find_mountpoint m l' off str (S i)
  end.

Definition get_mountpoint (s : vfs) (path : Z) : outcome Z :=
  i ← find_mountpoint (fs_mem s) (mountpoints s) OFF_MOUNTPOINT path 0;
  Ok (default NULL (mountpoints s !! i)).

(** The loop of [remove_mountpoint]. *)
Fixpoint clear_mountpoint (l : list Z) (mountpoint : Z) : list Z :=
  match l with
  | [] => []
  | p :: l' => if p =? mountpoint then 0 :: l' else p :: clear_mountpoint l' mountpoint
  end.

Definition remove_mountpoint (h : H) (s : vfs) (mountpoint : Z) : outcome (H * vfs) :=
  h' ← ha_free h mountpoint;
  Ok (h', set_mountpoints s (clear_mountpoint (mountpoints s) mountpoint)).

Definition vfs_mount (h : H) (s : vfs) (device target fs_type : Z) : outcome (bool * H * vfs) :=
  '(p, h', m) ← create_mountpoint h (fs_mem s) device target fs_type;
  let '(ok, l) := add_mountpoint (mountpoints s) p in
  if (ok : bool) then Ok (true, h', set_mountpoints (set_fs_mem s m) l) else Fault (Panic "vfs").

(** [vfs_umount] clears the slot before it frees what the slot holds. *)
Definition vfs_umount (h : H) (s : vfs) (device : Z) : outcome (Z * H * vfs) :=
  i ← find_mountpoint (fs_mem s) (mountpoints s) OFF_DEVICE device 0;
  if (i <? length (mountpoints s))%nat then
    let l := <[i := 0]> (mountpoints s) in
    p ← of_option (OutOfBounds "mountpoints") (l !! i);
    h' ← ha_free h p;
    Ok (1, h', set_mountpoints s l)
  else Fault (OutOfBounds "mountpoints").

Definition vfs_init (h : H) (s : vfs) : outcome (bool * H * vfs) :=
  vfs_mount h s (lit_initramfs sym) (lit_root sym) (lit_tar sym).

End Vfs.

Section Files.
Context (sym : fs_symbols).

(** The loop of [vfs_open] over the slots: the first one without a name. *)
Fixpoint free_slot (l : list file_descriptor_t) (i : nat) : option nat :=
  match l with
  | [] => None
  | fd :: l' => if default 0 (head (filename fd)) =? 0 then Some i else free_slot l' (S i)
  end.

(** The comparison of [vfs_open] and [vfs_read] with ["tar"]. *)
Definition is_tar (m : mem) (mountpoint : Z) : outcome bool :=
  r ← strncmp m (lit_tar sym) mountpoint 3; Ok (r =? 0).

Definition vfs_open (s : vfs) (filename flags : Z) : outcome (Z * vfs) :=
  mountpoint ← get_mountpoint s filename;
  tar ← is_tar (fs_mem s) mountpoint;
  if (tar : bool) then
    '(fd, c) ← ustar_open (con s) (file_headers s) (filename + 1);
    let s1 := set_con s c in
    match free_slot (vfs_opened_files s1) 0 with
    | Some i => Ok (Z.of_nat i, set_opened s1 (<[i := fd]> (vfs_opened_files s1)))
    | None => c' ← ERROR c "vfs" "reached max amount of files"; Ok (-1, set_con s1 c')
    end
  else
    c ← ERROR (con s) "vfs" "could not determine FS type"; Ok (-1, set_con s c).

Definition vfs_close (file_handle : Z) : bool := true.

(** [vfs_opened_files[file_handle]]. *)
Definition opened_at (s : vfs) (file_handle : Z) : outcome file_descriptor_t :=
  if file_handle <? 0 then Fault (OutOfBounds "vfs_opened_files")
  else of_option (OutOfBounds "vfs_opened_files") (vfs_opened_files s !! Z.to_nat file_handle).

Definition set_read_pos (s : vfs) (file_handle pos : Z) : outcome vfs :=
  fd ← opened_at s file_handle;
  Ok (set_opened s (<[Z.to_nat file_handle := with_read_pos fd (i32 pos)]> (vfs_opened_files s))).

Definition vfs_read (s : vfs) (file_handle buf nbytes : Z) : outcome (Z * vfs) :=
  fd ← opened_at s file_handle;
  mountpoint ← of_option (OutOfBounds "mountpoints") (mountpoints s !! Z.to_nat (mountpoint_id fd));
  tar ← is_tar (fs_mem s) mountpoint;
  if (tar : bool) then
    '(bytes_read, m) ← ustar_read (fs_mem s) (u64 (file_buffer fd + buf_read_pos fd)) buf nbytes;
    s' ← set_read_pos (set_fs_mem s m) file_handle (u64 (buf_read_pos fd + bytes_read));
    Ok (bytes_read, s')
  else
    c ← ERROR (con s) "vfs" "could not determine FS type"; Ok (u64 (-1), set_con s c).

Definition vfs_seek (s : vfs) (file_handle pos : Z) : outcome (Z * vfs) :=
  s' ← set_read_pos s file_handle pos; Ok (pos, s').

End Files.

(** ** The file system as an abstract table

    Open files are members of the archive with a position; handles count up
    from zero, as nothing frees a slot. *)

Abbreviation open_files := (list (member * Z)).

Definition tar_string : list Z := [116; 97; 114].

(** [fd] reads the member [f] at [pos]; the contents lie in the archive. *)
Record fd_reads (m : mem) (a b : Z) (fd : file_descriptor_t) (fp : member * Z) : Prop := {
  fr_name : default 0 (head (filename fd)) ≠ 0;
  fr_mount : mountpoint_id fd = 0;
  fr_data : bytes_at m (file_buffer fd) (m_data fp.1);
  fr_pos : buf_read_pos fd = fp.2;
  fr_in : a ≤ file_buffer fd ∧ file_buffer fd + Z.of_nat (length (m_data fp.1)) < b;
}.

(** The bytes the file system reads: the archive, the screen, the mount point
    and the literal. *)
Definition protected (sym : fs_symbols) (s : vfs) (a p0 : Z) (fs : list member) : list (Z * Z) :=
  [(a, Z.of_nat (length (archive fs))); (vga_out (con s), VGA_LENGTH);
   (p0, SIZEOF_MOUNTPOINT_T); (lit_tar sym, 4)].

Definition apart (a n : Z) (r : Z * Z) : Prop := a + n ≤ r.1 ∨ r.1 + r.2 ≤ a.

Record vfs_rel (sym : fs_symbols) (t : terminal) (a p0 : Z) (fs : list member) (s : vfs) (tbl : open_files)
    : Prop := {
  vr_parsed : parsed (con s) t (file_headers s) a fs;
  vr_slot : mountpoints s !! 0%nat = Some p0;
  vr_type : bytes_at (fs_mem s) p0 (tar_string ++ [0]);
  vr_root : bytes_at (fs_mem s) (p0 + OFF_MOUNTPOINT) [47; 0];
  vr_lit : bytes_at (fs_mem s) (lit_tar sym) (tar_string ++ [0]);
  vr_null : fs_mem s !! 1 = None;
  vr_screen : Forall (λ r, apart (vga_out (con s)) VGA_LENGTH r) [(p0, SIZEOF_MOUNTPOINT_T); (lit_tar sym, 4)];
  vr_files : ∃ fds, vfs_opened_files s = fds ++ replicate (10 - length tbl) zero_fd ∧
    Forall2 (fd_reads (fs_mem s) a (a + Z.of_nat (length (archive fs)))) fds tbl;
  vr_count : (length tbl ≤ 10)%nat;
}.

(** [m] and [m'] have the same bytes in the range [r]. *)
Definition same_bytes (m m' : mem) (r : Z * Z) : Prop := ∀ i, r.1 ≤ i < r.1 + r.2 → m' !! i = m !! i.

(** A memory that agrees on the protected bytes keeps the relation. *)
Lemma vfs_rel_same sym t a p0 fs s tbl m' :
  vfs_rel sym t a p0 fs s tbl → Forall (same_bytes (fs_mem s) m') (protected sym s a p0 fs) →
  bytes_ok m' → m' !! 1 = None →
  vfs_rel sym t a p0 fs (set_fs_mem s m') tbl.
Proof.
  intros [[[Hs Hlk Hok Hb Ho Hr] Hsl Hl] H0 Ht Hrt Hli Hnl Hsc (fds & Hf1 & Hf2) Hc] Hp Hm' Hn'.
  unfold protected in Hp. rewrite !Forall_cons in Hp. destruct Hp as (P1 & P2 & P3 & P4 & _).
  unfold same_bytes, SIZEOF_MOUNTPOINT_T in *. simpl in P1, P2, P3, P4.
  assert (∀ x l b n, (∀ i, b ≤ i < b + n → m' !! i = fs_mem s !! i) → bytes_at (fs_mem s) x l →
    b ≤ x → x + Z.of_nat (length l) ≤ b + n → bytes_at m' x l) as Hkeep.
  { intros x l b n Hsame Hx H1 H2. apply (bytes_at_agree (fs_mem s)); [| done]. intros i Hi. apply Hsame. lia. }
  unfold fs_mem in *. unfold set_fs_mem, set_con, set_vmem. split; cbn [con vmem file_headers mountpoints]; try done.
  - split; [| done | done]. split; cbn [vmem vga_out]; try done.
    + destruct Hs as [Hc1 Hc2 Hc3 Hc4 Hc5]. split; cbn [vmem vga_out]; try done.
      apply (Hkeep _ _ _ _ P2 Hc1); [lia |]. rewrite length_cell_bytes. destruct Hc4 as (-> & _). unfold VGA_LENGTH in *. lia.
    + apply (Hkeep _ _ _ _ P1 Hb); lia.
  - apply (Hkeep _ _ _ _ P3 Ht); simpl; lia.
  - apply (Hkeep _ _ _ _ P3 Hrt); unfold OFF_MOUNTPOINT; simpl; lia.
  - apply (Hkeep _ _ _ _ P4 Hli); simpl; lia.
  - exists fds. split; [done |]. eapply Forall2_impl; [exact Hf2 |]. intros fd fp [F1 F2 F3 F4 F5].
    split; try done. apply (Hkeep _ _ _ _ P1 F3); lia.
Qed.

Lemma vfs_rel_mem sym t a p0 fs s tbl m' buf n :
  vfs_rel sym t a p0 fs s tbl → Forall (apart buf n) (protected sym s a p0 fs) →
  agree_outside buf n (fs_mem s) m' → bytes_ok m' → m' !! 1 = None → 0 ≤ n →
  vfs_rel sym t a p0 fs (set_fs_mem s m') tbl.
Proof.
  intros Hr Hp Ha Hm' Hn' Hn. apply vfs_rel_same; try done. apply (Forall_impl _ _ _ Hp).
  intros [b k] Hab i Hi. unfold apart in Hab. simpl in *. apply Ha. lia.
Qed.

Lemma is_tar_true sym m p :
  bytes_at m (lit_tar sym) (tar_string ++ [0]) → bytes_at m p (tar_string ++ [0]) → is_tar sym m p = Ok true.
Proof.
  intros H1 H2.
  apply bytes_at_cons in H1 as [_ H1], H2 as [_ H2]. apply bytes_at_cons in H1 as [A1 H1], H2 as [B1 H2].
  apply bytes_at_cons in H1 as [A2 H1], H2 as [B2 H2]. apply bytes_at_cons in H1 as [A3 _], H2 as [B3 _].
  replace (lit_tar sym + 1 + 1) with (lit_tar sym + 2) in * by lia. replace (p + 1 + 1) with (p + 2) in * by lia.
  replace (lit_tar sym + 2 + 1) with (lit_tar sym + 3) in * by lia. replace (p + 2 + 1) with (p + 3) in * by lia.
  unfold is_tar, strncmp. simpl strncmp_loop. unfold load8. rewrite A1. simpl. rewrite B1. simpl.
  change (1 + 1 + 1) with 3. change (1 + 1) with 2. rewrite A2. simpl. rewrite B2. simpl. rewrite A3. simpl. by rewrite B3.
Qed.

(** A mount point at the root comes before all others, whatever the path. *)
Lemma get_mountpoint_root s p0 path :
  mountpoints s !! 0%nat = Some p0 → bytes_at (fs_mem s) (p0 + OFF_MOUNTPOINT) [47; 0] →
  get_mountpoint s path = Ok p0.
Proof.
  intros H0 [_ [Hz _]%bytes_at_cons]%bytes_at_cons. unfold get_mountpoint.
  destruct (mountpoints s) as [|p l]; [done |]. injection H0 as ->. cbn [find_mountpoint].
  unfold strncmp. simpl strncmp_loop. by rewrite (proj2 (load8_Ok _ _ _) Hz).
Qed.

Lemma free_slot_spec fds k m a b tbl i :
  Forall2 (fd_reads m a b) fds tbl →
  free_slot (fds ++ replicate k zero_fd) i = if (k =? 0)%nat then None else Some (i + length fds)%nat.
Proof.
  intros Hf. revert i. induction Hf as [|fd fp fds tbl [Hn _ _ _ _] Hf IH]; intros i.
  - destruct k; [done |]. simpl. f_equal. lia.
  - simpl. rewrite (proj2 (Z.eqb_neq _ _)) by done. rewrite IH. destruct k; [done |]. simpl. f_equal. lia.
Qed.

(** Output on the screen keeps the relation. *)
Lemma vfs_rel_screen sym t t' a p0 fs s tbl c' :
  vfs_rel sym t a p0 fs s tbl → only_screen (con s) c' → shows c' t' →
  vfs_rel sym t' a p0 fs (set_con s c') tbl.
Proof.
  intros [[[Hs Hlk Hok Hby Hoff Hr] Hsl Hl] H0 Ht Hrt Hli Hnl Hsc (fds & Hf1 & Hf2) Hc] Hon Hs'.
  pose proof Hsc as Hsc'.
  rewrite !Forall_cons in Hsc. unfold apart, SIZEOF_MOUNTPOINT_T in Hsc. simpl in Hsc. destruct Hsc as (S1 & S2 & _).
  assert (∀ x l, bytes_at (vmem (con s)) x l → off_screen (con s) x (Z.of_nat (length l)) → bytes_at (vmem c') x l) as Hkeep
    by (intros x l Hx Hd; by eapply only_screen_bytes).
  unfold fs_mem, off_screen in *. split; cbn [con file_headers mountpoints set_con]; try done.
  - split; [| done | done]. split; try done.
    + by destruct Hon as (_ & _ & ->).
    + by apply Hkeep.
    + by eapply only_screen_off.
  - apply Hkeep; [done |]. simpl. lia.
  - apply Hkeep; [done |]. unfold OFF_MOUNTPOINT. simpl. lia.
  - apply Hkeep; [done |]. simpl. lia.
  - destruct Hon as (Ha & _). rewrite Ha; [done |]. intros Hi.
    destruct Hs as [Hcells _ _ [Hcl _] _]. apply bytes_at_mapped in Hcells.
    rewrite length_cell_bytes, Hcl in Hcells. destruct (Hcells 1); [unfold VGA_LENGTH in Hi; lia |]. congruence.
  - destruct Hon as (_ & -> & _). exact Hsc'.
  - exists fds. split; [done |].
    eapply Forall2_impl; [exact Hf2 |]. intros fd fp [F1 F2 F3 F4 F5]. split; try done.
    apply Hkeep; [done |]. lia.
Qed.

(** What [vfs_open] prints when all slots are taken. *)
Definition max_files_error : list Z :=
  10 :: bytes_of "vfs" ++ bytes_of " error: " ++ bytes_of "reached max amount of files" ++ [10].

(** Opening a path: [n] is the path behind its first character. *)
Lemma vfs_open_spec sym t a p0 fs s tbl path c n fl :
  vfs_rel sym t a p0 fs s tbl → fs_mem s !! path = Some c → path_at (fs_mem s) (path + 1) n →
  match find_member fs n with
  | Some (_, f) =>
      if (length tbl <? 10)%nat then
        ∃ s', vfs_open sym s path fl = Ok (Z.of_nat (length tbl), s') ∧
          vfs_rel sym t a p0 fs s' (tbl ++ [(f, 0)]) ∧ con s' = con s
      else ∃ s', vfs_open sym s path fl = Ok (-1, s') ∧ vfs_rel sym (puts t max_files_error) a p0 fs s' tbl ∧
        s' = set_con s (con s') ∧ only_screen (con s) (con s')
  | None => vfs_open sym s path fl =
      Fault (if (length fs <? 5)%nat then PageFault 1 else OutOfBounds "file_headers")
  end.
Proof.
  intros Hrel Hc0 Hp. pose proof Hrel as [Hpa H0 Ht Hrt Hli Hnl Hsc (fds & Hf1 & Hf2) Hc].
  unfold vfs_open. rewrite (get_mountpoint_root _ _ _ H0 Hrt). out_red.
  rewrite (is_tar_true _ _ _ Hli Ht). out_red.
  pose proof (ustar_open_spec fs (con s) t (file_headers s) a (path + 1) n Hpa Hp Hnl) as Ho.
  destruct (find_member fs n) as [[j f]|]; [| by rewrite Ho].
  destruct Ho as (b & Ho & Hb & Hlo & Hhi). rewrite Ho. out_red. cbn [set_con vfs_opened_files].
  rewrite Hf1, (free_slot_spec _ _ _ _ _ _ _ Hf2). pose proof (Forall2_length _ _ _ Hf2) as Hlen.
  destruct (10 - length tbl)%nat as [|k] eqn:Ek.
  - rewrite (proj2 (Nat.ltb_ge _ _)) by lia. cbn [Nat.eqb].
    destruct (ERROR_shows (con s) t "vfs" "reached max amount of files") as (c' & -> & Hs' & Hon);
      [apply Hpa | apply Hpa |]. out_red. eexists. split; [done |]. split; [| split; [done | exact Hon]].
    exact (vfs_rel_screen sym t _ a p0 fs s tbl c' Hrel Hon Hs').
  - rewrite (proj2 (Nat.ltb_lt _ _)) by lia. cbn [Nat.eqb]. eexists. split; [| split].
    + repeat f_equal. lia.
    + rewrite insert_app_r_alt, Nat.add_0_l, Nat.sub_diag by lia.
      split; cbn [con file_headers mountpoints set_con set_opened]; try done.
      * exists (fds ++ [Fd 0 0 (n ++ replicate (64 - length n) 0) 0 0 (i32 (Z.of_nat (length (m_data f)))) b]).
        cbn [vfs_opened_files set_opened replicate]. rewrite length_app. simpl length.
        replace (10 - (length tbl + 1))%nat with k by lia. split; [by rewrite <- app_assoc |].
        apply Forall2_app; [done |]. constructor; [| constructor].
        destruct Hp as [_ Hch Hnn]. split; try done; simpl.
        destruct n as [|c1 n]; [simpl in Hnn; lia |]. apply Forall_cons in Hch as [Hch _].
        unfold char_ok in Hch. simpl. lia.
      * rewrite length_app. simpl. lia.
    + done.
Qed.

(** The bytes [l] of the file [f] from position [pos] on. *)
Definition chunk (f : member) (pos n : Z) : list Z := take (Z.to_nat n) (drop (Z.to_nat pos) (m_data f)).

Lemma bytes_at_chunk m x f pos n :
  bytes_at m x (m_data f) → 0 ≤ pos → 0 ≤ n → pos + n ≤ Z.of_nat (length (m_data f)) →
  bytes_at m (x + pos) (chunk f pos n) ∧ Z.of_nat (length (chunk f pos n)) = n.
Proof.
  intros Hb Hp Hn Hl. unfold chunk. split; [| rewrite length_take, length_drop; lia].
  rewrite <- (take_drop (Z.to_nat pos) (m_data f)) in Hb. apply bytes_at_app in Hb as [_ Hb].
  rewrite length_take in Hb. replace (Z.of_nat (Z.to_nat pos `min` length (m_data f))) with pos in Hb by lia.
  rewrite <- (take_drop (Z.to_nat n) (drop _ _)) in Hb. by apply bytes_at_app in Hb as [Hb _].
Qed.

(** A buffer of [n] bytes that may be written. *)
Record buffer (sym : fs_symbols) (s : vfs) (a p0 : Z) (fs : list member) (buf n : Z) : Prop := {
  bf_mapped : mapped (fs_mem s) buf n;
  bf_apart : Forall (apart buf n) (protected sym s a p0 fs);
  bf_size : 0 ≤ n < 2 ^ 31;
}.

(** A read copies the bytes from the position on, whatever they are, and
    never returns less than it was asked for. *)
Lemma vfs_read_bytes sym t a p0 fs s tbl h f pos fd buf l :
  vfs_rel sym t a p0 fs s tbl → tbl !! h = Some (f, pos) → vfs_opened_files s !! h = Some fd →
  bytes_at (fs_mem s) (file_buffer fd + pos) l → buffer sym s a p0 fs buf (Z.of_nat (length l)) →
  buf ≤ file_buffer fd + pos ∨ file_buffer fd + pos + Z.of_nat (length l) ≤ buf →
  0 ≤ pos → file_buffer fd + pos < 2 ^ 64 → pos + Z.of_nat (length l) < 2 ^ 31 →
  ∃ s', vfs_read sym s (Z.of_nat h) buf (Z.of_nat (length l)) = Ok (Z.of_nat (length l), s') ∧
    bytes_at (fs_mem s') buf l ∧ agree_outside buf (Z.of_nat (length l)) (fs_mem s) (fs_mem s') ∧
    (∀ x k, mapped (fs_mem s) x k → mapped (fs_mem s') x k) ∧
    vga_out (con s') = vga_out (con s) ∧
    vfs_rel sym t a p0 fs s' (<[h := (f, pos + Z.of_nat (length l))]> tbl).
Proof.
  intros Hrel Hh Hfd Hl [Hbm Hap Hbn] Hd Hp0 Hr Hi. pose proof Hrel as [Hpa H0 Ht _ Hli Hnl _ (fds & Hf1 & Hf2) _].
  assert (h < length fds)%nat as Hlt by (apply lookup_lt_Some in Hh; by rewrite (Forall2_length _ _ _ Hf2)).
  pose proof Hfd as Hfd'. rewrite Hf1, lookup_app_l in Hfd' by done.
  destruct (Forall2_lookup_lr _ _ _ _ _ _ Hf2 Hfd' Hh) as [_ F2 _ F4 F5]. simpl in F4, F5.
  assert (opened_at s (Z.of_nat h) = Ok fd) as Hop.
  { unfold opened_at. rewrite (proj2 (Z.ltb_ge _ _)) by lia. by rewrite Nat2Z.id, Hfd. }
  pose proof (wk_range _ _ _ _ (pa_walk _ _ _ _ _ Hpa)) as Hrg.
  unfold vfs_read. rewrite Hop. out_red. rewrite F2. change (Z.to_nat 0) with 0%nat. rewrite H0. out_red.
  rewrite (is_tar_true _ _ _ Hli Ht). out_red. rewrite F4, u64_small by lia.
  destruct (movsb_spec l (fs_mem s) buf (file_buffer fd + pos)) as (m' & Hmv & Hb' & Ha' & Hok' & Hm');
    [apply Hpa | done | done | done |].
  unfold ustar_read, memcpy. rewrite Nat2Z.id, Hmv. out_red.
  assert (m' !! 1 = None) as Hn1.
  { rewrite Ha'; [done |]. intros Hj. destruct (Hbm 1 Hj). unfold fs_mem in *. congruence. }
  pose proof (vfs_rel_mem _ _ _ _ _ _ _ m' _ _ Hrel Hap Ha' Hok' Hn1 (proj1 Hbn)) as Hrel'.
  unfold set_read_pos. change (opened_at (set_fs_mem s m') (Z.of_nat h)) with (opened_at s (Z.of_nat h)).
  rewrite Hop. out_red. rewrite u64_small, i32_small, Nat2Z.id by lia.
  eexists. split; [done |]. split_and!; try done.
  destruct Hrel' as [Q1 Q2 Q3 Q4 Q5 Q6 Q7 (fds' & Q8 & Q9) Q10]. cbn in Q8. rewrite Hf1 in Q8.
  apply app_inv_tail in Q8 as <-. split; try done; [| by rewrite length_insert].
  exists (<[h := with_read_pos fd (pos + Z.of_nat (length l))]> fds). cbn [set_opened vfs_opened_files set_fs_mem set_con].
  rewrite Hf1, length_insert, insert_app_l by done. split; [done |].
  apply Forall2_insert; [exact Q9 |].
  destruct (Forall2_lookup_lr _ _ _ _ _ _ Q9 Hfd' Hh) as [G1 G2 G3 G4 G5]. by split.
Qed.

Lemma vfs_read_spec sym t a p0 fs s tbl h f pos buf n :
  vfs_rel sym t a p0 fs s tbl → tbl !! h = Some (f, pos) → buffer sym s a p0 fs buf n →
  0 ≤ pos → pos + n ≤ Z.of_nat (length (m_data f)) → Z.of_nat (length (m_data f)) < 2 ^ 31 →
  ∃ s', vfs_read sym s (Z.of_nat h) buf n = Ok (n, s') ∧
    bytes_at (fs_mem s') buf (chunk f pos n) ∧ agree_outside buf n (fs_mem s) (fs_mem s') ∧
    (∀ x k, mapped (fs_mem s) x k → mapped (fs_mem s') x k) ∧
    vga_out (con s') = vga_out (con s) ∧
    vfs_rel sym t a p0 fs s' (<[h := (f, pos + n)]> tbl).
Proof.
  intros Hrel Hh Hbuf Hp0 Hpn Hlen. pose proof Hrel as [Hpa _ _ _ _ _ _ (fds & Hf1 & Hf2) _].
  destruct (Forall2_lookup_r _ _ _ _ _ Hf2 Hh) as (fd & Hfd & [_ _ F3 _ F5]). simpl in F3, F5.
  pose proof Hbuf as [_ Hap Hbn]. destruct (bytes_at_chunk _ _ _ _ _ F3 Hp0 (proj1 Hbn) Hpn) as [Hck Hckl].
  pose proof (wk_range _ _ _ _ (pa_walk _ _ _ _ _ Hpa)) as Hrg.
  unfold protected in Hap. rewrite Forall_cons in Hap. destruct Hap as (P1 & _). unfold apart in P1. simpl in P1.
  pose proof (vfs_read_bytes sym t a p0 fs s tbl h f pos fd buf (chunk f pos n) Hrel Hh) as Hread.
  rewrite Hckl in Hread. apply Hread; try done; try lia.
  rewrite Hf1, lookup_app_l; [done |]. by eapply lookup_lt_Some.
Qed.

Lemma vfs_seek_spec sym t a p0 fs s tbl h f pos0 pos :
  vfs_rel sym t a p0 fs s tbl → tbl !! h = Some (f, pos0) → 0 ≤ pos < 2 ^ 31 →
  ∃ s', vfs_seek s (Z.of_nat h) pos = Ok (pos, s') ∧ con s' = con s ∧
    vfs_rel sym t a p0 fs s' (<[h := (f, pos)]> tbl).
Proof.
  intros [Q1 Q2 Q3 Q4 Q5 Q6 Q7 (fds & Q8 & Q9) Q10] Hh Hp.
  destruct (Forall2_lookup_r _ _ _ _ _ Q9 Hh) as (fd & Hfd & [G1 G2 G3 G4 G5]).
  pose proof (lookup_lt_Some _ _ _ Hfd) as Hlt. unfold vfs_seek, set_read_pos, opened_at.
  rewrite (proj2 (Z.ltb_ge _ _)) by lia. rewrite Nat2Z.id, Q8, lookup_app_l, Hfd by done. out_red.
  eexists. split; [done |]. split; [done |]. rewrite i32_small by lia.
  split; try done; [| by rewrite length_insert].
  exists (<[h := with_read_pos fd pos]> fds). cbn [set_opened vfs_opened_files].
  rewrite length_insert, insert_app_l by done. split; [done |]. apply Forall2_insert; [exact Q9 |]. by split.
Qed.

(** ** Mounting the archive *)

(** [m'] is [m] with the bytes [l] at [a]. *)
Definition wrote (m : mem) (a : Z) (l : list Z) (m' : mem) : Prop :=
  bytes_at m' a l ∧ agree_outside a (Z.of_nat (length l)) m m'.

Definition byte (b : Z) : Prop := 0 ≤ b < 256.

Lemma wrote_bytes_ok m a l m' : wrote m a l m' → bytes_ok m → Forall byte l → bytes_ok m'.
Proof.
  intros [Hb Ha] Hm Hl i b Hi. destruct (decide (a ≤ i < a + Z.of_nat (length l))) as [Hin|Hout].
  - destruct (lookup_lt_is_Some_2 l (Z.to_nat (i - a))) as [c Hc]; [lia |].
    pose proof (Hb _ _ Hc) as Hbc. rewrite Z2Nat.id in Hbc by lia. replace (a + (i - a)) with i in Hbc by lia.
    assert (b = c) as -> by congruence. apply (Forall_lookup_1 _ _ _ _ Hl Hc).
  - rewrite Ha in Hi by done. by apply (Hm i).
Qed.

Lemma wrote_mapped m a l m' x n : wrote m a l m' → mapped m x n → mapped m' x n.
Proof.
  intros [Hb Ha] Hm i Hi. destruct (decide (a ≤ i < a + Z.of_nat (length l))).
  - by apply (bytes_at_mapped _ _ _ Hb).
  - rewrite Ha by done. by apply Hm.
Qed.

Lemma wrote_bytes_at m a l m' x k :
  wrote m a l m' → bytes_at m x k → a + Z.of_nat (length l) ≤ x ∨ x + Z.of_nat (length k) ≤ a → bytes_at m' x k.
Proof. intros [_ Ha] Hk Hd. apply (bytes_at_agree m); [| done]. intros i Hi. apply Ha. lia. Qed.

Lemma strncpy_wrote m dst src str n :
  bytes_ok m → bytes_at m src (str ++ [0]) → Forall char_ok str → (length str < n)%nat →
  mapped m dst (Z.of_nat n) → dst + Z.of_nat n ≤ src ∨ src + Z.of_nat (length str) < dst →
  ∃ m', strncpy m dst src (Z.of_nat n) = Ok (dst, m') ∧
    wrote m dst (str ++ replicate (n - length str) 0) m' ∧ bytes_ok m'.
Proof.
  intros Hok Hs Hc Hl Hm Hd. destruct (strncpy_spec m dst src str (Z.of_nat n)) as (m' & H1 & H2 & H3);
    try done; [by apply char_ok_nonzero | lia |]. rewrite Nat2Z.id in H2.
  assert (wrote m dst (str ++ replicate (n - length str) 0) m') as Hw.
  { split; [done |]. rewrite length_app, length_replicate.
    by replace (length str + (n - length str))%nat with n by lia. }
  exists m'. split_and!; [done | done |]. apply (wrote_bytes_ok _ _ _ _ Hw Hok).
  apply Forall_app; split; [apply (Forall_impl _ _ _ Hc); unfold char_ok, byte; lia |].
  apply Forall_replicate. unfold byte. lia.
Qed.

Lemma store64_other m a v :
  mapped m a 8 → bytes_ok m →
  ∃ m', store64 m a v = Ok m' ∧ agree_outside a 8 m m' ∧ bytes_ok m' ∧ (∀ x n, mapped m x n → mapped m' x n).
Proof.
  intros Hm Hok. unfold store64. rewrite store32_Ok by (apply (mapped_sub _ _ _ _ _ Hm); lia). out_red.
  rewrite store32_Ok by (apply mapped_put32, (mapped_sub _ _ _ _ _ Hm); lia).
  eexists. split; [done |]. split_and!.
  - intros i Hi. by rewrite !put32_other by lia.
  - by do 2 apply put32_bytes_ok.
  - intros x n Hx. by do 2 apply mapped_put32.
Qed.

Definition initramfs_string : list Z := bytes_of "initramfs".

(** Where the string literals lie. *)
Record literals (sym : fs_symbols) (m : mem) (p : Z) : Prop := {
  li_tar : bytes_at m (lit_tar sym) (tar_string ++ [0]);
  li_root : bytes_at m (lit_root sym) ([47] ++ [0]);
  li_initramfs : bytes_at m (lit_initramfs sym) (initramfs_string ++ [0]);
  li_apart : Forall (apart p SIZEOF_MOUNTPOINT_T)
    [(lit_tar sym, 4); (lit_root sym, 2); (lit_initramfs sym, 10)];
}.

Section Mount.
Context {H : Type} `{HeapAlloc H} (sym : fs_symbols).

(** Side conditions of [strncpy_wrote] for strings and memories at hand. *)
#[local] Ltac copy_side :=
  first [done | repeat constructor; lia | simpl; lia
        | match goal with Hm : mapped ?m _ _ |- mapped ?m _ _ => apply (mapped_sub _ _ _ _ _ Hm); lia end].

(** The structure of the mount point of the archive. *)
Lemma create_mountpoint_tar h h' m p :
  ha_alloc h SIZEOF_MOUNTPOINT_T = Ok (p, h') → bytes_ok m → mapped m p SIZEOF_MOUNTPOINT_T → literals sym m p →
  ∃ m', create_mountpoint sym h m (lit_initramfs sym) (lit_root sym) (lit_tar sym) = Ok (p, h', m') ∧
    agree_outside p SIZEOF_MOUNTPOINT_T m m' ∧ bytes_ok m' ∧ (∀ x n, mapped m x n → mapped m' x n) ∧
    bytes_at m' p (tar_string ++ [0]) ∧ bytes_at m' (p + OFF_MOUNTPOINT) [47; 0].
Proof.
  intros Ha Hok Hm [L1 L2 L3 L4]. rewrite !Forall_cons in L4. unfold apart, SIZEOF_MOUNTPOINT_T in *. simpl in L4.
  destruct L4 as (D1 & D2 & D3 & _). unfold create_mountpoint, OFF_DEVICE, OFF_MOUNTPOINT, OFF_OPEN, OFF_READ.
  unfold SIZEOF_MOUNTPOINT_T. rewrite Ha. out_red. change VFS_PATH_LENGTH with (Z.of_nat 64).
  destruct (strncpy_wrote m (p + 32) (lit_initramfs sym) initramfs_string 64) as (m1 & -> & W1 & Ok1); [copy_side .. |]. out_red.
  pose proof (wrote_bytes_at _ _ _ _ _ _ W1 L1) as L1'. pose proof (wrote_bytes_at _ _ _ _ _ _ W1 L2) as L2'.
  specialize (L1' ltac:(simpl; lia)). specialize (L2' ltac:(simpl; lia)).
  pose proof (wrote_mapped _ _ _ _ _ _ W1 Hm) as Hm1. change 32 with (Z.of_nat 32).
  destruct (strncpy_wrote m1 p (lit_tar sym) tar_string 32) as (m2 & -> & W2 & Ok2); [copy_side .. |]. out_red.
  pose proof (wrote_bytes_at _ _ _ _ _ _ W2 L1' ltac:(simpl; lia)) as L1''.
  pose proof (wrote_bytes_at _ _ _ _ _ _ W2 L2' ltac:(simpl; lia)) as L2''.
  pose proof (wrote_mapped _ _ _ _ _ _ W2 Hm1) as Hm2.
  destruct (strncpy_wrote m2 (p + 96) (lit_root sym) [47] 64) as (m3 & -> & W3 & Ok3); [copy_side .. |]. out_red.
  pose proof (wrote_bytes_at _ _ _ _ _ _ W3 L1'' ltac:(simpl; lia)) as L1'''.
  pose proof (wrote_mapped _ _ _ _ _ _ W3 Hm2) as Hm3.
  destruct (strncmp_loop_zero [97; 114] [97; 114] m3 (lit_tar sym) (lit_tar sym) 1 (Z.to_nat (Z.of_nat 64 - 1)))
    as (r & Hr & Hz); [done | by apply bytes_at_cons in L1''' as [_ ?] .. | repeat constructor; lia
    | repeat constructor; lia | simpl; lia |].
  unfold strncmp. rewrite Hr. out_red. rewrite (proj2 Hz) by by left. cbn [Z.eqb].
  destruct (store64_other m3 (p + 160) (sym_ustar_open sym)) as (m4 & -> & A4 & Ok4 & Hm4);
    [apply (mapped_sub _ _ _ _ _ Hm3); lia | done |]. out_red.
  destruct (store64_other m4 (p + 168) (sym_ustar_read sym)) as (m5 & -> & A5 & Ok5 & Hm5);
    [apply Hm4, (mapped_sub _ _ _ _ _ Hm3); lia | done |]. out_red.
  exists m5. split_and!; [done | | done | | |].
  - intros i Hi. destruct W1 as [_ A1], W2 as [_ A2], W3 as [_ A3]. simpl in A1, A2, A3.
    by rewrite A5, A4, A3, A2, A1 by lia.
  - intros x n Hx. by apply Hm5, Hm4, (wrote_mapped _ _ _ _ _ _ W3), (wrote_mapped _ _ _ _ _ _ W2), (wrote_mapped _ _ _ _ _ _ W1).
  - apply (bytes_at_agree m2); [| by apply (bytes_at_app _ _ (tar_string ++ [0]) (replicate 28 0)), W2].
    intros i Hi. destruct W3 as [_ A3]. simpl in A3, Hi. by rewrite A5, A4, A3 by lia.
  - apply (bytes_at_agree m3); [| by apply (bytes_at_app _ _ ([47] ++ [0]) (replicate 62 0)), W3].
    intros i Hi. simpl in Hi. by rewrite A5, A4 by lia.
Qed.

(** The file system after [tar_init]: nothing is mounted or open. *)
Record unmounted (s : vfs) : Prop := {
  um_mounts : mountpoints s = replicate 12 NULL;
  um_files : vfs_opened_files s = replicate 10 zero_fd;
}.

(** The new mount point at [p] and the literals are apart from the archive and
    the screen. *)
Record mount_room (s : vfs) (a p : Z) (fs : list member) : Prop := {
  mr_mapped : mapped (fs_mem s) p SIZEOF_MOUNTPOINT_T;
  mr_archive : apart p SIZEOF_MOUNTPOINT_T (a, Z.of_nat (length (archive fs)));
  mr_screen : Forall (λ r, apart (vga_out (con s)) VGA_LENGTH r)
    [(p, SIZEOF_MOUNTPOINT_T); (lit_tar sym, 4); (lit_root sym, 2); (lit_initramfs sym, 10)];
  mr_literals : literals sym (fs_mem s) p;
  mr_nonnull : p ≠ NULL;
}.

Lemma vfs_init_rel h h' t a p fs s :
  ha_alloc h SIZEOF_MOUNTPOINT_T = Ok (p, h') → parsed (con s) t (file_headers s) a fs → unmounted s →
  mount_room s a p fs → fs_mem s !! 1 = None →
  ∃ s', vfs_init sym h s = Ok (true, h', s') ∧ vfs_rel sym t a p fs s' [] ∧
    vga_out (con s') = vga_out (con s) ∧ (∀ x n, mapped (fs_mem s) x n → mapped (fs_mem s') x n) ∧
    agree_outside p SIZEOF_MOUNTPOINT_T (fs_mem s) (fs_mem s').
Proof.
  intros Ha [[Hs Hlk Hmo Hb Ho Hr] Hsl Hl] [Hmp Hfi] [Hm Har Hsc Hli Hnn] H1.
  destruct (create_mountpoint_tar h h' (fs_mem s) p Ha (sh_bytes _ _ Hs) Hm Hli) as (m & Hc & Hag & Hok & Hmm & Hty & Hrt).
  unfold vfs_init, vfs_mount. rewrite Hc. out_red. rewrite Hmp. cbn [replicate add_mountpoint].
  change (NULL =? NULL) with true. eexists. split; [done |].
  rewrite !Forall_cons in Hsc. unfold apart, SIZEOF_MOUNTPOINT_T, off_screen in *. simpl in Har, Hsc.
  destruct Hsc as (S1 & S2 & _).
  assert (∀ x l, bytes_at (fs_mem s) x l → p + 176 ≤ x ∨ x + Z.of_nat (length l) ≤ p → bytes_at m x l) as Hkeep.
  { intros x l Hx Hd. apply (bytes_at_agree (fs_mem s)); [| done]. intros i Hi. apply Hag. lia. }
  destruct Hli as [L1 _ _ L4]. rewrite Forall_cons in L4. destruct L4 as [D1 _]. unfold apart, SIZEOF_MOUNTPOINT_T in D1. simpl in D1.
  split_and!; [| done | exact Hmm | exact Hag].
  unfold fs_mem in *. split; cbn [con file_headers mountpoints set_con set_fs_mem set_mountpoints set_vmem vmem vga_out]; try done.
  + split; [| done | done]. split; cbn [vmem vga_out]; try done; [| apply Hkeep; [done |]; lia].
    destruct Hs as [Q1 Q2 Q3 Q4 Q5]. split; cbn [vmem vga_out]; try done.
    apply Hkeep; [done |]. rewrite length_cell_bytes. destruct Q4 as (-> & _). unfold VGA_LENGTH in S1. cbn. lia.
  + apply Hkeep; [done |]. simpl. lia.
  + rewrite Hag; [done |]. intros Hi. destruct (Hm 1 Hi). congruence.
  + rewrite !Forall_cons. unfold apart, SIZEOF_MOUNTPOINT_T. cbn. split_and!; [lia | lia | constructor].
  + exists []. simpl. by rewrite Hfi.
  + simpl. lia.
Qed.

End Mount.

(** ** Reading files *)

(** Reads of [ns] bytes each, one behind the other, into consecutive buffers. *)
Fixpoint read_seq (sym : fs_symbols) (s : vfs) (h buf : Z) (ns : list Z) : outcome (list Z * vfs) :=
  match ns with
  | [] => Ok ([], s)
  | n :: ns' =>
      '(r, s1) ← vfs_read sym s h buf n;
      '(rs, s2) ← read_seq sym s1 h (buf + n) ns';
      Ok (r :: rs, s2)
  end.

Definition sum (ns : list Z) : Z := foldr Z.add 0 ns.

Lemma sum_nonneg ns : Forall (λ n, 0 ≤ n) ns → 0 ≤ sum ns.
Proof. unfold sum. induction 1; simpl; lia. Qed.

Lemma chunk_app f pos n k :
  0 ≤ pos → 0 ≤ n → 0 ≤ k → chunk f pos (n + k) = chunk f pos n ++ chunk f (pos + n) k.
Proof.
  intros. unfold chunk. rewrite !Z2Nat.inj_add by lia.
  by rewrite <- take_take_drop, drop_drop.
Qed.

Lemma buffer_sub sym s a p0 fs buf n b k :
  buffer sym s a p0 fs buf n → buf ≤ b → b + k ≤ buf + n → 0 ≤ k → buffer sym s a p0 fs b k.
Proof.
  intros [B1 B2 B3] ? ? ?. split; [by apply (mapped_sub _ buf n) | | lia].
  eapply Forall_impl; [exact B2 |]. intros [x l]. unfold apart. simpl. lia.
Qed.

Lemma buffer_step sym s s' a p0 fs buf n :
  buffer sym s a p0 fs buf n → (∀ x k, mapped (fs_mem s) x k → mapped (fs_mem s') x k) →
  vga_out (con s') = vga_out (con s) → buffer sym s' a p0 fs buf n.
Proof.
  intros [B1 B2 B3] Hm Hv. split; [by apply Hm | | done]. unfold protected in *. by rewrite Hv.
Qed.

(** Reads in a row deliver the file in order, whatever their sizes. *)
Lemma read_seq_spec sym t a p0 fs ns : ∀ s tbl h f pos buf,
  vfs_rel sym t a p0 fs s tbl → tbl !! h = Some (f, pos) → buffer sym s a p0 fs buf (sum ns) →
  Forall (λ n, 0 ≤ n) ns → 0 ≤ pos → pos + sum ns ≤ Z.of_nat (length (m_data f)) →
  Z.of_nat (length (m_data f)) < 2 ^ 31 →
  ∃ s', read_seq sym s (Z.of_nat h) buf ns = Ok (ns, s') ∧
    bytes_at (fs_mem s') buf (chunk f pos (sum ns)) ∧ agree_outside buf (sum ns) (fs_mem s) (fs_mem s') ∧
    vfs_rel sym t a p0 fs s' (<[h := (f, pos + sum ns)]> tbl).
Proof.
  induction ns as [|n ns IH]; intros s tbl h f pos buf Hrel Hh Hbuf Hns Hpos Hsum Hlen.
  - exists s. simpl. rewrite Z.add_0_r, list_insert_id by done. split_and!; try done.
  - apply Forall_cons in Hns as [Hn Hns]. pose proof (sum_nonneg _ Hns) as Hs0.
    change (sum (n :: ns)) with (n + sum ns) in *. cbn [read_seq].
    destruct (vfs_read_spec sym t a p0 fs s tbl h f pos buf n) as (s1 & -> & Hb1 & Ha1 & Hm1 & Hv1 & Hr1);
      try done; [apply (buffer_sub _ _ _ _ _ _ _ _ _ Hbuf); lia | lia |]. out_red.
    destruct (IH s1 _ h f (pos + n) (buf + n) Hr1) as (s2 & -> & Hb2 & Ha2 & Hr2); try done; try lia.
    + apply list_lookup_insert_eq. by eapply lookup_lt_Some.
    + apply (buffer_step _ s); [| done | done]. apply (buffer_sub _ _ _ _ _ _ _ _ _ Hbuf); lia.
    + out_red. exists s2. rewrite list_insert_insert_eq, Z.add_assoc in *. split_and!; [done | | | done].
      * rewrite chunk_app by lia. apply bytes_at_app.
        assert (Z.of_nat (length (chunk f pos n)) = n) as Hcl
          by (unfold chunk; rewrite length_take, length_drop; lia).
        rewrite Hcl. split; [| done]. apply (bytes_at_agree (fs_mem s1)); [| done].
        intros i Hi. apply Ha2. lia.
      * intros i Hi. rewrite Ha2, Ha1 by lia. done.
Qed.

Lemma chunk_all f : chunk f 0 (Z.of_nat (length (m_data f))) = m_data f.
Proof. unfold chunk. rewrite Nat2Z.id, drop_0. by apply take_ge. Qed.

Lemma only_screen_mapped s s' t' x n :
  only_screen s s' → shows s' t' → mapped (vmem s) x n → mapped (vmem s') x n.
Proof.
  intros (Ha & Hv & _) [Hc _ _ [Hl _] _] Hm i Hi. apply bytes_at_mapped in Hc.
  rewrite length_cell_bytes, Hl, Hv in Hc. destruct (decide (vga_out s ≤ i < vga_out s + VGA_LENGTH)) as [Hin|Hout].
  - apply Hc. unfold VGA_LENGTH in Hin. lia.
  - rewrite Ha by done. by apply Hm.
Qed.

Lemma only_screen_unmapped s s' t x :
  only_screen s s' → shows s t → vmem s !! x = None → vmem s' !! x = None.
Proof.
  intros (Ha & _) [Hc _ _ [Hl _] _] Hx. rewrite Ha; [done |]. intros Hin.
  apply bytes_at_mapped in Hc. rewrite length_cell_bytes, Hl in Hc. unfold VGA_LENGTH in Hin.
  destruct (Hc x); [lia | congruence].
Qed.

Lemma path_at_agree m m' p n :
  path_at m p n → (∀ i, p ≤ i < p + Z.of_nat (length n) + 1 → m' !! i = m !! i) → path_at m' p n.
Proof.
  intros [H1 H2 H3] Ha. split; try done. apply (bytes_at_agree m); [| done].
  intros i Hi. rewrite length_app in Hi. simpl in Hi. apply Ha. lia.
Qed.

Lemma only_screen_room sym s c' t' file_headers' a p fs :
  mount_room sym s a p fs → only_screen (con s) c' → shows c' t' →
  mount_room sym (Vfs c' file_headers' (mountpoints s) (vfs_opened_files s)) a p fs.
Proof.
  intros [H1 H2 H3 [L1 L2 L3 L4] H5] Ho Hs. pose proof Ho as (_ & Hv & _).
  rewrite !Forall_cons in H3. destruct H3 as (S1 & S2 & S3 & S4 & _). unfold apart in *. simpl in S1, S2, S3, S4.
  split; cbn [con fs_mem]; try done.
  - by eapply only_screen_mapped.
  - rewrite Hv, !Forall_cons. split_and!; done.
  - split; try done; eapply (only_screen_bytes (con s)); try done; unfold off_screen; simpl; lia.
Qed.

(** What [vfs_init] and [parse_tar_file] make of the initial state. *)
Lemma boot_file_system {H : Type} `{HeapAlloc H} sym (h h' : H) s t a p fs k :
  walk (con s) t a fs → (length fs ≤ 5)%nat → file_headers s = replicate 5 0 →
  unmounted s → fs_mem s !! 1 = None → ha_alloc h SIZEOF_MOUNTPOINT_T = Ok (p, h') → mount_room sym s a p fs →
  ∃ c hs s', parse_tar_file (S (length fs) + k) (con s) (file_headers s) a = Ok (hs, c) ∧
    vfs_init sym h (Vfs c hs (mountpoints s) (vfs_opened_files s)) = Ok (true, h', s') ∧
    vfs_rel sym (puts t (listing fs)) a p fs s' [] ∧ vga_out (con s') = vga_out (con s) ∧
    (∀ x n, mapped (fs_mem s) x n → mapped (fs_mem s') x n) ∧
    (∀ i, ¬ (p ≤ i < p + SIZEOF_MOUNTPOINT_T) → ¬ (vga_out (con s) ≤ i < vga_out (con s) + VGA_LENGTH) →
      fs_mem s' !! i = fs_mem s !! i).
Proof.
  intros Hw Hl -> [Hm Hf] H1 Ha Hroom.
  destruct (parse_loop_spec fs (con s) t (replicate 5 0) a 0 k Hw) as (c & Hp & Hs & Ho); [rewrite length_replicate; lia |].
  unfold parse_tar_file. rewrite Hp. simpl take. simpl app.
  set (hs := headers_at a fs ++ drop (0 + length fs) (replicate 5 0)).
  assert (hs = headers_at a fs ++ replicate (5 - length fs) 0) as Hhs by (unfold hs; by rewrite drop_replicate).
  destruct (vfs_init_rel sym h h' (puts t (listing fs)) a p fs (Vfs c hs (mountpoints s) (vfs_opened_files s)))
    as (s' & Hi & Hr & Hv & Hmm & Hag); try done.
  - split; [| exact Hhs | exact Hl]. destruct Hw as [_ Hlk Hok Hb Hoff Hrg]. split; try done; cbn [con].
    + by destruct Ho as (_ & _ & ->).
    + by eapply only_screen_bytes.
    + by eapply only_screen_off.
  - by eapply only_screen_room.
  - eapply only_screen_unmapped; [exact Ho | apply Hw | done].
  - exists c, hs, s'. split_and!; try done.
    + cbn [con] in Hv. rewrite Hv. by destruct Ho as (_ & -> & _).
    + intros x n Hx. apply Hmm. by eapply only_screen_mapped.
    + intros i Hi1 Hi2. rewrite Hag by done. cbn. destruct Ho as (Ha' & _). by apply Ha'.
Qed.

(** [C5] After parse_tar_file, vfs_init and vfs_open, reading a file of the
    initial archive in pieces of any sizes returns the sizes and leaves the
    bytes of the file, in order, in the buffer. *)
Theorem initramfs_roundtrip {H : Type} `{HeapAlloc H} sym (h h' : H) s t a p fs k path c n j f fl buf ns :
  walk (con s) t a fs → (length fs ≤ 5)%nat → file_headers s = replicate 5 0 → unmounted s →
  fs_mem s !! 1 = None → ha_alloc h SIZEOF_MOUNTPOINT_T = Ok (p, h') → mount_room sym s a p fs →
  fs_mem s !! path = Some c → path_at (fs_mem s) (path + 1) n →
  Forall (apart path (Z.of_nat (length n) + 2)) [(p, SIZEOF_MOUNTPOINT_T); (vga_out (con s), VGA_LENGTH)] →
  find_member fs n = Some (j, f) → buffer sym s a p fs buf (sum ns) → Forall (λ n, 0 ≤ n) ns →
  sum ns = Z.of_nat (length (m_data f)) →
  ∃ cs hs s1 s2 s3, parse_tar_file (S (length fs) + k) (con s) (file_headers s) a = Ok (hs, cs) ∧
    vfs_init sym h (Vfs cs hs (mountpoints s) (vfs_opened_files s)) = Ok (true, h', s1) ∧
    vfs_open sym s1 path fl = Ok (0, s2) ∧ read_seq sym s2 0 buf ns = Ok (ns, s3) ∧
    bytes_at (fs_mem s3) buf (m_data f).
Proof.
  intros Hw Hl Hh0 Hum H1 Ha Hroom Hpc Hpath Hpa Hfind Hbuf Hns Hsum.
  destruct (boot_file_system sym h h' s t a p fs k Hw Hl Hh0 Hum H1 Ha Hroom)
    as (cs & hs & s1 & Hparse & Hinit & Hrel & Hv & Hm & Hag).
  rewrite !Forall_cons in Hpa. unfold apart in Hpa. simpl in Hpa. destruct Hpa as (P1 & P2 & _).
  assert (∀ i, path ≤ i < path + (Z.of_nat (length n) + 2) → fs_mem s1 !! i = fs_mem s !! i) as Hpi
    by (intros i Hi; apply Hag; lia).
  pose proof (vfs_open_spec sym _ a p fs s1 [] path c n fl Hrel) as Hopen. rewrite Hfind in Hopen.
  destruct Hopen as (s2 & Hop & Hrel2 & Hc2).
  { rewrite Hpi by lia. done. }
  { apply (path_at_agree (fs_mem s)); [done |]. intros i Hi. apply Hpi. lia. }
  destruct (read_seq_spec sym _ a p fs ns s2 _ 0 f 0 buf Hrel2) as (s3 & Hrd & Hb & _); try done; try lia.
  - apply (buffer_step _ s); [done | |].
    + intros x i Hx. unfold fs_mem. rewrite Hc2. by apply Hm.
    + by rewrite Hc2.
  - rewrite <- Hsum. apply Hbuf.
  - exists cs, hs, s1, s2, s3. split_and!; try done. by rewrite Hsum, chunk_all in Hb.
Qed.

(** [C22] vfs_open on every branch: the handle of the first free slot for a
    member of the archive; with ten files open -1, the error on the screen and
    nothing else changed; for a name that no member has a fault instead of -1. *)
Theorem vfs_open_handles sym t a p0 fs s tbl path c n fl :
  vfs_rel sym t a p0 fs s tbl → fs_mem s !! path = Some c → path_at (fs_mem s) (path + 1) n →
  match find_member fs n with
  | Some (_, f) =>
      if (length tbl <? 10)%nat then
        ∃ s', vfs_open sym s path fl = Ok (Z.of_nat (length tbl), s') ∧ vfs_close (Z.of_nat (length tbl)) = true ∧
          vfs_rel sym t a p0 fs s' (tbl ++ [(f, 0)]) ∧ con s' = con s
      else ∃ s', vfs_open sym s path fl = Ok (-1, s') ∧ vfs_rel sym (puts t max_files_error) a p0 fs s' tbl ∧
        s' = set_con s (con s') ∧ only_screen (con s) (con s')
  | None => vfs_open sym s path fl =
      Fault (if (length fs <? 5)%nat then PageFault 1 else OutOfBounds "file_headers")
  end.
Proof.
  intros Hrel Hc Hp. pose proof (vfs_open_spec sym t a p0 fs s tbl path c n fl Hrel Hc Hp) as Ho.
  destruct (find_member fs n) as [[j f]|]; [| done]. destruct (length tbl <? 10)%nat.
  - destruct Ho as (s' & H1 & H2 & H3). by exists s'.
  - exact Ho.
Qed.

(** [C33] vfs_read does not stop at the end of a file: it copies the bytes
    behind it, whatever they are, and returns the number it was asked for. *)
Theorem vfs_read_past_end sym t a p0 fs s tbl h f pos fd buf behind :
  let l := drop (Z.to_nat pos) (m_data f) ++ behind in
  vfs_rel sym t a p0 fs s tbl → tbl !! h = Some (f, pos) → vfs_opened_files s !! h = Some fd →
  bytes_at (fs_mem s) (file_buffer fd + pos) l → buffer sym s a p0 fs buf (Z.of_nat (length l)) →
  buf ≤ file_buffer fd + pos ∨ file_buffer fd + pos + Z.of_nat (length l) ≤ buf →
  0 ≤ pos → file_buffer fd + pos < 2 ^ 64 → pos + Z.of_nat (length l) < 2 ^ 31 →
  ∃ s', vfs_read sym s (Z.of_nat h) buf (Z.of_nat (length l)) = Ok (Z.of_nat (length l), s') ∧
    bytes_at (fs_mem s') buf l ∧
    vfs_rel sym t a p0 fs s' (<[h := (f, pos + Z.of_nat (length l))]> tbl).
Proof.
  intros l Hrel Hh Hfd Hl Hbuf Hd Hp Hr Hi.
  destruct (vfs_read_bytes sym t a p0 fs s tbl h f pos fd buf l) as (s' & H1 & H2 & _ & _ & _ & H3); try done.
  by exists s'.
Qed.

(** vfs_umount clears the slot before it frees what the slot holds: it frees
    NULL, and the mount point stays allocated. *)
Theorem vfs_umount_frees_null {H : Type} `{HeapAlloc H} (h : H) s p rest device dev :
  mountpoints s = p :: rest → bytes_ok (fs_mem s) → path_at (fs_mem s) (p + OFF_DEVICE) dev →
  path_at (fs_mem s) device dev →
  vfs_umount h s device = h' ← ha_free h NULL; Ok (1, h', set_mountpoints s (NULL :: rest)).
Proof.
  intros Hs Hok [D1 D2 D3] [E1 _ _]. unfold vfs_umount. rewrite Hs. cbn [find_mountpoint].
  destruct (strncmp_loop_zero (tail dev) (tail dev) (fs_mem s) (p + OFF_DEVICE) device 1 (Z.to_nat (VFS_PATH_LENGTH - 1)))
    as (r & Hr & Hz); try done.
  - apply bytes_at_tail; [by intros -> ; simpl in D3; lia | done].
  - apply bytes_at_tail; [by intros -> ; simpl in D3; lia | done].
  - by apply char_ok_nonzero, Forall_tail.
  - by apply char_ok_nonzero, Forall_tail.
  - destruct dev; simpl in *; unfold VFS_PATH_LENGTH; lia.
  - unfold strncmp. rewrite Hr. out_red. by rewrite (proj2 Hz) by by left.
Qed.

(** A file system of an unknown type is reported as mounted: the slot is
    filled with NULL. *)
Lemma add_mountpoint_null l : NULL ∈ l → add_mountpoint l NULL = (true, l).
Proof.
  induction l as [|p l IH]; intros Hin; [set_solver |]. cbn [add_mountpoint].
  destruct (p =? NULL) eqn:E; zbool; [by subst |]. rewrite IH; [done |]. set_solver.
Qed.
