(* ===== verification/FsDemo.v ===== *)
(** * A concrete archive

    A screen, an archive with one file, a heap and string literals, on which
    the theorems of Tar.v and Vfs.v are evaluated. *)

From S2P Require Import Prelude Iface Mem LibTitan Pmm Mb2 MmState PageMap Vga Tar Vfs.

Module FsDemo.

Definition file_ab : member := Member [97; 98] (replicate 24 48) (replicate 376 0) [7; 8; 9].

(** A program: the header of the file, one program header and four bytes of
    code, which belong at [0x800000]. *)
Definition elf_header : list Z :=
  [69; 76; 70] ++ replicate 21 0 ++ [0x02; 0x00; 0x80] ++ replicate 5 0 ++ [64] ++ replicate 23 0 ++ [1] ++ replicate 7 0.

Definition elf_segment : list Z :=
  [1; 0; 0; 0; 5; 0; 0; 0; 120] ++ replicate 7 0 ++ [0; 0; 0x80] ++ replicate 13 0 ++ [4] ++ replicate 8 0 ++ [0x10] ++
  replicate 14 0.

Definition file_elf : member :=
  Member [112; 114; 111; 103] (replicate 24 48) (replicate 376 0) (elf_header ++ elf_segment ++ [0xeb; 0xfe; 0x90; 0x90]).

(** The file that [print2] opens. *)
Definition file_two : member :=
  Member (bytes_of "file2.txt") (replicate 24 48) (replicate 376 0) (bytes_of "Hello from the archive").

Definition fs_files : list member := [file_ab; file_elf; file_two].

Definition demo_sym : fs_symbols := FsSymbols 1024 1028 1030 5 6.

(** The mount point at 64, literals and the path ["/ab"] at 1024, a buffer at
    2048, the archive at 65536. *)
Definition fs_bytes : mem :=
  map_seqZ 64 (replicate 176 0) ∪
  map_seqZ 1024 ([116; 97; 114; 0; 47; 0] ++ bytes_of "initramfs" ++ [0; 47; 97; 98; 0; 47; 112; 114; 111; 103; 0]) ∪
  map_seqZ 2048 (replicate 256 0) ∪ map_seqZ 65536 (archive fs_files) ∪ blank_mem.

Definition fs_console : console := set_vmem blank fs_bytes.
Definition fs_start : vfs := Vfs fs_console (replicate 5 0) (replicate 12 NULL) (replicate 10 zero_fd).

Lemma load_bytes_inv l m a : load_bytes (length l) m a = Ok l → bytes_at m a l.
Proof.
  revert a. induction l as [|b l IH]; intros a Hl; [by intros ?? |]. simpl in Hl.
  apply bind_Ok in Hl as (c & Hc & Hl). apply bind_Ok in Hl as (l' & Hl' & [= -> ->]).
  apply bytes_at_cons. split; [by apply load8_Ok | by apply IH].
Qed.

Lemma mapped_load m a n l : load_bytes n m a = Ok l → mapped m a (Z.of_nat n).
Proof.
  revert a l. induction n as [|n IH]; intros a l Hl i Hi; [lia |]. simpl in Hl.
  apply bind_Ok in Hl as (c & Hc & Hl). apply bind_Ok in Hl as (l' & Hl' & _). apply load8_Ok in Hc.
  destruct (decide (i = a)) as [->|]; [by eexists |]. apply (IH _ _ Hl'). lia.
Qed.

Lemma bytes_ok_seq a l : Forall byte l → bytes_ok (map_seqZ a l).
Proof. intros Hl i b [_ Hi]%lookup_map_seqZ_Some. by apply (Forall_lookup_1 _ _ _ _ Hl Hi). Qed.

Lemma blank_bytes_ok : bytes_ok blank_mem.
Proof. intros i b ->%blank_lookup. lia. Qed.

Lemma map_seqZ_at a l : bytes_at (map_seqZ a l) a l.
Proof. intros i b Hi. apply lookup_map_seqZ_Some. split; [lia |]. rewrite <- Hi. f_equal. lia. Qed.

Lemma bytes_at_union m1 m2 a l : bytes_at m1 a l → bytes_at (m1 ∪ m2) a l.
Proof. intros Hb i b Hi. by apply lookup_union_Some_l, Hb. Qed.

(** A memory made of pieces, in the order of their addresses. *)
Definition mem_of (ps : list (Z * list Z)) : mem := foldr (λ p m, map_seqZ p.1 p.2 ∪ m) ∅ ps.

Fixpoint in_order (ps : list (Z * list Z)) : Prop :=
  match ps with
  | [] => True
  | p :: ps' => Forall (λ q, p.1 + Z.of_nat (length p.2) ≤ q.1) ps' ∧ in_order ps'
  end.

Lemma mem_of_at ps a l : in_order ps → (a, l) ∈ ps → bytes_at (mem_of ps) a l.
Proof.
  induction ps as [|p ps IH]; intros Ho Hin; [by apply elem_of_nil in Hin |]. destruct Ho as [Hp Ho].
  apply elem_of_cons in Hin as [<-|Hin]; [apply bytes_at_union, map_seqZ_at |].
  intros i b Hi. cbn [mem_of foldr]. rewrite lookup_union_r; [by apply (IH Ho Hin) |].
  apply lookup_map_seqZ_None. right. rewrite Forall_forall in Hp. specialize (Hp _ Hin). simpl in Hp. lia.
Qed.

Lemma mem_of_mapped ps a l n : in_order ps → (a, l) ∈ ps → n ≤ Z.of_nat (length l) → mapped (mem_of ps) a n.
Proof.
  intros Ho Hin Hn i Hi. destruct (lookup_lt_is_Some_2 l (Z.to_nat (i - a))) as [b Hb]; [lia |]. exists b.
  rewrite <- (mem_of_at ps a l Ho Hin _ _ Hb). f_equal. lia.
Qed.

Lemma mem_of_none ps x : Forall (λ p, x < p.1) ps → mem_of ps !! x = None.
Proof.
  induction 1 as [|p ps Hp _ IH]; [apply lookup_empty |]. cbn [mem_of foldr]. apply lookup_union_None. split; [| exact IH].
  apply lookup_map_seqZ_None. by left.
Qed.

Lemma mem_of_ok ps : Forall (λ p, Forall byte p.2) ps → bytes_ok (mem_of ps).
Proof. induction 1 as [|p ps Hp _ IH]; [done |]. apply bytes_ok_union; [by apply bytes_ok_seq | exact IH]. Qed.

Definition byteb (b : Z) : bool := (0 <=? b) && (b <? 256).

Lemma all_bytes l : forallb byteb l = true → Forall byte l.
Proof.
  rewrite forallb_forall, Forall_forall. intros Hl b Hb%list_elem_of_In%Hl.
  unfold byteb in Hb. unfold byte. zbool. lia.
Qed.

Lemma fs_bytes_ok : bytes_ok fs_bytes.
Proof.
  unfold fs_bytes. apply bytes_ok_union; [| exact blank_bytes_ok].
  repeat match goal with |- bytes_ok (_ ∪ _) => apply bytes_ok_union end;
    apply bytes_ok_seq, all_bytes; vm_compute; reflexivity.
Qed.

Lemma file_ab_ok : member_ok file_ab.
Proof. split; simpl; try lia. split; [lia |]. repeat constructor; unfold char_ok; lia. Qed.

Lemma file_elf_ok : member_ok file_elf.
Proof. split; simpl; try lia. split; [lia |]. repeat constructor; unfold char_ok; lia. Qed.

Lemma file_two_ok : member_ok file_two.
Proof. split; simpl; try lia. split; [lia |]. repeat constructor; unfold char_ok; lia. Qed.

Lemma fs_files_ok : Forall member_ok fs_files.
Proof. constructor; [exact file_ab_ok |]. constructor; [exact file_elf_ok |]. constructor; [exact file_two_ok | constructor]. Qed.

Lemma fs_screen : bytes_at fs_bytes VGA_TEXT_BUFFER_BASE (cell_bytes (cells blank_terminal)).
Proof. apply load_bytes_inv. vm_compute. reflexivity. Qed.

Lemma fs_archive : bytes_at fs_bytes 65536 (archive fs_files).
Proof. apply load_bytes_inv. vm_compute. reflexivity. Qed.

Lemma fs_shows : shows fs_console blank_terminal.
Proof.
  split; [exact fs_screen | exact fs_bytes_ok | done | exact (sh_ok _ _ blank_shows) |].
  cbn [vga_out fs_console set_vmem blank]. unfold VGA_LENGTH, VGA_TEXT_BUFFER_BASE. lia.
Qed.

Lemma fs_off : off_screen fs_console 65536 3073.
Proof. left. vm_compute. discriminate. Qed.

Lemma fs_walk : walk fs_console blank_terminal 65536 fs_files.
Proof.
  assert (Z.of_nat (length (archive fs_files)) = 3073) as Hl by (vm_compute; reflexivity).
  split; rewrite ?Hl; [exact fs_shows | done | | exact fs_archive | exact fs_off | lia].
  exact fs_files_ok.
Qed.

#[local] Existing Instance PageMapDemo.list_heap.

Lemma fs_unmounted : unmounted fs_start.
Proof. by split. Qed.

Lemma fs_literals : literals demo_sym fs_bytes 64.
Proof.
  split; [apply load_bytes_inv; vm_compute; reflexivity .. |].
  rewrite !Forall_cons. unfold apart, SIZEOF_MOUNTPOINT_T. simpl. split_and!; [lia | lia | lia | constructor].
Qed.

Lemma fs_room : mount_room demo_sym fs_start 65536 64 fs_files.
Proof.
  assert (vga_out (con fs_start) = VGA_TEXT_BUFFER_BASE) as Hv by reflexivity. split.
  - apply (mapped_load _ _ 176 (replicate 176 0)). vm_compute. reflexivity.
  - left. vm_compute. discriminate.
  - rewrite Hv, !Forall_cons. unfold apart, SIZEOF_MOUNTPOINT_T, VGA_TEXT_BUFFER_BASE, VGA_LENGTH. simpl.
    split_and!; [lia | lia | lia | lia | constructor].
  - exact fs_literals.
  - done.
Qed.

Lemma fs_path : path_at fs_bytes 1041 [97; 98].
Proof.
  split; [apply load_bytes_inv; vm_compute; reflexivity | | simpl; lia].
  repeat constructor; lia.
Qed.

Lemma fs_null : fs_bytes !! 1 = None.
Proof. vm_compute. reflexivity. Qed.

Lemma fs_buffer : buffer demo_sym fs_start 65536 64 fs_files 2048 3.
Proof.
  assert (vga_out (con fs_start) = VGA_TEXT_BUFFER_BASE) as Hv by reflexivity. split; [| | lia].
  - apply (mapped_load _ _ 3 (replicate 3 0)). vm_compute. reflexivity.
  - unfold protected. rewrite Hv, !Forall_cons.
    unfold apart, SIZEOF_MOUNTPOINT_T, VGA_TEXT_BUFFER_BASE, VGA_LENGTH. cbn [fst snd lit_tar demo_sym].
    split_and!; [lia | lia | lia | lia | constructor].
Qed.

(** The file "/ab" is read in two pieces. *)
Lemma initramfs_roundtrip_witness : ∃ s1 s2 s3,
  vfs_open demo_sym s1 1040 0 = Ok (0, s2) ∧ read_seq demo_sym s2 0 2048 [1; 2] = Ok ([1; 2], s3) ∧
  bytes_at (fs_mem s3) 2048 [7; 8; 9].
Proof.
  destruct (initramfs_roundtrip demo_sym [] [64] fs_start blank_terminal 65536 64 fs_files 0 1040 47 [97; 98]
    0 file_ab 0 2048 [1; 2]) as (cs & hs & s1 & s2 & s3 & _ & _ & H1 & H2 & H3).
  - exact fs_walk.
  - simpl. lia.
  - reflexivity.
  - exact fs_unmounted.
  - exact fs_null.
  - reflexivity.
  - exact fs_room.
  - vm_compute. reflexivity.
  - exact fs_path.
  - assert (vga_out (con fs_start) = VGA_TEXT_BUFFER_BASE) as Hv by reflexivity.
    rewrite Hv, !Forall_cons. unfold apart, SIZEOF_MOUNTPOINT_T, VGA_TEXT_BUFFER_BASE, VGA_LENGTH. simpl.
    split_and!; [lia | lia | constructor].
  - vm_compute. reflexivity.
  - exact fs_buffer.
  - repeat constructor; lia.
  - reflexivity.
  - exists s1, s2, s3. split; [exact H1 | split; [exact H2 | exact H3]].
Defined.

Lemma parse_tar_file_headers_witness :
  (∃ s', parse_tar_file 4 fs_console (replicate 5 0) 65536 = Ok ([65536; 66560; 67584; 0; 0], s')).
Proof.
  destruct (proj1 (parse_tar_file_headers fs_files fs_console blank_terminal (replicate 5 0) 65536 0 fs_walk eq_refl))
    as (s' & Hp & _); [simpl; lia |].
  exists s'. exact Hp.
Defined.

(** ** With the file open *)

Definition mounted_bytes : mem :=
  map_seqZ 64 (tar_string ++ replicate 29 0 ++ bytes_of "initramfs" ++ replicate 55 0 ++ [47] ++ replicate 79 0) ∪ fs_bytes.

Definition fd_ab : file_descriptor_t := Fd 0 0 ([97; 98] ++ replicate 62 0) 0 0 3 66048.

Definition fs_open : vfs :=
  Vfs (set_vmem blank mounted_bytes) [65536; 66560; 67584; 0; 0] (64 :: replicate 11 NULL) (fd_ab :: replicate 9 zero_fd).

Lemma mounted_bytes_ok : bytes_ok mounted_bytes.
Proof.
  unfold mounted_bytes. apply bytes_ok_union; [| exact fs_bytes_ok].
  apply bytes_ok_seq, all_bytes. vm_compute. reflexivity.
Qed.

Lemma mounted_bytes_above a l : bytes_at fs_bytes a l → 240 ≤ a → bytes_at mounted_bytes a l.
Proof.
  intros Hb Ha. apply (bytes_at_agree fs_bytes); [| done]. intros i Hi. unfold mounted_bytes.
  apply lookup_union_r, lookup_map_seqZ_None. right. simpl. lia.
Qed.

Lemma fs_open_rel : vfs_rel demo_sym blank_terminal 65536 64 fs_files fs_open [(file_ab, 0)].
Proof.
  assert (Z.of_nat (length (archive fs_files)) = 3073) as Hl by (vm_compute; reflexivity). split.
  - split; [| reflexivity | simpl; lia]. split; rewrite ?Hl; [| done | | | | lia].
    + split; [| exact mounted_bytes_ok | done | exact (sh_ok _ _ blank_shows) |].
      * apply mounted_bytes_above; [exact fs_screen |]. cbn [vga_out fs_open con set_vmem blank]. unfold VGA_TEXT_BUFFER_BASE. lia.
      * cbn [vga_out fs_open con set_vmem blank]. unfold VGA_LENGTH, VGA_TEXT_BUFFER_BASE. lia.
    + exact fs_files_ok.
    + apply mounted_bytes_above; [exact fs_archive | lia].
    + left. cbn [vga_out fs_open con set_vmem blank]. unfold VGA_TEXT_BUFFER_BASE. lia.
  - reflexivity.
  - apply load_bytes_inv. vm_compute. reflexivity.
  - apply load_bytes_inv. vm_compute. reflexivity.
  - apply load_bytes_inv. vm_compute. reflexivity.
  - vm_compute. reflexivity.
  - assert (vga_out (con fs_open) = VGA_TEXT_BUFFER_BASE) as -> by reflexivity.
    rewrite !Forall_cons. unfold apart, SIZEOF_MOUNTPOINT_T, VGA_TEXT_BUFFER_BASE, VGA_LENGTH. simpl.
    split_and!; [lia | lia | constructor].
  - exists [fd_ab]. split; [reflexivity |]. constructor; [| constructor].
    split; [done | done | | done |].
    + apply load_bytes_inv. vm_compute. reflexivity.
    + rewrite Hl. simpl. lia.
  - simpl. lia.
Qed.

Lemma mounted_path : path_at mounted_bytes 1041 [97; 98].
Proof.
  split; [apply load_bytes_inv; vm_compute; reflexivity | | simpl; lia].
  repeat constructor; lia.
Qed.

(** Opening the file once more gives the second handle. *)
Lemma vfs_open_handles_witness : ∃ s', vfs_open demo_sym fs_open 1040 0 = Ok (1, s').
Proof.
  pose proof (vfs_open_handles demo_sym blank_terminal 65536 64 fs_files fs_open [(file_ab, 0)] 1040 47 [97; 98] 0
    fs_open_rel) as Ho.
  assert (find_member fs_files [97; 98] = Some (0%nat, file_ab)) as E by (vm_compute; reflexivity).
  rewrite E in Ho. destruct Ho as (s' & Hs' & _).
  - vm_compute. reflexivity.
  - exact mounted_path.
  - exists s'. exact Hs'.
Defined.

(** Five bytes of the file of three. *)
Lemma vfs_read_past_end_witness : ∃ s',
  vfs_read demo_sym fs_open 0 2048 5 = Ok (5, s') ∧ bytes_at (fs_mem s') 2048 [7; 8; 9; 0; 0].
Proof.
  destruct (vfs_read_past_end demo_sym blank_terminal 65536 64 fs_files fs_open [(file_ab, 0)] 0 file_ab 0 fd_ab 2048
    [0; 0] fs_open_rel) as (s' & H1 & H2 & _).
  - reflexivity.
  - reflexivity.
  - apply load_bytes_inv. vm_compute. reflexivity.
  - assert (vga_out (con fs_open) = VGA_TEXT_BUFFER_BASE) as Hv by reflexivity.
    split; [apply (mapped_load _ _ 5 (replicate 5 0)); vm_compute; reflexivity | | simpl; lia].
    unfold protected. rewrite Hv, !Forall_cons.
    unfold apart, SIZEOF_MOUNTPOINT_T, VGA_TEXT_BUFFER_BASE, VGA_LENGTH. cbn [fst snd lit_tar demo_sym].
    split_and!; [simpl; lia .. | constructor].
  - left. simpl. lia.
  - lia.
  - simpl. lia.
  - simpl. lia.
  - exists s'. split; [exact H1 | exact H2].
Defined.

(** Unmounting "initramfs", whose name is at 1030. *)
Lemma vfs_umount_frees_null_witness :
  vfs_umount [64] fs_open 1030 = Ok (1, [64], set_mountpoints fs_open (NULL :: replicate 11 NULL)).
Proof.
  rewrite (vfs_umount_frees_null [64] fs_open 64 (replicate 11 NULL) 1030 (bytes_of "initramfs")).
  - reflexivity.
  - reflexivity.
  - exact mounted_bytes_ok.
  - split; [apply load_bytes_inv; vm_compute; reflexivity | repeat constructor; lia | simpl; lia].
  - split; [apply load_bytes_inv; vm_compute; reflexivity | repeat constructor; lia | simpl; lia].
Defined.

End FsDemo.
