(* ===== verification/Initrd.v ===== *)
(** * Finding the initial archive (tar.c, [tar_init])

    The boot loader leaves the archive as a module in physical memory;
    [tar_init] maps it and walks it. *)

From S2P Require Import Prelude Iface Mem LibTitan Pmm Mb2 MmState HashMap PageMap Vmm View Vga Tar.

Definition MULTIBOOT_TAG_TYPE_MODULE : Z := 3.

Section Initrd.
Context {F H : Type} `{FrameAlloc F} `{HeapAlloc H} (sym : symbols) (depth : nat) (uninit : Z) (phys : mem).

(** [tar_init]: the headers, the memory manager with the new value of the
    static variable of [get_mmio_ptr], and the console. *)
Definition tar_init (fuel : nat) (v : mm F H) (mmio_region : Z) (s : console) (mb_info : Z)
    : outcome (list Z * Z * mm F H * console) :=
  tag ← find_tag fuel (vmem s) (mb_info + 8) MULTIBOOT_TAG_TYPE_MODULE;
  t ← load32 (vmem s) tag;
  if negb (t =? MULTIBOOT_TAG_TYPE_MODULE) then Fault (Panic "mb2_mmap") else
  mod_start ← load32 (vmem s) (tag + 8);
  mod_end ← load32 (vmem s) (tag + 12);
  let file_size := PAGE_ALIGN_u32 (u32 (mod_end - mod_start)) in
  let '(ptr, mmio_region') := get_mmio_ptr mmio_region file_size in
  '(tar_file, v') ← vmm_alloc sym depth uninit v ptr file_size (Z.lor VM_FLAG_READ_WRITE VM_FLAG_USER) mod_start;
  let m := show_pages (Z.to_nat (file_size / 0x1000)) phys (current_tr v') (vmem s) tar_file in
  '(hs, s') ← parse_tar_file fuel (set_vmem s m) (replicate (Z.to_nat HEADER_LIST_SIZE) 0) tar_file;
  Ok (hs, mmio_region', v', s').

(** [C23] tar_init stops the kernel without a module; with one that vmm_alloc
    maps, it fills the list of headers with the addresses of the members and
    prints their names. *)
Theorem tar_init_headers fuel v mmio_region s t mb_info n tag ty :
  shows s t → locked s = false → tag_reach (vmem s) MULTIBOOT_TAG_TYPE_MODULE (mb_info + 8) n tag ty → (n < fuel)%nat →
  (ty ≠ MULTIBOOT_TAG_TYPE_MODULE → tar_init fuel v mmio_region s mb_info = Fault (Panic "mb2_mmap")) ∧
  (∀ mod_start mod_end fs tail v',
    let size := PAGE_ALIGN_u32 (u32 (mod_end - mod_start)) in
    let ptr := (get_mmio_ptr mmio_region size).1 in
    let pages := Z.to_nat (size / 0x1000) in
    ty = MULTIBOOT_TAG_TYPE_MODULE → load32 (vmem s) (tag + 8) = Ok mod_start → load32 (vmem s) (tag + 12) = Ok mod_end →
    vmm_alloc sym depth uninit v ptr size (Z.lor VM_FLAG_READ_WRITE VM_FLAG_USER) mod_start = Ok (ptr, v') →
    pages_at v' ptr mod_start pages →
    bytes_ok phys → bytes_at phys mod_start (archive fs ++ tail) →
    Z.of_nat (length (archive fs ++ tail)) ≤ Z.of_nat pages * 0x1000 →
    Forall member_ok fs → (length fs ≤ 5)%nat → (length fs < fuel)%nat →
    off_screen s ptr (Z.of_nat pages * 0x1000) → 0 ≤ ptr → ptr + Z.of_nat pages * 0x1000 ≤ 2 ^ 64 →
    ∃ s', tar_init fuel v mmio_region s mb_info =
        Ok (headers_at ptr fs ++ replicate (5 - length fs) 0, (get_mmio_ptr mmio_region size).2, v', s') ∧
      parsed s' (puts t (listing fs)) (headers_at ptr fs ++ replicate (5 - length fs) 0) ptr fs).
Proof.
  intros Hs Hlk Hr Hn. destruct (find_tag_reach _ _ _ _ _ _ _ Hr Hn) as [Ht Hty].
  split.
  { intros Hne. unfold tar_init. rewrite Ht. out_red. rewrite Hty. out_red. by rewrite (proj2 (Z.eqb_neq _ _)). }
  intros mod_start mod_end fs tail v' size ptr pages -> Hms Hme Halloc Hmap Hpok Hph Hlen Hok Hl5 Hfu Hoff H0' H64.
  unfold tar_init. rewrite Ht. out_red. rewrite Hty. out_red. rewrite Z.eqb_refl. cbn [negb].
  rewrite Hms. out_red. rewrite Hme. out_red. fold size. fold pages.
  clearbody pages. unfold ptr in *. clear ptr. clearbody size.
  destruct (get_mmio_ptr mmio_region size) as [ptr' r']. cbn [fst snd] in *.
  rewrite Halloc. out_red.
  set (m := show_pages pages phys (current_tr v') (vmem s) ptr').
  assert (bytes_at m ptr' (archive fs ++ tail)) as Hb.
  { rewrite <- (Z.add_0_r ptr'). apply (show_pages_at _ _ _ _ mod_start); [done | by rewrite Z.add_0_r | done | lia]. }
  apply bytes_at_app in Hb as [Hb _]. rewrite length_app in Hlen.
  assert (walk (set_vmem s m) t ptr' fs) as Hw.
  { destruct Hs as [S1 S2 S3 S4 S5]. split; cbn [vmem set_vmem]; try done.
    - split; try done; cbn [vmem set_vmem vga_out].
      + apply (bytes_at_agree (vmem s)); [| done]. intros i Hi. apply show_pages_outside.
        rewrite length_cell_bytes in Hi. destruct S4 as (Hc & _). rewrite Hc in Hi.
        unfold off_screen, VGA_LENGTH in Hoff. lia.
      + by apply show_pages_ok.
    - unfold off_screen in *. cbn [vga_out set_vmem]. lia.
    - lia. }
  change (Z.to_nat HEADER_LIST_SIZE) with 5%nat. replace fuel with (S (length fs) + (fuel - S (length fs)))%nat by lia.
  destruct (parse_loop_spec fs _ t (replicate 5 0) ptr' 0 (fuel - S (length fs)) Hw) as (s' & Hp & Hs' & Ho);
    [rewrite length_replicate; lia |].
  rewrite Nat.add_0_l, drop_replicate in Hp. exists s'. unfold parse_tar_file. rewrite Hp. split; [done |].
  destruct Hw as [_ _ _ _ Hwo Hwr]. split; [| done | done]. split; try done.
  - by destruct Ho as (_ & _ & ->).
  - by eapply only_screen_bytes.
  - by eapply only_screen_off.
Qed.

End Initrd.
