(* ===== verification/Cpu.v ===== *)
(** * Descriptor tables (gdt64.c, gdt64.h, isr.c, isr.h)

    The segment descriptors and the interrupt gates as the bytes the
    processor reads, and the context an interrupt saves.  The fields of a
    descriptor are decoded the way the AMD64 manual lays them out. *)

From S2P Require Import Prelude Iface Mem LibTitan Fields Pmm MmState Vmm.

(** [cpu_context_t]. *)
Record cpu_context_t := CpuContext {
  rax : Z; rbx : Z; rcx : Z; rdx : Z; rdi : Z; rsi : Z; rbp : Z;
  r8 : Z; r9 : Z; r10 : Z; r11 : Z; r12 : Z; r13 : Z; r14 : Z; r15 : Z;
  vec : Z; error_code : Z;
  rip_i : Z; cs_i : Z; flags_i : Z; rsp_i : Z; ss_i : Z;
}.

(** ** The global descriptor table *)

Definition CODE_OFFSET : Z := 0x8.
Definition DATA_OFFSET : Z := 0x10.
Definition USER_CODE_OFFSET : Z := 0x1b.
Definition USER_DATA_OFFSET : Z := 0x23.
Definition TSS_OFFSET : Z := 0x28.

(** [gdt_segment_t]. *)
Record gdt_segment_t := Segment {
  limit : Z; base0 : Z; base1 : Z; access_byte : Z; flags_and_limit : Z; base2 : Z;
}.

(** [gdt64_segment_t]: the fields of [gdt_segment_t] and two more. *)
Record gdt64_segment_t := Segment64 {
  segment : gdt_segment_t; base3 : Z; reserved : Z;
}.

(** [gdt64_t]. *)
Record gdt64_t := Gdt64 {
  null_segment : gdt_segment_t;
  code_segment : gdt_segment_t;
  data_segment : gdt_segment_t;
  user_code_segment : gdt_segment_t;
  user_data_segment : gdt_segment_t;
  tss_segment : gdt64_segment_t;
}.

(** [tss_t]. *)
Record tss_t := Tss {
  res0 : Z; rsp0 : Z; rsp1 : Z; rsp2 : Z; res1 : Z;
  ist1 : Z; ist2 : Z; ist3 : Z; ist4 : Z; ist5 : Z; ist6 : Z; ist7 : Z;
  res2 : Z; res3 : Z; iopb : Z;
}.

(** The 104 bytes of the fields, rounded up by [aligned(16)]. *)
Definition SIZEOF_TSS_T : Z := 112.

Definition tss : tss_t := Tss 0 0 0 0 0 0 0 0 0 0 0 0 0 0 0.

(** The initial value of [gdt64]. *)
Definition gdt64 : gdt64_t := {|
  null_segment := Segment 0 0 0 0 0 0;
  code_segment := Segment 0xffff 0 0 0x9a 0xaf 0;
  data_segment := Segment 0xffff 0 0 0x92 0xa0 0;
  user_code_segment := Segment 0xffff 0 0 0xfa 0xaf 0;
  user_data_segment := Segment 0xffff 0 0 0xf2 0xa0 0;
  tss_segment := Segment64
    (Segment (SIZEOF_TSS_T - 1) 0 0 0x89 (Z.lor 0x20 (Z.shiftr (SIZEOF_TSS_T - 1) 16)) 0) 0 0;
|}.

Definition segment_bytes (s : gdt_segment_t) : list Z :=
  le_bytes 2 (limit s) ++ le_bytes 2 (base0 s) ++ le_bytes 1 (base1 s) ++
  le_bytes 1 (access_byte s) ++ le_bytes 1 (flags_and_limit s) ++ le_bytes 1 (base2 s).

(** The packed [gdt64_t]. *)
Definition gdt_bytes (g : gdt64_t) : list Z :=
  segment_bytes (null_segment g) ++ segment_bytes (code_segment g) ++
  segment_bytes (data_segment g) ++ segment_bytes (user_code_segment g) ++
  segment_bytes (user_data_segment g) ++ segment_bytes (segment (tss_segment g)) ++
  le_bytes 4 (base3 (tss_segment g)) ++ le_bytes 4 (reserved (tss_segment g)).

(** The assignments of [remap_gdt] to [gdt64.tss_segment]. *)
Definition remap_segment (g : gdt64_t) (tss_addr : Z) : gdt64_t :=
  let s := segment (tss_segment g) in {|
  null_segment := null_segment g;
  code_segment := code_segment g;
  data_segment := data_segment g;
  user_code_segment := user_code_segment g;
  user_data_segment := user_data_segment g;
  tss_segment := Segment64
    (Segment (limit s) (u16 (Z.shiftr tss_addr 0)) (u8 (Z.shiftr tss_addr 16)) (access_byte s)
       (flags_and_limit s) (u8 (Z.shiftr tss_addr 24)))
    (u32 (Z.shiftr tss_addr 32)) (reserved (tss_segment g));
|}.

Definition with_stacks (t : tss_t) (i r : Z) : tss_t :=
  Tss (res0 t) (rsp0 t) r (rsp2 t) (res1 t) i (ist2 t) (ist3 t) (ist4 t) (ist5 t) (ist6 t)
    (ist7 t) (res2 t) (res3 t) (iopb t).

Section Remap.
Context {F H : Type} `{FrameAlloc F} `{HeapAlloc H} (sym : symbols) (depth : nat) (uninit : Z).

(** [remap_gdt] up to the instructions that load the registers: the table, the
    task state segment, the memory manager and [kernel_stack_ptr]. *)
Definition remap_gdt (g : gdt64_t) (t : tss_t) (tss_addr : Z) (s : mm F H) (kernel_stack_ptr : Z)
    : outcome (gdt64_t * tss_t * mm F H * Z) :=
  let g' := remap_segment g tss_addr in
  '(p, s1) ← alloc_kernel_stack sym depth uninit s kernel_stack_ptr;
  '(q, s2) ← alloc_kernel_stack sym depth uninit s1 p;
  Ok (g', with_stacks t (u64 (p + KERNEL_STACK_SIZE - 0x8)) (u64 (q + KERNEL_STACK_SIZE - 0x8)), s2, q).

End Remap.

(** What the processor reads. *)
Definition descriptor (bs : list Z) (selector : Z) : list Z :=
  drop (Z.to_nat (8 * (selector / 8))) bs.

Definition byte_of (d : list Z) (i : nat) : Z := default 0 (d !! i).
Definition desc_present (d : list Z) : bool := Z.testbit (byte_of d 5) 7.
Definition desc_dpl (d : list Z) : Z := byte_of d 5 / 2 ^ 5 mod 2 ^ 2.
Definition desc_type (d : list Z) : Z := byte_of d 5 mod 2 ^ 5.
Definition desc_long (d : list Z) : bool := Z.testbit (byte_of d 6) 5.
Definition desc_limit (d : list Z) : Z :=
  le_value (take 2 d) + 2 ^ 16 * (byte_of d 6 mod 2 ^ 4).
Definition desc_base (d : list Z) : Z :=
  le_value (take 3 (drop 2 d)) + 2 ^ 24 * byte_of d 7 + 2 ^ 32 * le_value (take 4 (drop 8 d)).

(** [C29] In the packed bytes of the descriptor table after remap_gdt the
    processor decodes the address and the limit of the task state segment, and
    behind each selector of gdt64.h a present long mode segment of the right
    type and privilege level. *)
Theorem remap_segment_loads tss_addr :
  0 ≤ tss_addr < 2 ^ 64 →
  let bs := gdt_bytes (remap_segment gdt64 tss_addr) in
  let t := descriptor bs TSS_OFFSET in
  length bs = 56%nat ∧
  (desc_base t = tss_addr ∧ desc_limit t = SIZEOF_TSS_T - 1 ∧ desc_present t = true ∧ desc_type t = 9) ∧
  ∀ selector ring type, (selector, ring, type) ∈
    [(CODE_OFFSET, 0, 0x1a); (DATA_OFFSET, 0, 0x12); (USER_CODE_OFFSET, 3, 0x1a); (USER_DATA_OFFSET, 3, 0x12)] →
    let d := descriptor bs selector in
    desc_present d = true ∧ desc_long d = true ∧ desc_dpl d = ring ∧ desc_type d = type ∧
    selector mod 4 = ring.
Proof.
  intros Ha bs t. split; [done |]. split; [split_and!; try done |].
  - change (desc_base t) with
      (le_value (le_bytes 2 (u16 (Z.shiftr tss_addr 0)) ++ le_bytes 1 (u8 (Z.shiftr tss_addr 16))) +
       2 ^ 24 * u8 (u8 (Z.shiftr tss_addr 24)) + 2 ^ 32 * le_value (le_bytes 4 (u32 (Z.shiftr tss_addr 32)))).
    rewrite le_value_app, !le_value_bytes, length_le_bytes, !Z.shiftr_div_pow2 by lia.
    change (2 ^ 64) with 18446744073709551616 in Ha. unfold u8, u16, u32. simpl. mlia.
  - intros selector ring type Hin. rewrite !elem_of_cons, elem_of_nil in Hin.
    by destruct Hin as [[= -> -> ->]|[[= -> -> ->]|[[= -> -> ->]|[[= -> -> ->]|[]]]]].
Qed.

Lemma remap_segment_loads_witness :
  desc_base (descriptor (gdt_bytes (remap_segment gdt64 0xffffff8000105020)) TSS_OFFSET) =
  0xffffff8000105020.
Proof. apply (remap_segment_loads 0xffffff8000105020). lia. Defined.

(** ** The interrupt descriptor table *)

Definition NUM_STUBS : Z := 256.

(** [struct idt_entry]. *)
Record idt_entry := IdtEntry {
  low_addr : Z;
  code_selector : Z;
  ist : Z;
  idt_flags : Z;
  mid_addr : Z;
  high_addr : Z;
  idt_reserved : Z;
}.

(** [set_idt_entry] on the array [idt]. *)
Definition set_idt_entry (idt : list idt_entry) (vec isr_addr dpl : Z) : list idt_entry :=
  <[Z.to_nat (u8 vec) := {|
      low_addr := u16 (Z.land isr_addr 0xffff);
      code_selector := 0x8;
      ist := 1;
      idt_flags := u8 (Z.lor 0x8e (Z.shiftl dpl 5));
      mid_addr := u16 (Z.land (Z.shiftr isr_addr 16) 0xffff);
      high_addr := u32 (Z.shiftr isr_addr 32);
      idt_reserved := 0;
    |}]> idt.

(** The loop of [setup_idt] from [vec]. *)
Fixpoint stub_loop (n : nat) (vec start_isr_stubs : Z) (idt : list idt_entry) : list idt_entry :=
  match n with
  | O => idt
  | S n' => stub_loop n' (vec + 1) start_isr_stubs
              (set_idt_entry idt vec (u64 (start_isr_stubs + vec * 16)) 0)
  end.

Definition setup_idt (start_isr_stubs : Z) (idt : list idt_entry) : list idt_entry :=
  set_idt_entry (stub_loop (Z.to_nat NUM_STUBS) 0 start_isr_stubs idt)
    0xfe (u64 (start_isr_stubs + 0xfe * 16)) 3.

(** [idt_ptr] as [load_idt] fills it. *)
Definition load_idt (idt_addr : Z) : Z * Z := (u16 (NUM_STUBS * 16 - 1), idt_addr).

(** The packed entry. *)
Definition idt_entry_bytes (e : idt_entry) : list Z :=
  le_bytes 2 (low_addr e) ++ le_bytes 2 (code_selector e) ++ le_bytes 1 (ist e) ++
  le_bytes 1 (idt_flags e) ++ le_bytes 2 (mid_addr e) ++ le_bytes 4 (high_addr e) ++
  le_bytes 4 (idt_reserved e).

(** The gate the processor finds for an interrupt: [limit] and [base] are the
    contents of its register. *)
Definition gate (table : list Z) (limit vec : Z) : option (list Z) :=
  if 16 * vec + 15 <=? limit then Some (take 16 (drop (Z.to_nat (16 * vec)) table)) else None.

Definition gate_offset (d : list Z) : Z :=
  le_value (take 2 d) + 2 ^ 16 * le_value (take 6 (drop 6 d)).
Definition gate_selector (d : list Z) : Z := le_value (take 2 (drop 2 d)).
Definition gate_ist (d : list Z) : Z := byte_of d 4 mod 2 ^ 3.

(** The entry that [set_idt_entry] writes, as the processor decodes it. *)
Lemma set_idt_entry_gate idt vec isr_addr dpl :
  (dpl = 0 ∨ dpl = 3) → 0 ≤ isr_addr < 2 ^ 64 → 0 ≤ vec < 256 → length idt = 256%nat →
  ∃ e, set_idt_entry idt vec isr_addr dpl !! Z.to_nat vec = Some e ∧
    let d := idt_entry_bytes e in
    gate_offset d = isr_addr ∧ gate_selector d = CODE_OFFSET ∧ gate_ist d = 1 ∧
    desc_present d = true ∧ desc_dpl d = dpl ∧ desc_type d = 0xe.
Proof.
  intros Hdpl Ha Hv Hl. unfold set_idt_entry. rewrite u8_small by lia.
  eexists. split; [apply list_lookup_insert_eq; lia |]. cbv zeta.
  split; [| destruct Hdpl as [-> | ->]; by split_and!].
  change (gate_offset _) with
    (le_value (le_bytes 2 (u16 (Z.land isr_addr 0xffff))) +
     2 ^ 16 * le_value (le_bytes 2 (u16 (Z.land (Z.shiftr isr_addr 16) 0xffff)) ++
                         le_bytes 4 (u32 (Z.shiftr isr_addr 32)))).
  rewrite le_value_app, !le_value_bytes, length_le_bytes, !Z.shiftr_div_pow2 by lia.
  change 0xffff with (Z.ones 16). rewrite !Z.land_ones by lia.
  change (2 ^ 64) with 18446744073709551616 in Ha. unfold u16, u32. simpl. mlia.
Qed.

Lemma length_set_idt_entry idt vec isr_addr dpl :
  length (set_idt_entry idt vec isr_addr dpl) = length idt.
Proof. apply length_insert. Qed.

Lemma set_idt_entry_other idt vec isr_addr dpl k :
  0 ≤ vec < 256 → k ≠ Z.to_nat vec → set_idt_entry idt vec isr_addr dpl !! k = idt !! k.
Proof. intros Hv Hk. unfold set_idt_entry. rewrite u8_small by lia. by apply list_lookup_insert_ne. Qed.

(** The entries behind the ones the loop has written are as before, the others
    send their vector to its stub. *)
Lemma stub_loop_gates n vec0 start idt :
  0 ≤ vec0 → vec0 + Z.of_nat n ≤ 256 → 0 ≤ start → start + 16 * 256 ≤ 2 ^ 64 → length idt = 256%nat →
  length (stub_loop n vec0 start idt) = 256%nat ∧
  (∀ k : nat, Z.of_nat k < vec0 → stub_loop n vec0 start idt !! k = idt !! k) ∧
  ∀ v, vec0 ≤ v < vec0 + Z.of_nat n → ∃ e, stub_loop n vec0 start idt !! Z.to_nat v = Some e ∧
    let d := idt_entry_bytes e in
    gate_offset d = start + 16 * v ∧ gate_selector d = CODE_OFFSET ∧ gate_ist d = 1 ∧
    desc_present d = true ∧ desc_dpl d = 0 ∧ desc_type d = 0xe.
Proof.
  revert vec0 idt. induction n as [|n IH]; intros vec0 idt Hv Hn Hs Hs2 Hl.
  { split_and!; [done | done | lia]. }
  cbn [stub_loop]. rewrite u64_small by lia.
  destruct (IH (vec0 + 1) (set_idt_entry idt vec0 (start + vec0 * 16) 0)) as (Hl' & Hk' & Hg');
    try lia; [by rewrite length_set_idt_entry |].
  split_and!; [done | |].
  - intros k Hk. rewrite Hk' by lia. apply set_idt_entry_other; lia.
  - intros v Hvr. destruct (decide (v = vec0)) as [->|]; [| apply Hg'; lia].
    rewrite Hk' by lia. destruct (set_idt_entry_gate idt vec0 (start + vec0 * 16) 0) as (e & He & Hd);
      try lia. exists e. split; [done |]. by rewrite Z.mul_comm with (n := 16).
Qed.

(** The table in memory. *)
Lemma gate_entry idt vec e :
  idt !! Z.to_nat vec = Some e → 0 ≤ vec < 256 →
  gate (flat_map idt_entry_bytes idt) (16 * 256 - 1) vec = Some (idt_entry_bytes e).
Proof.
  intros He Hv. unfold gate. zdec. f_equal.
  assert (∀ k, drop (16 * k) (flat_map idt_entry_bytes idt) = flat_map idt_entry_bytes (drop k idt)) as Hd.
  { clear. induction idt as [|e idt IH]; intros [|k]; try done.
    replace (16 * S k)%nat with (length (idt_entry_bytes e) + 16 * k)%nat by (simpl; lia).
    cbn [flat_map]. rewrite drop_app_add. apply IH. }
  replace (Z.to_nat (16 * vec)) with (16 * Z.to_nat vec)%nat by lia. rewrite Hd.
  rewrite (drop_S _ _ _ He). cbn [flat_map]. by apply take_app_length'.
Qed.

(** [C30] After setup_idt and load_idt the processor finds for each of the 256
    vectors a present interrupt gate to the stub of that vector in the kernel
    code segment, with privilege level 3 for the system call vector and 0 for
    the others. *)
Theorem setup_idt_gates start_isr_stubs idt idt_addr :
  0 ≤ start_isr_stubs → start_isr_stubs + 16 * 256 ≤ 2 ^ 64 → length idt = 256%nat →
  let table := flat_map idt_entry_bytes (setup_idt start_isr_stubs idt) in
  ∀ vec, 0 ≤ vec < 256 → ∃ d, gate table (load_idt idt_addr).1 vec = Some d ∧
    gate_offset d = start_isr_stubs + 16 * vec ∧ gate_selector d = CODE_OFFSET ∧ gate_ist d = 1 ∧
    desc_present d = true ∧ desc_type d = 0xe ∧ desc_dpl d = if vec =? 0xfe then 3 else 0.
Proof.
  intros Hs Hs2 Hl table vec Hv.
  destruct (stub_loop_gates 256 0 start_isr_stubs idt) as (Hl1 & _ & Hg1); try lia.
  unfold setup_idt in table. change (Z.to_nat NUM_STUBS) with 256%nat in table.
  set (stubs := stub_loop 256 0 start_isr_stubs idt) in *. clearbody stubs.
  assert (∃ e, set_idt_entry stubs 0xfe (u64 (start_isr_stubs + 0xfe * 16)) 3 !! Z.to_nat vec = Some e ∧
    let d := idt_entry_bytes e in
    gate_offset d = start_isr_stubs + 16 * vec ∧ gate_selector d = CODE_OFFSET ∧ gate_ist d = 1 ∧
    desc_present d = true ∧ desc_dpl d = (if vec =? 0xfe then 3 else 0) ∧ desc_type d = 0xe)
    as (e & He & Hd).
  { rewrite u64_small by lia. destruct (vec =? 0xfe) eqn:E; zbool.
    - subst vec. replace (start_isr_stubs + 0xfe * 16) with (start_isr_stubs + 16 * 0xfe) by lia.
      apply set_idt_entry_gate; (lia || by right).
    - rewrite set_idt_entry_other by lia. apply Hg1. lia. }
  exists (idt_entry_bytes e). split; [| naive_solver].
  change (load_idt idt_addr).1 with (16 * 256 - 1). by apply gate_entry.
Qed.

Lemma setup_idt_gates_witness : ∃ d,
  gate (flat_map idt_entry_bytes (setup_idt 0x106000 (replicate 256 (IdtEntry 0 0 0 0 0 0 0))))
    (load_idt 0x109000).1 0xfe = Some d ∧ gate_offset d = 0x106fe0.
Proof.
  destruct (setup_idt_gates 0x106000 (replicate 256 (IdtEntry 0 0 0 0 0 0 0)) 0x109000)
    with (vec := 0xfe) as (d & Hg & Ho & _); [lia | lia | apply length_replicate | lia |].
  exists d. split; [exact Hg | exact Ho].
Defined.
