(* ===== verification/Sched.v ===== *)
(** * The scheduler (scheduler.c, scheduler.h)

    Processes and threads as objects linked through their addresses,
    round-robin scheduling with the saved contexts, creation of threads and
    processes and the reaping of dead ones.  [kfree] marks a block in its
    header only: a freed object keeps its contents until its address is
    allocated again. *)

From S2P Require Import Prelude Iface Pmm MmState HashMap PageMap Vmm Cpu.

(** [status_t]. *)
Inductive status_t := READY | RUNNING | DEAD.

#[global] Instance status_t_eq_dec : EqDecision status_t.
Proof. solve_decision. Defined.

Definition NAME_MAX : Z := 10.
Definition MAX_RESOURCES : Z := 5.

(** [thread_t]. *)
Record thread_t := Thread {
  tid : Z;
  parent : Z;
  context : cpu_context_t;
  stack : Z;
  status : status_t;
  t_name : list Z;
  t_next : Z;
}.

(** [process_t], less its [vmm]: the head and the [pml4t] of that one are
    objects of the memory manager at [vmm_of]. *)
Record process_t := Process {
  pid : Z;
  threads : Z;
  p_name : list Z;
  resource_table : list Z;
  p_next : Z;
}.

Definition SIZEOF_THREAD_T : Z := 224.
Definition SIZEOF_PROCESS_T : Z := 128.

(** [&p->vmm]. *)
Definition vmm_of (p : Z) : Z := p + 16.

Definition zero_context : cpu_context_t :=
  CpuContext 0 0 0 0 0 0 0 0 0 0 0 0 0 0 0 0 0 0 0 0 0 0.

(** What [memset] makes of a thread and of a process. *)
Definition zero_thread : thread_t := Thread 0 NULL zero_context NULL READY (replicate 10 0) NULL.
Definition zero_process : process_t :=
  Process 0 NULL (replicate 10 0) (replicate (Z.to_nat MAX_RESOURCES) NULL) NULL.

Definition with_t_next (t : thread_t) (n : Z) : thread_t :=
  Thread (tid t) (parent t) (context t) (stack t) (status t) (t_name t) n.
Definition with_status (t : thread_t) (v : status_t) : thread_t :=
  Thread (tid t) (parent t) (context t) (stack t) v (t_name t) (t_next t).
Definition with_context (t : thread_t) (c : cpu_context_t) : thread_t :=
  Thread (tid t) (parent t) c (stack t) (status t) (t_name t) (t_next t).
Definition with_threads (p : process_t) (t : Z) : process_t :=
  Process (pid p) t (p_name p) (resource_table p) (p_next p).
Definition with_p_next (p : process_t) (n : Z) : process_t :=
  Process (pid p) (threads p) (p_name p) (resource_table p) n.

(** [while(curr->next != x) curr = curr->next] over a list of objects. *)
Fixpoint list_before {A} (nxt : A → Z) (m : gmap Z A) (fuel : nat) (curr x : Z) : outcome Z :=
  match fuel with
  | O => NoFuel
  | S fuel' =>
      o ← of_option (PageFault curr) (m !! curr);
      if nxt o =? x then Ok curr else list_before nxt m fuel' (nxt o) x
  end.

Section Sched.
Context {F H : Type} `{FrameAlloc F} `{HeapAlloc H} (sym : symbols) (depth : nat) (uninit : Z).

(** The globals of scheduler.c with the static counters and
    [kernel_stack_ptr]; [vm] is the memory manager. *)
Record sched := Sched {
  vm : mm F H;
  thr : gmap Z thread_t;
  prc : gmap Z process_t;
  idle_proc : Z;
  head_proc : Z;
  current_process : Z;
  current_thread : Z;
  next_tid : Z;
  next_pid : Z;
  kernel_stack_ptr : Z;
}.

Definition set_vm (s : sched) (v : mm F H) : sched :=
  Sched v (thr s) (prc s) (idle_proc s) (head_proc s) (current_process s) (current_thread s)
    (next_tid s) (next_pid s) (kernel_stack_ptr s).
Definition set_thr (s : sched) (v : gmap Z thread_t) : sched :=
  Sched (vm s) v (prc s) (idle_proc s) (head_proc s) (current_process s) (current_thread s)
    (next_tid s) (next_pid s) (kernel_stack_ptr s).
Definition set_prc (s : sched) (v : gmap Z process_t) : sched :=
  Sched (vm s) (thr s) v (idle_proc s) (head_proc s) (current_process s) (current_thread s)
    (next_tid s) (next_pid s) (kernel_stack_ptr s).
Definition set_head_proc (s : sched) (v : Z) : sched :=
  Sched (vm s) (thr s) (prc s) (idle_proc s) v (current_process s) (current_thread s)
    (next_tid s) (next_pid s) (kernel_stack_ptr s).
Definition set_running (s : sched) (p t : Z) : sched :=
  Sched (vm s) (thr s) (prc s) (idle_proc s) (head_proc s) p t
    (next_tid s) (next_pid s) (kernel_stack_ptr s).
Definition set_idle_proc (s : sched) (v : Z) : sched :=
  Sched (vm s) (thr s) (prc s) v (head_proc s) (current_process s) (current_thread s)
    (next_tid s) (next_pid s) (kernel_stack_ptr s).
Definition set_counters (s : sched) (ti pi ks : Z) : sched :=
  Sched (vm s) (thr s) (prc s) (idle_proc s) (head_proc s) (current_process s) (current_thread s)
    ti pi ks.

Definition thread_at (s : sched) (t : Z) : outcome thread_t := of_option (PageFault t) (thr s !! t).
Definition proc_at (s : sched) (p : Z) : outcome process_t := of_option (PageFault p) (prc s !! p).
Definition set_thread (s : sched) (t : Z) (v : thread_t) : sched := set_thr s (<[t := v]> (thr s)).
Definition set_proc (s : sched) (p : Z) (v : process_t) : sched := set_prc s (<[p := v]> (prc s)).

(** ** Creation *)

(** [for(; scan->next != NULL; scan = scan->next)]. *)
Fixpoint last_thread (fuel : nat) (s : sched) (scan : Z) : outcome Z :=
  match fuel with
  | O => NoFuel
  | S fuel' =>
      t ← thread_at s scan;
      if t_next t =? NULL then Ok scan else last_thread fuel' s (t_next t)
  end.

(** The context a thread starts in; [wrapper] is [kernel_thread_wrapper]. *)
Definition new_context (wrapper func func_arg stack : Z) (is_user : bool) : cpu_context_t := {|
  rax := 0; rbx := 0; rcx := 0; rdx := 0;
  rdi := func;
  rsi := func_arg;
  rbp := 0; r8 := 0; r9 := 0; r10 := 0; r11 := 0; r12 := 0; r13 := 0; r14 := 0; r15 := 0;
  vec := 0; error_code := 0;
  rip_i := wrapper;
  cs_i := if is_user then USER_CODE_OFFSET else CODE_OFFSET;
  flags_i := 0x202;
  rsp_i := u64 (stack + KERNEL_STACK_SIZE - 0x8);
  ss_i := if is_user then USER_DATA_OFFSET else DATA_OFFSET;
|}.

(** [create_thread].  [name] are the bytes from the caller's [name] on: the
    call [memcpy(name, t->name, NAME_MAX)] writes to them. *)
Definition create_thread (s : sched) (p : Z) (name : list Z) (wrapper func func_arg : Z)
    (is_user : bool) : outcome (Z * list Z * sched) :=
  '(t, vm1) ← kmalloc_mm (vm s) SIZEOF_THREAD_T;
  let s1 := set_thread (set_vm s vm1) t zero_thread in
  pr ← proc_at s1 p;
  s2 ← (if negb (threads pr =? NULL) then
          l ← last_thread (size (thr s1)) s1 (threads pr);
          o ← thread_at s1 l;
          Ok (set_thread s1 l (with_t_next o t))
        else Ok (set_proc s1 p (with_threads pr t)));
  o ← thread_at s2 t;
  let name' := t_name o ++ drop (Z.to_nat NAME_MAX) name in
  let s3 := set_counters (set_thread s2 t (Thread (next_tid s2) (parent o) (context o) (stack o) READY
              (t_name o) NULL)) (u64 (next_tid s2 + 1)) (next_pid s2) (kernel_stack_ptr s2) in
  '(stk, s4) ← (if is_user then
                  '(stk, vm2) ← alloc_user_stack sym depth uninit (vm s3) USER_STACK_START (vmm_of p)
                                  (vmm_of (current_process s3));
                  Ok (stk, set_vm s3 vm2)
                else
                  '(stk, vm2) ← alloc_kernel_stack sym depth uninit (vm s3) (kernel_stack_ptr s3);
                  Ok (stk, set_counters (set_vm s3 vm2) (next_tid s3) (next_pid s3) stk));
  o ← thread_at s4 t;
  Ok (t, name', set_thread s4 t (Thread (tid o) p (new_context wrapper func func_arg stk is_user) stk
                   (status o) (t_name o) (t_next o))).

(** The bytes of ["thread"]. *)
Definition thread_literal : list Z := [116; 104; 114; 101; 97; 100; 0].

(** [create_proc]; [vmm_instance] is given by its head and its [pml4t]. *)
Definition create_proc (s : sched) (wrapper func func_arg : Z) (vmm_instance : vm_object * Z)
    (add_to_queue is_user : bool) : outcome (Z * sched) :=
  '(p, vm1) ← kmalloc_mm (vm s) SIZEOF_PROCESS_T;
  let s1 := set_counters (set_proc (set_vm s vm1) p
              (Process (next_pid s) NULL (p_name zero_process) (resource_table zero_process) NULL))
              (next_tid s) (u64 (next_pid s + 1)) (kernel_stack_ptr s) in
  let vm2 := set_obj (vm s1) (vmm_of p) vmm_instance.1 in
  let s2 := set_vm s1 (set_pml4ts vm2 (<[vmm_of p := vmm_instance.2]> (pml4ts vm2))) in
  '(_, _, s3) ← create_thread s2 p thread_literal wrapper func func_arg is_user;
  if add_to_queue then
    o ← proc_at s3 p;
    let n := if head_proc s3 =? NULL then NULL else head_proc s3 in
    Ok (p, set_head_proc (set_proc s3 p (with_p_next o n)) p)
  else Ok (p, s3).

(** [kernel_thread_wrapper] behind the return of [thread_start]. *)
Definition kernel_thread_exit (s : sched) : outcome sched :=
  t ← thread_at s (current_thread s);
  Ok (set_thread s (current_thread s) (with_status t DEAD)).

Definition sched_init (s : sched) (wrapper idle_main : Z) : outcome sched :=
  '(head, pml4t, vm1) ← create_vmm sym depth (vm s);
  '(p, s1) ← create_proc (set_vm s vm1) wrapper idle_main NULL (head, pml4t) false false;
  o ← proc_at s1 p;
  Ok (set_running (set_idle_proc s1 p) p (threads o)).

(** ** Switching *)

Definition switch_process (s : sched) : outcome sched :=
  p ← (if negb (head_proc s =? NULL) then
         o ← proc_at s (current_process s);
         Ok (if p_next o =? NULL then head_proc s else p_next o)
       else Ok (idle_proc s));
  let s1 := set_running s p (current_thread s) in
  v ← switch_vm_space (vm s1) (vmm_of (current_process s1));
  Ok (set_vm s1 v).

(** [while(curr_p->next != p)]. *)
Definition proc_before (s : sched) : Z → Z → outcome Z := list_before p_next (prc s) (size (prc s)).

(** [while(current_t->next != t)]. *)
Definition thread_before (s : sched) : Z → Z → outcome Z := list_before t_next (thr s) (size (thr s)).

(** [while(vm_space->base != KERNEL_TEXT_START)] of [reap_process]. *)
Fixpoint free_space (fuel : nat) (v : mm F H) (vm_space : Z) : outcome (mm F H) :=
  match fuel with
  | O => NoFuel
  | S fuel' =>
      o ← obj_at v vm_space;
      if base o =? KERNEL_TEXT_START then Ok v else
      v1 ← vmm_free v (base o);
      free_space fuel' v1 (vm_next o)
  end.

(** [head_proc] and the list of processes without [p]. *)
Definition unlink_process (s : sched) (p : Z) : outcome sched :=
  if head_proc s =? p then
    o ← proc_at s p; Ok (set_head_proc s (p_next o))
  else
    b ← proc_before s (head_proc s) p;
    o ← proc_at s b;
    n ← proc_at s (p_next o);
    Ok (set_proc s b (with_p_next o (p_next n))).

(** The list of threads of [t->parent] without [t]. *)
Definition unlink_thread (s : sched) (t : Z) : outcome sched :=
  o ← thread_at s t;
  pr ← proc_at s (parent o);
  if threads pr =? NULL then Fault (Panic "ASSERT") else
  if threads pr =? t then Ok (set_proc s (parent o) (with_threads pr (t_next o)))
  else
    b ← thread_before s (threads pr) t;
    bo ← thread_at s b;
    n ← thread_at s (t_next bo);
    Ok (set_thread s b (with_t_next bo (t_next n))).

Definition kfree_s (s : sched) (p : Z) : outcome sched :=
  h ← ha_free (kheap (vm s)) p; Ok (set_vm s (set_kheap (vm s) h)).

(** What [reap_process] does with the address space of [p]. *)
Definition release_space (v : mm F H) (p idle : Z) : outcome (mm F H) :=
  v1 ← free_space (S (size (vm_objs v))) v (vmm_of p);
  v2 ← switch_vm_space v1 (vmm_of idle);
  pml4t ← of_option (PageFault (vmm_of p)) (pml4ts v2 !! vmm_of p);
  '(_, v3) ← vmm_hashmap_remove v2 pml4t;
  Ok v3.

(** [reap_thread] and [reap_process] call each other: [nesting] bounds how
    often. *)
Section Reap.
Variable reap_process : sched → Z → outcome sched.

Definition reap_thread_with (s : sched) (t : Z) : outcome sched :=
  o ← thread_at s t;
  v ← vmm_free (vm s) (stack o);
  s1 ← unlink_thread (set_vm s v) t;
  o1 ← thread_at s1 t;
  pr ← proc_at s1 (parent o1);
  s2 ← (if threads pr =? NULL then reap_process s1 (parent o1) else Ok s1);
  kfree_s s2 t.

(** [while(t != NULL)] of [reap_process]. *)
Fixpoint reap_threads (fuel : nat) (s : sched) (t : Z) : outcome sched :=
  match fuel with
  | O => NoFuel
  | S fuel' =>
      if t =? NULL then Ok s else
      o ← thread_at s t;
      s1 ← reap_thread_with s t;
      reap_threads fuel' s1 (t_next o)
  end.

End Reap.

Fixpoint reap_process (nesting : nat) (s : sched) (p : Z) : outcome sched :=
  match nesting with
  | O => NoFuel
  | S nesting' =>
      s1 ← unlink_process s p;
      o ← proc_at s1 p;
      s2 ← reap_threads (reap_process nesting') (S (size (thr s1))) s1 (threads o);
      v ← release_space (vm s2) p (idle_proc s2);
      kfree_s (set_vm s2 v) p
  end.

Definition reap_thread (nesting : nat) : sched → Z → outcome sched :=
  reap_thread_with (reap_process nesting).

(** The switch of [schedule]. *)
Definition switch_thread (s : sched) : outcome sched :=
  t ← thread_at s (current_thread s);
  if negb (t_next t =? NULL) then Ok (set_running s (current_process s) (t_next t))
  else
    s' ← switch_process s;
    p ← proc_at s' (current_process s');
    Ok (set_running s' (current_process s') (threads p)).

(** The context of a thread other than the idle one is saved. *)
Definition save_context (s : sched) (ctx : cpu_context_t) : outcome sched :=
  idle ← proc_at s (idle_proc s);
  if negb (current_thread s =? threads idle) then
    t ← thread_at s (current_thread s);
    Ok (set_thread s (current_thread s) (with_context t ctx))
  else Ok s.

(** The end of [schedule]: the thread that runs next and its context. *)
Definition dispatch (s : sched) : outcome (cpu_context_t * sched) :=
  n ← thread_at s (current_thread s);
  let s1 := if decide (status n = READY)
            then set_thread s (current_thread s) (with_status n RUNNING) else s in
  c ← thread_at s1 (current_thread s1);
  Ok (context c, s1).

(** [schedule]: the context to continue with. *)
Definition schedule (nesting : nat) (s : sched) (ctx : cpu_context_t)
    : outcome (cpu_context_t * sched) :=
  s1 ← save_context s ctx;
  let prev_t := current_thread s1 in
  prev ← thread_at s1 prev_t;
  s2 ← (if decide (status prev = DEAD) then reap_thread nesting s1 prev_t
        else Ok (set_thread s1 prev_t (with_status prev READY)));
  s3 ← switch_thread s2;
  dispatch s3.

End Sched.
Arguments sched : clear implicits.
