(* ===== verification/RoundRobin.v ===== *)
(** * Round robin (schedule and create_proc of scheduler.c)

    The run queue as the list of the linked processes with their threads, an
    abstract round-robin scheduler that [schedule] refines, fairness, and the
    creation of processes. *)

From S2P Require Import Prelude Iface Pmm MmState HashMap PageMap Vmm Cpu Sched.

(** ** Linked lists of objects *)

Section Linked.
Context {A : Type} (nxt : A → Z).

(** The list [l] of objects from the pointer [p] on. *)
Fixpoint linked (m : gmap Z A) (p : Z) (l : list Z) : Prop :=
  match l with
  | [] => p = NULL
  | x :: l' => p = x ∧ x ≠ NULL ∧ ∃ o, m !! x = Some o ∧ linked m (nxt o) l'
  end.

Lemma linked_at m p l1 x l2 :
  linked m p (l1 ++ x :: l2) → x ≠ NULL ∧ ∃ o, m !! x = Some o ∧ linked m (nxt o) l2.
Proof.
  revert p. induction l1 as [|y l1 IH]; intros p; simpl; [naive_solver |].
  intros (_ & _ & o & _ & Hl). by apply IH in Hl.
Qed.

(** An update that keeps the links of the list. *)
Lemma linked_mono m m' p l :
  linked m p l →
  (∀ x o, x ∈ l → m !! x = Some o → ∃ o', m' !! x = Some o' ∧ nxt o' = nxt o) → linked m' p l.
Proof.
  revert p. induction l as [|x l IH]; intros p; simpl; [done |].
  intros (-> & Hx & o & Ho & Hl) Hm. split_and!; [done | done |].
  destruct (Hm x o) as (o' & Ho' & Hn); [by left | done |]. exists o'. split; [done |].
  rewrite Hn. apply IH; [done |]. intros y u Hy. apply Hm. by right.
Qed.

Lemma linked_insert_other m p l x o : linked m p l → x ∉ l → linked (<[x := o]> m) p l.
Proof.
  intros Hl Hx. apply (linked_mono m); [done |]. intros y u Hy Hu. exists u.
  by rewrite lookup_insert_ne by set_solver.
Qed.

Lemma linked_last m p l : linked m p l → match last l with
  | None => p = NULL
  | Some x => ∃ o, m !! x = Some o ∧ nxt o = NULL
  end.
Proof.
  intros Hl. destruct l as [|y l _] using rev_ind; [done |]. rewrite last_snoc.
  by apply linked_at in Hl as (_ & o & Ho & Hn); exists o.
Qed.

Lemma linked_head m p l : linked m p l → p = default NULL (head l).
Proof. destruct l; simpl; naive_solver. Qed.

(** Unlinking the object [x] behind [b]. *)
Lemma linked_unlink m p l1 b x l2 ob ox ob' :
  linked m p (l1 ++ b :: x :: l2) → NoDup (l1 ++ b :: x :: l2) →
  m !! b = Some ob → m !! x = Some ox → nxt ob' = nxt ox →
  linked (<[b := ob']> m) p (l1 ++ b :: l2).
Proof.
  intros Hl Hnd Hb Hx Hn. revert p Hl Hnd. induction l1 as [|y l1 IH]; intros p; simpl.
  - intros (-> & Hb0 & o & _ & _ & _ & o2 & Ho2 & Hl) [Hnb [_ _]%NoDup_cons]%NoDup_cons.
    split_and!; [done | done |]. exists ob'. split; [apply lookup_insert_eq |].
    rewrite Hn. simplify_eq. apply linked_insert_other; [done | set_solver].
  - intros (-> & Hy0 & o & Ho & Hl) [Hny Hnd]%NoDup_cons. split_and!; [done | done |]. exists o.
    split; [rewrite lookup_insert_ne; set_solver |]. by apply IH.
Qed.

Lemma linked_size m p l : linked m p l → NoDup l → (length l ≤ size m)%nat.
Proof.
  intros Hl Hnd. rewrite <- size_dom, <- (size_list_to_set (C := gset Z)) by done. apply subseteq_size.
  intros x [l1 [l2 ->]]%elem_of_list_to_set%list_elem_of_split. apply elem_of_dom.
  destruct (linked_at _ _ _ _ _ Hl) as (_ & o & Ho & _). by exists o.
Qed.

Lemma list_before_linked fuel m p l1 b x l2 :
  linked m p (l1 ++ b :: x :: l2) → NoDup (l1 ++ b :: x :: l2) → (length l1 < fuel)%nat →
  list_before nxt m fuel p x = Ok b.
Proof.
  revert p l1. induction fuel as [|fuel IH]; intros p l1 Hl Hnd Hf; [lia |].
  destruct l1 as [|y l1]; simpl in Hl; destruct Hl as (-> & _ & o & Ho & Hl); cbn [list_before];
    rewrite Ho; out_red.
  - destruct Hl as (-> & _). by rewrite Z.eqb_refl.
  - simpl in Hf, Hnd. apply NoDup_cons in Hnd as [_ Hnd]. pose proof (linked_head _ _ _ Hl) as Hh.
    rewrite (proj2 (Z.eqb_neq _ _)); [apply (IH _ l1); [done | done | lia] |].
    rewrite Hh. apply NoDup_app in Hnd as (_ & Hd & Hnd). apply NoDup_cons in Hnd as [Hb _].
    destruct l1 as [|z l1]; simpl; intros ->; [set_solver |]. apply (Hd x); set_solver.
Qed.

End Linked.

(** ** The run queue *)

(** A queue: the processes in the order of the list with their threads. *)
Abbreviation queue := (list (Z * list Z)).

(** The process and the thread of every turn of a round. *)
Fixpoint slots (q : queue) : list (Z * Z) :=
  match q with
  | [] => []
  | (p, ts) :: q' => ((p,.) <$> ts) ++ slots q'
  end.

Lemma slots_app q1 q2 : slots (q1 ++ q2) = slots q1 ++ slots q2.
Proof. induction q1 as [|[p ts] q1 IH]; simpl; [done |]. by rewrite IH, app_assoc. Qed.

Lemma elem_of_slots q p t : (p, t) ∈ slots q ↔ ∃ ts, (p, ts) ∈ q ∧ t ∈ ts.
Proof.
  induction q as [|[p' ts'] q IH]; simpl.
  - split; [by intros ?%elem_of_nil | intros (ts & ?%elem_of_nil & _); done].
  - rewrite elem_of_app, IH, list_elem_of_fmap. split.
    + intros [(t' & [= -> ->] & Ht)|(ts & Hq & Ht)]; [exists ts' | exists ts]; (split; [set_solver | done]).
    + intros (ts & [[= -> ->]|Hq]%elem_of_cons & Ht); [left; by exists t | right; by exists ts].
Qed.

Lemma slots_at q k p t : slots q !! k = Some (p, t) →
  ∃ q1 ts1 ts2 q2, q = q1 ++ (p, ts1 ++ t :: ts2) :: q2 ∧ k = (length (slots q1) + length ts1)%nat.
Proof.
  revert k. induction q as [|[p' ts] q IH]; intros k; simpl; [done |].
  intros [Hk|[Hk Hq]]%lookup_app_Some.
  - rewrite list_lookup_fmap in Hk. apply fmap_Some in Hk as (t' & Ht & [= -> ->]).
    exists [], (take k ts), (drop (S k) ts), q. simpl.
    rewrite (take_drop_middle _ _ _ Ht). split; [done |]. rewrite length_take.
    apply lookup_lt_Some in Ht. lia.
  - apply IH in Hq as (q1 & ts1 & ts2 & q2 & -> & Hl).
    exists ((p', ts) :: q1), ts1, ts2, q2. split; [done |]. simpl.
    rewrite length_app, length_fmap in *. lia.
Qed.

(** The turn after the one of [t]. *)
Definition successor (q1 : queue) (p : Z) (ts1 : list Z) (t : Z) (ts2 : list Z) (q2 : queue) : Z * Z :=
  match ts2 with
  | t' :: _ => (p, t')
  | [] => default (p, t) (head (slots (q2 ++ q1 ++ [(p, ts1 ++ [t])])))
  end.

Lemma slots_successor q1 p ts1 t ts2 q2 :
  let q := q1 ++ (p, ts1 ++ t :: ts2) :: q2 in
  let k := (length (slots q1) + length ts1)%nat in
  slots q !! (S k mod length (slots q))%nat = Some (successor q1 p ts1 t ts2 q2).
Proof.
  intros q k. set (n := length (slots q)).
  assert (slots q = (slots q1 ++ ((p,.) <$> ts1)) ++ (p, t) :: ((p,.) <$> ts2) ++ slots q2) as Hs.
  { unfold q. rewrite slots_app. simpl. rewrite fmap_app, fmap_cons. by rewrite <- !app_assoc. }
  assert (length (slots q1 ++ ((p,.) <$> ts1)) = k) as Hk by (by rewrite length_app, length_fmap).
  assert (n = (k + 1 + length ts2 + length (slots q2))%nat) as Hn.
  { unfold n. rewrite Hs, length_app, Hk. simpl. rewrite length_app, length_fmap. lia. }
  destruct ts2 as [|t' ts2]; simpl in Hs, Hn |- *.
  - destruct (slots q2) as [|x l] eqn:Hq2; simpl in Hn.
    + replace n with (S k) by lia. rewrite Nat.Div0.mod_same. unfold successor. rewrite slots_app, Hq2, slots_app, Hs. simpl.
      destruct (slots q1) as [|y l1]; [| done]. by destruct ts1.
    + rewrite Nat.mod_small by lia. unfold successor. rewrite slots_app, Hq2, Hs. simpl.
      rewrite lookup_app_r by lia. by replace (S k - _)%nat with 1%nat by lia.
  - rewrite Nat.mod_small by lia. rewrite Hs, lookup_app_r by lia.
    by replace (S k - _)%nat with 1%nat by lia.
Qed.

(** ** Round robin *)

(** The abstract scheduler: the turns of a round, whose turn it is, and the
    context every thread will continue with. *)
Record rr := Rr {
  rr_slots : list (Z * Z);
  rr_pos : nat;
  rr_ctx : gmap Z cpu_context_t;
}.

Definition rr_step (a : rr) (ctx : cpu_context_t) : option (cpu_context_t * rr) :=
  '(_, t) ← rr_slots a !! rr_pos a;
  let pos' := (S (rr_pos a) mod length (rr_slots a))%nat in
  '(_, t') ← rr_slots a !! pos';
  let m := <[t := ctx]> (rr_ctx a) in
  c ← m !! t';
  Some (c, Rr (rr_slots a) pos' m).

(** A sequence of turns: the contexts the threads are interrupted with, and the
    threads that are resumed with the context each resumes with. *)
Fixpoint rr_run (a : rr) (ctxs : list cpu_context_t) : option (list (Z * cpu_context_t) * rr) :=
  match ctxs with
  | [] => Some ([], a)
  | ctx :: ctxs' =>
      '(c, a1) ← rr_step a ctx;
      '(_, t) ← rr_slots a1 !! rr_pos a1;
      '(outs, a2) ← rr_run a1 ctxs';
      Some ((t, c) :: outs, a2)
  end.

Lemma rr_step_inv a ctx c a' : rr_step a ctx = Some (c, a') → ∃ p t p' t',
  rr_slots a !! rr_pos a = Some (p, t) ∧ rr_slots a' = rr_slots a ∧
  rr_pos a' = (S (rr_pos a) mod length (rr_slots a))%nat ∧
  rr_ctx a' = <[t := ctx]> (rr_ctx a) ∧ rr_slots a !! rr_pos a' = Some (p', t') ∧
  rr_ctx a' !! t' = Some c.
Proof.
  unfold rr_step. intros ([p t] & Hp & ([p' t'] & Hp' & (c' & Hc & [= <- <-])%bind_Some)%bind_Some)%bind_Some.
  by exists p, t, p', t'.
Qed.

(** The threads that are resumed are the ones of the following turns. *)
Lemma rr_run_turns ctxs a outs a' : (rr_pos a < length (rr_slots a))%nat →
  rr_run a ctxs = Some (outs, a') →
  rr_slots a' = rr_slots a ∧ rr_pos a' = ((rr_pos a + length ctxs) mod length (rr_slots a))%nat ∧
  length outs = length ctxs ∧
  ∀ i t, outs.*1 !! i = Some t →
    (rr_slots a).*2 !! ((rr_pos a + S i) mod length (rr_slots a))%nat = Some t.
Proof.
  revert a outs. induction ctxs as [|ctx ctxs IH]; intros a outs Hpos.
  { intros [= <- <-]. rewrite Nat.add_0_r, Nat.mod_small by done. by split_and!. }
  intros ([c a1] & Hs & ([p t] & Ht & ([outs' a2] & Hr & [= <- <-])%bind_Some)%bind_Some)%bind_Some.
  destruct (rr_step_inv _ _ _ _ Hs) as (_ & _ & p' & t' & _ & Hsl & Hp1 & _ & _ & _).
  assert (∀ i, ((rr_pos a1 + i) mod length (rr_slots a) = (rr_pos a + S i) mod length (rr_slots a))%nat) as Hmod
    by (intros i; rewrite Hp1, Nat.Div0.add_mod_idemp_l; f_equal; lia).
  destruct (IH a1 outs') as (Hsl2 & Hp2 & Hl & Ho); [rewrite Hp1, Hsl; apply Nat.mod_upper_bound; lia | done |].
  rewrite Hsl in *. split_and!.
  - done.
  - rewrite Hp2. apply Hmod.
  - simpl. by rewrite Hl.
  - intros [|i] u Hu; simpl in Hu.
    + rewrite <- Hmod, Nat.add_0_r, Hp1, Nat.Div0.mod_mod, <- Hp1, list_lookup_fmap, Ht. exact Hu.
    + rewrite <- Hmod. by apply Ho.
Qed.

(** A thread whose turn does not come keeps its context. *)
Lemma rr_run_keep ctxs a outs a' t : (rr_pos a < length (rr_slots a))%nat →
  rr_run a ctxs = Some (outs, a') →
  (∀ i, (i < length ctxs)%nat → (rr_slots a).*2 !! ((rr_pos a + i) mod length (rr_slots a))%nat ≠ Some t) →
  rr_ctx a' !! t = rr_ctx a !! t.
Proof.
  revert a outs. induction ctxs as [|ctx ctxs IH]; intros a outs Hpos; [by intros [= <- <-] |].
  intros ([c a1] & Hs & ([p u] & Ht & ([outs' a2] & Hr & [= <- <-])%bind_Some)%bind_Some)%bind_Some Hne.
  destruct (rr_step_inv _ _ _ _ Hs) as (p0 & t0 & p' & t' & Hp0 & Hsl & Hp1 & Hc1 & _ & _).
  rewrite (IH a1 outs'); [| rewrite Hp1, Hsl; apply Nat.mod_upper_bound; lia | done |].
  - rewrite Hc1. apply lookup_insert_ne. intros ->. apply (Hne 0%nat); [simpl; lia |].
    by rewrite Nat.add_0_r, Nat.mod_small, list_lookup_fmap, Hp0.
  - intros i Hi. rewrite Hp1, Hsl, Nat.Div0.add_mod_idemp_l.
    replace (S (rr_pos a) + i)%nat with (rr_pos a + S i)%nat by lia. apply Hne. simpl. lia.
Qed.

(** The last thread that is resumed is the current one, with its context. *)
Lemma rr_run_last ctxs a outs a' : ctxs ≠ [] → rr_run a ctxs = Some (outs, a') →
  ∃ p t c, last outs = Some (t, c) ∧ rr_slots a' !! rr_pos a' = Some (p, t) ∧ rr_ctx a' !! t = Some c.
Proof.
  revert a outs. induction ctxs as [|ctx ctxs IH]; intros a outs; [done |].
  intros _ ([c1 a1] & Hs & ([p u] & Ht & ([outs' a2] & Hr & [= <- <-])%bind_Some)%bind_Some)%bind_Some.
  destruct (rr_step_inv _ _ _ _ Hs) as (_ & _ & p' & t' & _ & Hsl & _ & _ & Hp' & Hc).
  destruct (decide (ctxs = [])) as [->|Hne].
  - injection Hr as <- <-. exists p, u, c1. split_and!; [done | done |]. rewrite Hsl, Hp' in Ht. by simplify_eq.
  - destruct (IH a1 outs' Hne Hr) as (p2 & t2 & c2 & Hl & Hp2 & Hc2). exists p2, t2, c2.
    split_and!; [| done | done]. by destruct outs'.
Qed.

Lemma mod_shift k d n : (k < n)%nat → (d ≤ n)%nat →
  ((k + d) mod n)%nat = if decide (k + d < n)%nat then (k + d)%nat else (k + d - n)%nat.
Proof.
  intros Hk Hd. case_decide; [by apply Nat.mod_small |].
  replace (k + d)%nat with ((k + d - n) + 1 * n)%nat at 1 by lia.
  rewrite Nat.Div0.mod_add. apply Nat.mod_small. lia.
Qed.

Lemma rotate_Permutation {A} n (l : list A) : rotate n l ≡ₚ l.
Proof. unfold rotate. by rewrite (Permutation_app_comm (drop _ _)), take_drop. Qed.

(** A round resumes the threads of the queue in order. *)
Lemma rr_round_order ctxs a outs a' : (rr_pos a < length (rr_slots a))%nat →
  length ctxs = length (rr_slots a) → rr_run a ctxs = Some (outs, a') →
  outs.*1 = rotate (S (rr_pos a)) (rr_slots a).*2.
Proof.
  intros Hpos Hlen Hr. destruct (rr_run_turns _ _ _ _ Hpos Hr) as (_ & _ & Hlo & Ho).
  apply (list_eq_same_length _ _ (length (rr_slots a))).
  - by rewrite length_rotate, length_fmap.
  - by rewrite length_fmap, Hlo.
  - intros i x y Hi Hx Hy. apply Ho in Hx.
    rewrite lookup_rotate_r in Hy by (by rewrite length_fmap). unfold rotate_nat_add in Hy.
    rewrite <- Nat2Z.inj_add, <- Nat2Z.inj_mod, Nat2Z.id, length_fmap in Hy.
    rewrite <- Nat.add_succ_comm in Hx. congruence.
Qed.

(** A round: every thread is resumed once, the one that was interrupted first
    at the end, with the context it was interrupted with. *)
Lemma rr_round ctxs a outs a' p t :
  NoDup (rr_slots a).*2 → rr_slots a !! rr_pos a = Some (p, t) →
  length ctxs = length (rr_slots a) → rr_run a ctxs = Some (outs, a') →
  outs.*1 = rotate (S (rr_pos a)) (rr_slots a).*2 ∧ rr_pos a' = rr_pos a ∧
  ∃ c, head ctxs = Some c ∧ rr_ctx a' !! t = Some c.
Proof.
  intros Hnd Hp Hlen Hr. assert (rr_pos a < length (rr_slots a))%nat as Hpos by (by eapply lookup_lt_Some).
  destruct (rr_run_turns _ _ _ _ Hpos Hr) as (Hsl & Hp' & Hlo & Ho).
  split_and!; [by apply (rr_round_order ctxs a outs a') | |].
  { rewrite Hp', Hlen, mod_shift, decide_False by lia. lia. }
  destruct ctxs as [|c ctxs]; simpl in Hlen; [lia |]. exists c. split; [done |].
  apply bind_Some in Hr as ([c1 a1] & Hs & ([p1 u] & Ht & ([outs' a2] & Hr & [= <- <-])%bind_Some)%bind_Some).
  destruct (rr_step_inv _ _ _ _ Hs) as (p0 & t0 & p' & t' & Hp0 & Hsl1 & Hp1 & Hc1 & _ & _).
  rewrite Hp in Hp0. injection Hp0 as <- <-.
  rewrite (rr_run_keep ctxs a1 outs' a2), Hc1; [apply lookup_insert_eq | | done |].
  { rewrite Hp1, Hsl1. apply Nat.mod_upper_bound. lia. }
  intros i Hi Hx. rewrite Hp1, Hsl1, Nat.Div0.add_mod_idemp_l in Hx.
  assert ((rr_slots a).*2 !! rr_pos a = Some t) as Hy by (by rewrite list_lookup_fmap, Hp).
  pose proof (NoDup_lookup _ _ _ _ Hnd Hx Hy) as E.
  replace (S (rr_pos a) + i)%nat with (rr_pos a + S i)%nat in E by lia.
  rewrite mod_shift in E by lia. case_decide; lia.
Qed.

Section RoundRobin.
Context {F H : Type} `{FrameAlloc F} `{HeapAlloc H}.
Local Abbreviation state := (sched F H).

(** The objects that [s] links from [head_proc] on are the queue [q]. *)
Record queue_ok (s : state) (q : queue) : Prop := {
  q_procs : linked p_next (prc s) (head_proc s) q.*1;
  q_threads : ∀ p ts, (p, ts) ∈ q →
    ts ≠ [] ∧ ∃ o, prc s !! p = Some o ∧ linked t_next (thr s) (threads o) ts;
  q_parent : ∀ p t, (p, t) ∈ slots q → ∃ o, thr s !! t = Some o ∧ parent o = p;
  q_distinct : NoDup q.*1;
  q_nodup : NoDup (slots q).*2;
}.

(** The address spaces of the processes [ps] can be switched to. *)
Definition spaces_ok (v : mm F H) (ps : list Z) : Prop :=
  ∀ p, p ∈ ps → ∃ pml4t t, pml4ts v !! vmm_of p = Some pml4t ∧ get_ptbl_vaddr v pml4t = Ok t.

(** The idle process and its thread are not in the queue. *)
Definition idle_apart (s : state) (q : queue) : Prop :=
  ∃ o, prc s !! idle_proc s = Some o ∧ threads o ∉ (slots q).*2.

(** [s] is a running scheduler with the queue [q], at the abstract state [a]. *)
Record sched_rel (q : queue) (s : state) (a : rr) : Prop := {
  sr_queue : queue_ok s q;
  sr_slots : rr_slots a = slots q;
  sr_pos : slots q !! rr_pos a = Some (current_process s, current_thread s);
  sr_ctx : ∀ p t, (p, t) ∈ slots q → context <$> thr s !! t = rr_ctx a !! t;
  sr_status : ∀ p t o, (p, t) ∈ slots q → thr s !! t = Some o →
    status o ≠ DEAD ∧ (status o = RUNNING → t = current_thread s);
  sr_idle : idle_apart s q;
  sr_spaces : spaces_ok (vm s) q.*1;
  sr_space : current_vmm (vm s) = vmm_of (current_process s);
}.

Lemma switch_thread_next (s : state) o :
  thr s !! current_thread s = Some o → t_next o ≠ NULL →
  switch_thread s = Ok (set_running s (current_process s) (t_next o)).
Proof. intros Ho Hn. unfold switch_thread, thread_at. rewrite Ho. out_red. by rewrite (proj2 (Z.eqb_neq _ _)). Qed.

(** The process that [switch_process] goes to. *)
Definition next_proc (s : state) (p' : Z) : Prop :=
  (head_proc s = NULL ∧ p' = idle_proc s) ∨
  (head_proc s ≠ NULL ∧ ∃ op, prc s !! current_process s = Some op ∧
    p' = if p_next op =? NULL then head_proc s else p_next op).

Lemma switch_thread_wrap (s : state) o p' o' ps :
  thr s !! current_thread s = Some o → t_next o = NULL → next_proc s p' → prc s !! p' = Some o' →
  spaces_ok (vm s) ps → p' ∈ ps →
  ∃ c r, switch_thread s =
    Ok (set_vm (set_running s p' (threads o')) (set_current (vm s) c r (vmm_of p'))).
Proof.
  intros Ho Hn Hp' Ho' Hs Hin. destruct (Hs p' Hin) as (c & r & Hc & Hr). exists c, r.
  assert (switch_process s = Ok (set_vm (set_running s p' (current_thread s))
    (set_current (vm s) c r (vmm_of p')))) as Hsw.
  { unfold switch_process, proc_at. destruct Hp' as [[Hh ->]|(Hh & op & Hop & ->)].
    - rewrite Hh, Z.eqb_refl. cbn [negb]. out_red. unfold switch_vm_space. simpl. rewrite Hc.
      out_red. by rewrite Hr.
    - rewrite (proj2 (Z.eqb_neq (head_proc s) _)) by done. cbn [negb]. rewrite Hop. out_red.
      unfold switch_vm_space. simpl. rewrite Hc. out_red. by rewrite Hr. }
  unfold switch_thread, thread_at, proc_at. rewrite Ho. out_red. rewrite Hn, Z.eqb_refl. cbn [negb].
  rewrite Hsw. out_red. simpl. by rewrite Ho'.
Qed.

(** The process that follows the one of [q1 ++ (p, ts) :: q2] in the round. *)
Lemma next_process (s : state) q1 p ts q2 :
  let q := q1 ++ (p, ts) :: q2 in
  queue_ok s q → head_proc s ≠ NULL ∧ ∃ op p' t' ts' w, prc s !! p = Some op ∧
    p' = (if p_next op =? NULL then head_proc s else p_next op) ∧
    (p', t' :: ts') ∈ q ∧ q2 ++ q1 ++ [(p, ts)] = (p', t' :: ts') :: w.
Proof.
  intros q [Hp Ht _ _ _].
  assert (∀ p' ts', (p', ts') ∈ q → ∃ t' l, ts' = t' :: l) as Hne.
  { intros p' ts' Hin. destruct (Ht p' ts' Hin) as [Hne _]. destruct ts' as [|t' l]; [done | by exists t', l]. }
  unfold q in Hp. rewrite fmap_app, fmap_cons in Hp. simpl in Hp.
  destruct (linked_at _ _ _ _ _ _ Hp) as (Hp0 & op & Hop & Hl).
  pose proof (linked_head _ _ _ _ Hl) as Hn. pose proof (linked_head _ _ _ _ Hp) as Hh. split.
  { rewrite Hh. destruct q1 as [|[x l] q1]; simpl in Hp |- *; naive_solver. }
  exists op. destruct q2 as [|[p' l] q2]; simpl in Hn |- *.
  - rewrite Hn, Z.eqb_refl. destruct q1 as [|[p' l] q1]; simpl in Hh |- *.
    + destruct (Hne p ts) as (t' & l' & ->); [by left |]. exists p, t', l', []. by split_and!; [| | left |].
    + destruct (Hne p' l) as (t' & l' & ->); [by left |]. eexists p', t', l', _. by split_and!; [| | left |].
  - assert ((p', l) ∈ q) as Hin by (apply elem_of_app; right; right; by left).
    destruct (Hne p' l Hin) as (t' & l' & ->). eexists p', t', l', _.
    simpl in Hl. destruct Hl as (-> & Hz & _). by rewrite (proj2 (Z.eqb_neq _ _)).
Qed.

Lemma get_loop_same fuel (v v' : mm F H) b k :
  pt_nodes v' = pt_nodes v → get_loop fuel v' b k = get_loop fuel v b k.
Proof.
  intros Hn. revert b. induction fuel as [|fuel IH]; intros b; [done |]. simpl.
  destruct (b =? NULL); [done |]. unfold node_at. rewrite Hn. destruct (pt_nodes v !! b); [| done].
  out_step. by rewrite IH.
Qed.

Lemma spaces_ok_same (v v' : mm F H) ps :
  pt_nodes v' = pt_nodes v → vmm_hashmap v' = vmm_hashmap v → pml4ts v' = pml4ts v →
  spaces_ok v ps → spaces_ok v' ps.
Proof.
  intros Hn Hm Hp Hs p Hin. destruct (Hs p Hin) as (c & r & Hc & Hr). exists c, r. rewrite Hp.
  split; [done |]. rewrite <- Hr. unfold get_ptbl_vaddr, bucket, chain_fuel. rewrite Hm, Hn.
  destruct (vmm_hashmap v) as [l|]; [| done]. destruct (l !! Z.to_nat (hash_function c)); [| done]. out_red. by apply get_loop_same.
Qed.

(** The switch goes to the successor. *)
Lemma switch_thread_successor (s : state) q1 p ts1 t ts2 q2 :
  let q := q1 ++ (p, ts1 ++ t :: ts2) :: q2 in
  queue_ok s q → spaces_ok (vm s) q.*1 → current_process s = p → current_thread s = t →
  current_vmm (vm s) = vmm_of p →
  ∃ v p' t', switch_thread s = Ok (set_vm (set_running s p' t') v) ∧
    successor q1 p ts1 t ts2 q2 = (p', t') ∧ current_vmm v = vmm_of p' ∧ spaces_ok v q.*1.
Proof.
  intros q Hq Hs <- <- Hv.
  destruct (q_threads _ _ Hq (current_process s) (ts1 ++ current_thread s :: ts2)) as (_ & op & Hop & Hl).
  { apply elem_of_app. right. by left. }
  destruct (linked_at _ _ _ _ _ _ Hl) as (_ & o & Ho & Hl2). destruct ts2 as [|t' ts2].
  - destruct (next_process s q1 (current_process s) (ts1 ++ [current_thread s]) q2 Hq)
      as (Hh & op' & p' & t' & ts' & w & Hop' & Hp' & Hin & Hw). simplify_eq.
    destruct (q_threads _ _ Hq _ _ Hin) as (_ & o' & Ho' & Hl').
    destruct (switch_thread_wrap s o (if p_next op =? NULL then head_proc s else p_next op) o' q.*1)
      as (c & r & Hsw); try done.
    { right. by split; [| exists op]. }
    { apply list_elem_of_fmap. eexists (_, t' :: ts'). by split. }
    eexists _, _, t'. split_and!.
    + rewrite Hsw. by rewrite (linked_head _ _ _ _ Hl').
    + unfold successor. by rewrite Hw.
    + done.
    + by apply (spaces_ok_same (vm s)).
  - exists (vm s), (current_process s), t'. destruct Hl2 as (Hn & Hn0 & _).
    split_and!; [| done | done | done]. rewrite (switch_thread_next s o), Hn; [by destruct s | done | by rewrite Hn].
Qed.

(** Updates of threads that keep the links and the parents. *)
Lemma queue_ok_threads (s s' : state) q :
  queue_ok s q → prc s' = prc s → head_proc s' = head_proc s →
  (∀ t o, thr s !! t = Some o → ∃ o', thr s' !! t = Some o' ∧ t_next o' = t_next o ∧ parent o' = parent o) →
  queue_ok s' q.
Proof.
  intros [Hp Ht Hpa Hd Hn] Heq Hh Hm. split; [by rewrite Heq, Hh | | | done | done].
  - intros p ts Hin. destruct (Ht p ts Hin) as (Hne & o & Ho & Hl). rewrite Heq. split; [done |].
    exists o. split; [done |]. apply (linked_mono _ _ _ _ _ Hl). intros x u _ Hu.
    destruct (Hm x u Hu) as (u' & Hu' & Hnx & _). by exists u'.
  - intros p t Hin. destruct (Hpa p t Hin) as (o & Ho & Hpar).
    destruct (Hm t o Ho) as (o' & Ho' & _ & Hp'). exists o'. by rewrite Hp'.
Qed.

Lemma slots_thread_inj q k1 k2 p1 p2 t :
  NoDup (slots q).*2 → slots q !! k1 = Some (p1, t) → slots q !! k2 = Some (p2, t) → k1 = k2.
Proof.
  intros Hn Hk1 Hk2. apply (NoDup_lookup _ _ _ t Hn); by rewrite list_lookup_fmap, ?Hk1, ?Hk2.
Qed.

(** [s] with the context of the current thread saved and its status [READY]. *)
Definition preempted (s : state) (o : thread_t) (ctx : cpu_context_t) : state :=
  set_thread s (current_thread s) (with_status (with_context o ctx) READY).

Lemma schedule_alive nesting q (s : state) o ctx :
  idle_apart s q → current_thread s ∈ (slots q).*2 → thr s !! current_thread s = Some o →
  status o ≠ DEAD → schedule nesting s ctx = (s3 ← switch_thread (preempted s o ctx); dispatch s3).
Proof.
  intros (idle & Hidle & Hnotin) Hin Ho Hd. unfold schedule, save_context, proc_at, thread_at.
  rewrite Hidle. out_red. rewrite (proj2 (Z.eqb_neq _ _)) by (by intros E; rewrite E in Hin).
  cbn [negb]. rewrite Ho. out_red.
  assert (∀ u, thr (set_thread s (current_thread s) u) !! current_thread (set_thread s (current_thread s) u) = Some u) as Hlk
    by (intros u; apply lookup_insert_eq).
  rewrite Hlk. out_red. rewrite decide_False by done.
  assert (set_thread (set_thread s (current_thread s) (with_context o ctx)) (current_thread s)
    (with_status (with_context o ctx) READY) = preempted s o ctx) as <-; [| done].
  unfold set_thread. simpl. by rewrite insert_insert_eq.
Qed.

Lemma dispatch_ready (s : state) o :
  thr s !! current_thread s = Some o → status o = READY →
  dispatch s = Ok (context o, set_thread s (current_thread s) (with_status o RUNNING)).
Proof.
  intros Ho Hr. unfold dispatch, thread_at. rewrite Ho. out_red. rewrite decide_True by done.
  simpl. by rewrite lookup_insert_eq.
Qed.

(** Before the switch: no thread runs, and the abstract scheduler has the
    context that was saved. *)
Lemma preempted_rel q (s : state) a o ctx :
  sched_rel q s a → thr s !! current_thread s = Some o →
  queue_ok (preempted s o ctx) q ∧
  (∀ p t u, (p, t) ∈ slots q → thr (preempted s o ctx) !! t = Some u → status u = READY) ∧
  (∀ p t, (p, t) ∈ slots q →
    context <$> thr (preempted s o ctx) !! t = <[current_thread s := ctx]> (rr_ctx a) !! t).
Proof.
  intros [Hq _ _ Hctx Hst _ _ _] Ho. split_and!.
  - apply (queue_ok_threads s); try done. intros t u Hu. simpl.
    destruct (decide (t = current_thread s)) as [->|].
    + rewrite lookup_insert_eq. eexists. split; [done |]. by simplify_eq.
    + rewrite lookup_insert_ne by done. by exists u.
  - intros p t u Hin Hu. simpl in Hu. apply lookup_insert_Some in Hu as [[_ <-]|[Hne Hu]]; [done |].
    destruct (Hst _ _ _ Hin Hu) as [Hd Hr]. destruct (status u); [done | | done]. by destruct Hne; rewrite Hr.
  - intros p t Hin. simpl. destruct (decide (t = current_thread s)) as [->|].
    + by rewrite !lookup_insert_eq.
    + rewrite !lookup_insert_ne by done. by apply (Hctx p).
Qed.

(** After the switch: the thread [t'] is marked as running. *)
Lemma dispatched_rel q (s : state) a m o' :
  queue_ok s q → slots q !! rr_pos a = Some (current_process s, current_thread s) →
  rr_slots a = slots q → idle_apart s q → spaces_ok (vm s) q.*1 →
  current_vmm (vm s) = vmm_of (current_process s) → m = rr_ctx a →
  (∀ p t u, (p, t) ∈ slots q → thr s !! t = Some u → status u = READY) →
  (∀ p t, (p, t) ∈ slots q → context <$> thr s !! t = m !! t) →
  thr s !! current_thread s = Some o' →
  sched_rel q (set_thread s (current_thread s) (with_status o' RUNNING)) a.
Proof.
  intros Hq Hpos Hsl Hidle Hspc Hsp -> Hst Hctx Ho. split; try done.
  - apply (queue_ok_threads s); try done. intros t u Hu. simpl.
    destruct (decide (t = current_thread s)) as [->|]; [| rewrite lookup_insert_ne by done; by exists u].
    rewrite lookup_insert_eq. eexists. split; [done |]. by simplify_eq.
  - intros p t Hin. rewrite <- (Hctx p) by done. simpl. destruct (decide (t = current_thread s)) as [->|].
    + by rewrite lookup_insert_eq, Ho.
    + by rewrite lookup_insert_ne.
  - intros p t u Hin Hu. simpl in Hu. apply lookup_insert_Some in Hu as [[<- <-]|[Hne Hu]]; [done |].
    by rewrite (Hst _ _ _ Hin Hu).
Qed.

Lemma sched_rel_current q (s : state) a :
  sched_rel q s a → (current_process s, current_thread s) ∈ slots q ∧
  current_thread s ∈ (slots q).*2 ∧ ∃ o, thr s !! current_thread s = Some o ∧ status o ≠ DEAD.
Proof.
  intros [Hq _ Hpos _ Hst _ _ _]. assert ((current_process s, current_thread s) ∈ slots q) as Hin
    by (by eapply list_elem_of_lookup_2). split_and!; [done | |].
  - by apply (list_elem_of_fmap_2' _ _ (current_process s, current_thread s)).
  - destruct (q_parent _ _ Hq _ _ Hin) as (o & Ho & _). exists o. split; [done |].
    by apply (Hst _ _ _ Hin Ho).
Qed.

(** One call of [schedule] is one turn of the abstract scheduler. *)
Lemma schedule_step nesting q (s : state) a ctx :
  sched_rel q s a → ∃ ctx' a' s', rr_step a ctx = Some (ctx', a') ∧
    schedule nesting s ctx = Ok (ctx', s') ∧ sched_rel q s' a' ∧
    status <$> thr s' !! current_thread s' = Some RUNNING.
Proof.
  intros Hrel. destruct (sched_rel_current _ _ _ Hrel) as (Hin & Hin2 & o & Ho & Hd).
  destruct (preempted_rel q s a o ctx Hrel Ho) as (Hq & Hst & Hctx).
  pose proof Hrel as [_ Hsl Hpos _ _ Hidle Hspc Hsp]. set (s2 := preempted s o ctx) in *.
  destruct (slots_at _ _ _ _ Hpos) as (q1 & ts1 & ts2 & q2 & Heq & Hk).
  destruct (switch_thread_successor s2 q1 (current_process s) ts1 (current_thread s) ts2 q2)
    as (v & p' & t' & Hsw & Hsucc & Hv & Hspv); [by rewrite <- Heq | by rewrite <- Heq | done | done | done |].
  pose proof (slots_successor q1 (current_process s) ts1 (current_thread s) ts2 q2) as Hnext.
  cbv zeta in Hnext. rewrite <- Heq, <- Hk, Hsucc in Hnext. rewrite <- Heq in Hspv.
  set (s3 := set_vm (set_running s2 p' t') v) in *.
  assert ((p', t') ∈ slots q) as Hin' by (by eapply list_elem_of_lookup_2).
  destruct (q_parent _ _ Hq _ _ Hin') as (o' & Ho' & _).
  exists (context o'), (Rr (slots q) (S (rr_pos a) mod length (slots q)) (<[current_thread s := ctx]> (rr_ctx a))),
    (set_thread s3 t' (with_status o' RUNNING)).
  split_and!.
  - unfold rr_step. rewrite Hsl, Hpos. simpl. rewrite Hnext. simpl. by rewrite <- (Hctx p'), Ho'.
  - rewrite (schedule_alive nesting q s o) by done. fold s2. rewrite Hsw. out_red.
    apply dispatch_ready; [done | by eapply Hst].
  - by apply (dispatched_rel q s3 (Rr _ _ _) (<[current_thread s := ctx]> (rr_ctx a)));
      [apply (queue_ok_threads s2); try done; eauto |..].
  - simpl. by rewrite lookup_insert_eq.
Qed.

(** The calls of [schedule] by one interrupt after the other, with what they
    resume. *)
Fixpoint run_schedule (nesting : nat) (s : state) (ctxs : list cpu_context_t)
    : outcome (list (Z * cpu_context_t) * state) :=
  match ctxs with
  | [] => Ok ([], s)
  | ctx :: ctxs' =>
      '(c, s1) ← schedule nesting s ctx;
      '(outs, s2) ← run_schedule nesting s1 ctxs';
      Ok ((current_thread s1, c) :: outs, s2)
  end.

Lemma run_simulates nesting q (s : state) a ctxs :
  sched_rel q s a → ∃ outs a' s', rr_run a ctxs = Some (outs, a') ∧
    run_schedule nesting s ctxs = Ok (outs, s') ∧ sched_rel q s' a'.
Proof.
  revert s a. induction ctxs as [|ctx ctxs IH]; intros s a Hrel; [by exists [], a, s |].
  destruct (schedule_step nesting q s a ctx Hrel) as (c & a1 & s1 & Hs & Hm & Hrel1 & _).
  destruct (IH s1 a1 Hrel1) as (outs & a2 & s2 & Hr & Hm2 & Hrel2).
  exists ((current_thread s1, c) :: outs), a2, s2. split_and!; [| | done].
  - simpl. rewrite Hs. simpl. rewrite (sr_slots _ _ _ Hrel1), (sr_pos _ _ _ Hrel1). simpl. by rewrite Hr.
  - simpl. rewrite Hm. out_red. by rewrite Hm2.
Qed.

(** [C4] Over any sequence of interrupts without dead threads, schedule
    resumes the same threads with the same contexts as the abstract round-
    robin scheduler, and the run queue stays well formed. *)
Theorem schedule_refines nesting q (s : state) a ctxs :
  sched_rel q s a → ∃ outs a' s', rr_run a ctxs = Some (outs, a') ∧
    run_schedule nesting s ctxs = Ok (outs, s') ∧ sched_rel q s' a'.
Proof. apply run_simulates. Qed.

(** [C9] A round of as many interrupts as there are threads resumes every
    thread exactly once and ends with the thread that was interrupted first,
    which continues with the context it was interrupted with. *)
Theorem schedule_fair nesting q (s : state) a ctxs :
  sched_rel q s a → length ctxs = length (slots q) →
  ∃ outs s', run_schedule nesting s ctxs = Ok (outs, s') ∧
    outs.*1 ≡ₚ (slots q).*2 ∧ NoDup outs.*1 ∧ current_thread s' = current_thread s ∧
    ∃ c o, head ctxs = Some c ∧ thr s' !! current_thread s = Some o ∧ context o = c ∧
      last outs = Some (current_thread s, c).
Proof.
  intros Hrel Hlen. destruct (run_simulates nesting q s a ctxs Hrel) as (outs & a' & s' & Hr & Hm & Hrel').
  pose proof (sr_slots _ _ _ Hrel) as Hsl. pose proof (sr_pos _ _ _ Hrel) as Hpos.
  pose proof (q_nodup _ _ (sr_queue _ _ _ Hrel)) as Hnd. rewrite <- Hsl in Hpos, Hnd, Hlen.
  destruct (rr_round ctxs a outs a' _ _ Hnd Hpos Hlen Hr) as (Hrot & Hp' & c & Hc & Hctx).
  pose proof (sr_pos _ _ _ Hrel') as Hpos'. rewrite Hp', <- Hsl, Hpos in Hpos'. injection Hpos' as _ Hcur.
  exists outs, s'. rewrite <- Hsl. split_and!; [done | | | done |].
  - rewrite Hrot. apply rotate_Permutation.
  - rewrite Hrot. by rewrite rotate_Permutation.
  - destruct (sched_rel_current _ _ _ Hrel') as (Hin & _ & o & Ho & _). rewrite <- Hcur in Ho.
    exists c, o. pose proof (sr_ctx _ _ _ Hrel' _ _ Hin) as Hco. rewrite <- Hcur, Hctx, Ho in Hco.
    injection Hco as Hco. split_and!; [done | done | done |].
    destruct (rr_run_last ctxs a outs a') as (p & t & c' & Hl & Ht & Hc'); [by destruct ctxs | done |].
    rewrite Hp', (sr_slots _ _ _ Hrel'), <- Hsl, Hpos in Ht. injection Ht as <- <-.
    rewrite Hl. congruence.
Qed.

End RoundRobin.

(** ** New processes *)

Section NewProcess.
Context {F H : Type} `{FrameAlloc F} `{HeapAlloc H} (sym : symbols) (depth : nat) (uninit : Z).
Local Abbreviation state := (sched F H).

(** The objects of the queue are live blocks of the heap. *)
Definition queue_live (s : state) (q : queue) : Prop :=
  Forall (ha_live (kheap (vm s))) (q.*1 ++ (slots q).*2).

(** The process [p] with the single thread [t], which is not in the queue yet. *)
Lemma queue_ok_push (s s' : state) q p t o ot :
  queue_ok s q → p ∉ q.*1 → t ∉ (slots q).*2 → p ≠ NULL → t ≠ NULL →
  prc s' = <[p := o]> (prc s) → thr s' = <[t := ot]> (thr s) → head_proc s' = p →
  p_next o = head_proc s → threads o = t → t_next ot = NULL → parent ot = p →
  queue_ok s' ((p, [t]) :: q).
Proof.
  intros [Hp Ht Hpa Hd Hn] Hpq Htq Hp0 Ht0 Eprc Ethr Ehead Hnx Hth Htn Hpar. split.
  - simpl. split_and!; [done | done |]. exists o. rewrite Eprc, lookup_insert_eq. split; [done |].
    rewrite Hnx. by apply linked_insert_other.
  - intros p' ts [[= -> ->]|Hin]%elem_of_cons.
    + split; [done |]. exists o. rewrite Eprc, lookup_insert_eq. split; [done |]. simpl.
      split_and!; [done | done |]. exists ot. by rewrite Ethr, lookup_insert_eq.
    + destruct (Ht _ _ Hin) as (Hne & o' & Ho' & Hl). split; [done |]. exists o'.
      rewrite Eprc, lookup_insert_ne. 2:{ intros ->. apply Hpq. by apply (list_elem_of_fmap_2' _ _ (p', ts)). }
      split; [done |]. rewrite Ethr. apply linked_insert_other; [done |]. intros Htin. apply Htq.
      apply (list_elem_of_fmap_2' _ _ (p', t)); [| done]. apply elem_of_slots. by exists ts.
  - intros p' t'. simpl. intros [[= -> ->]|Hin]%elem_of_cons.
    + exists ot. by rewrite Ethr, lookup_insert_eq.
    + destruct (Hpa _ _ Hin) as (o' & Ho' & Hp'). exists o'. rewrite Ethr, lookup_insert_ne; [done |].
      intros ->. apply Htq. by apply (list_elem_of_fmap_2' _ _ (p', t')).
  - simpl. by constructor.
  - simpl. by constructor.
Qed.

(** The stack of the first thread of [p], created while [cur] runs. *)
Definition first_stack (v : mm F H) (p cur ksp : Z) (is_user : bool) : outcome (Z * mm F H) :=
  if is_user then alloc_user_stack sym depth uninit v USER_STACK_START (vmm_of p) (vmm_of cur)
  else alloc_kernel_stack sym depth uninit v ksp.

(** The first thread of a process. *)
Lemma create_thread_first (s : state) p o name wrapper func func_arg is_user t v3 stk v4 :
  prc s !! p = Some o → threads o = NULL →
  kmalloc_mm (vm s) SIZEOF_THREAD_T = Ok (t, v3) →
  first_stack v3 p (current_process s) (kernel_stack_ptr s) is_user = Ok (stk, v4) →
  create_thread sym depth uninit s p name wrapper func func_arg is_user =
    Ok (t, replicate 10 0 ++ drop 10 name,
        Sched v4 (<[t := Thread (next_tid s) p (new_context wrapper func func_arg stk is_user) stk READY
                     (replicate 10 0) NULL]> (thr s)) (<[p := with_threads o t]> (prc s))
          (idle_proc s) (head_proc s) (current_process s) (current_thread s)
          (u64 (next_tid s + 1)) (next_pid s) (if is_user then kernel_stack_ptr s else stk)).
Proof.
  intros Ho Hth Hk Hs. unfold create_thread. rewrite Hk. out_red. unfold proc_at, thread_at.
  simpl prc. rewrite Ho. out_red. rewrite Hth, Z.eqb_refl. cbn [negb]. simpl thr.
  rewrite lookup_insert_eq. out_red. simpl. unfold first_stack in Hs.
  destruct is_user; rewrite Hs; out_red; simpl; rewrite lookup_insert_eq; out_red; simpl;
    unfold set_thread, set_thr; simpl; by rewrite !insert_insert_eq.
Qed.

Lemma create_proc_queue (s : state) q wrapper func func_arg is_user space p v1 t v3 stk v4 :
  let v2 := set_pml4ts (set_obj v1 (vmm_of p) space.1) (<[vmm_of p := space.2]> (pml4ts v1)) in
  let ot := Thread (next_tid s) p (new_context wrapper func func_arg stk is_user) stk READY
              (replicate 10 0) NULL in
  queue_ok s q → queue_live s q → ha_inv (kheap (vm s)) →
  kmalloc_mm (vm s) SIZEOF_PROCESS_T = Ok (p, v1) → kmalloc_mm v2 SIZEOF_THREAD_T = Ok (t, v3) →
  first_stack v3 p (current_process s) (kernel_stack_ptr s) is_user = Ok (stk, v4) →
  ∃ s', create_proc sym depth uninit s wrapper func func_arg space true is_user = Ok (p, s') ∧
    queue_ok s' ((p, [t]) :: q) ∧ thr s' = <[t := ot]> (thr s) ∧ vm s' = v4 ∧
    current_process s' = current_process s ∧ current_thread s' = current_thread s ∧
    next_tid s' = u64 (next_tid s + 1) ∧ next_pid s' = u64 (next_pid s + 1) ∧
    option_map pid (prc s' !! p) = Some (next_pid s) ∧ ∀ p', p' ≠ p → prc s' !! p' = prc s !! p'.
Proof.
  intros v2 ot Hq Hlive Hi Hp Ht Hstk. apply Forall_app in Hlive as [Hlp Hlt].
  pose proof Hp as Hp1. pose proof Ht as Ht1. unfold kmalloc_mm in Hp1, Ht1.
  apply bind_Ok in Hp1 as ([p' h1] & Ha1 & [= -> <-]). apply bind_Ok in Ht1 as ([t' h2] & Ha2 & [= -> <-]).
  assert (5 ≤ SIZEOF_PROCESS_T ∧ 5 ≤ SIZEOF_THREAD_T) as [H5 H5'] by done.
  destruct (ha_alloc_spec _ _ _ _ Hi H5 Ha1) as (Hi1 & Hp0 & Hpl & Hl1).
  destruct (ha_alloc_spec _ _ _ _ Hi1 H5' Ha2) as (_ & Ht0 & Htl & _).
  assert (p ∉ q.*1) as Hpq by (intros Hin; apply Hpl; by rewrite Forall_forall in Hlp; apply Hlp).
  assert (t ∉ (slots q).*2) as Htq
    by (intros Hin; apply Htl, Hl1; right; by rewrite Forall_forall in Hlt; apply Hlt).
  unfold create_proc. rewrite Hp. out_red. simpl vm.
  erewrite create_thread_first; [| simpl; apply lookup_insert_eq | done | exact Ht | exact Hstk].
  out_red. unfold proc_at. simpl prc. rewrite lookup_insert_eq. out_red. simpl.
  eexists. split; [done |]. split_and!; try done.
  - apply (queue_ok_push s _ q p t (Process (next_pid s) t (p_name zero_process)
      (resource_table zero_process) (head_proc s)) ot Hq Hpq Htq); try done.
    + unfold NULL. lia.
    + unfold NULL. lia.
    + simpl. rewrite !insert_insert_eq. unfold with_p_next. simpl.
      by destruct (head_proc s =? NULL) eqn:E; zbool; [rewrite E |].
  - simpl. by rewrite lookup_insert_eq.
  - intros p' Hne. simpl. by rewrite !lookup_insert_ne.
Qed.

(** [C31] create_proc puts a new process in front of the queue, with one ready
    thread that starts in the wrapper on its own stack, and changes no other
    process or thread. *)
Theorem create_proc_enqueues (s : state) q wrapper func func_arg is_user space p v1 t v3 stk v4 :
  let v2 := set_pml4ts (set_obj v1 (vmm_of p) space.1) (<[vmm_of p := space.2]> (pml4ts v1)) in
  let ot := Thread (next_tid s) p (new_context wrapper func func_arg stk is_user) stk READY
              (replicate 10 0) NULL in
  queue_ok s q → queue_live s q → ha_inv (kheap (vm s)) →
  kmalloc_mm (vm s) SIZEOF_PROCESS_T = Ok (p, v1) → kmalloc_mm v2 SIZEOF_THREAD_T = Ok (t, v3) →
  first_stack v3 p (current_process s) (kernel_stack_ptr s) is_user = Ok (stk, v4) →
  ∃ s', create_proc sym depth uninit s wrapper func func_arg space true is_user = Ok (p, s') ∧
    queue_ok s' ((p, [t]) :: q) ∧ thr s' = <[t := ot]> (thr s) ∧ vm s' = v4 ∧
    current_process s' = current_process s ∧ current_thread s' = current_thread s ∧
    next_tid s' = u64 (next_tid s + 1) ∧ next_pid s' = u64 (next_pid s + 1) ∧
    option_map pid (prc s' !! p) = Some (next_pid s) ∧ ∀ p', p' ≠ p → prc s' !! p' = prc s !! p'.
Proof. apply create_proc_queue. Qed.

End NewProcess.
