(* ===== verification/Reap.v ===== *)
(** * Dead threads and processes (reap_thread and reap_process of scheduler.c)

    What [schedule] does when the interrupted thread is dead: the thread, and
    the process with its last thread, leave the queue, and the switch goes on
    from the links of the freed objects. *)

From S2P Require Import Prelude Iface Pmm MmState HashMap PageMap Vmm Cpu Sched RoundRobin.

Abbreviation queue := (list (Z * list Z)).

Section Reap.
Context {F H : Type} `{FrameAlloc F} `{HeapAlloc H}.
Local Abbreviation state := (sched F H).

Lemma slots_threads q1 p ts q2 :
  (slots (q1 ++ (p, ts) :: q2)).*2 = (slots q1).*2 ++ ts ++ (slots q2).*2.
Proof.
  rewrite slots_app. simpl. rewrite !fmap_app, <- list_fmap_compose. do 2 f_equal. apply list_fmap_id.
Qed.

(** [s'] has the threads of [s], but for the links of the ones in [ts]. *)
Record relinked (ts : list Z) (s s' : state) : Prop := {
  rl_vm : vm s' = vm s;
  rl_running : current_process s' = current_process s ∧ current_thread s' = current_thread s;
  rl_idle : idle_proc s' = idle_proc s;
  rl_threads : ∀ x u, thr s !! x = Some u → ∃ n, thr s' !! x = Some (with_t_next u n) ∧
    (x ∉ ts → n = t_next u);
}.

Lemma relinked_other ts (s s' : state) x u : relinked ts s s' → thr s !! x = Some u → x ∉ ts → thr s' !! x = Some u.
Proof. intros Hr Hu Hx. destruct (rl_threads _ _ _ Hr x u Hu) as (n & Hn & E). rewrite Hn, E by done. by destruct u. Qed.

(** Unlinking a thread from the list of its process. *)
Lemma unlink_thread_spec (s : state) t o p pr ts1 ts2 :
  thr s !! t = Some o → parent o = p → prc s !! p = Some pr →
  linked t_next (thr s) (threads pr) (ts1 ++ t :: ts2) → NoDup (ts1 ++ t :: ts2) →
  ∃ s' pr', unlink_thread s t = Ok s' ∧ relinked ts1 s s' ∧ head_proc s' = head_proc s ∧
    prc s' = <[p := pr']> (prc s) ∧ p_next pr' = p_next pr ∧
    linked t_next (thr s') (threads pr') (ts1 ++ ts2).
Proof.
  intros Ho Hp Hpr Hl Hnd. destruct (linked_at _ _ _ _ _ _ Hl) as (Ht0 & o' & Ho' & Hl2). simplify_eq.
  unfold unlink_thread, thread_at, proc_at. rewrite Ho. out_red. rewrite Hpr. out_red.
  destruct ts1 as [|b ts1 _] using rev_ind.
  - destruct Hl as (-> & _ & _). rewrite (proj2 (Z.eqb_neq _ _)), Z.eqb_refl by done.
    eexists _, (with_threads pr (t_next o)). split; [done |]. split_and!; try done.
    split; try done. intros x u Hu. exists (t_next u). by destruct u.
  - rewrite <- app_assoc in Hl, Hnd. simpl in Hl, Hnd.
    destruct (linked_at _ _ _ _ _ _ Hl) as (Hb0 & ob & Hob & Hlb). simpl in Hlb. destruct Hlb as (Hnb & _).
    assert (threads pr ≠ NULL ∧ threads pr ≠ t) as [Hh1 Hh2].
    { rewrite (linked_head _ _ _ _ Hl). apply NoDup_app in Hnd as (_ & Hd & Hnd).
      apply NoDup_cons in Hnd as [Hbt _]. destruct ts1 as [|y ts1]; simpl in Hl |- *.
      - split; [done | intros ->; set_solver].
      - split; [naive_solver | intros ->; apply (Hd t); set_solver]. }
    rewrite !(proj2 (Z.eqb_neq _ _)) by done. unfold thread_before.
    rewrite (list_before_linked _ _ _ _ ts1 b t ts2); [| done | done |].
    2:{ pose proof (linked_size _ _ _ _ Hl Hnd) as Hsz. rewrite length_app in Hsz. simpl in Hsz. lia. }
    out_red. rewrite Hob. out_red. rewrite Hnb, Ho. out_red.
    eexists _, pr. split; [done |]. split_and!; try done.
    + split; try done. intros x u Hu. simpl. destruct (decide (x = b)) as [->|Hx].
      * rewrite lookup_insert_eq. simplify_eq. eexists. split; [done | set_solver].
      * rewrite lookup_insert_ne by done. exists (t_next u). by destruct u.
    + simpl. by rewrite insert_id.
    + rewrite <- app_assoc. simpl. by apply (linked_unlink _ _ _ _ _ t _ ob o).
Qed.

(** The other processes of a queue. *)
Lemma other_process (s : state) q1 p ts q2 p' ts' :
  queue_ok s (q1 ++ (p, ts) :: q2) → (p', ts') ∈ q1 ++ q2 →
  p' ≠ p ∧ (∀ x, x ∈ ts → x ∉ ts') ∧ (p', ts') ∈ q1 ++ (p, ts) :: q2.
Proof.
  intros [_ _ Hpa Hd Hn] Hin. assert ((p', ts') ∈ q1 ++ (p, ts) :: q2) as Hin'.
  { apply elem_of_app in Hin as [?|?]; apply elem_of_app; [by left | right; by right]. }
  assert (p' ≠ p) as Hne.
  { intros ->. rewrite fmap_app, fmap_cons in Hd. simpl in Hd. apply NoDup_app in Hd as (_ & Hd1 & Hd2).
    apply NoDup_cons in Hd2 as [Hd2 _]. apply elem_of_app in Hin as [Hin|Hin];
      apply (list_elem_of_fmap_2' fst _ _ p) in Hin; try done. apply (Hd1 p); [done | by left]. }
  split_and!; [done | | done]. intros x Hx Hx'. apply Hne.
  destruct (Hpa p' x) as (o & Ho & <-); [apply elem_of_slots; by exists ts' |].
  destruct (Hpa p x) as (o' & Ho' & <-); [apply elem_of_slots; exists ts; split; [| done] |].
  { apply elem_of_app. right. by left. }
  by simplify_eq.
Qed.

Lemma relinked_linked ts (s s' : state) p l :
  relinked ts s s' → linked t_next (thr s) p l → (∀ x, x ∈ ts → x ∉ l) → linked t_next (thr s') p l.
Proof.
  intros Hr Hl Hd. apply (linked_mono _ _ _ _ _ Hl). intros x u Hx Hu. exists u.
  split; [| done]. apply (relinked_other ts s); [done | done |]. intros Hin. by apply (Hd x).
Qed.

Lemma relinked_parent ts (s s' : state) p t :
  relinked ts s s' → (∃ o, thr s !! t = Some o ∧ parent o = p) → ∃ o, thr s' !! t = Some o ∧ parent o = p.
Proof.
  intros Hr (o & Ho & <-). destruct (rl_threads _ _ _ Hr _ _ Ho) as (n & Hn & _). by eexists.
Qed.

(** The processes of a queue, when the object of one gets the same link. *)
Lemma linked_same_next {A} (nxt : A → Z) m p l x o o' :
  linked nxt m p l → m !! x = Some o → nxt o' = nxt o → linked nxt (<[x := o']> m) p l.
Proof.
  intros Hl Ho Hn. apply (linked_mono _ _ _ _ _ Hl). intros y u _ Hu. destruct (decide (y = x)) as [->|].
  - rewrite lookup_insert_eq. exists o'. by simplify_eq.
  - rewrite lookup_insert_ne by done. by exists u.
Qed.

(** A dead thread leaves a process that has other ones. *)
Lemma queue_unlink_thread (s : state) q1 p ts1 t ts2 q2 :
  queue_ok s (q1 ++ (p, ts1 ++ t :: ts2) :: q2) → ts1 ++ ts2 ≠ [] →
  ∃ s' pr, unlink_thread s t = Ok s' ∧ relinked ts1 s s' ∧ prc s' !! p = Some pr ∧ threads pr ≠ NULL ∧
    queue_ok s' (q1 ++ (p, ts1 ++ ts2) :: q2) ∧ (∀ x, x ≠ p → prc s' !! x = prc s !! x).
Proof.
  intros Hq Hne. pose proof Hq as [Hp Ht Hpa Hd Hn].
  assert ((p, ts1 ++ t :: ts2) ∈ q1 ++ (p, ts1 ++ t :: ts2) :: q2) as Hin by (apply elem_of_app; right; by left).
  destruct (Ht _ _ Hin) as (_ & pr & Hpr & Hl).
  destruct (Hpa p t) as (o & Ho & Hpar); [apply elem_of_slots; exists (ts1 ++ t :: ts2); split; [done | set_solver] |].
  rewrite slots_threads in Hn. assert (NoDup (ts1 ++ t :: ts2)) as Hnt
    by (apply NoDup_app in Hn as (_ & _ & Hn); by apply NoDup_app in Hn as (Hn & _)).
  destruct (unlink_thread_spec s t o p pr ts1 ts2) as (s' & pr' & Hs & Hr & Hh & Hprc & Hnx & Hl'); try done.
  exists s', pr'. split_and!; [done | done | by rewrite Hprc, lookup_insert_eq | | |
    by intros x Hx; rewrite Hprc, lookup_insert_ne].
  { rewrite (linked_head _ _ _ _ Hl'). revert Hl' Hne.
    destruct (ts1 ++ ts2) as [|y l]; simpl; [done | naive_solver]. }
  split.
  - rewrite Hprc, Hh, fmap_app, fmap_cons. rewrite fmap_app, fmap_cons in Hp. by eapply linked_same_next.
  - intros p' ts' Hin'. assert ((p', ts') = (p, ts1 ++ ts2) ∨ (p', ts') ∈ q1 ++ q2) as [[= -> ->]|Ho'] by set_solver.
    + split; [done |]. exists pr'. by rewrite Hprc, lookup_insert_eq.
    + destruct (other_process _ _ _ _ _ _ _ Hq Ho') as (Hpp & Hdis & Hq').
      destruct (Ht _ _ Hq') as (Hne' & u & Hu & Hlu). split; [done |]. exists u.
      rewrite Hprc, lookup_insert_ne by done. split; [done |].
      apply (relinked_linked ts1 s); [done | done |]. intros x Hx. apply Hdis. set_solver.
  - intros p' t' (ts' & Hin' & Ht')%elem_of_slots. apply (relinked_parent ts1 s); [done |]. apply Hpa.
    apply elem_of_slots. assert ((p', ts') = (p, ts1 ++ ts2) ∨ (p', ts') ∈ q1 ++ q2) as [[= -> ->]|Ho'] by set_solver.
    + exists (ts1 ++ t :: ts2). split; [done | set_solver].
    + exists ts'. split; [by apply (other_process _ _ _ _ _ _ _ Hq Ho') | done].
  - rewrite fmap_app, fmap_cons in Hd |- *. exact Hd.
  - rewrite slots_threads. rewrite <- (Permutation_middle ts1 ts2 t) in Hn. simpl in Hn.
    rewrite <- Permutation_middle in Hn. by apply NoDup_cons in Hn as [_ ?].
Qed.

(** [unlink_process] takes [p] out of the list of processes. *)
Lemma unlink_process_spec (s : state) p o l1 l2 :
  prc s !! p = Some o → linked p_next (prc s) (head_proc s) (l1 ++ p :: l2) → NoDup (l1 ++ p :: l2) →
  ∃ pm h, unlink_process s p = Ok (set_head_proc (set_prc s pm) h) ∧
    linked p_next pm h (l1 ++ l2) ∧ pm !! p = Some o ∧
    ∀ x u, prc s !! x = Some u → ∃ n, pm !! x = Some (with_p_next u n).
Proof.
  intros Ho Hl Hnd. destruct (linked_at _ _ _ _ _ _ Hl) as (Hp0 & o' & Ho' & Hl2). simplify_eq.
  unfold unlink_process, proc_at. destruct l1 as [|b l1 _] using rev_ind.
  - destruct Hl as (-> & _). rewrite Z.eqb_refl, Ho. out_red. exists (prc s), (p_next o).
    split_and!; [by destruct s | done | done |]. intros x u Hu. exists (p_next u). by destruct u.
  - rewrite <- app_assoc in Hl, Hnd. simpl in Hl, Hnd.
    destruct (linked_at _ _ _ _ _ _ Hl) as (_ & ob & Hob & Hlb). simpl in Hlb. destruct Hlb as (Hnb & _).
    assert (b ≠ p) as Hbp.
    { intros ->. apply NoDup_app in Hnd as (_ & _ & Hnd). apply NoDup_cons in Hnd as [? _]. set_solver. }
    assert (head_proc s ≠ p) as Hh.
    { rewrite (linked_head _ _ _ _ Hl). apply NoDup_app in Hnd as (_ & Hd & _).
      destruct l1 as [|y l1]; simpl; [done |]. intros ->. apply (Hd p); set_solver. }
    rewrite (proj2 (Z.eqb_neq _ _)) by done. unfold proc_before.
    rewrite (list_before_linked _ _ _ _ l1 b p l2); [| done | done |].
    2:{ pose proof (linked_size _ _ _ _ Hl Hnd) as Hsz. rewrite length_app in Hsz. simpl in Hsz. lia. }
    out_red. rewrite Hob. out_red. rewrite Hnb, Ho. out_red.
    exists (<[b := with_p_next ob (p_next o)]> (prc s)), (head_proc s). split_and!.
    + by destruct s.
    + rewrite <- app_assoc. simpl. by apply (linked_unlink _ _ _ _ _ p _ ob o).
    + by rewrite lookup_insert_ne.
    + intros x u Hu. destruct (decide (x = b)) as [->|Hx].
      * rewrite lookup_insert_eq. simplify_eq. by eexists.
      * rewrite lookup_insert_ne by done. exists (p_next u). by destruct u.
Qed.

(** A process leaves the queue with its last thread. *)
Lemma queue_unlink_process (s : state) q1 p t q2 :
  queue_ok s (q1 ++ (p, [t]) :: q2) →
  ∃ s1 pr1 pm h, unlink_thread s t = Ok s1 ∧ relinked [] s s1 ∧ prc s1 !! p = Some pr1 ∧
    threads pr1 = NULL ∧ p_next pr1 = default NULL (head q2.*1) ∧
    unlink_process s1 p = Ok (set_head_proc (set_prc s1 pm) h) ∧ pm !! p = Some pr1 ∧
    queue_ok (set_head_proc (set_prc s1 pm) h) (q1 ++ q2) ∧
    ∀ x u, x ≠ p → prc s !! x = Some u → ∃ n, pm !! x = Some (with_p_next u n).
Proof.
  intros Hq. pose proof Hq as [Hp Ht Hpa Hd Hn].
  destruct (Ht p [t]) as (_ & pr & Hpr & Hl); [apply elem_of_app; right; by left |].
  destruct (Hpa p t) as (o & Ho & Hpar).
  { apply elem_of_slots. exists [t]. split; [apply elem_of_app; right; by left | by left]. }
  destruct (unlink_thread_spec s t o p pr [] []) as (s1 & pr1 & Hs1 & Hr & Hh & Hprc & Hnx & Hl1);
    try done; [apply NoDup_singleton |].
  rewrite fmap_app, fmap_cons in Hp, Hd. simpl in Hp, Hd.
  assert (linked p_next (prc s1) (head_proc s1) (q1.*1 ++ p :: q2.*1)) as Hlp
    by (rewrite Hprc, Hh; by eapply linked_same_next).
  assert (prc s1 !! p = Some pr1) as Hpr1 by (by rewrite Hprc, lookup_insert_eq).
  destruct (unlink_process_spec s1 p pr1 q1.*1 q2.*1) as (pm & h & Hs2 & Hlm & Hpm & Hx); try done.
  assert (∀ x u, x ≠ p → prc s !! x = Some u → ∃ n, pm !! x = Some (with_p_next u n)) as Hx'
    by (intros x u Hxp Hu; apply Hx; by rewrite Hprc, lookup_insert_ne).
  exists s1, pr1, pm, h. split_and!; try done.
  { destruct (linked_at _ _ _ _ _ _ Hlp) as (_ & u & Hu & Hlu). rewrite Hpr1 in Hu. injection Hu as <-.
    by apply (linked_head _ _ _ _ Hlu). }
  split.
  - by rewrite fmap_app.
  - intros p' ts' Hin. destruct (other_process _ _ _ _ _ _ _ Hq Hin) as (Hpp & Hdis & Hq').
    destruct (Ht _ _ Hq') as (Hne' & u & Hu & Hlu). split; [done |].
    destruct (Hx' p' u Hpp Hu) as (n & Hn'). exists (with_p_next u n). split; [done |].
    apply (relinked_linked [] s s1); [done | done |]. by intros x ?%elem_of_nil.
  - intros p' t' (ts' & Hin & Ht')%elem_of_slots. apply (relinked_parent [] s s1); [done |]. apply Hpa.
    apply elem_of_slots. exists ts'. split; [by apply (other_process _ _ _ _ _ _ _ Hq Hin) | done].
  - rewrite fmap_app. rewrite <- Permutation_middle in Hd. by apply NoDup_cons in Hd as [_ ?].
  - rewrite slots_threads in Hn. simpl in Hn. rewrite <- Permutation_middle in Hn.
    apply NoDup_cons in Hn as [_ Hn]. by rewrite slots_app, fmap_app.
Qed.

(** [vmm_free] leaves the page tables alone. *)
Lemma vmm_free_tables (v v' : mm F H) r : vmm_free v r = Ok v' →
  pt_nodes v' = pt_nodes v ∧ vmm_hashmap v' = vmm_hashmap v ∧ pml4ts v' = pml4ts v ∧
  current_vmm v' = current_vmm v.
Proof.
  unfold vmm_free. intros (h & _ & Hf)%bind_Ok. destruct (base h =? r); [by injection Hf as <- |].
  apply bind_Ok in Hf as (curr & _ & (o & _ & (n & _ & Hf)%bind_Ok)%bind_Ok).
  rewrite umap_nothing in Hf. apply bind_Ok in Hf as (v1 & [= <-] & (h' & _ & [= <-])%bind_Ok).
  by split_and!.
Qed.

Lemma kfree_s_live (s : state) p :
  ha_inv (kheap (vm s)) → ha_live (kheap (vm s)) p → ∃ h, kfree_s s p = Ok (set_vm s (set_kheap (vm s) h)) ∧
    ha_inv h ∧ ∀ q, ha_live h q ↔ q ≠ p ∧ ha_live (kheap (vm s)) q.
Proof.
  intros Hi Hl. destruct (ha_free_spec _ _ Hi Hl) as (h & Hf & Hi' & Hq). exists h.
  unfold kfree_s. by rewrite Hf.
Qed.

(** The thread that is switched to is dispatched. *)
Lemma dispatch_queue (s : state) q p t v o :
  queue_ok s q → thr s !! t = Some o → status o = READY →
  ∃ s', dispatch (set_vm (set_running s p t) v) = Ok (context o, s') ∧
    queue_ok s' q ∧ current_process s' = p ∧ current_thread s' = t ∧ vm s' = v.
Proof.
  intros Hq Ho Hst. eexists. split; [by apply dispatch_ready |].
  split_and!; try done. apply (queue_ok_threads s); try done. intros x u Hu. simpl.
  destruct (decide (x = t)) as [->|]; [| rewrite lookup_insert_ne by done; by exists u].
  rewrite lookup_insert_eq. eexists. split; [done |]. by simplify_eq.
Qed.

(** Whose turn it is after the one of a thread that has left. *)
Definition next_turn (q1 : queue) (p : Z) (ts1 ts2 : list Z) (q2 : queue) : option (Z * Z) :=
  head (((p,.) <$> ts2) ++ slots (q2 ++ q1 ++ [(p, ts1)])).

(** The switch from a thread that has left a process with other threads. *)
Lemma switch_from_unlinked (s : state) q1 p ts1 t ts2 q2 u :
  let q := q1 ++ (p, ts1 ++ ts2) :: q2 in
  queue_ok s q → spaces_ok (vm s) q.*1 → current_process s = p → current_thread s = t →
  current_vmm (vm s) = vmm_of p → thr s !! t = Some u → t_next u = default NULL (head ts2) →
  NULL ∉ ts2 →
  ∃ v p' t', switch_thread s = Ok (set_vm (set_running s p' t') v) ∧ kheap v = kheap (vm s) ∧
    next_turn q1 p ts1 ts2 q2 = Some (p', t') ∧ (p', t') ∈ slots q ∧ current_vmm v = vmm_of p'.
Proof.
  intros q Hq Hs <- <- Hv Hu Hn Hnull. destruct ts2 as [|t' ts2]; simpl in Hn.
  - unfold q in *. rewrite app_nil_r in *.
    destruct (next_process s q1 (current_process s) ts1 q2 Hq)
      as (Hh & op & p' & t' & ts' & w & Hop & Hp' & Hin & Hw).
    destruct (q_threads _ _ Hq _ _ Hin) as (_ & o' & Ho' & Hl').
    destruct (switch_thread_wrap s u p' o' (q1 ++ (current_process s, ts1) :: q2).*1)
      as (c & r & Hsw); try done.
    { right. by split; [| exists op]. }
    { apply list_elem_of_fmap. by exists (p', t' :: ts'). }
    eexists _, p', t'. split_and!.
    + rewrite Hsw. by rewrite (linked_head _ _ _ _ Hl').
    + done.
    + unfold next_turn. by rewrite Hw.
    + apply elem_of_slots. exists (t' :: ts'). split; [done | by left].
    + done.
  - exists (vm s), (current_process s), t'. rewrite (switch_thread_next s u), Hn by (done || set_solver).
    split_and!; [by destruct s | done | done | | done]. apply elem_of_slots.
    exists (ts1 ++ t' :: ts2). split; [apply elem_of_app; right; by left | set_solver].
Qed.

(** The context of the dead thread is saved before it is reaped. *)
Lemma schedule_dead nesting q (s : state) o ctx :
  idle_apart s q → current_thread s ∈ (slots q).*2 → thr s !! current_thread s = Some o →
  status o = DEAD → schedule nesting s ctx =
    (s2 ← reap_thread nesting (set_thread s (current_thread s) (with_context o ctx)) (current_thread s);
     s3 ← switch_thread s2; dispatch s3).
Proof.
  intros (idle & Hidle & Hnotin) Hin Ho Hd. unfold schedule, save_context, proc_at, thread_at.
  rewrite Hidle. out_red. rewrite (proj2 (Z.eqb_neq _ _)) by (by intros E; rewrite E in Hin).
  cbn [negb]. rewrite Ho. out_red. simpl. rewrite lookup_insert_eq. out_red. by rewrite decide_True.
Qed.

(** [reap_thread] up to the test for the last thread. *)
Lemma reap_thread_step nesting (s s1 : state) t o v o1 pr :
  thr s !! t = Some o → vmm_free (vm s) (stack o) = Ok v → unlink_thread (set_vm s v) t = Ok s1 →
  thr s1 !! t = Some o1 → prc s1 !! parent o1 = Some pr →
  reap_thread nesting s t =
    (s2 ← (if threads pr =? NULL then reap_process nesting s1 (parent o1) else Ok s1); kfree_s s2 t).
Proof.
  intros Ho Hf Hu Ho1 Hpr. unfold reap_thread, reap_thread_with, thread_at, proc_at.
  rewrite Ho. out_red. rewrite Hf. out_red. rewrite Hu. out_red. rewrite Ho1. out_red. by rewrite Hpr.
Qed.

Lemma slots_restore q1 p ts1 t ts2 q2 p' x :
  (p', x) ∈ slots (q1 ++ (p, ts1 ++ ts2) :: q2) → (p', x) ∈ slots (q1 ++ (p, ts1 ++ t :: ts2) :: q2).
Proof. rewrite !slots_app. simpl. rewrite !fmap_app, fmap_cons. set_solver. Qed.

(** The state in which the dead thread is reaped has the same queue. *)
Lemma queue_ok_saved (s : state) q t o ctx v :
  queue_ok s q → thr s !! t = Some o → queue_ok (set_vm (set_thread s t (with_context o ctx)) v) q.
Proof.
  intros Hq Ho. apply (queue_ok_threads s); try done. intros x u Hu. simpl.
  destruct (decide (x = t)) as [->|]; [| rewrite lookup_insert_ne by done; by exists u].
  rewrite lookup_insert_eq. eexists. split; [done |]. by simplify_eq.
Qed.

(** What the queue says about one of its threads. *)
Lemma queue_at (s : state) q1 p ts1 t ts2 q2 :
  queue_ok s (q1 ++ (p, ts1 ++ t :: ts2) :: q2) →
  ((p, t) ∈ slots (q1 ++ (p, ts1 ++ t :: ts2) :: q2)) ∧ (t ∉ ts1 ++ ts2) ∧ (NULL ∉ ts2) ∧
  (∀ t', t' ∈ (slots (q1 ++ (p, ts1 ++ ts2) :: q2)).*2 → t' ≠ t) ∧
  ∃ o, thr s !! t = Some o ∧ parent o = p ∧ t_next o = default NULL (head ts2).
Proof.
  intros [_ Ht Hpa _ Hn].
  assert ((p, ts1 ++ t :: ts2) ∈ q1 ++ (p, ts1 ++ t :: ts2) :: q2) as Hin by (apply elem_of_app; right; by left).
  destruct (Ht _ _ Hin) as (_ & pr & _ & Hl). destruct (linked_at _ _ _ _ _ _ Hl) as (_ & o & Ho & Hl2).
  assert ((p, t) ∈ slots (q1 ++ (p, ts1 ++ t :: ts2) :: q2)) as Hslot
    by (apply elem_of_slots; exists (ts1 ++ t :: ts2); split; [done | set_solver]).
  rewrite slots_threads, <- (Permutation_middle ts1 ts2 t) in Hn. simpl in Hn.
  rewrite <- Permutation_middle in Hn. apply NoDup_cons in Hn as [Hnt _].
  split_and!; [done | set_solver | | intros t' Hin' ->; by rewrite slots_threads in Hin' |].
  - intros [l1 [l2 ->]]%list_elem_of_split. by destruct (linked_at _ _ _ _ _ _ Hl2).
  - exists o. destruct (Hpa _ _ Hslot) as (o' & Ho' & Hpar). simplify_eq.
    split_and!; [done | done |]. by apply (linked_head _ _ _ _ Hl2).
Qed.

(** When the interrupted thread is dead and its process has other
    threads, schedule unlinks and frees the thread, keeps the rest of the
    queue, and goes on with the turn after it. *)
Theorem schedule_reaps_thread nesting (s : state) q1 p ts1 t ts2 q2 o v ctx :
  let q := q1 ++ (p, ts1 ++ t :: ts2) :: q2 in
  let q' := q1 ++ (p, ts1 ++ ts2) :: q2 in
  queue_ok s q → idle_apart s q → spaces_ok (vm s) q.*1 → current_process s = p →
  current_thread s = t → current_vmm (vm s) = vmm_of p →
  thr s !! t = Some o → status o = DEAD → ts1 ++ ts2 ≠ [] →
  (∀ p' t' u, (p', t') ∈ slots q' → thr s !! t' = Some u → status u = READY) →
  vmm_free (vm s) (stack o) = Ok v → ha_inv (kheap v) → ha_live (kheap v) t →
  ∃ p' t' o' s', next_turn q1 p ts1 ts2 q2 = Some (p', t') ∧ thr s !! t' = Some o' ∧
    schedule nesting s ctx = Ok (context o', s') ∧ queue_ok s' q' ∧ current_process s' = p' ∧
    current_thread s' = t' ∧ current_vmm (vm s') = vmm_of p' ∧ ¬ ha_live (kheap (vm s')) t.
Proof.
  intros q q' Hq Hidle Hspc Hcp Hct Hv Ho Hd Hne Hst Hf Hi Hl.
  destruct (queue_at _ _ _ _ _ _ _ Hq) as (Hin & Hnt & Hnull & Hother & o' & Ho' & Hpar & Hnx).
  rewrite Ho in Ho'. injection Ho' as <-. subst t p.
  destruct (vmm_free_tables _ _ _ Hf) as (Hv1 & Hv2 & Hv3 & Hv4).
  set (ct := current_thread s) in *. set (cp := current_process s) in *.
  set (o1 := with_context o ctx). set (s0 := set_vm (set_thread s ct o1) v).
  destruct (queue_unlink_thread s0 q1 cp ts1 ct ts2 q2)
    as (s1 & pr & Hs1 & Hr & Hpr & Hth & Hq1 & _); [by apply queue_ok_saved | done |].
  destruct (rl_running _ _ _ Hr) as [Hrp Hrt].
  assert (thr s1 !! ct = Some o1) as Ho1.
  { apply (relinked_other ts1 s0); [done | apply lookup_insert_eq | set_solver]. }
  destruct (kfree_s_live s1 ct) as (h & Hk & _ & Hlv); [by rewrite (rl_vm _ _ _ Hr).. |].
  set (s2 := set_vm s1 (set_kheap (vm s1) h)) in *.
  assert (vm s2 = set_kheap v h) as Hvm by (simpl; by rewrite (rl_vm _ _ _ Hr)).
  assert (queue_ok s2 q') as Hq2 by (by apply (queue_ok_threads s1); try done; eauto).
  destruct (switch_from_unlinked s2 q1 cp ts1 ct ts2 q2 o1)
    as (v' & p' & t' & Hsw & Hkv & Hnext & Hin' & Hcv); try done.
  { rewrite Hvm. apply (spaces_ok_same (vm s)); try done.
    unfold q in Hspc. rewrite fmap_app, fmap_cons in Hspc |- *. exact Hspc. }
  { rewrite Hvm. simpl. by rewrite Hv4. }
  assert (t' ≠ ct) as Htc by (apply Hother; by apply (list_elem_of_fmap_2' _ _ (p', t'))).
  destruct (q_parent _ _ Hq _ _ (slots_restore _ _ _ ct _ _ _ _ Hin')) as (u & Hu & _).
  destruct (rl_threads _ _ _ Hr t' u) as (n & Hn & _); [simpl; by rewrite lookup_insert_ne |].
  destruct (dispatch_queue s2 q' p' t' v' (with_t_next u n) Hq2) as (s' & Hdis & Hq3 & Hp3 & Ht3 & Hv3');
    [done | exact (Hst p' t' u Hin' Hu) |].
  exists p', t', u, s'. split_and!; try done.
  - rewrite (schedule_dead nesting q s o ctx); try done; [| by apply (list_elem_of_fmap_2' _ _ (cp, ct))].
    fold ct o1. rewrite (reap_thread_step nesting (set_thread s ct o1) s1 ct o1 v o1 pr); try done.
    + rewrite (proj2 (Z.eqb_neq _ _)) by done. out_red. rewrite Hk. out_red. rewrite Hsw. out_red.
      by rewrite Hdis.
    + apply lookup_insert_eq.
    + by rewrite <- Hpar in Hpr.
  - by rewrite Hv3'.
  - rewrite Hv3', Hkv, Hvm. simpl. rewrite Hlv. by intros [? _].
Qed.

Lemma reap_process_empty nesting (s s1 : state) p o v :
  unlink_process s p = Ok s1 → prc s1 !! p = Some o → threads o = NULL →
  release_space (vm s1) p (idle_proc s1) = Ok v → reap_process (S nesting) s p = kfree_s (set_vm s1 v) p.
Proof.
  intros Hu Ho Hn Hr. cbn [reap_process]. rewrite Hu. out_red. unfold proc_at. rewrite Ho. out_red.
  rewrite Hn. cbn [reap_threads]. rewrite Z.eqb_refl. by rewrite Hr.
Qed.

(** The switch from a process that has left the queue [q1 ++ q2]. *)
Lemma switch_from_reaped (s : state) q1 q2 u op idle :
  queue_ok s (q1 ++ q2) → spaces_ok (vm s) (idle_proc s :: (q1 ++ q2).*1) →
  thr s !! current_thread s = Some u → t_next u = NULL →
  prc s !! current_process s = Some op → p_next op = default NULL (head q2.*1) →
  prc s !! idle_proc s = Some idle →
  ∃ v p' t', switch_thread s = Ok (set_vm (set_running s p' t') v) ∧ kheap v = kheap (vm s) ∧
    (p', t') = default (idle_proc s, threads idle) (head (slots (q2 ++ q1))) ∧
    current_vmm v = vmm_of p' ∧ ((p', t') ∈ slots (q1 ++ q2) ∨ t' = threads idle).
Proof.
  intros Hq Hs Hu Hn Hop Hnx Hidle.
  assert (∀ p' ts', (p', ts') ∈ q1 ++ q2 → ∃ t' l, ts' = t' :: l) as Hne.
  { intros p' ts' Hin. destruct (q_threads _ _ Hq p' ts' Hin) as [? _]. destruct ts' as [|t' l]; [done | by exists t', l]. }
  pose proof (linked_head _ _ _ _ (q_procs _ _ Hq)) as Hh.
  destruct (q2 ++ q1) as [|[p' ts'] w] eqn:E.
  - apply app_eq_nil in E as [-> ->].
    destruct (switch_thread_wrap s u (idle_proc s) idle [idle_proc s]) as (c & r & Hsw); try done; [by left | by left |].
    eexists _, _, _. split; [exact Hsw |]. split_and!; [done | done | done | by right].
  - assert ((p', ts') ∈ q1 ++ q2) as Hin by (rewrite (Permutation_app_comm q1), E; by left).
    destruct (Hne _ _ Hin) as (t' & l & ->). destruct (q_threads _ _ Hq _ _ Hin) as (_ & o' & Ho' & Hl').
    assert (p' = (if p_next op =? NULL then head_proc s else p_next op) ∧ head_proc s ≠ NULL) as [Hp' Hh0].
    { assert (∀ x, x ∈ (q1 ++ q2).*1 → x ≠ NULL) as Hnz.
      { intros x [l1 [l2 Hx]]%list_elem_of_split. pose proof (q_procs _ _ Hq) as Hl. rewrite Hx in Hl.
        by destruct (linked_at _ _ _ _ _ _ Hl). }
      split.
      - rewrite Hnx. destruct q2 as [|[p2 l2] q2]; simpl in E |- *.
        + subst q1. by rewrite Hh.
        + injection E as -> ->. rewrite (proj2 (Z.eqb_neq _ _)); [done |]. apply Hnz. set_solver.
      - rewrite Hh. destruct ((q1 ++ q2).*1) as [|y m] eqn:E2; simpl; [| apply Hnz; by left].
        apply fmap_nil_inv in E2. rewrite E2 in Hin. by apply elem_of_nil in Hin. }
    destruct (switch_thread_wrap s u p' o' (idle_proc s :: (q1 ++ q2).*1)) as (c & r & Hsw); try done.
    { right. by split; [| exists op]. }
    { right. apply list_elem_of_fmap. by exists (p', t' :: l). }
    eexists _, p', t'. rewrite Hsw, (linked_head _ _ _ _ Hl'). split_and!; [done | done | done | done |].
    left. apply elem_of_slots. exists (t' :: l). split; [done | by left].
Qed.

(** The idle process is not in the queue. *)
Lemma idle_not_queued (s : state) q p t idle :
  queue_ok s q → (p, [t]) ∈ q → prc s !! idle_proc s = Some idle → threads idle ∉ (slots q).*2 → idle_proc s ≠ p.
Proof.
  intros Hq Hin Hidle Hnotin E. rewrite E in Hidle. destruct (q_threads _ _ Hq p [t] Hin) as (_ & pr & Hpr & Hl).
  rewrite Hidle in Hpr. injection Hpr as <-. apply Hnotin. destruct Hl as (-> & _).
  apply (list_elem_of_fmap_2' _ _ (p, t)); [| done]. apply elem_of_slots. exists [t]. split; [done | left].
Qed.

(** The thread that goes on when [p] is reaped: one of the queue or the idle
    one. *)
Lemma next_ready (s : state) q1 p t q2 idle oi p' t' :
  queue_ok s (q1 ++ (p, [t]) :: q2) → threads idle ∉ (slots (q1 ++ (p, [t]) :: q2)).*2 →
  thr s !! threads idle = Some oi → status oi = READY →
  (∀ p' t' u, (p', t') ∈ slots (q1 ++ q2) → thr s !! t' = Some u → status u = READY) →
  (p', t') ∈ slots (q1 ++ q2) ∨ t' = threads idle →
  ∃ o', thr s !! t' = Some o' ∧ status o' = READY ∧ t' ≠ t.
Proof.
  intros Hq Hnotin Hoi Hri Hst Hor. destruct (queue_at s q1 p [] t [] q2 Hq) as (_ & _ & _ & Hother & _).
  destruct Hor as [Hin'| ->].
  - assert (t' ≠ t) as Hne by (apply Hother; rewrite slots_threads; simpl; rewrite <- fmap_app, <- slots_app;
      by apply (list_elem_of_fmap_2' _ _ (p', t'))).
    destruct (q_parent _ _ Hq p' t') as (u & Hu & _); [rewrite slots_app in Hin' |- *; simpl; set_solver |].
    exists u. split_and!; [done | exact (Hst _ _ _ Hin' Hu) | done].
  - exists oi. split_and!; [done | done |]. intros E. apply Hnotin. rewrite E.
    apply (list_elem_of_fmap_2' _ _ (p, t)); [| done]. apply elem_of_slots. exists [t].
    split; [apply elem_of_app; right; left | left].
Qed.

(** [C18] When the last thread of a process is dead, schedule takes the
    process out of the queue, frees the process and the thread, and goes on
    with the next process, or with the idle one when the queue is empty. *)
Theorem schedule_reaps_process nesting (s : state) q1 p t q2 o v v' idle oi ctx :
  let q := q1 ++ (p, [t]) :: q2 in
  queue_ok s q → current_process s = p → current_thread s = t → thr s !! t = Some o → status o = DEAD →
  prc s !! idle_proc s = Some idle → threads idle ∉ (slots q).*2 → thr s !! threads idle = Some oi →
  status oi = READY →
  (∀ p' t' u, (p', t') ∈ slots (q1 ++ q2) → thr s !! t' = Some u → status u = READY) →
  vmm_free (vm s) (stack o) = Ok v → release_space v p (idle_proc s) = Ok v' →
  spaces_ok v' (idle_proc s :: (q1 ++ q2).*1) → ha_inv (kheap v') → ha_live (kheap v') p →
  ha_live (kheap v') t → p ≠ t →
  ∃ p' t' o' s', (p', t') = default (idle_proc s, threads idle) (head (slots (q2 ++ q1))) ∧
    thr s !! t' = Some o' ∧ schedule (S nesting) s ctx = Ok (context o', s') ∧
    queue_ok s' (q1 ++ q2) ∧ current_process s' = p' ∧ current_thread s' = t' ∧
    current_vmm (vm s') = vmm_of p' ∧
    ¬ ha_live (kheap (vm s')) p ∧ ¬ ha_live (kheap (vm s')) t.
Proof.
  intros q Hq Hcp Hct Ho Hd Hidle Hnotin Hoi Hri Hst Hf Hrs Hspc Hi Hlp Hlt Hpt.
  destruct (queue_at s q1 p [] t [] q2 Hq) as (Hin & _ & _ & Hother & o' & Ho' & Hpar & Hnx).
  rewrite Ho in Ho'. injection Ho' as <-. subst t p.
  set (ct := current_thread s) in *. set (cp := current_process s) in *.
  set (o1 := with_context o ctx). set (s0 := set_vm (set_thread s ct o1) v).
  destruct (queue_unlink_process s0 q1 cp ct q2)
    as (s1 & pr1 & pm & h & Hs1 & Hr & Hpr1 & Hth & Hpn & Hup & Hpm & Hq1 & Hkeep); [by apply queue_ok_saved |].
  destruct (rl_running _ _ _ Hr) as [Hrp Hrt].
  assert (∀ x u, thr s0 !! x = Some u → thr s1 !! x = Some u) as Hthr.
  { intros x u Hu. apply (relinked_other [] s0); [done | done |]. by intros ?%elem_of_nil. }
  assert (thr s1 !! ct = Some o1) as Ho1 by (apply Hthr, lookup_insert_eq).
  set (s2 := set_head_proc (set_prc s1 pm) h) in *.
  destruct (kfree_s_live (set_vm s2 v') cp) as (h1 & Hk1 & Hi1 & Hl1); [done | done |].
  destruct (kfree_s_live (set_vm (set_vm s2 v') (set_kheap (vm (set_vm s2 v')) h1)) ct) as (h2 & Hk2 & Hi2 & Hl2);
    [done | by apply Hl1 |].
  set (s3 := set_vm s2 (set_kheap v' h2)).
  assert (idle_proc s ≠ cp) as Hic by (apply (idle_not_queued s q cp ct idle); try done; apply elem_of_app; right; left).
  destruct (Hkeep (idle_proc s) idle Hic Hidle) as (n & Hidle').
  assert (queue_ok s3 (q1 ++ q2)) as Hq3 by (by apply (queue_ok_threads s2); try done; eauto).
  destruct (switch_from_reaped s3 q1 q2 o1 pr1 (with_p_next idle n))
    as (w & p' & t' & Hsw & Hkw & Hnext & Hcw & Hor); try done.
  { simpl. rewrite (rl_idle _ _ _ Hr). by apply (spaces_ok_same v'). }
  { simpl. by rewrite Hrt. }
  { simpl. by rewrite Hrp. }
  { simpl. by rewrite (rl_idle _ _ _ Hr). }
  change (threads (with_p_next idle n)) with (threads idle) in Hnext, Hor.
  change (idle_proc s3) with (idle_proc s1) in Hnext. rewrite (rl_idle _ _ _ Hr) in Hnext.
  destruct (next_ready s q1 cp ct q2 idle oi p' t') as (o' & Ho' & Hr' & Htc); try done.
  destruct (dispatch_queue s3 (q1 ++ q2) p' t' w o' Hq3) as (s' & Hdis & Hq4 & Hp4 & Ht4 & Hw4); [| done |].
  { apply Hthr. simpl. by rewrite lookup_insert_ne. }
  exists p', t', o', s'. split_and!; try done.
  - rewrite (schedule_dead _ q s o ctx); try done;
      [| by exists idle | by apply (list_elem_of_fmap_2' _ _ (cp, ct))].
    fold ct o1. rewrite (reap_thread_step _ (set_thread s ct o1) s1 ct o1 v o1 pr1); try done;
      [| apply lookup_insert_eq | by rewrite <- Hpar in Hpr1].
    rewrite Hth, Z.eqb_refl. change (parent o1) with (parent o). rewrite Hpar.
    rewrite (reap_process_empty nesting s1 s2 cp pr1 v'); try done;
      [| change (release_space (vm s1) cp (idle_proc s1) = Ok v'); by rewrite (rl_idle _ _ _ Hr), (rl_vm _ _ _ Hr)].
    rewrite Hk1. out_red. rewrite Hk2. out_red.
    change (set_vm _ (set_kheap _ h2)) with s3. rewrite Hsw. out_red. by rewrite Hdis.
  - by rewrite Hw4.
  - rewrite Hw4, Hkw. simpl. rewrite Hl2, Hl1. by intros [_ [? _]].
  - rewrite Hw4, Hkw. simpl. rewrite Hl2. by intros [? _].
Qed.

End Reap.
