(* ===== verification/SchedDemo.v ===== *)
(** * A running scheduler (witnesses for RoundRobin.v and Reap.v)

    Two processes with three threads and the idle process, over the page
    tables and regions of the demonstrations of PageMap.v and Vmm.v. *)

From S2P Require Import Prelude Iface Pmm MmState HashMap PageMap Vmm Cpu Sched RoundRobin Reap.

Module SchedDemo.

Import PageMapDemo VmmDemo.
#[local] Existing Instance list_heap.

(** The regions of both processes: head, user, kernel text, VGA buffer, a
    kernel stack and the window of page tables. *)
Definition vga_obj' : vm_object := VmObject VGA_TEXT_BUFFER_BASE 0x1000 VM_FLAG_MMIO 5.
Definition stack_obj : vm_object := VmObject 0xffffff80002f8000 KERNEL_STACK_SIZE VM_FLAG_READ_WRITE 1.
Definition sched_objs : gmap Z vm_object :=
  {[1016 := head_obj; 2016 := head_obj; 3016 := text_obj; 32 := user_obj; 4 := text_obj; 3 := vga_obj';
    5 := stack_obj; 1 := window_obj]}.

Definition sched_vm (vmm : Z) : mm pmm_state (list Z) :=
  set_pml4ts (set_current (set_vm_objs (set_kheap (demo 0x4000)
    [1000; 1100; 1200; 2000; 2100; 3000; 3100; 5; 32; 256; 192; 128; 64]) sched_objs) 0x1000 (V 1) vmm)
    {[1016 := 0x1000; 2016 := 0x1000; 3016 := 0x1000]}.

Definition demo_context (n : Z) : cpu_context_t := new_context 0x101000 n 0 0xffffff80002f8000 false.
Definition demo_thread (n p : Z) (st : status_t) (nx : Z) : thread_t :=
  Thread n p (demo_context n) 0xffffff80002f8000 st (replicate 10 0) nx.
Definition demo_process (n t nx : Z) : process_t :=
  Process n t (replicate 10 0) (replicate 5 NULL) nx.

(** The state in which the thread [t] of [p] runs, with the status [st]. *)
Definition demo_sched (p t : Z) (st : status_t) : sched pmm_state (list Z) := {|
  vm := sched_vm (vmm_of p);
  thr := alter (λ o, with_status o st) t {[1100 := demo_thread 1 1000 READY 1200;
    1200 := demo_thread 2 1000 READY NULL; 2100 := demo_thread 3 2000 READY NULL;
    3100 := demo_thread 0 3000 READY NULL]};
  prc := {[1000 := demo_process 1 1100 2000; 2000 := demo_process 2 2100 NULL;
    3000 := demo_process 0 3100 NULL]};
  idle_proc := 3000;
  head_proc := 1000;
  current_process := p;
  current_thread := t;
  next_tid := 4;
  next_pid := 3;
  kernel_stack_ptr := 0xffffff80002f5000;
|}.

Definition demo_queue : list (Z * list Z) := [(1000, [1100; 1200]); (2000, [2100])].

(** Evaluates the links of a concrete queue. *)
Ltac links := repeat first
  [ reflexivity | discriminate
  | split
  | eexists; split; [vm_compute; reflexivity |] ].

Ltac each H := unfold demo_queue in H; simpl in H; rewrite ?elem_of_cons, elem_of_nil in H;
  repeat destruct H as [H|H]; try done; injection H as -> ->.

Lemma demo_queue_ok p t st : (p, t) ∈ [(1000, 1100); (2000, 2100)] → queue_ok (demo_sched p t st) demo_queue.
Proof.
  intros Hpt. rewrite !elem_of_cons, elem_of_nil in Hpt.
  destruct Hpt as [[= -> ->]|[[= -> ->]|[]]].
  all: split.
  all: try (apply (proj1 (bool_decide_eq_true (NoDup _))); vm_compute; reflexivity).
  all: try (intros p' x Hin; each Hin).
  all: links.
Qed.

Lemma demo_idle p t st : idle_apart (demo_sched p t st) demo_queue.
Proof. exists (demo_process 0 3100 NULL). split; [reflexivity |]. by apply (bool_decide_unpack _). Qed.

Lemma demo_spaces vmm ps : (∀ p, p ∈ ps → p ∈ [1000; 2000; 3000]) → spaces_ok (sched_vm vmm) ps.
Proof.
  intros Hps p Hp%Hps. exists 0x1000, (V 1). rewrite !elem_of_cons, elem_of_nil in Hp.
  by destruct Hp as [->|[->|[->|[]]]].
Qed.

Definition demo_rr : rr := Rr (slots demo_queue) 0
  {[1100 := demo_context 1; 1200 := demo_context 2; 2100 := demo_context 3]}.

Lemma demo_rel : sched_rel demo_queue (demo_sched 1000 1100 RUNNING) demo_rr.
Proof.
  split; try done.
  - apply demo_queue_ok. by left.
  - intros p t Hin. each Hin; vm_compute; reflexivity.
  - intros p t o Hin Ho. each Hin; vm_compute in Ho; by injection Ho as <-.
  - apply demo_idle.
  - apply demo_spaces. set_solver.
Qed.

(** The queue of the states in which another thread has the status [READY]. *)
Lemma demo_ready q p t st : (∀ x, x ∈ (slots q).*2 → x ∈ [1100; 1200; 2100] ∧ x ≠ t) →
  ∀ p' t' u, (p', t') ∈ slots q → thr (demo_sched p t st) !! t' = Some u → status u = READY.
Proof.
  intros Hq p' t' u Hin. destruct (Hq t') as [Hx Hne]; [by apply (list_elem_of_fmap_2' _ _ (p', t')) |].
  simpl thr. rewrite lookup_alter_ne by done. rewrite !elem_of_cons, elem_of_nil in Hx.
  destruct Hx as [->|[->|[->|[]]]]; vm_compute; by intros [= <-].
Qed.

End SchedDemo.

Import PageMapDemo VmmDemo SchedDemo.
#[local] Existing Instance list_heap.

(** Three interrupts: every thread has its turn. *)
Lemma schedule_fair_witness : ∃ outs s',
  run_schedule 1 (demo_sched 1000 1100 RUNNING) [demo_context 10; demo_context 20; demo_context 30] = Ok (outs, s') ∧
  last outs = Some (1100, demo_context 10).
Proof.
  destruct (schedule_fair 1 demo_queue (demo_sched 1000 1100 RUNNING) demo_rr
    [demo_context 10; demo_context 20; demo_context 30] demo_rel eq_refl)
    as (outs & s' & Hr & _ & _ & _ & c & o & Hc & _ & _ & Hl).
  exists outs, s'. split; [exact Hr |]. injection Hc as <-. exact Hl.
Defined.

Lemma schedule_refines_witness : ∃ outs a' s',
  rr_run demo_rr [demo_context 10; demo_context 20] = Some (outs, a') ∧
  run_schedule 1 (demo_sched 1000 1100 RUNNING) [demo_context 10; demo_context 20] = Ok (outs, s').
Proof.
  destruct (schedule_refines 1 demo_queue _ demo_rr [demo_context 10; demo_context 20] demo_rel)
    as (outs & a' & s' & Hr & Hs & _).
  exists outs, a', s'. split; [exact Hr | exact Hs].
Defined.

(** The reaped thread: its stack is unlinked from the regions. *)
Definition reaped_vm : mm pmm_state (list Z) :=
  set_kheap (set_obj (sched_vm 1016) 3 (with_vm_next vga_obj' 1))
    [1000; 1100; 1200; 2000; 2100; 3000; 3100; 32; 256; 192; 128; 64].

Lemma demo_free : vmm_free (sched_vm 1016) 0xffffff80002f8000 = Ok reaped_vm.
Proof. reflexivity. Qed.

Lemma demo_dead : thr (demo_sched 1000 1100 DEAD) !! 1100 = Some (demo_thread 1 1000 DEAD 1200).
Proof. vm_compute. reflexivity. Qed.

Lemma demo_sibling : thr (demo_sched 1000 1100 DEAD) !! 1200 = Some (demo_thread 2 1000 READY NULL).
Proof. vm_compute. reflexivity. Qed.

Lemma demo_reaped_live : 1100 ∈ kheap reaped_vm.
Proof. right. left. Qed.

Lemma demo_others_ready : ∀ p' t' u, (p', t') ∈ slots [(1000, [1200]); (2000, [2100])] →
  thr (demo_sched 1000 1100 DEAD) !! t' = Some u → status u = READY.
Proof. apply demo_ready. simpl. set_solver. Qed.

Lemma schedule_reaps_thread_witness : ∃ s',
  schedule 1 (demo_sched 1000 1100 DEAD) (demo_context 10) = Ok (demo_context 2, s') ∧ current_thread s' = 1200.
Proof.
  destruct (schedule_reaps_thread 1 (demo_sched 1000 1100 DEAD) [] 1000 [] 1100 [1200] [(2000, [2100])]
    (demo_thread 1 1000 DEAD 1200) reaped_vm (demo_context 10))
    as (p' & t' & o' & s' & Hn & Ho & Hs & _ & _ & Ht & _).
  - apply demo_queue_ok. left.
  - apply demo_idle.
  - apply demo_spaces. simpl. set_solver.
  - reflexivity.
  - reflexivity.
  - reflexivity.
  - exact demo_dead.
  - reflexivity.
  - discriminate.
  - exact demo_others_ready.
  - exact demo_free.
  - exact I.
  - exact demo_reaped_live.
  - injection Hn as <- <-. rewrite demo_sibling in Ho. injection Ho as <-.
    exists s'. split; [exact Hs | exact Ht].
Defined.

(** The last thread of the second process. *)
Definition last_vm : mm pmm_state (list Z) :=
  set_kheap (set_obj (sched_vm 2016) 3 (with_vm_next vga_obj' 1))
    [1000; 1100; 1200; 2000; 2100; 3000; 3100; 32; 256; 192; 128; 64].

Definition torn_vm : mm pmm_state (list Z) :=
  set_current (set_kheap (set_obj last_vm 2016 (with_vm_next head_obj 4))
    [1000; 1100; 1200; 2000; 2100; 3000; 3100; 256; 192; 128; 64]) 0x1000 (V 1) 3016.

Lemma demo_free_last : vmm_free (sched_vm 2016) 0xffffff80002f8000 = Ok last_vm.
Proof. reflexivity. Qed.

Lemma demo_release : release_space last_vm 2000 3000 = Ok torn_vm.
Proof. reflexivity. Qed.

Lemma demo_last : thr (demo_sched 2000 2100 DEAD) !! 2100 = Some (demo_thread 3 2000 DEAD NULL).
Proof. vm_compute. reflexivity. Qed.

Lemma demo_first : thr (demo_sched 2000 2100 DEAD) !! 1100 = Some (demo_thread 1 1000 READY 1200).
Proof. vm_compute. reflexivity. Qed.

Lemma demo_idle_thread : thr (demo_sched 2000 2100 DEAD) !! 3100 = Some (demo_thread 0 3000 READY NULL).
Proof. vm_compute. reflexivity. Qed.

Lemma demo_rest_ready : ∀ p' t' u, (p', t') ∈ slots [(1000, [1100; 1200])] →
  thr (demo_sched 2000 2100 DEAD) !! t' = Some u → status u = READY.
Proof. apply demo_ready. simpl. set_solver. Qed.

Lemma demo_idle_apart : 3100 ∉ (slots demo_queue).*2.
Proof. simpl. set_solver. Qed.

Lemma demo_torn_spaces : spaces_ok torn_vm [3000; 1000].
Proof.
  apply (spaces_ok_same (sched_vm 2016)); [reflexivity.. |]. apply demo_spaces. set_solver.
Qed.

Lemma demo_torn_live : 2000 ∈ kheap torn_vm ∧ 2100 ∈ kheap torn_vm.
Proof. split; [do 3 right; left | do 4 right; left]. Qed.

Lemma schedule_reaps_process_witness : ∃ s',
  schedule 1 (demo_sched 2000 2100 DEAD) (demo_context 10) = Ok (demo_context 1, s') ∧
  current_process s' = 1000 ∧ current_thread s' = 1100.
Proof.
  destruct (schedule_reaps_process 0 (demo_sched 2000 2100 DEAD) [(1000, [1100; 1200])] 2000 2100 []
    (demo_thread 3 2000 DEAD NULL) last_vm torn_vm (demo_process 0 3100 NULL) (demo_thread 0 3000 READY NULL)
    (demo_context 10)) as (p' & t' & o' & s' & Hn & Ho & Hs & _ & Hp & Ht & _).
  - apply demo_queue_ok. right. left.
  - reflexivity.
  - reflexivity.
  - exact demo_last.
  - reflexivity.
  - reflexivity.
  - exact demo_idle_apart.
  - exact demo_idle_thread.
  - reflexivity.
  - exact demo_rest_ready.
  - exact demo_free_last.
  - exact demo_release.
  - exact demo_torn_spaces.
  - exact I.
  - exact (proj1 demo_torn_live).
  - exact (proj2 demo_torn_live).
  - discriminate.
  - injection Hn as -> ->. rewrite demo_first in Ho. injection Ho as <-.
    exists s'. split; [exact Hs |]. split; [exact Hp | exact Ht].
Defined.

(** A new process: its first thread gets a kernel stack. *)
Module NewProcessDemo.

Definition space : vm_object * Z := (head_obj, 0x1000).
Definition new_p : Z := 3164.
Definition new_t : Z := 3228.
Definition new_stack : Z := 0xffffff80002f2000.

Definition running : sched pmm_state (list Z) := demo_sched 1000 1100 RUNNING.
Definition v1 := set_kheap (vm running) (new_p :: kheap (vm running)).
Definition v2 := set_pml4ts (set_obj v1 (vmm_of new_p) space.1) (<[vmm_of new_p := space.2]> (pml4ts v1)).
Definition v3 := set_kheap v2 (new_t :: kheap v2).
Definition stack_result := alloc_kernel_stack demo_sym 2 7 v3 (kernel_stack_ptr running).
Definition v4 := match stack_result with Ok (_, v) => v | _ => v3 end.

Lemma demo_stack : stack_result = Ok (new_stack, v4).
Proof.
  unfold v4. assert (match stack_result with Ok (p, _) => p =? new_stack | _ => false end = true) as Hr
    by (vm_compute; reflexivity).
  destruct stack_result as [[p v]| |]; [| discriminate..]. by apply Z.eqb_eq in Hr as ->.
Qed.

Lemma demo_queue_live : queue_live running demo_queue.
Proof. unfold queue_live. simpl. repeat constructor; simpl; set_solver. Qed.

End NewProcessDemo.

Import NewProcessDemo.

Lemma create_proc_enqueues_witness : ∃ s',
  create_proc demo_sym 2 7 running 0x101000 0x102000 NULL space true false = Ok (new_p, s') ∧
  queue_ok s' ((new_p, [new_t]) :: demo_queue).
Proof.
  destruct (create_proc_enqueues demo_sym 2 7 running demo_queue 0x101000 0x102000 NULL false space new_p v1
    new_t v3 new_stack v4) as (s' & Hc & Hq & _).
  - apply demo_queue_ok. left.
  - exact demo_queue_live.
  - exact I.
  - reflexivity.
  - reflexivity.
  - exact demo_stack.
  - exists s'. split; [exact Hc | exact Hq].
Defined.
