(* ===== verification/Resource.v ===== *)
(** * Resources of processes (resource_handling.c, resource_handling.h)

    A process has a table of five pointers to resources; a resource is a
    structure on the heap with an internal handle and the functions that work
    on it.  The state joins the scheduler and the file system. *)

From S2P Require Import Prelude Iface Mem Pmm MmState HashMap Vga Tar Vfs Cpu Sched.

Definition MAX_HANDLES : Z := 100.
Definition SIZEOF_RESOURCE_T : Z := 40.

Inductive resource_type_t := FILE | MESSAGE_ENDPOINT | SHARED_MEM.

(** The functions that a resource can point to. *)
Inductive resource_fn := fn_read_resource.

(** [resource_t]; [None] is a [NULL] function pointer. *)
Record resource_t := Resource {
  type : resource_type_t;
  internal_handle : Z;
  read : option resource_fn;
  write : option resource_fn;
  open : option resource_fn;
  close : option resource_fn;
}.

Section Resource.
Context {F H : Type} `{FrameAlloc F} `{HeapAlloc H} (fsym : fs_symbols).

(** The scheduler, the file system with the console, and the resources by
    their address. *)
Record kernel := Kernel {
  ksched : sched F H;
  kfs : vfs;
  resources : gmap Z resource_t;
}.

Definition set_ksched (k : kernel) (s : sched F H) : kernel := Kernel s (kfs k) (resources k).
Definition set_kfs (k : kernel) (s : vfs) : kernel := Kernel (ksched k) s (resources k).
Definition set_resources (k : kernel) (r : gmap Z resource_t) : kernel := Kernel (ksched k) (kfs k) r.
Definition set_kcon (k : kernel) (c : console) : kernel := set_kfs k (set_con (kfs k) c).

Definition resource_at (k : kernel) (r : Z) : outcome resource_t :=
  of_option (PageFault r) (resources k !! r).

Definition read_resource (k : kernel) (resource buf len : Z) : outcome (Z * kernel) :=
  r ← resource_at k resource;
  match type r with
  | FILE => '(n, fs) ← vfs_read fsym (kfs k) (internal_handle r) buf len; Ok (n, set_kfs k fs)
  | _ => c ← ERROR (con (kfs k)) "resource handling" "unimplemented resource type"; Ok (0, set_kcon k c)
  end.

(** A call through a pointer of a resource. *)
Definition call_resource (f : option resource_fn) (k : kernel) (resource buf len : Z) : outcome (Z * kernel) :=
  match f with
  | Some fn_read_resource => read_resource k resource buf len
  | None => Fault (PageFault NULL)
  end.

(** [process->resource_table[handle]]. *)
Definition table_at (k : kernel) (process handle : Z) : outcome Z :=
  p ← proc_at (ksched k) process;
  of_option (OutOfBounds "resource_table") (resource_table p !! Z.to_nat handle).

Definition with_table (p : process_t) (l : list Z) : process_t :=
  Process (pid p) (threads p) (p_name p) l (p_next p).

Definition set_table (k : kernel) (process handle v : Z) : outcome kernel :=
  p ← proc_at (ksched k) process;
  Ok (set_ksched k (set_proc (ksched k) process
    (with_table p (<[Z.to_nat handle := v]> (resource_table p))))).

Definition get_resource (k : kernel) (process handle : Z) : outcome Z :=
  if (handle <? 0) || (MAX_HANDLES <=? handle) then Ok NULL else table_at k process handle.

Definition remove_resource (k : kernel) (process handle : Z) : outcome (bool * kernel) :=
  resource ← get_resource k process handle;
  if resource =? NULL then Ok (false, k) else
  r ← resource_at k resource;
  match close r with
  | None => Ok (false, k)
  | Some _ => k' ← set_table k process handle 0; Ok (true, k')
  end.

(** The search of [register_resource] from [handle] on. *)
Fixpoint free_handle (table : list Z) (handle : nat) : option nat :=
  match table with
  | [] => None
  | p :: table' => if p =? 0 then Some handle else free_handle table' (S handle)
  end.

(** [register_resource] for a resource that is not [NULL]. *)
Definition register_resource (k : kernel) (process : Z) (resource : resource_t) : outcome (Z * kernel) :=
  if process =? NULL then Ok (-1, k) else
  p ← proc_at (ksched k) process;
  match free_handle (resource_table p) 0 with
  | Some handle =>
      '(r, v) ← kmalloc_mm (vm (ksched k)) SIZEOF_RESOURCE_T;
      k1 ← set_table (set_ksched k (set_vm (ksched k) v)) process (Z.of_nat handle) r;
      Ok (Z.of_nat handle, set_resources k1 (<[r := resource]> (resources k1)))
  | None => Ok (-1, k)
  end.

Definition file_resource (handle : Z) : resource_t := Resource FILE handle (Some fn_read_resource) None None None.

Definition register_file_resource (k : kernel) (filename : Z) : outcome (Z * kernel) :=
  '(h, fs) ← vfs_open fsym (kfs k) filename 0;
  register_resource (set_kfs k fs) (current_process (ksched k)) (file_resource h).

(** ** Lemmas *)

Lemma free_handle_spec table i :
  match free_handle table i with
  | Some h => (i ≤ h)%nat ∧ table !! (h - i)%nat = Some 0 ∧ ∀ j, (j < h - i)%nat → table !! j ≠ Some 0
  | None => 0 ∉ table
  end.
Proof.
  revert i. induction table as [|p table IH]; intros i; cbn [free_handle]; [set_solver |].
  destruct (p =? 0) eqn:E; zbool.
  - subst. rewrite Nat.sub_diag. split_and!; [lia | done | intros j Hj; lia].
  - specialize (IH (S i)). destruct (free_handle table (S i)) as [h|]; [| set_solver].
    destruct IH as (Hi & Hh & Hj). replace (h - i)%nat with (S (h - S i)) by lia.
    split_and!; [lia | done |]. intros [|j] Hlt; simpl; [congruence | apply Hj; lia].
Qed.

(** A resource whose close function is missing is never removed. *)
Definition never_closed (k : kernel) : Prop := map_Forall (λ _ r, close r = None) (resources k).

Lemma remove_resource_refused k process handle b k' :
  never_closed k → remove_resource k process handle = Ok (b, k') → b = false ∧ k' = k.
Proof.
  intros Hn. unfold remove_resource. intros (r & _ & Hres)%bind_Ok.
  destruct (r =? NULL); [by injection Hres as <- <- |].
  apply bind_Ok in Hres as (o & Ho%of_option_Ok & Hres). rewrite (Hn _ _ Ho) in Hres. by injection Hres as <- <-.
Qed.

Lemma register_resource_closed k process resource h k' :
  never_closed k → close resource = None → register_resource k process resource = Ok (h, k') → never_closed k'.
Proof.
  intros Hn Hc. unfold register_resource. destruct (process =? NULL); [by intros [= _ <-] |].
  intros (p & _ & Hres)%bind_Ok. destruct (free_handle (resource_table p) 0); [| by injection Hres as _ <-].
  apply bind_Ok in Hres as ([r v] & _ & Hres). apply bind_Ok in Hres as (k1 & Hk & [= _ <-]).
  unfold set_table in Hk. apply bind_Ok in Hk as (p' & _ & [= <-]). by apply map_Forall_insert_2.
Qed.

(** What registering does to the process. *)
Lemma register_resource_spec k process p resource r h' :
  process ≠ NULL → prc (ksched k) !! process = Some p →
  ha_alloc (kheap (vm (ksched k))) SIZEOF_RESOURCE_T = Ok (r, h') →
  match free_handle (resource_table p) 0 with
  | Some h => ∃ k', register_resource k process resource = Ok (Z.of_nat h, k') ∧
      kfs k' = kfs k ∧ resources k' = <[r := resource]> (resources k) ∧
      prc (ksched k') = <[process := with_table p (<[h := r]> (resource_table p))]> (prc (ksched k)) ∧
      thr (ksched k') = thr (ksched k) ∧ current_process (ksched k') = current_process (ksched k)
  | None => register_resource k process resource = Ok (-1, k)
  end.
Proof.
  intros Hn Hp Ha. unfold register_resource, proc_at. rewrite (proj2 (Z.eqb_neq _ _)) by done. rewrite Hp. out_red.
  destruct (free_handle (resource_table p) 0) as [h|] eqn:E; [| done].
  unfold kmalloc_mm. rewrite Ha. out_red. unfold set_table, proc_at. cbn [ksched set_ksched prc set_vm].
  rewrite Hp. out_red. rewrite Nat2Z.id. by eexists.
Qed.

End Resource.
Arguments kernel : clear implicits.
