(* ===== verification/Elf.v ===== *)
(** * The ELF loader (exec_elf.c)

    The headers of an ELF file as bytes, the loop over its program headers and
    the start of a process.  The bytes of a page are those of the frame that
    vmm_alloc maps; an address space has bytes of its own below the kernel. *)

From S2P Require Import Prelude Iface Mem LibTitan Fields Pmm Mb2 MmState HashMap PageMap Vmm View Vga Tar Vfs Cpu Sched Resource.

Definition PT_LOAD : Z := 1.

(** Sizes of [elf64_ehdr_t] and [elf64_phdr_t]. *)
Definition SIZEOF_EHDR : Z := 64.
Definition SIZEOF_PHDR : Z := 56.

Definition load16 (m : mem) (a : Z) : outcome Z :=
  lo ← load8 m a; hi ← load8 m (a + 1); Ok (lo + 2 ^ 8 * hi).

(** The fields of [elf64_ehdr_t] that are used. *)
Definition e_entry (m : mem) (ehdr : Z) : outcome Z := load64 m (ehdr + 24).
Definition e_phoff (m : mem) (ehdr : Z) : outcome Z := load64 m (ehdr + 32).
Definition e_phnum (m : mem) (ehdr : Z) : outcome Z := load16 m (ehdr + 56).

(** [elf64_phdr_t]. *)
Record elf64_phdr_t := Phdr {
  p_type : Z;
  p_flags : Z;
  p_offset : Z;
  p_vaddr : Z;
  p_paddr : Z;
  p_filesz : Z;
  p_memsz : Z;
  p_align : Z;
}.

Definition load_phdr (m : mem) (a : Z) : outcome elf64_phdr_t :=
  t ← load32 m a;
  fl ← load32 m (a + 4);
  off ← load64 m (a + 8);
  va ← load64 m (a + 16);
  pa ← load64 m (a + 24);
  fsz ← load64 m (a + 32);
  msz ← load64 m (a + 40);
  al ← load64 m (a + 48);
  Ok (Phdr t fl off va pa fsz msz al).

(** [dump_ehdr] on its copy of the header. *)
Definition dump_ehdr (s : console) (ehdr : Z) : outcome console :=
  ident ← c_string (vmem s) ehdr;
  s1 ← printk s (bytes_of "ELF Signature: %s" ++ [10]) [AStr ident];
  phoff ← e_phoff (vmem s1) ehdr;
  s2 ← printk s1 (bytes_of "ELF phoff: %lu" ++ [10]) [ALong phoff];
  phnum ← e_phnum (vmem s2) ehdr;
  printk s2 (bytes_of "ELF phnum: %d" ++ [10]) [AInt (i32 phnum)].

Section Elf.
Context {F H : Type} `{FrameAlloc F} `{HeapAlloc H}.
Context (sym : symbols) (depth : nat) (uninit : Z) (fsym : fs_symbols) (phys : mem).
Local Abbreviation kernel := (kernel F H).

Definition kmem (k : kernel) : mem := fs_mem (kfs k).

(** The body of the loop of [load_elf] for a segment to be loaded. *)
Definition load_segment (k : kernel) (handle : Z) (ph : elf64_phdr_t) (file_pos : Z) : outcome kernel :=
  '(r, v) ← vmm_alloc sym depth uninit (vm (ksched k)) (p_vaddr ph) (p_memsz ph)
              (Z.lor VM_FLAG_READ_WRITE VM_FLAG_USER) NULL;
  if r =? NULL then Fault (Panic "exec_elf") else
  let m := show_pages (Z.to_nat (PAGE_ALIGN (p_memsz ph) / 0x1000)) phys (current_tr v) (kmem k) r in
  '(_, s1) ← vfs_seek (set_fs_mem (kfs k) m) handle (p_offset ph);
  '(_, s2) ← vfs_read fsym s1 handle (p_vaddr ph) (p_filesz ph);
  '(_, s3) ← vfs_seek s2 handle file_pos;
  Ok (set_kfs (set_ksched k (set_vm (ksched k) v)) s3).

(** The loop; [ehdr] and [phdr] are the addresses of the local variables. *)
Fixpoint load_loop (fuel : nat) (k : kernel) (handle ehdr phdr i file_pos : Z) : outcome kernel :=
  match fuel with
  | O => NoFuel
  | S fuel' =>
      n ← e_phnum (kmem k) ehdr;
      if i <? n then
        '(_, s) ← vfs_read fsym (kfs k) handle phdr SIZEOF_PHDR;
        let k1 := set_kfs k s in
        ph ← load_phdr (kmem k1) phdr;
        let file_pos' := u64 (file_pos + SIZEOF_PHDR) in
        k2 ← (if negb (p_type ph =? PT_LOAD) then Ok k1 else load_segment k1 handle ph file_pos');
        load_loop fuel' k2 handle ehdr phdr (i + 1) file_pos'
      else Ok k
  end.

(** [load_elf]: the entry point. *)
Definition load_elf (fuel : nat) (k : kernel) (filename ehdr phdr : Z) : outcome (Z * kernel) :=
  '(handle, s) ← vfs_open fsym (kfs k) filename 0;
  '(_, s1) ← vfs_read fsym s handle ehdr SIZEOF_EHDR;
  c ← dump_ehdr (con s1) ehdr;
  phoff ← e_phoff (vmem c) ehdr;
  '(_, s2) ← vfs_seek (set_con s1 c) handle phoff;
  k' ← load_loop fuel (set_kfs k s2) handle ehdr phdr 0 phoff;
  entry ← e_entry (kmem k') ehdr;
  Ok (entry, k').

(** The bytes below the kernel belong to the address space, those of the
    kernel to all of them. *)
Definition user_half (m : mem) : mem := filter (λ x, x.1 < KERNEL_TEXT_START) m.
Definition kernel_half (m : mem) : mem := filter (λ x, KERNEL_TEXT_START ≤ x.1) m.

(** The memory after a change of [cr3] from [old] to that of [v]; [spaces] are
    the user bytes of the address spaces by their top level table. *)
Definition switch_bytes (old : Z) (v : mm F H) (spaces : gmap Z mem) (m : mem) : gmap Z mem * mem :=
  let spaces' := <[old := user_half m]> spaces in
  (spaces', default ∅ (spaces' !! cr3 v) ∪ kernel_half m).

(** [exec_elf]; [vmm] is the address of its local variable, [wrapper] the
    address of [kernel_thread_wrapper].  C does not say whether the argument
    [vmm] of [create_proc] is copied before or after [load_elf] changes the
    regions of the variable: [vmm_first] says that it is before. *)
Definition exec_elf (vmm_first : bool) (fuel : nat) (k : kernel) (spaces : gmap Z mem) (filename vmm wrapper ehdr phdr : Z)
    : outcome (kernel * gmap Z mem) :=
  let v0 := vm (ksched k) in
  '(head, pml4t, v1) ← create_vmm sym depth v0;
  let v2 := set_obj v1 vmm head in
  v3 ← switch_vm_space (set_pml4ts v2 (<[vmm := pml4t]> (pml4ts v2))) vmm;
  let '(spaces1, m1) := switch_bytes (cr3 v0) v3 spaces (kmem k) in
  let k1 := set_kfs (set_ksched k (set_vm (ksched k) v3)) (set_fs_mem (kfs k) m1) in
  '(entry, k2) ← load_elf fuel k1 filename ehdr phdr;
  loaded ← obj_at (vm (ksched k2)) vmm;
  let head' := if vmm_first then head else loaded in
  '(_, sc) ← create_proc sym depth uninit (ksched k2) wrapper entry filename (head', pml4t) true true;
  v4 ← switch_vm_space (vm sc) (vmm_of (current_process sc));
  let '(spaces2, m2) := switch_bytes (cr3 (vm (ksched k2))) v4 spaces1 (kmem k2) in
  Ok (set_kfs (set_ksched k2 (set_vm sc v4)) (set_fs_mem (kfs k2) m2), spaces2).

End Elf.

(** ** The image in the file *)

Definition phdr_of (d : list Z) : elf64_phdr_t :=
  Phdr (field d 0 4) (field d 4 4) (field d 8 8) (field d 16 8) (field d 24 8) (field d 32 8) (field d 40 8)
    (field d 48 8).

Lemma load16_le m a l : bytes_at m a l → length l = 2%nat → load16 m a = Ok (le_value l).
Proof.
  intros Hb Hl. destruct l as [|b0 [|b1 [|]]]; try done. unfold load16.
  apply load8_list in Hb as [-> Hb]. out_red. apply load8_list in Hb as [-> _]. out_red.
  f_equal. cbn [le_value]. lia.
Qed.

(** At an offset. *)
Lemma load16_field m a d off :
  bytes_at m a d → 0 ≤ off → off + 2 ≤ Z.of_nat (length d) → load16 m (a + off) = Ok (field d (Z.to_nat off) 2).
Proof.
  intros Hb H0' Hn. destruct (bytes_at_field m a d (Z.to_nat off) 2 Hb) as [Hf Hl]; [lia |].
  rewrite Z2Nat.id in Hf by done. by apply load16_le.
Qed.

Lemma load_phdr_spec m a d : bytes_at m a d → length d = 56%nat → load_phdr m a = Ok (phdr_of d).
Proof.
  intros Hb Hl. unfold load_phdr. rewrite <- (Z.add_0_r a) at 1.
  rewrite !(load32_field m a d _ Hb) by lia. out_red. rewrite !(load64_field m a d _ Hb) by lia. done.
Qed.

(** The program headers in the contents [d] of a file: [n] of them from
    [pos]. *)
Fixpoint phdrs (n : nat) (d : list Z) (pos : nat) : list elf64_phdr_t :=
  match n with
  | O => []
  | S n' => phdr_of (take 56 (drop pos d)) :: phdrs n' d (pos + 56)
  end.

(** Where a segment lies: whole pages. *)
Definition seg_base (ph : elf64_phdr_t) : Z := PAGE_ALIGN_DOWN (p_vaddr ph).
Definition seg_pages (ph : elf64_phdr_t) : nat := Z.to_nat (PAGE_ALIGN (p_memsz ph) / 0x1000).
Definition seg_len (ph : elf64_phdr_t) : Z := Z.of_nat (seg_pages ph) * 0x1000.

Section Load.
Context {F H : Type} `{FrameAlloc F} `{HeapAlloc H}.
Context (sym : symbols) (depth : nat) (uninit : Z) (fsym : fs_symbols) (phys : mem).
Context (a p0 : Z) (fs : list member) (f : member).
Local Abbreviation kernel := (kernel F H).

(** A segment fits: its bytes lie in its pages and in the file, and its pages
    apart from what the loader still reads. *)
Record seg_room (s : vfs) (ehdr phdr : Z) (ph : elf64_phdr_t) : Prop := {
  sr_base : 0 < seg_base ph;
  sr_bytes : seg_base ph ≤ p_vaddr ph ∧ p_vaddr ph + p_filesz ph ≤ seg_base ph + seg_len ph ∧ 0 ≤ p_filesz ph;
  sr_apart : Forall (apart (seg_base ph) (seg_len ph))
    (protected fsym s a p0 fs ++ [(ehdr, SIZEOF_EHDR); (phdr, SIZEOF_PHDR)]);
  sr_file : 0 ≤ p_offset ph ∧ p_offset ph + p_filesz ph ≤ Z.of_nat (length (m_data f));
}.

(** The call of vmm_alloc for a segment succeeds and its frames exist. *)
Definition seg_alloc (v : mm F H) (ph : elf64_phdr_t) (v' : mm F H) : Prop :=
  vmm_alloc sym depth uninit v (p_vaddr ph) (p_memsz ph) (Z.lor VM_FLAG_READ_WRITE VM_FLAG_USER) NULL =
    Ok (seg_base ph, v') ∧
  ∀ i, 0 ≤ i < Z.of_nat (seg_pages ph) →
    ∃ e, current_tr v' (seg_base ph + i * 0x1000) = Some e ∧ mapped phys (frame_of e) 0x1000.

(** All the calls, one after the other. *)
Fixpoint segs_alloc (v : mm F H) (segs : list elf64_phdr_t) (v' : mm F H) : Prop :=
  match segs with
  | [] => v' = v
  | ph :: segs' =>
      if p_type ph =? PT_LOAD then ∃ v1, seg_alloc v ph v1 ∧ segs_alloc v1 segs' v' else segs_alloc v segs' v'
  end.

Hypothesis Hphys : bytes_ok phys.
Hypothesis Hsize : Z.of_nat (length (m_data f)) < 2 ^ 31.

Lemma load_segment_spec (k : kernel) t tbl h pos0 ph file_pos v1 ehdr phdr :
  vfs_rel fsym t a p0 fs (kfs k) tbl → tbl !! h = Some (f, pos0) → seg_alloc (vm (ksched k)) ph v1 →
  seg_room (kfs k) ehdr phdr ph → 0 ≤ file_pos < 2 ^ 31 →
  ∃ k', load_segment sym depth uninit fsym phys k (Z.of_nat h) ph file_pos = Ok k' ∧
    ksched k' = set_vm (ksched k) v1 ∧
    bytes_at (kmem k') (p_vaddr ph) (chunk f (p_offset ph) (p_filesz ph)) ∧
    agree_outside (seg_base ph) (seg_len ph) (kmem k) (kmem k') ∧
    (∀ x n, mapped (kmem k) x n → mapped (kmem k') x n) ∧ vga_out (con (kfs k')) = vga_out (con (kfs k)) ∧
    vfs_rel fsym t a p0 fs (kfs k') (<[h := (f, file_pos)]> tbl).
Proof.
  intros Hrel Hh [Ha Hpg] [R1 [R2 [R3 R4]] R5 [R6 R7]] Hpos. apply Forall_app in R5 as [R5 _].
  unfold load_segment. rewrite Ha. out_red. rewrite (proj2 (Z.eqb_neq _ _)) by (unfold NULL; lia).
  fold (seg_pages ph). set (m := show_pages (seg_pages ph) phys (current_tr v1) (kmem k) (seg_base ph)).
  assert (agree_outside (seg_base ph) (seg_len ph) (kmem k) m) as Hag by apply show_pages_outside.
  assert (mapped m (seg_base ph) (seg_len ph)) as Hmp by by apply show_pages_all.
  assert (1 < seg_base ph) as Hb1.
  { unfold seg_base, PAGE_ALIGN_DOWN in *. assert (Z.testbit (Z.land (p_vaddr ph) 0xfffffffffffff000) 0 = false) as Hb.
    { by rewrite Z.land_spec, andb_false_r. }
    destruct (decide (Z.land (p_vaddr ph) 0xfffffffffffff000 = 1)) as [E|]; [by rewrite E in Hb | lia]. }
  assert (m !! 1 = None) as Hm1.
  { rewrite Hag by lia. apply (vr_null _ _ _ _ _ _ _ Hrel). }
  assert (bytes_ok m) as Hmok.
  { apply show_pages_ok; [done |]. apply (sh_bytes _ _ (wk_shows _ _ _ _ (pa_walk _ _ _ _ _ (vr_parsed _ _ _ _ _ _ _ Hrel)))). }
  pose proof (vfs_rel_mem fsym t a p0 fs (kfs k) tbl m _ _ Hrel R5 Hag Hmok Hm1 ltac:(unfold seg_len; lia)) as Hrel1.
  destruct (vfs_seek_spec fsym t a p0 fs (set_fs_mem (kfs k) m) tbl h f pos0 (p_offset ph) Hrel1 Hh) as (s1 & -> & Hc1 & Hrel2);
    [lia |]. out_red. pose proof (lookup_lt_Some _ _ _ Hh) as Hlt.
  destruct (vfs_read_spec fsym t a p0 fs s1 _ h f (p_offset ph) (p_vaddr ph) (p_filesz ph) Hrel2) as
    (s2 & -> & Hb2 & Hag2 & Hmp2 & Hv2 & Hrel3); [by apply list_lookup_insert_eq | | lia | lia | lia |].
  { split; [| | lia].
    - unfold fs_mem. rewrite Hc1. apply (mapped_sub _ _ _ _ _ Hmp); lia.
    - unfold protected in *. rewrite Hc1. cbn [con set_fs_mem set_con set_vmem vga_out].
      eapply Forall_impl; [exact R5 |]. intros [x l]. unfold apart. simpl. lia. }
  out_red. rewrite list_insert_insert_eq in Hrel3.
  destruct (vfs_seek_spec fsym t a p0 fs s2 _ h f (p_offset ph + p_filesz ph) file_pos Hrel3) as (s3 & -> & Hc3 & Hrel4);
    [by apply list_lookup_insert_eq | lia |]. out_red. rewrite list_insert_insert_eq in Hrel4.
  eexists. split; [done |]. unfold kmem, fs_mem in *. cbn [kfs set_kfs ksched set_ksched]. rewrite Hc3.
  rewrite Hc1 in *. cbn [con set_fs_mem set_con set_vmem vmem vga_out] in *.
  split_and!; try done.
  - intros i Hi. rewrite Hag2, Hag by lia. done.
  - intros x n Hx. apply Hmp2. by apply show_pages_mapped.
Qed.

Definition is_load (ph : elf64_phdr_t) : Prop := p_type ph = PT_LOAD.

(** The pages of the segments do not overlap. *)
Fixpoint disjoint_segs (l : list elf64_phdr_t) : Prop :=
  match l with
  | [] => True
  | ph :: l' => Forall (λ q, apart (seg_base ph) (seg_len ph) (seg_base q, seg_len q)) l' ∧ disjoint_segs l'
  end.

(** The byte at [x] is neither in the local variable [phdr] nor in a segment. *)
Definition untouched (phdr : Z) (loads : list elf64_phdr_t) (x : Z) : Prop :=
  ¬ (phdr ≤ x < phdr + SIZEOF_PHDR) ∧ Forall (λ ph, ¬ (seg_base ph ≤ x < seg_base ph + seg_len ph)) loads.

Lemma seg_room_step s s' ehdr phdr ph :
  vga_out (con s') = vga_out (con s) → seg_room s ehdr phdr ph → seg_room s' ehdr phdr ph.
Proof. intros Hv [R1 R2 R3 R4]. split; try done. unfold protected in *. by rewrite Hv. Qed.

(** What reading the next program header leaves. *)
Lemma read_phdr (k : kernel) t tbl h pos ehdr phdr hd :
  vfs_rel fsym t a p0 fs (kfs k) tbl → tbl !! h = Some (f, Z.of_nat pos) → bytes_at (kmem k) ehdr hd →
  length hd = 64%nat → apart phdr SIZEOF_PHDR (ehdr, SIZEOF_EHDR) → buffer fsym (kfs k) a p0 fs phdr SIZEOF_PHDR →
  (pos + 56 ≤ length (m_data f))%nat →
  ∃ s', vfs_read fsym (kfs k) (Z.of_nat h) phdr SIZEOF_PHDR = Ok (SIZEOF_PHDR, s') ∧
    load_phdr (fs_mem s') phdr = Ok (phdr_of (take 56 (drop pos (m_data f)))) ∧
    bytes_at (fs_mem s') ehdr hd ∧ agree_outside phdr SIZEOF_PHDR (kmem k) (fs_mem s') ∧
    (∀ x n, mapped (kmem k) x n → mapped (fs_mem s') x n) ∧ vga_out (con s') = vga_out (con (kfs k)) ∧
    vfs_rel fsym t a p0 fs s' (<[h := (f, Z.of_nat (pos + 56))]> tbl).
Proof.
  intros Hrel Hh Hhd Hl Hap Hbuf Hpos.
  destruct (vfs_read_spec fsym t a p0 fs (kfs k) tbl h f (Z.of_nat pos) phdr SIZEOF_PHDR Hrel Hh Hbuf)
    as (s' & Hr & Hb & Hag & Hm & Hv & Hrel'); [lia | unfold SIZEOF_PHDR; lia | done |].
  replace (Z.of_nat (pos + 56)) with (Z.of_nat pos + SIZEOF_PHDR) by (unfold SIZEOF_PHDR; lia).
  exists s'. split_and!; try done.
  - apply load_phdr_spec; [| rewrite length_take, length_drop; lia]. unfold chunk, SIZEOF_PHDR in Hb.
    by rewrite Nat2Z.id in Hb.
  - apply (bytes_at_agree (kmem k)); [| done]. intros i Hi. apply Hag.
    unfold apart, SIZEOF_EHDR in Hap. simpl in Hap. lia.
Qed.

Lemma load_loop_spec t n : ∀ (k : kernel) tbl h ehdr phdr hd i pos fuel v',
  vfs_rel fsym t a p0 fs (kfs k) tbl → tbl !! h = Some (f, Z.of_nat pos) → bytes_at (kmem k) ehdr hd →
  length hd = 64%nat → field hd 56 2 = i + Z.of_nat n → apart phdr SIZEOF_PHDR (ehdr, SIZEOF_EHDR) →
  buffer fsym (kfs k) a p0 fs phdr SIZEOF_PHDR → (pos + 56 * n ≤ length (m_data f))%nat →
  segs_alloc (vm (ksched k)) (phdrs n (m_data f) pos) v' →
  Forall (seg_room (kfs k) ehdr phdr) (filter is_load (phdrs n (m_data f) pos)) →
  disjoint_segs (filter is_load (phdrs n (m_data f) pos)) → (n < fuel)%nat →
  ∃ k' tbl', load_loop sym depth uninit fsym phys fuel k (Z.of_nat h) ehdr phdr i (Z.of_nat pos) = Ok k' ∧
    ksched k' = set_vm (ksched k) v' ∧ vga_out (con (kfs k')) = vga_out (con (kfs k)) ∧ bytes_at (kmem k') ehdr hd ∧
    Forall (λ ph, bytes_at (kmem k') (p_vaddr ph) (chunk f (p_offset ph) (p_filesz ph)))
      (filter is_load (phdrs n (m_data f) pos)) ∧
    (∀ x, untouched phdr (filter is_load (phdrs n (m_data f) pos)) x → kmem k' !! x = kmem k !! x) ∧
    vfs_rel fsym t a p0 fs (kfs k') tbl'.
Proof.
  induction n as [|n IH]; intros k tbl h ehdr phdr hd i pos fuel v' Hrel Hh Hhd Hl Hnum Hap Hbuf Hpos Hsegs Hroom Hdis Hf;
    (destruct fuel as [|fuel]; [lia |]); cbn [load_loop]; unfold e_phnum;
    rewrite (load16_field _ _ _ 56 Hhd) by lia; out_red; change (Z.to_nat 56) with 56%nat; rewrite Hnum.
  - rewrite (proj2 (Z.ltb_ge _ _)) by lia. exists k, tbl. simpl in Hsegs. subst v'.
    split_and!; try done. by destruct (ksched k).
  - rewrite (proj2 (Z.ltb_lt _ _)) by lia.
    destruct (read_phdr k t tbl h pos ehdr phdr hd Hrel Hh Hhd Hl Hap Hbuf) as (s1 & -> & Hph & Hhd1 & Hag1 & Hm1 & Hv1 & Hrel1);
      [lia |]. out_red.
    unfold kmem at 1. cbn [kfs set_kfs]. rewrite Hph. out_red. cbn [phdrs segs_alloc] in *.
    set (ph := phdr_of (take 56 (drop pos (m_data f)))) in *.
    replace (u64 (Z.of_nat pos + SIZEOF_PHDR)) with (Z.of_nat (pos + 56))
      by (rewrite u64_small; unfold SIZEOF_PHDR; lia).
    pose proof (lookup_lt_Some _ _ _ Hh) as Hlt.
    destruct (p_type ph =? PT_LOAD) eqn:E; zbool; cbn [negb].
    + rewrite filter_cons_True in Hroom, Hdis |- * by done. destruct Hsegs as (v1 & Hs1 & Hsegs).
      apply Forall_cons in Hroom as [Hr1 Hroom]. destruct Hdis as [Hd1 Hdis].
      destruct (load_segment_spec (set_kfs k s1) t _ h (Z.of_nat (pos + 56)) ph (Z.of_nat (pos + 56)) v1 ehdr phdr Hrel1)
        as (k2 & -> & Hk2 & Hb2 & Hag2 & Hm2 & Hv2 & Hrel2); [by apply list_lookup_insert_eq | done
        | by eapply seg_room_step | lia |].
      out_red. cbn [kfs set_kfs] in *. rewrite list_insert_insert_eq in Hrel2.
      pose proof Hr1 as [_ _ Hra _]. apply Forall_app in Hra as [_ Hra]. rewrite !Forall_cons in Hra.
      destruct Hra as (Ra1 & Ra2 & _). unfold apart in Ra1, Ra2. simpl in Ra1, Ra2.
      destruct (IH k2 _ h ehdr phdr hd (i + 1) (pos + 56)%nat fuel v' Hrel2) as (k' & tbl' & Hlp & Hsc & Hvo & Hhd' & Hld & Hun & Hrel');
        try done; try lia.
      * by apply list_lookup_insert_eq.
      * apply (bytes_at_agree (fs_mem s1)); [| done]. intros x Hx. apply Hag2. rewrite Hl in Hx. unfold SIZEOF_EHDR in Ra1. lia.
      * apply (buffer_step _ (kfs k)); [done | intros x l Hx; apply Hm2; unfold kmem; cbn; by apply Hm1 | by rewrite Hv2].
      * by rewrite Hk2.
      * eapply Forall_impl; [exact Hroom |]. intros q. apply seg_room_step. by rewrite Hv2.
      * exists k', tbl'. split_and!; try done.
        -- by rewrite Hsc, Hk2.
        -- by rewrite Hvo, Hv2.
        -- constructor; [| done]. apply (bytes_at_agree (kmem k2)); [| done]. intros x Hx. apply Hun.
           destruct Hr1 as [_ (S1 & S2 & S3) _ [S4 S5]].
           assert (length (chunk f (p_offset ph) (p_filesz ph)) ≤ Z.to_nat (p_filesz ph))%nat
             by (unfold chunk; rewrite length_take; lia).
           split; [lia |]. eapply Forall_impl; [exact Hd1 |]. intros q. unfold apart. simpl. lia.
        -- intros x [X1 X2]. apply Forall_cons in X2 as [X2 X3].
           rewrite Hun by done. rewrite Hag2 by done. by apply Hag1.
    + rewrite filter_cons_False in Hroom, Hdis |- * by done.
      destruct (IH (set_kfs k s1) _ h ehdr phdr hd (i + 1) (pos + 56)%nat fuel v' Hrel1)
        as (k' & tbl' & Hlp & Hsc & Hvo & Hhd' & Hld & Hun & Hrel'); try done; try lia.
      * by apply list_lookup_insert_eq.
      * by apply (buffer_step _ (kfs k)).
      * eapply Forall_impl; [exact Hroom |]. intros q. by apply seg_room_step.
      * exists k', tbl'. split_and!; try done; [by rewrite Hvo |]. intros x [X1 X2]. rewrite Hun by done. by apply Hag1.
Qed.

(** The header is printed and stays what it is. *)
Lemma dump_ehdr_shows s t0 ehdr hd ident rest :
  shows s t0 → locked s = false → bytes_at (vmem s) ehdr hd → length hd = 64%nat → hd = ident ++ 0 :: rest →
  Forall char_ok ident → off_screen s ehdr SIZEOF_EHDR →
  ∃ s' t', dump_ehdr s ehdr = Ok s' ∧ shows s' t' ∧ only_screen s s'.
Proof.
  intros Hs Hlk Hb Hl Hid Hc Hoff. unfold dump_ehdr, e_phoff, e_phnum.
  assert (Z.of_nat (length hd) = SIZEOF_EHDR) as HlZ by (rewrite Hl; done).
  rewrite (c_string_spec _ _ ident); [| | done].
  2: { subst hd. replace (ident ++ 0 :: rest) with ((ident ++ [0]) ++ rest) in Hb by (by rewrite <- app_assoc).
       by apply bytes_at_app in Hb as [Hb _]. }
  out_red.
  change (bytes_of "ELF Signature: %s" ++ [10]) with (bytes_of "ELF Signature: " ++ piece_format (PStr ident) ++ [10]).
  change [AStr ident] with (piece_args (PStr ident)).
  destruct (printk_piece s t0 (bytes_of "ELF Signature: ") (PStr ident) [10] Hs Hlk) as (s1 & -> & Hs1 & Ho1);
    [no_percent | no_percent | done |]. out_red.
  rewrite <- HlZ in Hoff. pose proof (only_screen_bytes _ _ _ _ Ho1 Hoff Hb) as Hb1.
  rewrite (load64_field _ _ _ 32 Hb1) by lia. out_red. set (phoff := field hd (Z.to_nat 32) 8). clearbody phoff.
  change (bytes_of "ELF phoff: %lu" ++ [10]) with (bytes_of "ELF phoff: " ++ piece_format (PLong phoff) ++ [10]).
  change [ALong phoff] with (piece_args (PLong phoff)).
  destruct (printk_piece s1 _ (bytes_of "ELF phoff: ") (PLong phoff) [10] Hs1) as (s2 & -> & Hs2 & Ho2);
    [by rewrite (only_screen_locked _ _ Ho1) | no_percent | no_percent | done |]. out_red.
  pose proof (only_screen_bytes _ _ _ _ Ho2 (only_screen_off _ _ _ _ Ho1 Hoff) Hb1) as Hb2.
  rewrite (load16_field _ _ _ 56 Hb2) by lia. out_red. set (phnum := i32 (field hd (Z.to_nat 56) 2)). clearbody phnum.
  change (bytes_of "ELF phnum: %d" ++ [10]) with (bytes_of "ELF phnum: " ++ piece_format (PInt phnum) ++ [10]).
  change [AInt phnum] with (piece_args (PInt phnum)).
  destruct (printk_piece s2 _ (bytes_of "ELF phnum: ") (PInt phnum) [10] Hs2) as (s3 & H3' & Hs3 & Ho3);
    [by rewrite (only_screen_locked _ _ Ho2), (only_screen_locked _ _ Ho1) | no_percent | no_percent | done |].
  eexists s3, _. split; [exact H3' |]. split; [exact Hs3 |].
  by eapply only_screen_trans; [| eapply only_screen_trans].
Qed.

(** The image in the file: its header with the printed part [ident], and
    [nseg] program headers from [pos] on. *)
Record elf_image (hd ident : list Z) (entry : Z) (pos nseg : nat) : Prop := {
  ei_header : hd = take 64 (m_data f) ∧ length hd = 64%nat;
  ei_ident : ∃ rest, hd = ident ++ 0 :: rest ∧ Forall char_ok ident;
  ei_entry : field hd 24 8 = entry;
  ei_phoff : field hd 32 8 = Z.of_nat pos;
  ei_phnum : field hd 56 2 = Z.of_nat nseg;
  ei_phdrs : (pos + 56 * nseg ≤ length (m_data f))%nat;
}.

(** The statements of load_elf in front of the loop. *)
Definition load_header (s : vfs) (filename ehdr : Z) : outcome (Z * Z * vfs) :=
  '(handle, s) ← vfs_open fsym s filename 0;
  '(_, s1) ← vfs_read fsym s handle ehdr SIZEOF_EHDR;
  c ← dump_ehdr (con s1) ehdr;
  phoff ← e_phoff (vmem c) ehdr;
  '(_, s2) ← vfs_seek (set_con s1 c) handle phoff;
  Ok (handle, phoff, s2).

Lemma load_elf_split (k : kernel) fuel filename ehdr phdr :
  load_elf sym depth uninit fsym phys fuel k filename ehdr phdr =
  '(handle, phoff, s) ← load_header (kfs k) filename ehdr;
  k' ← load_loop sym depth uninit fsym phys fuel (set_kfs k s) handle ehdr phdr 0 phoff;
  entry ← e_entry (kmem k') ehdr;
  Ok (entry, k').
Proof.
  unfold load_elf, load_header. destruct (vfs_open fsym (kfs k) filename 0) as [[h s]| |]; [| done..]. out_red.
  destruct (vfs_read fsym s h ehdr SIZEOF_EHDR) as [[r s1]| |]; [| done..]. out_red.
  destruct (dump_ehdr (con s1) ehdr) as [c| |]; [| done..]. out_red.
  destruct (e_phoff (vmem c) ehdr) as [p| |]; [| done..]. out_red.
  by destruct (vfs_seek (set_con s1 c) h p) as [[q s2]| |].
Qed.

Lemma load_header_spec s t tbl filename c n j hd ident entry pos nseg ehdr :
  vfs_rel fsym t a p0 fs s tbl → (length tbl < 10)%nat →
  fs_mem s !! filename = Some c → path_at (fs_mem s) (filename + 1) n → find_member fs n = Some (j, f) →
  elf_image hd ident entry pos nseg → buffer fsym s a p0 fs ehdr SIZEOF_EHDR →
  ∃ s' t', load_header s filename ehdr = Ok (Z.of_nat (length tbl), Z.of_nat pos, s') ∧
    bytes_at (fs_mem s') ehdr hd ∧ (∀ x l, mapped (fs_mem s) x l → mapped (fs_mem s') x l) ∧
    vga_out (con s') = vga_out (con s) ∧
    (∀ x, ¬ (ehdr ≤ x < ehdr + SIZEOF_EHDR) → ¬ (vga_out (con s) ≤ x < vga_out (con s) + VGA_LENGTH) →
      fs_mem s' !! x = fs_mem s !! x) ∧
    vfs_rel fsym t' a p0 fs s' (tbl ++ [(f, Z.of_nat pos)]).
Proof.
  intros Hrel Hlen Hc Hp Hfind [[Hhd Hl64] (rest & Hid & Hch) Hen Hpo Hpn Hps] Hbe. unfold load_header.
  pose proof (vfs_open_spec fsym t a p0 fs s tbl filename c n 0 Hrel Hc Hp) as Ho.
  rewrite Hfind, (proj2 (Nat.ltb_lt _ _)) in Ho by done. destruct Ho as (s1 & -> & Hrel1 & Hc1). out_red.
  assert ((tbl ++ [(f, 0)]) !! length tbl = Some (f, 0)) as Hh by (by rewrite lookup_app_r, Nat.sub_diag).
  assert (length hd ≤ length (m_data f))%nat by (rewrite Hhd, length_take; lia).
  destruct (vfs_read_spec fsym t a p0 fs s1 _ (length tbl) f 0 ehdr SIZEOF_EHDR Hrel1 Hh) as
    (s2 & -> & Hb & Hag & Hm & Hv & Hrel2); [| lia | unfold SIZEOF_EHDR; lia | done |].
  { apply (buffer_step _ s); [done | unfold fs_mem; by rewrite Hc1 | by rewrite Hc1]. }
  out_red. unfold chunk in Hb. rewrite drop_0 in Hb. change (Z.to_nat SIZEOF_EHDR) with 64%nat in Hb. rewrite <- Hhd in Hb.
  assert (off_screen (con s2) ehdr SIZEOF_EHDR) as Hoff.
  { destruct Hbe as [_ Hpr _]. unfold protected in Hpr. rewrite !Forall_cons in Hpr. destruct Hpr as (_ & Hpr & _).
    unfold apart, off_screen in *. simpl in Hpr. rewrite Hv, Hc1. lia. }
  pose proof (vr_parsed _ _ _ _ _ _ _ Hrel2) as [[Hs2 Hlk2 _ _ _ _] _ _].
  destruct (dump_ehdr_shows (con s2) t ehdr hd ident rest Hs2 Hlk2 Hb Hl64 Hid Hch Hoff) as (c' & t' & -> & Hs' & Hon). out_red.
  assert (Z.of_nat (length hd) = SIZEOF_EHDR) as HlZ by (by rewrite Hl64). rewrite <- HlZ in Hoff.
  pose proof (only_screen_bytes _ _ _ _ Hon Hoff Hb) as Hb'.
  unfold e_phoff. rewrite (load64_field _ _ _ 32 Hb') by lia. change (Z.to_nat 32) with 32%nat. rewrite Hpo. out_red.
  destruct (vfs_seek_spec fsym t' a p0 fs (set_con s2 c') _ (length tbl) f (0 + SIZEOF_EHDR) (Z.of_nat pos)
    (vfs_rel_screen _ _ _ _ _ _ _ _ _ Hrel2 Hon Hs')) as (s3 & -> & Hc3 & Hrel3);
    [apply list_lookup_insert_eq; rewrite length_app; simpl; lia | lia |].
  out_red. rewrite list_insert_insert_eq, insert_app_r_alt, Nat.sub_diag in Hrel3 by lia.
  exists s3, t'. unfold fs_mem in *. rewrite Hc3. cbn [con set_con]. pose proof Hon as (Hag' & Hv' & _).
  split_and!; try done.
  - intros x l Hx. eapply only_screen_mapped; [exact Hon | exact Hs' |]. apply Hm. by rewrite Hc1.
  - by rewrite Hv', Hv, Hc1.
  - intros x X1 X2. rewrite Hag' by (by rewrite Hv, Hc1). rewrite Hag by done. by rewrite Hc1.
Qed.

Lemma load_elf_loads (k : kernel) t tbl filename c n j hd ident entry pos nseg ehdr phdr v' fuel :
  let segs := phdrs nseg (m_data f) pos in
  let loads := filter is_load segs in
  vfs_rel fsym t a p0 fs (kfs k) tbl → (length tbl < 10)%nat →
  kmem k !! filename = Some c → path_at (kmem k) (filename + 1) n → find_member fs n = Some (j, f) →
  elf_image hd ident entry pos nseg →
  buffer fsym (kfs k) a p0 fs ehdr SIZEOF_EHDR → buffer fsym (kfs k) a p0 fs phdr SIZEOF_PHDR →
  apart phdr SIZEOF_PHDR (ehdr, SIZEOF_EHDR) →
  segs_alloc (vm (ksched k)) segs v' → Forall (seg_room (kfs k) ehdr phdr) loads → disjoint_segs loads →
  (nseg < fuel)%nat →
  ∃ k' t' tbl', load_elf sym depth uninit fsym phys fuel k filename ehdr phdr = Ok (entry, k') ∧
    ksched k' = set_vm (ksched k) v' ∧ vga_out (con (kfs k')) = vga_out (con (kfs k)) ∧
    Forall (λ ph, bytes_at (kmem k') (p_vaddr ph) (chunk f (p_offset ph) (p_filesz ph))) loads ∧
    (∀ x, untouched phdr loads x → ¬ (ehdr ≤ x < ehdr + SIZEOF_EHDR) →
      ¬ (vga_out (con (kfs k)) ≤ x < vga_out (con (kfs k)) + VGA_LENGTH) → kmem k' !! x = kmem k !! x) ∧
    vfs_rel fsym t' a p0 fs (kfs k') tbl'.
Proof.
  intros segs loads Hrel Hlen Hc Hp Hfind Hei Hbe Hbp Hap Hsegs Hroom Hdis Hfu.
  destruct (load_header_spec (kfs k) t tbl filename c n j hd ident entry pos nseg ehdr Hrel Hlen Hc Hp Hfind Hei Hbe)
    as (s3 & t' & Hh & Hb & Hm & Hv & Hag & Hrel3).
  destruct Hei as [[_ Hl64] _ Hen _ Hpn Hps]. rewrite load_elf_split, Hh. out_red.
  destruct (load_loop_spec t' nseg (set_kfs k s3) _ (length tbl) ehdr phdr hd 0 pos fuel v' Hrel3)
    as (k' & tbl' & -> & Hsc & Hvo & Hb' & Hld & Hun & Hrel'); try done.
  - by rewrite lookup_app_r, Nat.sub_diag.
  - by apply (buffer_step _ (kfs k)).
  - eapply Forall_impl; [exact Hroom |]. intros q. by apply seg_room_step.
  - out_red. unfold e_entry. rewrite (load64_field _ _ _ 24 Hb') by lia. change (Z.to_nat 24) with 24%nat. rewrite Hen.
    exists k', t', tbl'. split_and!; try done; [by rewrite Hvo |]. intros x X1 X2 X3. rewrite Hun by done. by apply Hag.
Qed.

(** [C7] load_elf of a file of the archive returns its entry point with the
    bytes of every segment to be loaded at its address, when vmm_alloc can
    back the segments; no other memory changes but the screen and the local
    variables. *)
Theorem load_elf_segments (k : kernel) t tbl filename c n j hd ident entry pos nseg ehdr phdr v' fuel :
  let segs := phdrs nseg (m_data f) pos in
  let loads := filter is_load segs in
  vfs_rel fsym t a p0 fs (kfs k) tbl → (length tbl < 10)%nat →
  kmem k !! filename = Some c → path_at (kmem k) (filename + 1) n → find_member fs n = Some (j, f) →
  elf_image hd ident entry pos nseg →
  buffer fsym (kfs k) a p0 fs ehdr SIZEOF_EHDR → buffer fsym (kfs k) a p0 fs phdr SIZEOF_PHDR →
  apart phdr SIZEOF_PHDR (ehdr, SIZEOF_EHDR) →
  segs_alloc (vm (ksched k)) segs v' → Forall (seg_room (kfs k) ehdr phdr) loads → disjoint_segs loads →
  (nseg < fuel)%nat →
  ∃ k' t' tbl', load_elf sym depth uninit fsym phys fuel k filename ehdr phdr = Ok (entry, k') ∧
    ksched k' = set_vm (ksched k) v' ∧ vga_out (con (kfs k')) = vga_out (con (kfs k)) ∧
    Forall (λ ph, bytes_at (kmem k') (p_vaddr ph) (chunk f (p_offset ph) (p_filesz ph))) loads ∧
    (∀ x, untouched phdr loads x → ¬ (ehdr ≤ x < ehdr + SIZEOF_EHDR) →
      ¬ (vga_out (con (kfs k)) ≤ x < vga_out (con (kfs k)) + VGA_LENGTH) → kmem k' !! x = kmem k !! x) ∧
    vfs_rel fsym t' a p0 fs (kfs k') tbl'.
Proof. apply load_elf_loads. Qed.

End Load.
