(* ===== verification/Syscall.v ===== *)
(** * System calls (syscall.c)

    The handler of the system call interrupt: the number is in rax, the
    arguments in rdi, rsi and rdx. *)

From S2P Require Import Prelude Iface Mem LibTitan Pmm MmState HashMap Vga Tar Vfs Cpu Sched Resource.

Definition with_rax (c : cpu_context_t) (v : Z) : cpu_context_t :=
  CpuContext v (rbx c) (rcx c) (rdx c) (rdi c) (rsi c) (rbp c) (r8 c) (r9 c) (r10 c) (r11 c) (r12 c) (r13 c)
    (r14 c) (r15 c) (vec c) (error_code c) (rip_i c) (cs_i c) (flags_i c) (rsp_i c) (ss_i c).

Section Syscall.
Context {F H : Type} `{FrameAlloc F} `{HeapAlloc H} (fsym : fs_symbols).
Local Abbreviation kernel := (kernel F H).

(** [syscall_handler]: the context to return to. *)
Definition syscall_handler (k : kernel) (context : cpu_context_t) : outcome (cpu_context_t * kernel) :=
  if rax context =? 0 then
    current_resource ← table_at k (current_process (ksched k)) (rdi context);
    r ← resource_at k current_resource;
    '(_, k') ← call_resource fsym (read r) k current_resource (rsi context) (rdx context);
    Ok (context, k')
  else if rax context =? 1 then
    str ← c_string (fs_mem (kfs k)) (rdi context);
    c ← printk (con (kfs k)) [37; 115] [AStr str];
    Ok (context, set_kcon k c)
  else if rax context =? 2 then
    '(h, k') ← register_file_resource fsym k (rdi context);
    Ok (with_rax context (u64 h), k')
  else if rax context =? 60 then
    t ← thread_at (ksched k) (current_thread (ksched k));
    Ok (context, set_ksched k (set_thread (ksched k) (current_thread (ksched k)) (with_status t DEAD)))
  else Fault (Panic "syscall").

(** ** Files through system calls *)

(** The file system of [k] is related to the table [tbl]; the current process
    has the table [handles] of resources. *)
Record files_rel (t : terminal) (a p0 : Z) (fs : list member) (k : kernel) (tbl : open_files) (handles : list Z)
    : Prop := {
  fr_vfs : vfs_rel fsym t a p0 fs (kfs k) tbl;
  fr_proc : ∃ p, prc (ksched k) !! current_process (ksched k) = Some p ∧ resource_table p = handles;
  fr_null : current_process (ksched k) ≠ NULL;
}.

Lemma syscall_open_spec t a p0 fs k tbl handles ctx c n j f r h' :
  files_rel t a p0 fs k tbl handles → rax ctx = 2 → fs_mem (kfs k) !! rdi ctx = Some c →
  path_at (fs_mem (kfs k)) (rdi ctx + 1) n → find_member fs n = Some (j, f) → (length tbl < 10)%nat →
  ha_alloc (kheap (vm (ksched k))) SIZEOF_RESOURCE_T = Ok (r, h') →
  match free_handle handles 0 with
  | Some i => ∃ k', syscall_handler k ctx = Ok (with_rax ctx (u64 (Z.of_nat i)), k') ∧
      files_rel t a p0 fs k' (tbl ++ [(f, 0)]) (<[i := r]> handles) ∧
      resources k' = <[r := file_resource (Z.of_nat (length tbl))]> (resources k) ∧ con (kfs k') = con (kfs k)
  | None => ∃ k', syscall_handler k ctx = Ok (with_rax ctx (2 ^ 64 - 1), k') ∧
      files_rel t a p0 fs k' (tbl ++ [(f, 0)]) handles ∧ resources k' = resources k
  end.
Proof.
  intros [Hv (p & Hp & Ht) Hn] Hrax Hc Hpath Hf Hl Ha.
  pose proof (vfs_open_spec fsym t a p0 fs (kfs k) tbl (rdi ctx) c n 0 Hv Hc Hpath) as Ho.
  rewrite Hf, (proj2 (Nat.ltb_lt _ _)) in Ho by done. destruct Ho as (s' & Ho & Hv' & Hcon).
  unfold syscall_handler. rewrite Hrax. cbn [Z.eqb Pos.eqb]. unfold register_file_resource. rewrite Ho. out_red.
  pose proof (register_resource_spec (set_kfs k s') (current_process (ksched k)) p
    (file_resource (Z.of_nat (length tbl))) r h' Hn Hp Ha) as Hr.
  rewrite Ht in Hr. destruct (free_handle handles 0) as [i|].
  - destruct Hr as (k' & Hr & Hk1 & Hk2 & Hk3 & Hk4 & Hk5). rewrite Hr. exists k'. split_and!; try done.
    + split.
      * by rewrite Hk1.
      * rewrite Hk3, Hk5. cbn [ksched set_kfs]. rewrite lookup_insert_eq. by eexists.
      * by rewrite Hk5.
    + by rewrite Hk1.
  - rewrite Hr. exists (set_kfs k s'). split_and!; try done. split; [done | by exists p | done].
Qed.

Lemma syscall_read_spec t a p0 fs k tbl handles ctx i r h f pos :
  files_rel t a p0 fs k tbl handles → rax ctx = 0 → rdi ctx = Z.of_nat i → handles !! i = Some r →
  resources k !! r = Some (file_resource (Z.of_nat h)) → tbl !! h = Some (f, pos) →
  buffer fsym (kfs k) a p0 fs (rsi ctx) (rdx ctx) → 0 ≤ pos →
  pos + rdx ctx ≤ Z.of_nat (length (m_data f)) → Z.of_nat (length (m_data f)) < 2 ^ 31 →
  ∃ k', syscall_handler k ctx = Ok (ctx, k') ∧
    bytes_at (fs_mem (kfs k')) (rsi ctx) (chunk f pos (rdx ctx)) ∧
    agree_outside (rsi ctx) (rdx ctx) (fs_mem (kfs k)) (fs_mem (kfs k')) ∧
    files_rel t a p0 fs k' (<[h := (f, pos + rdx ctx)]> tbl) handles ∧ resources k' = resources k ∧
    vga_out (con (kfs k')) = vga_out (con (kfs k)).
Proof.
  intros [Hv (p & Hp & Ht) Hn] Hrax Hrdi Hi Hr Hh Hbuf Hpos Hle Hlen.
  destruct (vfs_read_spec fsym t a p0 fs (kfs k) tbl h f pos (rsi ctx) (rdx ctx) Hv Hh Hbuf Hpos Hle Hlen)
    as (s' & Hrd & Hb & Hag & _ & Hvo & Hv').
  exists (set_kfs k s'). split; [| split_and!; try done; by split; [| exists p |]].
  unfold syscall_handler. rewrite Hrax. cbn [Z.eqb]. unfold table_at, proc_at. rewrite Hp. out_red.
  rewrite Hrdi, Nat2Z.id, Ht, Hi. out_red. unfold resource_at. rewrite Hr. out_red.
  cbn [file_resource read call_resource]. unfold read_resource, resource_at. rewrite Hr. out_red.
  cbn [file_resource type internal_handle]. by rewrite Hrd.
Qed.

(** [C10] The open call answers the lowest free slot of the table of resources
    of the process, and a read call with it copies the beginning of the file
    into the buffer of the caller. *)
Theorem syscall_open_read t a p0 fs k tbl handles ctx ctx' c n j f r h' i :
  files_rel t a p0 fs k tbl handles → rax ctx = 2 → fs_mem (kfs k) !! rdi ctx = Some c →
  path_at (fs_mem (kfs k)) (rdi ctx + 1) n → find_member fs n = Some (j, f) → (length tbl < 10)%nat →
  ha_alloc (kheap (vm (ksched k))) SIZEOF_RESOURCE_T = Ok (r, h') →
  free_handle handles 0 = Some i → (length handles = 5)%nat →
  rax ctx' = 0 → rdi ctx' = u64 (Z.of_nat i) → buffer fsym (kfs k) a p0 fs (rsi ctx') (rdx ctx') →
  rdx ctx' ≤ Z.of_nat (length (m_data f)) < 2 ^ 31 →
  ∃ k1 k2, syscall_handler k ctx = Ok (with_rax ctx (rdi ctx'), k1) ∧
    syscall_handler k1 ctx' = Ok (ctx', k2) ∧
    bytes_at (fs_mem (kfs k2)) (rsi ctx') (take (Z.to_nat (rdx ctx')) (m_data f)).
Proof.
  intros Hk Hrax Hc Hp Hf Hl Ha Hfree Hlen Hrax' Hrdi' Hbuf Hle.
  pose proof (syscall_open_spec t a p0 fs k tbl handles ctx c n j f r h' Hk Hrax Hc Hp Hf Hl Ha) as Ho.
  rewrite Hfree in Ho. destruct Ho as (k1 & Ho & Hk1 & Hres & Hcon).
  pose proof (free_handle_spec handles 0) as Hi. rewrite Hfree in Hi. destruct Hi as (_ & Hi & _).
  rewrite Nat.sub_0_r in Hi. pose proof (lookup_lt_Some _ _ _ Hi).
  rewrite u64_small in Hrdi' by lia.
  destruct (syscall_read_spec t a p0 fs k1 (tbl ++ [(f, 0)]) (<[i := r]> handles) ctx' i r (length tbl) f 0)
    as (k2 & Hr & Hb & _); try done; try lia.
  - by apply list_lookup_insert_eq.
  - by rewrite Hres, lookup_insert_eq.
  - rewrite lookup_app_r, Nat.sub_diag by lia. done.
  - apply (buffer_step _ (kfs k)); [done | unfold fs_mem; by rewrite Hcon | by rewrite Hcon].
  - exists k1, k2. rewrite Ho, Hrdi', u64_small by lia. split_and!; [done | done |].
    unfold chunk in Hb. by rewrite drop_0 in Hb.
Qed.

(** With a full table of resources, open answers -1, but the file stays open:
    its slot of the ten of the file system is lost. *)
Theorem syscall_open_leaks t a p0 fs k tbl handles ctx c n j f r h' :
  files_rel t a p0 fs k tbl handles → rax ctx = 2 → fs_mem (kfs k) !! rdi ctx = Some c →
  path_at (fs_mem (kfs k)) (rdi ctx + 1) n → find_member fs n = Some (j, f) → (length tbl < 10)%nat →
  ha_alloc (kheap (vm (ksched k))) SIZEOF_RESOURCE_T = Ok (r, h') → 0 ∉ handles →
  ∃ k', syscall_handler k ctx = Ok (with_rax ctx (2 ^ 64 - 1), k') ∧
    files_rel t a p0 fs k' (tbl ++ [(f, 0)]) handles ∧ resources k' = resources k.
Proof.
  intros Hk Hrax Hc Hp Hf Hl Ha Hfull.
  pose proof (syscall_open_spec t a p0 fs k tbl handles ctx c n j f r h' Hk Hrax Hc Hp Hf Hl Ha) as Ho.
  pose proof (free_handle_spec handles 0) as Hi. destruct (free_handle handles 0) as [i|]; [| exact Ho].
  destruct Hi as (_ & Hi & _). by apply list_elem_of_lookup_2 in Hi.
Qed.

(** The calls that touch no file: write prints the string, exit marks the
    thread dead and returns to it, every other number stops the kernel. *)
Theorem syscall_write_exit t k ctx :
  shows (con (kfs k)) t → locked (con (kfs k)) = false →
  (∀ str, rax ctx = 1 → bytes_at (fs_mem (kfs k)) (rdi ctx) (str ++ [0]) → Forall char_ok str →
    ∃ c', syscall_handler k ctx = Ok (ctx, set_kcon k c') ∧ shows c' (puts t str) ∧ only_screen (con (kfs k)) c') ∧
  (∀ th, rax ctx = 60 → thr (ksched k) !! current_thread (ksched k) = Some th →
    syscall_handler k ctx = Ok (ctx, set_ksched k
      (set_thread (ksched k) (current_thread (ksched k)) (with_status th DEAD)))) ∧
  (rax ctx ∉ [0; 1; 2; 60] → syscall_handler k ctx = Fault (Panic "syscall")).
Proof.
  intros Hs Hl. unfold syscall_handler. split_and!.
  - intros str -> Hb Hc. cbn [Z.eqb Pos.eqb]. rewrite (c_string_spec _ _ _ Hb Hc). out_red.
    destruct (printk_message (con (kfs k)) t [] str [] Hs Hl) as (c' & Hp & Hs' & Ho); [set_solver | set_solver |].
    simpl app in Hp. rewrite Hp. exists c'. rewrite app_nil_l, app_nil_r in Hs'. done.
  - intros th -> Ht. cbn [Z.eqb Pos.eqb]. unfold thread_at. by rewrite Ht.
  - rewrite !not_elem_of_cons. intros (H0' & H1' & H2' & H3' & _). by rewrite !(proj2 (Z.eqb_neq _ _)).
Qed.

End Syscall.
