(* ===== verification/Handles.v ===== *)
(** * The handles of processes over time

    The tables of resources in every state that system calls, the scheduler and
    the creation of processes lead to. *)

From S2P Require Import Prelude Iface Mem Pmm MmState HashMap PageMap Vmm Space Vga Tar Vfs Cpu Sched Resource Syscall.

Section Handles.
Context {F H : Type} `{FrameAlloc F} `{HeapAlloc H} (sym : symbols) (depth : nat) (uninit : Z) (fsym : fs_symbols).
Local Abbreviation kernel := (kernel F H).
Local Abbreviation sched := (sched F H).

(** ** The scheduler leaves the tables alone *)

(** Each table of [s'] is one of [s] or new. *)
Definition same_tables (s s' : sched) : Prop :=
  ∀ p' o', prc s' !! p' = Some o' →
    resource_table o' = resource_table zero_process ∨ ∃ p o, prc s !! p = Some o ∧ resource_table o' = resource_table o.

#[local] Instance same_tables_preorder : PreOrder same_tables.
Proof.
  split; [intros s p o Hp; right; by exists p, o |].
  intros s1 s2 s3 H1' H2' p3 o3 Hp. destruct (H2' _ _ Hp) as [?|(p2 & o2 & Hp2 & ->)]; [by left | by apply (H1' p2)].
Qed.

Lemma same_prc (s s' : sched) : prc s' = prc s → same_tables s s'.
Proof. intros Hp p o Ho. right. exists p, o. by rewrite <- Hp. Qed.

Lemma same_set_proc (s s' : sched) q x y :
  prc s' = prc s → prc s !! q = Some x → resource_table y = resource_table x → same_tables s (set_proc s' q y).
Proof.
  intros Hp Hq Hy p o Ho. cbn [prc set_proc set_prc] in Ho. rewrite Hp in Ho. right.
  destruct (decide (q = p)) as [->|Hne].
  - rewrite lookup_insert_eq in Ho. injection Ho as <-. by exists p, x.
  - rewrite lookup_insert_ne in Ho by done. by exists p, o.
Qed.

Lemma proc_at_Some (s : sched) p o : proc_at s p = Ok o → prc s !! p = Some o.
Proof. apply of_option_Ok. Qed.

(** The calls that only move threads, the memory manager or who runs. *)
Lemma kfree_s_prc (s s' : sched) p : kfree_s s p = Ok s' → prc s' = prc s.
Proof. unfold kfree_s. intros Hs. by steps Hs. Qed.

Lemma switch_process_prc (s s' : sched) : switch_process s = Ok s' → prc s' = prc s.
Proof. unfold switch_process. intros Hs. by steps Hs. Qed.

Lemma switch_thread_prc (s s' : sched) : switch_thread s = Ok s' → prc s' = prc s.
Proof.
  unfold switch_thread. intros Hs. steps Hs; [done |].
  match goal with Hx : switch_process _ = Ok _ |- _ => by apply switch_process_prc in Hx end.
Qed.

Lemma save_context_prc (s s' : sched) ctx : save_context s ctx = Ok s' → prc s' = prc s.
Proof. unfold save_context. intros Hs. by steps Hs. Qed.

Lemma dispatch_prc (s s' : sched) c : dispatch s = Ok (c, s') → prc s' = prc s.
Proof. unfold dispatch. intros Hs. steps Hs. by destruct (decide _). Qed.

Lemma unlink_process_tables (s s' : sched) p : unlink_process s p = Ok s' → same_tables s s'.
Proof.
  unfold unlink_process. intros Hs. steps Hs; [by apply same_prc |].
  repeat match goal with Hx : proc_at _ _ = Ok _ |- _ => apply proc_at_Some in Hx end.
  by eapply same_set_proc.
Qed.

Lemma unlink_thread_tables (s s' : sched) t : unlink_thread s t = Ok s' → same_tables s s'.
Proof.
  unfold unlink_thread. intros Hs. steps Hs; [| by apply same_prc].
  repeat match goal with Hx : proc_at _ _ = Ok _ |- _ => apply proc_at_Some in Hx end.
  by eapply same_set_proc.
Qed.

Section Reaping.
Variable reap : sched → Z → outcome sched.
Hypothesis Hreap : ∀ s p s', reap s p = Ok s' → same_tables s s'.

Lemma reap_thread_with_tables (s s' : sched) t : reap_thread_with reap s t = Ok s' → same_tables s s'.
Proof.
  unfold reap_thread_with. intros Hs. apply bind_Ok in Hs as (o & _ & Hs). apply bind_Ok in Hs as (v & _ & Hs).
  apply bind_Ok in Hs as (s1 & Hu%unlink_thread_tables & Hs). apply bind_Ok in Hs as (o1 & _ & Hs).
  apply bind_Ok in Hs as (pr & _ & Hs). apply bind_Ok in Hs as (s2 & Hr & Hk%kfree_s_prc).
  etrans; [exact Hu |]. etrans; [| by apply same_prc]. destruct (threads pr =? NULL); [by apply Hreap in Hr |].
  by injection Hr as <-.
Qed.

Lemma reap_threads_tables fuel : ∀ (s s' : sched) t, reap_threads reap fuel s t = Ok s' → same_tables s s'.
Proof.
  induction fuel as [|fuel IH]; intros s s' t Hs; cbn [reap_threads] in Hs; [done |].
  destruct (t =? NULL); [by injection Hs as <- |]. apply bind_Ok in Hs as (o & _ & Hs).
  apply bind_Ok in Hs as (s1 & Hr%reap_thread_with_tables & Hs). etrans; [exact Hr | by apply IH in Hs].
Qed.

End Reaping.

Lemma reap_process_tables nesting : ∀ (s : sched) p s', reap_process nesting s p = Ok s' → same_tables s s'.
Proof.
  induction nesting as [|nesting IH]; intros s p s' Hs; cbn [reap_process] in Hs; [done |].
  apply bind_Ok in Hs as (s1 & Hu%unlink_process_tables & Hs). apply bind_Ok in Hs as (o & _ & Hs).
  apply bind_Ok in Hs as (s2 & Hr & Hs). apply (reap_threads_tables _ IH) in Hr.
  apply bind_Ok in Hs as (v & _ & Hk%kfree_s_prc). etrans; [exact Hu |]. etrans; [exact Hr |]. by apply same_prc.
Qed.

Lemma schedule_tables nesting (s s' : sched) ctx c : schedule nesting s ctx = Ok (c, s') → same_tables s s'.
Proof.
  unfold schedule. intros Hs. apply bind_Ok in Hs as (s1 & Hc%save_context_prc & Hs).
  apply bind_Ok in Hs as (prev & _ & Hs). apply bind_Ok in Hs as (s2 & Hr & Hs).
  apply bind_Ok in Hs as (s3 & Ht%switch_thread_prc & Hd%dispatch_prc).
  transitivity s1; [by apply same_prc |]. transitivity s2; [| apply same_prc; by rewrite Hd].
  destruct (decide (status prev = DEAD)); [| injection Hr as <-; by apply same_prc].
  eapply reap_thread_with_tables; [| exact Hr]. apply reap_process_tables.
Qed.

(** A created process starts with an empty table. *)
Lemma create_thread_tables (s s' : sched) p name wrapper f a u t name' :
  create_thread sym depth uninit s p name wrapper f a u = Ok (t, name', s') → same_tables s s'.
Proof.
  unfold create_thread. intros Hs. apply bind_Ok in Hs as ([t0 vm1] & _ & Hs). apply bind_Ok in Hs as (pr & Hpr%proc_at_Some & Hs).
  apply bind_Ok in Hs as (s2 & Hs2 & Hs). apply bind_Ok in Hs as (o & _ & Hs). apply bind_Ok in Hs as ([stk s4] & Hs4 & Hs).
  apply bind_Ok in Hs as (o' & _ & Hs). injection Hs as <- _ <-.
  assert (same_tables s s2) as H12.
  { destruct (negb (threads pr =? NULL)); [all_steps Hs2; by apply same_prc |].
    injection Hs2 as <-. by eapply same_set_proc. }
  etrans; [exact H12 |]. apply same_prc. destruct u; by all_steps Hs4.
Qed.

Lemma create_proc_tables (s s' : sched) wrapper f a space q u p :
  create_proc sym depth uninit s wrapper f a space q u = Ok (p, s') → same_tables s s'.
Proof.
  unfold create_proc. intros Hs. apply bind_Ok in Hs as ([p0 vm1] & _ & Hs).
  apply bind_Ok in Hs as ([[t n] s3] & Ht%create_thread_tables & Hs).
  assert (same_tables s s3) as H3'.
  { etrans; [| exact Ht]. intros p1 o1 Hp. cbn in Hp. destruct (decide (p0 = p1)) as [->|Hne].
    - rewrite lookup_insert_eq in Hp. injection Hp as <-. by left.
    - rewrite lookup_insert_ne in Hp by done. right. by exists p1, o1. }
  destruct q; [| by injection Hs as _ <-]. apply bind_Ok in Hs as (o & Ho%proc_at_Some & [= _ <-]).
  etrans; [exact H3' |]. by eapply same_set_proc.
Qed.

(** ** Steps *)

(** What happens to the resources: a system call of the running process, an
    interrupt that schedules, the creation of a process. *)
Inductive kernel_step : kernel → kernel → Prop :=
| step_syscall k ctx ctx' k' : syscall_handler fsym k ctx = Ok (ctx', k') → kernel_step k k'
| step_schedule k nesting ctx ctx' s :
    schedule nesting (ksched k) ctx = Ok (ctx', s) → kernel_step k (set_ksched k s)
| step_create_proc k wrapper f a space q u p s :
    create_proc sym depth uninit (ksched k) wrapper f a space q u = Ok (p, s) → kernel_step k (set_ksched k s).

(** No process has a resource yet. *)
Definition no_resources (k : kernel) : Prop :=
  resources k = ∅ ∧ ∀ p o, prc (ksched k) !! p = Some o → resource_table o = replicate 5 NULL.

(** No resource has a close function, and every entry of a table of five is
    empty or a resource. *)
Record handles_ok (k : kernel) : Prop := {
  ho_closed : never_closed k;
  ho_tables : ∀ p o, prc (ksched k) !! p = Some o →
    length (resource_table o) = 5%nat ∧ Forall (λ r, r = NULL ∨ is_Some (resources k !! r)) (resource_table o);
}.

Lemma no_resources_ok k : no_resources k → handles_ok k.
Proof.
  intros [Hr Ht]. split; [unfold never_closed; rewrite Hr; apply map_Forall_empty |]. intros p o Ho.
  rewrite (Ht _ _ Ho). split; [done |]. apply Forall_replicate. by left.
Qed.

Lemma handles_ok_tables k s : handles_ok k → same_tables (ksched k) s → handles_ok (set_ksched k s).
Proof.
  intros [Hc Ht] Hs. split; [done |]. intros p' o' Ho. destruct (Hs _ _ Ho) as [->|(p & o & Hp & ->)]; [| by apply (Ht p)].
  split; [done |]. apply (Forall_replicate (λ r, r = NULL ∨ _) 5 NULL). by left.
Qed.

Lemma handles_ok_same k k' : resources k' = resources k → prc (ksched k') = prc (ksched k) → handles_ok k → handles_ok k'.
Proof. intros Hr Hp [Hc Ht]. split; [unfold never_closed; by rewrite Hr |]. intros p o. rewrite Hp, Hr. apply Ht. Qed.

Lemma register_resource_ok k process resource h k' :
  handles_ok k → close resource = None → register_resource k process resource = Ok (h, k') → handles_ok k'.
Proof.
  intros Hok Hc Hr. pose proof (register_resource_closed _ _ _ _ _ (ho_closed _ Hok) Hc Hr) as Hn. split; [exact Hn |].
  revert Hr. unfold register_resource. destruct (process =? NULL); [intros [= _ <-]; apply Hok |].
  intros (pr & Hp & Hres)%bind_Ok. destruct (free_handle (resource_table pr) 0) as [i|]; [| injection Hres as _ <-; apply Hok].
  apply bind_Ok in Hres as ([r v] & _ & Hres). apply bind_Ok in Hres as (k1 & Hk & [= _ <-]).
  unfold set_table in Hk. apply bind_Ok in Hk as (p' & Hp' & [= <-]). apply proc_at_Some in Hp, Hp'.
  cbn [ksched set_ksched set_vm prc set_resources set_proc set_prc resources] in *. intros q o Ho.
  assert (∀ l, Forall (λ x, x = NULL ∨ is_Some (resources k !! x)) l →
    Forall (λ x, x = NULL ∨ is_Some (<[r:=resource]> (resources k) !! x)) l) as Hmono.
  { intros l Hl. eapply Forall_impl; [exact Hl |]. intros x [?|Hx]; [by left | right]. apply lookup_insert_is_Some'. by right. }
  destruct (decide (process = q)) as [->|Hne].
  - rewrite lookup_insert_eq in Ho. injection Ho as <-. destruct (ho_tables _ Hok _ _ Hp') as [Hl Hf].
    cbn [resource_table with_table]. split; [by rewrite length_insert |]. apply Forall_insert; [by apply Hmono |].
    right. by rewrite lookup_insert_eq.
  - rewrite lookup_insert_ne in Ho by done. destruct (ho_tables _ Hok _ _ Ho) as [Hl Hf]. by split; [| apply Hmono].
Qed.

Lemma syscall_ok k ctx ctx' k' : handles_ok k → syscall_handler fsym k ctx = Ok (ctx', k') → handles_ok k'.
Proof.
  intros Hok. unfold syscall_handler. destruct (rax ctx =? 0); [| destruct (rax ctx =? 1); [| destruct (rax ctx =? 2);
    [| destruct (rax ctx =? 60); [| done]]]].
  - intros (cr & _ & (r & _ & ([m k1] & Hc & [= _ <-])%bind_Ok)%bind_Ok)%bind_Ok. revert Hc.
    unfold call_resource. destruct (read r) as [[]|]; [| done]. unfold read_resource.
    intros (o & _ & Hc)%bind_Ok. destruct (type o); apply bind_Ok in Hc as (x1 & _ & Hc);
      [destruct x1 | ..]; injection Hc as _ <-; by apply (handles_ok_same k).
  - intros (str & _ & (c & _ & [= _ <-])%bind_Ok)%bind_Ok. by apply (handles_ok_same k).
  - intros ([h k1] & Hr & [= _ <-])%bind_Ok. unfold register_file_resource in Hr.
    apply bind_Ok in Hr as ([h2 s] & _ & Hr). refine (register_resource_ok _ _ _ _ _ _ _ Hr); [| done]. by apply (handles_ok_same k).
  - intros (t & _ & [= _ <-])%bind_Ok. by apply (handles_ok_same k).
Qed.

Lemma kernel_step_ok k k' : kernel_step k k' → handles_ok k → handles_ok k'.
Proof.
  intros [] Hok; [by eapply syscall_ok | | ]; apply handles_ok_tables; try done.
  - by eapply schedule_tables.
  - by eapply create_proc_tables.
Qed.

(** What [remove_resource] answers then. *)
Lemma remove_resource_answer k process o handle :
  handles_ok k → prc (ksched k) !! process = Some o →
  remove_resource k process handle =
    if decide (5 ≤ handle < 100) then Fault (OutOfBounds "resource_table") else Ok (false, k).
Proof.
  intros [Hc Ht] Ho. destruct (Ht _ _ Ho) as [Hl Hf]. unfold remove_resource, get_resource, table_at, proc_at, MAX_HANDLES.
  rewrite Ho. out_red. destruct (handle <? 0) eqn:E1; zbool; [cbn [orb]; out_red; by rewrite decide_False by lia |].
  destruct (100 <=? handle) eqn:E2; zbool; [cbn [orb]; out_red; by rewrite decide_False by lia |]. cbn [orb].
  destruct (decide (5 ≤ handle < 100)).
  - rewrite lookup_ge_None_2 by lia. done.
  - destruct (lookup_lt_is_Some_2 (resource_table o) (Z.to_nat handle)) as [r Hr]; [lia |]. rewrite Hr. out_red.
    destruct (r =? NULL) eqn:E3; zbool; [done |]. destruct (Forall_lookup_1 _ _ _ _ Hf Hr) as [?|[x Hx]]; [done |].
    unfold resource_at. rewrite Hx. out_red. by rewrite (Hc _ _ Hx).
Qed.

(** [C35] In every state that system calls, the scheduler and the creation of
    processes lead to from one without resources, no resource has a close
    function, and remove_resource of any process never succeeds: it returns
    false and changes nothing for the handles of the table and for the ones
    that get_resource refuses, and looks behind the table of five entries for
    the handles 5 to 99. *)
Theorem resources_never_removed k0 k process o handle :
  no_resources k0 → rtc kernel_step k0 k → prc (ksched k) !! process = Some o →
  never_closed k ∧
  remove_resource k process handle =
    if decide (5 ≤ handle < 100) then Fault (OutOfBounds "resource_table") else Ok (false, k).
Proof.
  intros H0' Hr Ho. assert (handles_ok k) as Hok.
  { clear Ho. apply no_resources_ok in H0'. induction Hr as [|k0 k1 k Hs _ IH]; [done |]. by apply IH, (kernel_step_ok k0). }
  split; [apply Hok | by eapply remove_resource_answer].
Qed.

End Handles.
