(* ===== verification/Exec.v ===== *)
(** * The start of a program (exec_elf of exec_elf.c)

    The composition of [create_vmm], [load_elf] and [create_proc]: the program
    gets an address space of its own with its segments, and a thread in user
    mode in the wrapper that calls its entry point. *)

From S2P Require Import Prelude Iface Mem LibTitan Fields Pmm MmState HashMap PageMap Vmm Space View Vga Tar Vfs Cpu Sched RoundRobin Resource Elf.

(** Bytes of the kernel and of the address space. *)
Definition high (r : Z * Z) : Prop := KERNEL_TEXT_START ≤ r.1.
Definition user_bytes (u : mem) : Prop := ∀ x b, u !! x = Some b → x < KERNEL_TEXT_START.

Lemma lookup_kernel u m x : user_bytes u → KERNEL_TEXT_START ≤ x → (u ∪ kernel_half m) !! x = m !! x.
Proof.
  intros Hu Hx. rewrite lookup_union_r.
  - unfold kernel_half. destruct (m !! x) as [b|] eqn:E.
    + by apply map_lookup_filter_Some_2.
    + apply map_lookup_filter_None_2. by left.
  - apply eq_None_not_Some. intros [b Hb]. apply Hu in Hb. lia.
Qed.

Lemma lookup_user u m x : x < KERNEL_TEXT_START → (u ∪ kernel_half m) !! x = u !! x.
Proof.
  intros Hx. rewrite lookup_union_l; [done |]. unfold kernel_half.
  apply map_lookup_filter_None_2. right. intros b _ Hk. simpl in Hk. lia.
Qed.

Lemma lookup_user_half m x : x < KERNEL_TEXT_START → user_half m !! x = m !! x.
Proof.
  intros Hx. unfold user_half. destruct (m !! x) as [b|] eqn:E.
  - by apply map_lookup_filter_Some_2.
  - apply map_lookup_filter_None_2. by left.
Qed.

Lemma user_half_bytes m : user_bytes (user_half m).
Proof. intros x b Hx. unfold user_half in Hx. by apply map_lookup_filter_Some in Hx as [_ Hx]. Qed.

Lemma halves_ok u m : bytes_ok u → bytes_ok m → bytes_ok (u ∪ kernel_half m).
Proof.
  intros Hu Hm. apply map_Forall_union_2; [done |]. intros x b Hx. unfold kernel_half in Hx.
  apply map_lookup_filter_Some in Hx as [Hx _]. by apply (Hm x).
Qed.

Lemma user_half_ok m : bytes_ok m → bytes_ok (user_half m).
Proof. intros Hm x b Hx. unfold user_half in Hx. apply map_lookup_filter_Some in Hx as [Hx _]. by apply (Hm x). Qed.

Lemma bytes_at_kernel u m a l :
  user_bytes u → KERNEL_TEXT_START ≤ a → bytes_at m a l → bytes_at (u ∪ kernel_half m) a l.
Proof. intros Hu Ha Hb. apply (bytes_at_agree m); [| done]. intros i Hi. apply lookup_kernel; [done | lia]. Qed.

Lemma mapped_kernel u m a n :
  user_bytes u → KERNEL_TEXT_START ≤ a → mapped m a n → mapped (u ∪ kernel_half m) a n.
Proof. intros Hu Ha Hm i Hi. rewrite lookup_kernel by (done || lia). by apply Hm. Qed.

(** Loading segments stays in the address space. *)
Lemma segs_alloc_space {F H : Type} `{FrameAlloc F} `{HeapAlloc H} sym depth uninit phys segs :
  ∀ v w : mm F H, segs_alloc sym depth uninit phys v segs w → same_space v w.
Proof.
  induction segs as [|ph segs IH]; intros v w Hs; cbn [segs_alloc] in Hs; [by subst |].
  destruct (p_type ph =? PT_LOAD); [| by apply IH]. destruct Hs as (v1 & [Ha _] & Hs).
  etrans; [by eapply vmm_alloc_keeps | by apply IH].
Qed.

Section Exec.
Context {F H : Type} `{FrameAlloc F} `{HeapAlloc H}.
Context (sym : symbols) (depth : nat) (uninit : Z) (fsym : fs_symbols) (phys : mem) (vmm_first : bool).
Context (a p0 : Z) (fs : list member) (f : member).
Local Abbreviation kernel := (kernel F H).
Local Abbreviation vm_state := (mm F H).

(** The file system lies in the kernel half. *)
Lemma vfs_rel_high t s tbl u :
  vfs_rel fsym t a p0 fs s tbl → Forall high (protected fsym s a p0 fs) →
  user_bytes u → bytes_ok u → u !! 1 = None →
  vfs_rel fsym t a p0 fs (set_fs_mem s (u ∪ kernel_half (fs_mem s))) tbl.
Proof.
  intros Hrel Hhi Hu Hok Hn1. apply vfs_rel_same; try done.
  - apply (Forall_impl _ _ _ Hhi). intros r Hr i Hi. unfold high in Hr. apply lookup_kernel; [done | lia].
  - apply halves_ok; [done |]. apply (sh_bytes _ _ (wk_shows _ _ _ _ (pa_walk _ _ _ _ _ (vr_parsed _ _ _ _ _ _ _ Hrel)))).
  - by rewrite lookup_user by (unfold KERNEL_TEXT_START; lia).
Qed.

Lemma buffer_high s u x n :
  buffer fsym s a p0 fs x n → KERNEL_TEXT_START ≤ x → user_bytes u →
  buffer fsym (set_fs_mem s (u ∪ kernel_half (fs_mem s))) a p0 fs x n.
Proof. intros [B1 B2 B3] Hx Hu. split; [by apply mapped_kernel | done | done]. Qed.

(** A segment of a user program: its pages lie below the kernel, its bytes in
    its pages and in the file. *)
Record user_seg (ph : elf64_phdr_t) : Prop := {
  us_base : 0 < seg_base ph ∧ seg_base ph + seg_len ph ≤ KERNEL_TEXT_START;
  us_bytes : seg_base ph ≤ p_vaddr ph ∧ p_vaddr ph + p_filesz ph ≤ seg_base ph + seg_len ph ∧ 0 ≤ p_filesz ph;
  us_file : 0 ≤ p_offset ph ∧ p_offset ph + p_filesz ph ≤ Z.of_nat (length (m_data f));
}.

Lemma user_seg_room s ehdr phdr ph :
  user_seg ph → Forall high (protected fsym s a p0 fs) → KERNEL_TEXT_START ≤ ehdr → KERNEL_TEXT_START ≤ phdr →
  seg_room fsym a p0 fs f s ehdr phdr ph.
Proof.
  intros [[U1 U2] U3 U4] Hhi He Hp. split; [done | done | | done]. apply Forall_app. split.
  - apply (Forall_impl _ _ _ Hhi). intros r Hr. unfold high in Hr. left. lia.
  - constructor; [left; simpl; lia |]. constructor; [left; simpl; lia | constructor].
Qed.

(** The calls of the memory manager succeed: the new space at [pml4t] with the
    regions [head] and the segments, the process [p] with the thread [th] and
    its stack, the return to the running process. *)
Record exec_calls (s : sched F H) (q : queue) (vmm : Z) (segs : list elf64_phdr_t) (pml4t p th : Z) (w v : vm_state)
    : Prop := {
  ec_calls : ∃ head loaded v1 v3 w1 w3 w4, create_vmm sym depth (vm s) = Ok (head, pml4t, v1) ∧
    switch_vm_space (set_pml4ts (set_obj v1 vmm head) (<[vmm := pml4t]> (pml4ts v1))) vmm = Ok v3 ∧
    segs_alloc sym depth uninit phys v3 segs w ∧ vm_objs w !! vmm = Some loaded ∧
    kmalloc_mm w SIZEOF_PROCESS_T = Ok (p, w1) ∧
    kmalloc_mm (set_pml4ts (set_obj w1 (vmm_of p) (if vmm_first then head else loaded))
      (<[vmm_of p := pml4t]> (pml4ts w1))) SIZEOF_THREAD_T = Ok (th, w3) ∧
    first_stack sym depth uninit w3 p (current_process s) (kernel_stack_ptr s) true = Ok (USER_STACK_START, w4) ∧
    switch_vm_space w4 (vmm_of (current_process s)) = Ok v;
  ec_heap : ha_inv (kheap w) ∧ Forall (ha_live (kheap w)) (current_process s :: q.*1 ++ (slots q).*2);
}.

(** The page tables: those of the running space and of all others are in the
    hash map, and there is room for one more. *)
Record tables_ready (v : vm_state) (spaces : gmap Z mem) : Prop := {
  tr_room : ∃ lv top, pt_inv v lv ∧ window sym 1 v lv top;
  tr_left : frames_left 1 (frames v) ∧ nodes_left 1 (kheap v);
  tr_spaces : is_Some (ptbl v (cr3 v)) ∧ ∀ r, is_Some (spaces !! r) → is_Some (ptbl v r);
}.

(** So the new table is none of theirs. *)
Lemma create_vmm_own v spaces head pml4t v1 :
  tables_ready v spaces → depth ≠ 0%nat → create_vmm sym depth v = Ok (head, pml4t, v1) →
  spaces !! pml4t = None ∧ pml4t ≠ cr3 v.
Proof.
  intros [(lv & top & Hi & Hw) [Hf Hn] [Hc Hs]] Hd Hcr. destruct depth as [|d]; [done |].
  destruct (create_vmm_new sym d v lv 0 top Hi (Z.le_refl 0) Hw Hf Hn) as (p & u & s' & lv' & Hc' & Hp & _).
  rewrite Hc' in Hcr. injection Hcr as _ <- _. split.
  - apply eq_None_not_Some. intros Hr%Hs. rewrite Hp in Hr. by destruct Hr.
  - intros ->. rewrite Hp in Hc. by destruct Hc.
Qed.

(** The structures of the address spaces that the calls leave. *)
Lemma exec_calls_spaces s q vmm segs pml4t p th w v :
  exec_calls s q vmm segs pml4t p th w v →
  pml4ts v = <[vmm_of p := pml4t]> (<[vmm := pml4t]> (pml4ts (vm s))) ∧ cr3 w = pml4t ∧
  pml4ts v !! vmm_of (current_process s) = Some (cr3 v) ∧ current_vmm v = vmm_of (current_process s).
Proof.
  intros [(head & loaded & v1 & v3 & w1 & w3 & w4 & Hc & Hsw & Hsegs & _ & Hp & Ht & Hst & Hb) _].
  pose proof (create_vmm_keeps _ _ _ _ _ Hc) as C. pose proof (switch_vm_space_spec _ _ _ Hsw) as (S1 & _ & S2).
  pose proof (segs_alloc_space _ _ _ _ _ _ _ Hsegs) as G. pose proof (kmalloc_mm_space _ _ _ _ Hp) as K1.
  pose proof (kmalloc_mm_space _ _ _ _ Ht) as K2. pose proof (switch_vm_space_spec _ _ _ Hb) as (B1 & B2 & B3).
  pose proof (alloc_user_stack_space _ _ _ _ _ _ _ _ _ Hst) as (_ & A1 & _ & _).
  destruct C as [_ _ _ C], G as [G1 _ _ G2], K1 as [_ _ _ K1], K2 as [_ _ _ K2]. simpl in *.
  rewrite lookup_insert_eq in S1. injection S1 as S1.
  split_and!; [| congruence | congruence | done]. rewrite B3, A1, K2, K1, G2, S2, C. done.
Qed.

(** What [exec_elf] is called with: the file on the archive, the file system and
    the local variables in the kernel half, the running process in its own
    address space. *)
Record exec_ready (t : terminal) (tbl : open_files) (k : kernel) (spaces : gmap Z mem) (q : queue)
    (filename vmm ehdr phdr : Z) (hd : list Z) (entry : Z) (pos nseg : nat) : Prop := {
  er_files : vfs_rel fsym t a p0 fs (kfs k) tbl ∧ (length tbl < 10)%nat;
  er_high : Forall high (protected fsym (kfs k) a p0 fs);
  er_name : ∃ c n j, KERNEL_TEXT_START ≤ filename ∧ kmem k !! filename = Some c ∧
    path_at (kmem k) (filename + 1) n ∧ find_member fs n = Some (j, f);
  er_image : ∃ ident, elf_image f hd ident entry pos nseg;
  er_locals : KERNEL_TEXT_START ≤ ehdr ∧ KERNEL_TEXT_START ≤ phdr ∧
    buffer fsym (kfs k) a p0 fs ehdr SIZEOF_EHDR ∧ buffer fsym (kfs k) a p0 fs phdr SIZEOF_PHDR ∧
    apart phdr SIZEOF_PHDR (ehdr, SIZEOF_EHDR);
  er_segs : Forall user_seg (filter is_load (phdrs nseg (m_data f) pos)) ∧
    disjoint_segs (filter is_load (phdrs nseg (m_data f) pos));
  er_queue : queue_ok (ksched k) q;
  er_space : pml4ts (vm (ksched k)) !! vmm_of (current_process (ksched k)) = Some (cr3 (vm (ksched k))) ∧
    vmm ≠ vmm_of (current_process (ksched k));
}.

Hypothesis Hphys : bytes_ok phys.
Hypothesis Hsize : Z.of_nat (length (m_data f)) < 2 ^ 31.

(** The file system in a new, empty address space. *)
Lemma exec_ready_load t tbl k spaces q filename vmm ehdr phdr hd entry pos nseg v w fuel :
  let k1 := set_kfs (set_ksched k (set_vm (ksched k) v)) (set_fs_mem (kfs k) (∅ ∪ kernel_half (kmem k))) in
  let loads := filter is_load (phdrs nseg (m_data f) pos) in
  exec_ready t tbl k spaces q filename vmm ehdr phdr hd entry pos nseg → (nseg < fuel)%nat →
  segs_alloc sym depth uninit phys v (phdrs nseg (m_data f) pos) w →
  ∃ k2 t' tbl', load_elf sym depth uninit fsym phys fuel k1 filename ehdr phdr = Ok (entry, k2) ∧
    ksched k2 = set_vm (ksched k) w ∧ vga_out (con (kfs k2)) = vga_out (con (kfs k)) ∧
    Forall (λ ph, bytes_at (kmem k2) (p_vaddr ph) (chunk f (p_offset ph) (p_filesz ph))) loads ∧
    vfs_rel fsym t' a p0 fs (kfs k2) tbl'.
Proof.
  intros k1 loads [[E1 E2] E3 (c & n & j & N1 & N2 & N3 & N4) (ident & E5) (L1 & L2 & L3 & L4 & L5) (G1 & G2) _ _] Hfu Hsegs.
  assert (user_bytes ∅) as Hu by (intros x b Hx; by rewrite lookup_empty in Hx).
  assert (vfs_rel fsym t a p0 fs (kfs k1) tbl) as Hrel by (by apply vfs_rel_high).
  destruct N3 as [P1 P2 P3].
  destruct (load_elf_loads sym depth uninit fsym phys a p0 fs f Hphys Hsize k1 t tbl filename c n j hd ident entry pos nseg ehdr phdr w fuel)
    as (k2 & t' & tbl' & Hl & Hsc & Hv & Hb & _ & Hrel'); try done.
  - unfold kmem, k1. cbn [kfs set_kfs]. change (fs_mem (set_fs_mem (kfs k) (∅ ∪ kernel_half (kmem k)))) with (∅ ∪ kernel_half (kmem k)).
    by rewrite lookup_kernel.
  - split; [| done | done]. apply bytes_at_kernel; [done | lia | done].
  - by apply buffer_high.
  - by apply buffer_high.
  - eapply Forall_impl; [exact G1 |]. intros ph Hph. by apply user_seg_room.
  - exists k2, t', tbl'. by split_and!.
Qed.

(** The queue does not depend on the memory manager. *)
Lemma queue_ok_vm (s : sched F H) v q : queue_ok s q → queue_ok (set_vm s v) q.
Proof. by intros [Q1 Q2 Q3 Q4 Q5]. Qed.

(** The bytes in the new space at first. *)
Lemma enter_bytes old (v : vm_state) (spaces : gmap Z mem) m :
  spaces !! cr3 v = None → cr3 v ≠ old →
  switch_bytes old v spaces m = (<[old := user_half m]> spaces, ∅ ∪ kernel_half m).
Proof. intros Hs Hne. unfold switch_bytes. by rewrite lookup_insert_ne, Hs by done. Qed.

(** What [exec_elf] leaves of the bytes that [m2] held in the new space. *)
Lemma back_bytes old pml4t (v : vm_state) (spaces : gmap Z mem) m m2 :
  cr3 v = old → pml4t ≠ old →
  switch_bytes pml4t v (<[old := user_half m]> spaces) m2 =
    (<[pml4t := user_half m2]> (<[old := user_half m]> spaces), user_half m ∪ kernel_half m2).
Proof. intros Hv Hne. unfold switch_bytes. rewrite Hv, lookup_insert_ne, lookup_insert_eq by done. done. Qed.

(** [C6] exec_elf of a file of the archive, when there is room for one more
    page table and the calls of the memory manager succeed, puts a new process
    in front of the queue.  The top level table of its address space is that
    of no other space; in its memory the bytes of every segment are at their
    addresses.  Its only thread is ready to run the wrapper of threads in user
    mode on its own stack, with the entry point and the file name as the
    arguments of the wrapper.  The running process is back in its own address
    space and sees its own memory, and that of all others is kept; whether the
    argument vmm is copied before or after load_elf does not matter. *)
Theorem exec_elf_starts t tbl (k : kernel) spaces q filename vmm wrapper ehdr phdr hd entry pos nseg pml4t p th w v fuel :
  let segs := phdrs nseg (m_data f) pos in
  let s := ksched k in
  exec_ready t tbl k spaces q filename vmm ehdr phdr hd entry pos nseg → tables_ready (vm s) spaces → depth ≠ 0%nat →
  exec_calls s q vmm segs pml4t p th w v → (nseg < fuel)%nat →
  ∃ k' t' tbl' m,
    exec_elf sym depth uninit fsym phys vmm_first fuel k spaces filename vmm wrapper ehdr phdr =
      Ok (k', <[pml4t := m]> (<[cr3 (vm s) := user_half (kmem k)]> spaces)) ∧
    queue_ok (ksched k') ((p, [th]) :: q) ∧
    thr (ksched k') = <[th := Thread (next_tid s) p (new_context wrapper entry filename USER_STACK_START true)
                          USER_STACK_START READY (replicate 10 0) NULL]> (thr s) ∧
    vm (ksched k') = v ∧ pml4ts v !! vmm_of p = Some pml4t ∧ spaces !! pml4t = None ∧ pml4t ≠ cr3 (vm s) ∧
    Forall (λ ph, bytes_at m (p_vaddr ph) (chunk f (p_offset ph) (p_filesz ph))) (filter is_load segs) ∧
    cr3 v = cr3 (vm s) ∧ (∀ x, x < KERNEL_TEXT_START → kmem k' !! x = kmem k !! x) ∧
    vfs_rel fsym t' a p0 fs (kfs k') tbl'.
Proof.
  intros segs s Hr Htr Hd Hcalls Hfu. subst s.
  pose proof (exec_calls_spaces _ _ _ _ _ _ _ _ _ Hcalls) as (Hps & Hw & Hcur & _).
  destruct Hcalls as [(head & loaded & v1 & v3 & w1 & w3 & w4 & Hc & Hsw & Hsegs & Hh & Hp & Ht & Hst & Hb) (Hi & Hlive)].
  destruct (create_vmm_own _ _ _ _ _ Htr Hd Hc) as [Hfree Hne].
  apply Forall_cons in Hlive as [Hlc Hlive]. destruct (er_space _ _ _ _ _ _ _ _ _ _ _ _ _ Hr) as [Hrun Hvmm].
  pose proof (switch_vm_space_spec _ _ _ Hsw) as (Hc3 & _). cbn [pml4ts set_pml4ts] in Hc3. rewrite lookup_insert_eq in Hc3.
  injection Hc3 as Hc3.
  assert (p ≠ current_process (ksched k)) as Hpc.
  { intros ->. pose proof Hp as Hp'. unfold kmalloc_mm in Hp'. apply bind_Ok in Hp' as ([p' h'] & Ha & [= -> _]).
    assert (5 ≤ SIZEOF_PROCESS_T) as H5 by done.
    by destruct (ha_alloc_spec _ _ _ _ Hi H5 Ha) as (_ & _ & Hnl & _). }
  assert (cr3 v = cr3 (vm (ksched k))) as Hv.
  { rewrite Hps, lookup_insert_ne, lookup_insert_ne in Hcur by (unfold vmm_of in *; lia || done).
    rewrite Hrun in Hcur. by injection Hcur. }
  destruct (exec_ready_load _ _ _ _ _ _ _ _ _ _ _ _ _ v3 w fuel Hr Hfu Hsegs) as (k2 & t' & tbl' & Hl & Hk2 & Hvo & Hbs & Hrel).
  destruct (create_proc_queue sym depth uninit (set_vm (ksched k) w) q wrapper entry filename true
    (if vmm_first then head else loaded, pml4t) p w1 th w3 USER_STACK_START w4)
    as (s' & Hcp & Hq & Hth & Hvm & Hcp' & _); try done.
  { apply queue_ok_vm, (er_queue _ _ _ _ _ _ _ _ _ _ _ _ _ Hr). }
  unfold exec_elf. rewrite Hc. out_red. cbv zeta.
  change (pml4ts (set_obj v1 vmm head)) with (pml4ts v1). rewrite Hsw. out_red.
  rewrite enter_bytes by (by rewrite <- Hc3). rewrite Hl. out_red. rewrite Hk2. cbn [vm set_vm].
  unfold obj_at. rewrite Hh. out_red. rewrite Hcp. out_red. rewrite Hvm, Hcp'. cbn [current_process set_vm]. rewrite Hb. out_red.
  rewrite Hw, (back_bytes (cr3 (vm (ksched k))) pml4t v spaces (kmem k) (kmem k2) Hv Hne).
  eexists _, t', tbl', (user_half (kmem k2)). split; [reflexivity |]. cbn [ksched set_kfs set_ksched kfs vm set_vm].
  split_and!; try done.
  - by apply queue_ok_vm.
  - by rewrite Hps, lookup_insert_eq.
  - pose proof (er_segs _ _ _ _ _ _ _ _ _ _ _ _ _ Hr) as [Hus _]. eapply Forall_impl; [exact (proj2 (Forall_and _ _) (conj Hus Hbs)) |].
    intros ph [[[U1 U2] (U3 & U4 & U5) _] Hph]. apply (bytes_at_agree (kmem k2)); [| exact Hph].
    intros x Hx. apply lookup_user_half. unfold chunk in Hx. rewrite length_take in Hx. lia.
  - intros x Hx. unfold kmem at 1. cbn [kfs set_kfs].
    change (fs_mem (set_fs_mem (kfs k2) (user_half (kmem k) ∪ kernel_half (kmem k2)))) with (user_half (kmem k) ∪ kernel_half (kmem k2)).
    by rewrite lookup_user, lookup_user_half.
  - destruct (er_files _ _ _ _ _ _ _ _ _ _ _ _ _ Hr) as [Hrel0 _]. apply vfs_rel_high; [exact Hrel | | apply user_half_bytes | |].
    + unfold protected. rewrite Hvo. exact (er_high _ _ _ _ _ _ _ _ _ _ _ _ _ Hr).
    + apply user_half_ok, (sh_bytes _ _ (wk_shows _ _ _ _ (pa_walk _ _ _ _ _ (vr_parsed _ _ _ _ _ _ _ Hrel0)))).
    + rewrite lookup_user_half by (unfold KERNEL_TEXT_START; lia). exact (vr_null _ _ _ _ _ _ _ Hrel0).
Qed.

End Exec.
