(* ===== verification/Irq.v ===== *)
(** * The dispatch of interrupts (isr.c, isr_stubs.S)

    The stub of a vector pushes a number, and the handler chooses by that
    number what to call: the keyboard, the scheduler or the system calls. *)

From S2P Require Import Prelude Iface Mem LibTitan Pmm MmState HashMap Vga Keyboard Tar Vfs Cpu Sched Resource Syscall.

(** What the stub of a vector pushes: the stubs behind the 32 exceptions are
    numbered from 8 on. *)
Definition stub_vec (vector : Z) : Z := if vector <? 32 then vector else 8 + (vector - 32).

Definition exception_types : list (list Z) :=
  bytes_of <$> ["Divide-by-Zero-Error"; "Debug"; "NMI"; "Breakpoint"; "Overflow"; "Bound-Range"; "Invalid-Opcode";
    "Device-Not-Available"; "Double-Fault"; "Coprocessor-Segment-Overrun"; "Invalid-TSS"; "Segment-Not-Present";
    "Stack"; "General-Protection"; "Page-Fault"]%string.

(** A 32-bit store of zero at offset [0xb0] of the registers. *)
Definition send_local_apic_eoi (m : mem) (local_apic_regs : Z) : outcome mem :=
  store32 m (u64 (local_apic_regs + 0xb0)) 0.

Section Irq.
Context {F H : Type} `{FrameAlloc F} `{HeapAlloc H} (fsym : fs_symbols).

(** The kernel with the keyboard, the static [should_sched] of the handler and
    the address of the registers of the local APIC. *)
Record machine := Machine {
  kern : kernel F H;
  kbd : keyboard;
  should_sched : bool;
  local_apic_regs : Z;
}.

Definition set_kern (s : machine) (k : kernel F H) : machine := Machine k (kbd s) (should_sched s) (local_apic_regs s).
Definition set_screen (s : machine) (c : console) : machine := set_kern s (set_kcon (kern s) c).
Definition screen (s : machine) : console := con (kfs (kern s)).

Definition schedule_k (nesting : nat) (s : machine) (status : cpu_context_t) : outcome (cpu_context_t * machine) :=
  '(c, sc) ← schedule nesting (ksched (kern s)) status;
  Ok (c, set_kern s (set_ksched (kern s) sc)).

(** How the branches of [interrupt_handler] end: with a context to continue, or
    in its [while(1)]. *)
Inductive irq_end :=
| Resumes (new_context : cpu_context_t) (s : machine)
| Hangs (s : machine).

(** The branches; [data] is what the keyboard's port delivers. *)
Definition interrupt_branch (nesting : nat) (s : machine) (status : cpu_context_t) (data : Z) : outcome irq_end :=
  if vec status <=? 32 then
    c1 ← printstr (screen s) (10 :: bytes_of "Kernel Panic!!: ");
    name ← of_option (OutOfBounds "exception_types") (exception_types !! Z.to_nat (vec status));
    c2 ← printstr c1 name;
    Ok (Hangs (set_screen s c2))
  else if vec status =? 0xf0 then
    c ← printstr (screen s) (bytes_of "Local APIC interrupt served!!" ++ [10]);
    Ok (Resumes status (set_screen s c))
  else if vec status =? 0x28 then
    '(k, c) ← keyboard_handler (kbd s) (screen s) data;
    let s1 := Machine (set_kcon (kern s) c) k (should_sched s) (local_apic_regs s) in
    '(ctx, s2) ← (if (should_sched s1 : bool) then schedule_k nesting s1 status else Ok (status, s1));
    Ok (Resumes ctx (Machine (kern s2) (kbd s2) (negb (should_sched s2)) (local_apic_regs s2)))
  else if vec status =? 0x68 then
    '(ctx, s1) ← schedule_k nesting s status; Ok (Resumes ctx s1)
  else if vec status =? 0xe6 then
    '(ctx, k) ← syscall_handler fsym (kern s) status;
    Ok (Resumes ctx (set_kern s k))
  else
    c1 ← printstr (screen s) (10 :: bytes_of "Unknown Interrupt");
    c2 ← printlong c1 (vec status);
    Ok (Resumes status (set_screen s c2)).

Definition interrupt_handler (nesting : nat) (s : machine) (status : cpu_context_t) (data : Z)
    : outcome (cpu_context_t * machine) :=
  r ← interrupt_branch nesting s status data;
  match r with
  | Hangs _ => Fault (Spin "interrupt_handler")
  | Resumes new_context s1 =>
      m ← send_local_apic_eoi (vmem (screen s1)) (local_apic_regs s1);
      Ok (new_context, set_screen s1 (set_vmem (screen s1) m))
  end.

(** ** The end of an interrupt *)

(** The registers are mapped, apart from the screen. *)
Record apic_mapped (c : console) (regs : Z) : Prop := {
  am_mapped : mapped (vmem c) (regs + 0xb0) 4;
  am_screen : off_screen c (regs + 0xb0) 4;
  am_range : 0 ≤ regs < 2 ^ 64 - 0xb0;
}.

Lemma apic_mapped_screen c c' t regs :
  apic_mapped c regs → only_screen c c' → shows c' t → apic_mapped c' regs.
Proof.
  intros [A1 A2 A3] Ho Hs. split; [by eapply only_screen_mapped | by eapply only_screen_off | done].
Qed.

Lemma eoi_spec c t regs :
  shows c t → apic_mapped c regs →
  ∃ m, send_local_apic_eoi (vmem c) regs = Ok m ∧ shows (set_vmem c m) t ∧ apic_mapped (set_vmem c m) regs ∧
    load32 m (regs + 0xb0) = Ok 0 ∧ agree_outside (regs + 0xb0) 4 (vmem c) m.
Proof.
  intros [S1 S2 S3 S4 S5] [A1 A2 A3]. unfold send_local_apic_eoi. rewrite u64_small by lia.
  rewrite store32_Ok by done. eexists. split; [done |]. split_and!.
  - split; try done; cbn [vmem set_vmem vga_out]; [| by apply put32_bytes_ok].
    apply (bytes_at_agree (vmem c)); [| done]. intros i Hi. apply put32_other.
    rewrite length_cell_bytes in Hi. destruct S4 as (Hl & _). rewrite Hl in Hi.
    unfold off_screen, VGA_LENGTH in A2. lia.
  - split; [by apply mapped_put32 | done | done].
  - apply load32_put32.
  - intros i Hi. by apply put32_other.
Qed.

(** ** Which vector does what *)

(** The name that each vector up to 56 is reported with: the stubs behind the
    exceptions push the numbers from 8 on. *)
Definition panic_name (vector : Z) : option string :=
  match vector with
  | 0 => Some "Divide-by-Zero-Error"
  | 1 => Some "Debug"
  | 2 => Some "NMI"
  | 3 => Some "Breakpoint"
  | 4 => Some "Overflow"
  | 5 => Some "Bound-Range"
  | 6 => Some "Invalid-Opcode"
  | 7 => Some "Device-Not-Available"
  | 8 | 32 => Some "Double-Fault"
  | 9 | 33 => Some "Coprocessor-Segment-Overrun"
  | 10 | 34 => Some "Invalid-TSS"
  | 11 | 35 => Some "Segment-Not-Present"
  | 12 | 36 => Some "Stack"
  | 13 | 37 => Some "General-Protection"
  | 14 | 38 => Some "Page-Fault"
  | _ => None
  end%string.

Lemma panic_name_spec vector : 0 ≤ vector ≤ 56 →
  exception_types !! Z.to_nat (stub_vec vector) = bytes_of <$> panic_name vector.
Proof.
  intros Hv. assert (vector ∈ seqZ 0 57) as Hin by (apply elem_of_seqZ; lia). clear Hv. revert vector Hin.
  apply Forall_forall. repeat apply Forall_cons_2; reflexivity || apply Forall_nil_2.
Qed.

(** [C34] The vectors 0 to 56 stop the kernel.  For 0 to 14 the screen shows
    the panic with the name of the exception, and for 32 to 38 that of one of
    the exceptions 8 to 14, before the handler hangs; for the others it looks
    for the name behind the end of exception_types. *)
Theorem interrupt_panics nesting s t vector ctx data :
  shows (screen s) t → 0 ≤ vector ≤ 56 → vec ctx = stub_vec vector →
  match panic_name vector with
  | Some name =>
      ∃ c, interrupt_branch nesting s ctx data = Ok (Hangs (set_screen s c)) ∧
        shows c (puts t (10 :: bytes_of "Kernel Panic!!: " ++ bytes_of name)) ∧ only_screen (screen s) c ∧
        interrupt_handler nesting s ctx data = Fault (Spin "interrupt_handler")
  | None => interrupt_handler nesting s ctx data = Fault (OutOfBounds "exception_types")
  end.
Proof.
  intros Hs Hv Hvec. unfold interrupt_handler, interrupt_branch.
  assert (vec ctx <=? 32 = true) as ->.
  { apply Z.leb_le. rewrite Hvec. unfold stub_vec. destruct (vector <? 32) eqn:E; zbool; lia. }
  destruct (printstr_shows _ t (10 :: bytes_of "Kernel Panic!!: ") Hs) as (c1 & -> & Hs1 & Ho1). out_red.
  rewrite Hvec, panic_name_spec by done. destruct (panic_name vector) as [name|]; [| done].
  destruct (printstr_shows c1 _ (bytes_of name) Hs1) as (c2 & Hp & Hs2 & Ho2). cbn [fmap option_fmap option_map of_option].
  out_red. rewrite Hp. out_red. exists c2. split_and!; [done | | by eapply only_screen_trans | done].
  rewrite <- puts_app in Hs2. exact Hs2.
Qed.

(** A vector above 56 that is not the keyboard, the scheduler or the
    system calls, among them the spurious vector that local_apic_enable sets,
    is reported as unknown and answered at the local APIC, and returns to the
    interrupted context. *)
Theorem interrupt_unknown nesting s t vector ctx data :
  shows (screen s) t → apic_mapped (screen s) (local_apic_regs s) →
  56 < vector < 256 → vector ∉ [0x40; 0x80; 0xfe] → vec ctx = stub_vec vector →
  ∃ s' ds, interrupt_handler nesting s ctx data = Ok (ctx, s') ∧
    ksched (kern s') = ksched (kern s) ∧ kbd s' = kbd s ∧
    shows (screen s') (puts t (10 :: bytes_of "Unknown Interrupt" ++ [48; 120] ++ ds)) ∧
    length ds = 16%nat ∧ load32 (vmem (screen s')) (local_apic_regs s + 0xb0) = Ok 0.
Proof.
  intros Hs Ha Hv Hnot Hvec. rewrite !not_elem_of_cons in Hnot. destruct Hnot as (N1 & N2 & N3 & _).
  assert (vec ctx = vector - 24) as Hvv by (rewrite Hvec; unfold stub_vec; rewrite (proj2 (Z.ltb_ge _ _)) by lia; lia).
  unfold interrupt_handler, interrupt_branch. rewrite (proj2 (Z.leb_gt _ _)) by lia. rewrite !(proj2 (Z.eqb_neq _ _)) by lia.
  destruct (printstr_shows _ t (10 :: bytes_of "Unknown Interrupt") Hs) as (c1 & -> & Hs1 & Ho1). out_red.
  unfold printlong. destruct (printstr_shows c1 _ [48; 120] Hs1) as (c2 & -> & Hs2 & Ho2). out_red.
  destruct (hex_digits_spec 16 (vec ctx) []) as (ds & Hds & Hl & _); [lia |]. rewrite Hds, app_nil_r.
  destruct (printstr_shows c2 _ ds Hs2) as (c3 & -> & Hs3 & Ho3). out_red.
  pose proof (only_screen_trans _ _ _ Ho1 (only_screen_trans _ _ _ Ho2 Ho3)) as Ho.
  pose proof (apic_mapped_screen _ _ _ _ Ha Ho Hs3) as Ha3.
  change (screen (set_screen s c3)) with c3. change (local_apic_regs (set_screen s c3)) with (local_apic_regs s).
  destruct (eoi_spec c3 _ _ Hs3 Ha3) as (m & -> & Hs4 & _ & Hld & _). out_red.
  eexists _, ds. split; [reflexivity |]. split; [reflexivity |]. split; [reflexivity |].
  split; [| split; [exact Hl | exact Hld]].
  change (screen (set_screen (set_screen s c3) (set_vmem c3 m))) with (set_vmem c3 m).
  change (10 :: bytes_of "Unknown Interrupt" ++ [48; 120] ++ ds)
    with ((10 :: bytes_of "Unknown Interrupt") ++ [48; 120] ++ ds).
  rewrite !puts_app. exact Hs4.
Qed.

(** ** The keyboard as the clock of the scheduler *)

(** A sequence of keyboard interrupts, each with the context it interrupts and
    the byte at the port: the contexts continued with. *)
Fixpoint irq_run (nesting : nat) (s : machine) (evs : list (cpu_context_t * Z))
    : outcome (list cpu_context_t * machine) :=
  match evs with
  | [] => Ok ([], s)
  | (ctx, data) :: evs' =>
      '(c, s1) ← interrupt_handler nesting s ctx data;
      '(cs, s2) ← irq_run nesting s1 evs';
      Ok (c :: cs, s2)
  end.

(** The scheduler alone, called at every other interrupt. *)
Fixpoint sched_run (nesting : nat) (on : bool) (sc : sched F H) (evs : list (cpu_context_t * Z))
    : outcome (list cpu_context_t * sched F H) :=
  match evs with
  | [] => Ok ([], sc)
  | (ctx, _) :: evs' =>
      '(c, sc1) ← (if on then schedule nesting sc ctx else Ok (ctx, sc));
      '(cs, sc2) ← sched_run nesting (negb on) sc1 evs';
      Ok (c :: cs, sc2)
  end.

(** The parts of the machine an interrupt of the keyboard changes. *)
Record irq_rel (s : machine) (t : terminal) (str : list Z) : Prop := {
  ir_shows : shows (screen s) t;
  ir_ring : ring (kbd s) str;
  ir_apic : apic_mapped (screen s) (local_apic_regs s);
}.

Lemma keyboard_irq nesting s t str ctx data c sc :
  irq_rel s t str → vec ctx = stub_vec 0x40 → 0 ≤ data →
  (if should_sched s then schedule nesting (ksched (kern s)) ctx else Ok (ctx, ksched (kern s))) = Ok (c, sc) →
  let new := typed (is_make (kbd s)) [data] in
  ∃ s', interrupt_handler nesting s ctx data = Ok (c, s') ∧ irq_rel s' (puts t new) (str ++ new) ∧
    ksched (kern s') = sc ∧ should_sched s' = negb (should_sched s) ∧ is_make (kbd s') = negb (is_make (kbd s)).
Proof.
  intros [Hs Hr Ha] Hv Hd Hsc new. unfold interrupt_handler, interrupt_branch. rewrite Hv. change (stub_vec 0x40) with 0x28.
  cbn [Z.leb Z.eqb Z.compare Pos.compare Pos.compare_cont Pos.eqb].
  destruct (keyboard_handler_spec (kbd s) (screen s) t str data Hs Hr Hd) as (k' & c' & -> & Hs' & Ho & Hr' & Hm').
  fold new in Hs', Hr'. out_red. cbn [should_sched]. unfold schedule_k. cbn [kern ksched set_kcon set_kfs].
  pose proof (apic_mapped_screen _ _ _ _ Ha Ho Hs') as Ha'.
  destruct (eoi_spec c' _ _ Hs' Ha') as (m & Hm & Hs4 & Ha4 & _).
  destruct (should_sched s) eqn:E; [rewrite Hsc | injection Hsc as <- <-]; out_red;
    unfold screen; cbn [kern kfs con set_kern set_ksched set_kcon set_kfs set_con local_apic_regs];
    rewrite Hm; out_red; eexists; (split; [reflexivity |]); split; try done;
    cbn [should_sched set_screen set_kern kbd negb]; rewrite ?E; done.
Qed.

Lemma irq_run_spec nesting evs : ∀ s t str cs sc,
  irq_rel s t str → Forall (λ ev, vec ev.1 = stub_vec 0x40 ∧ 0 ≤ ev.2) evs →
  sched_run nesting (should_sched s) (ksched (kern s)) evs = Ok (cs, sc) →
  ∃ s', irq_run nesting s evs = Ok (cs, s') ∧ ksched (kern s') = sc ∧
    irq_rel s' (puts t (typed (is_make (kbd s)) evs.*2)) (str ++ typed (is_make (kbd s)) evs.*2).
Proof.
  induction evs as [|[ctx data] evs IH]; intros s t str cs sc Hrel Hevs Hrun.
  - injection Hrun as <- <-. exists s. rewrite app_nil_r. by split_and!.
  - apply Forall_cons in Hevs as [[Hv Hd] Hevs]. simpl in Hv, Hd. cbn [sched_run] in Hrun.
    apply bind_Ok in Hrun as ([c sc1] & Hone & Hrun). apply bind_Ok in Hrun as ([cs1 sc2] & Hrun & [= <- <-]).
    destruct (keyboard_irq nesting s t str ctx data c sc1 Hrel Hv Hd Hone) as (s1 & H1' & Hrel1 & Hk1 & Hss & Hmk).
    destruct (IH s1 _ _ cs1 sc2 Hrel1 Hevs) as (s2 & H2' & Hk2 & Hrel2); [by rewrite Hss, Hk1 |].
    exists s2. cbn [irq_run]. rewrite H1'. out_red. rewrite H2'. out_red.
    rewrite fmap_cons, typed_app, app_assoc, puts_app. rewrite Hmk in Hrel2. by split_and!.
Qed.

(** [C11] Over any sequence of keyboard interrupts the handler does what the
    scheduler alone does when it is called at every other one, while the typed
    characters appear on the screen and in the ring of the keyboard. *)
Theorem keyboard_interrupts nesting s t evs cs sc :
  shows (screen s) t → apic_mapped (screen s) (local_apic_regs s) →
  kbd s = keyboard_start → should_sched s = true →
  Forall (λ ev, vec ev.1 = stub_vec 0x40 ∧ 0 ≤ ev.2) evs →
  sched_run nesting true (ksched (kern s)) evs = Ok (cs, sc) →
  ∃ s', irq_run nesting s evs = Ok (cs, s') ∧ ksched (kern s') = sc ∧
    shows (screen s') (puts t (typed true evs.*2)) ∧ ring (kbd s') (typed true evs.*2).
Proof.
  intros Hs Ha Hk Hss Hevs Hrun.
  destruct (irq_run_spec nesting evs s t [] cs sc) as (s' & Hr & Hsc & [H1' H2' _]); try done.
  - split; [done | rewrite Hk; apply ring_start | done].
  - by rewrite Hss.
  - rewrite Hk in H1', H2'. by exists s'.
Qed.

End Irq.
Arguments machine : clear implicits.
