(* ===== verification/Threads.v ===== *)
(** * The programs of scheduler.c ([print1], [print2], syscall.h)

    [print1] prints.  [execute_syscall] raises the system call interrupt; [print2] opens a file,
    reads from it and prints what it read.  The theorem follows the calls
    through the interrupt handler, the resources of the process, the file
    system, the archive and the console. *)

From S2P Require Import Prelude Iface Mem LibTitan Pmm MmState HashMap Vga Tar Vfs Cpu Sched Resource Syscall Irq.

(** [print1]: [n] lines, the two loops print five times ten of them. *)
Fixpoint print_lines (n : nat) (s : console) : outcome console :=
  match n with
  | O => Ok s
  | S n' => s' ← printstr s (bytes_of "Printing 1" ++ [10]); print_lines n' s'
  end.

Fixpoint print1_loop (n : nat) (s : console) : outcome console :=
  match n with
  | O => Ok s
  | S n' => s' ← print_lines 10 s; print1_loop n' s'
  end.

Definition print1 (s : console) : outcome console := print1_loop 5 s.

(** ** Printing *)

Definition line1 : list Z := bytes_of "Printing 1" ++ [10].

Lemma print_lines_shows n : ∀ s t, shows s t →
  ∃ s', print_lines n s = Ok s' ∧ shows s' (puts t (mjoin (replicate n line1))) ∧ only_screen s s'.
Proof.
  induction n as [|n IH]; intros s t Hs; [by exists s |].
  destruct (printstr_shows s t line1 Hs) as (s1 & H1 & Hs1 & Ho1). destruct (IH s1 _ Hs1) as (s2 & H2 & Hs2 & Ho2).
  exists s2. cbn [print_lines replicate mjoin list_join]. fold line1. rewrite H1, puts_app. out_red.
  split_and!; [done | done | by eapply only_screen_trans].
Qed.

Lemma print1_loop_shows n : ∀ s t, shows s t →
  ∃ s', print1_loop n s = Ok s' ∧ shows s' (puts t (mjoin (replicate (n * 10) line1))) ∧ only_screen s s'.
Proof.
  induction n as [|n IH]; intros s t Hs; [by exists s |].
  destruct (print_lines_shows 10 s t Hs) as (s1 & H1 & Hs1 & Ho1). destruct (IH s1 _ Hs1) as (s2 & H2 & Hs2 & Ho2).
  exists s2. cbn [print1_loop]. rewrite H1. out_red. change (S n * 10)%nat with (10 + n * 10)%nat.
  rewrite replicate_add, join_app, puts_app. split_and!; [done | done | by eapply only_screen_trans].
Qed.

(** print1 prints its line fifty times. *)
Theorem print1_prints s t :
  shows s t → ∃ s', print1 s = Ok s' ∧ shows s' (puts t (mjoin (replicate 50 line1))) ∧ only_screen s s'.
Proof. exact (print1_loop_shows 5 s t). Qed.

(** ** System calls *)

Section Threads.
Context {F H : Type} `{FrameAlloc F} `{HeapAlloc H} (fsym : fs_symbols) (nesting : nat).
Local Abbreviation machine := (machine F H).

(** The context that the stub of vector [0xfe] saves: the registers of the
    caller, with the four that [execute_syscall] sets. *)
Definition syscall_frame (c : cpu_context_t) (syscall_num arg0 arg1 arg2 : Z) : cpu_context_t :=
  CpuContext syscall_num (rbx c) (rcx c) arg2 arg0 arg1 (rbp c) (r8 c) (r9 c) (r10 c) (r11 c) (r12 c) (r13 c)
    (r14 c) (r15 c) (stub_vec 0xfe) 0 (rip_i c) (cs_i c) (flags_i c) (rsp_i c) (ss_i c).

(** [execute_syscall] in a thread with the registers [c]. *)
Definition execute_syscall (s : machine) (c : cpu_context_t) (syscall_num arg0 arg1 arg2 : Z)
    : outcome (Z * machine) :=
  '(c', s') ← interrupt_handler fsym nesting s (syscall_frame c syscall_num arg0 arg1 arg2) 0;
  Ok (rax c', s').

(** The initialisation of a local array of characters. *)
Fixpoint store_bytes (m : mem) (a : Z) (l : list Z) : outcome mem :=
  match l with
  | [] => Ok m
  | b :: l' => m' ← store8 m a b; store_bytes m' (a + 1) l'
  end.

Definition machine_mem (s : machine) : mem := fs_mem (kfs (kern s)).
Definition set_machine_mem (s : machine) (m : mem) : machine :=
  set_kern s (set_kfs (kern s) (set_fs_mem (kfs (kern s)) m)).

Definition file2_name : list Z := bytes_of "file2.txt".

(** [print2]; [filename] and [buf] are the addresses of its arrays. *)
Definition print2 (s : machine) (c : cpu_context_t) (filename buf : Z) : outcome machine :=
  m ← store_bytes (machine_mem s) filename (47 :: file2_name ++ [0]);
  '(r, s1) ← execute_syscall (set_machine_mem s m) c 2 filename 0 0;
  let file_handle := i32 r in
  '(_, s2) ← execute_syscall s1 c 0 (u64 file_handle) buf 10;
  m' ← store8 (machine_mem s2) (buf + 10) 0;
  '(_, s3) ← execute_syscall (set_machine_mem s2 m') c 1 buf 0 0;
  Ok s3.

(** ** Stores *)

Lemma store_bytes_wrote l : ∀ m a,
  mapped m a (Z.of_nat (length l)) → Forall byte l → ∃ m', store_bytes m a l = Ok m' ∧ wrote m a l m'.
Proof.
  induction l as [|b l IH]; intros m a Hm Hl.
  - exists m. split; [done |]. split; [by intros i x |]. by intros i _.
  - apply Forall_cons in Hl as [Hb Hl]. cbn [store_bytes length] in *.
    destruct (Hm a) as [old Hold]; [lia |]. unfold store8. rewrite Hold. out_red.
    set (m1 := <[a := u8 b]> m). assert (u8 b = b) as Hu by (apply Z.mod_small; unfold byte in Hb; lia).
    destruct (IH m1 (a + 1)) as (m' & -> & Hw & Ha); [| done |].
    + intros i Hi. unfold m1. rewrite lookup_insert_ne by lia. apply Hm. lia.
    + exists m'. split; [done |]. split.
      * apply bytes_at_cons. split; [| done]. rewrite Ha by lia. unfold m1. by rewrite Hu, lookup_insert_eq.
      * intros i Hi. cbn [length] in Hi. rewrite Ha by lia. apply lookup_insert_ne. lia.
Qed.

(** ** The machine between the calls *)

(** The file system is mounted, and the arrays, the registers of the local
    APIC and what the file system reads lie apart. *)
Record ready (t : terminal) (a p0 : Z) (fs : list member) (filename buf : Z) (s : machine) (tbl : open_files)
    (handles : list Z) : Prop := {
  rd_files : files_rel fsym t a p0 fs (kern s) tbl handles;
  rd_apic : apic_mapped (screen s) (local_apic_regs s);
  rd_apart : Forall (apart (local_apic_regs s + 0xb0) 4)
    ((filename, 11) :: (buf, 20) :: protected fsym (kfs (kern s)) a p0 fs);
  rd_name : buffer fsym (kfs (kern s)) a p0 fs filename 11;
  rd_buf : buffer fsym (kfs (kern s)) a p0 fs buf 20;
  rd_arrays : apart filename 11 (buf, 20);
}.

Lemma ready_kern t t' a p0 fs filename buf s tbl tbl' handles handles' k :
  ready t a p0 fs filename buf s tbl handles → files_rel fsym t' a p0 fs k tbl' handles' →
  vga_out (con (kfs k)) = vga_out (screen s) → (∀ x n, mapped (machine_mem s) x n → mapped (fs_mem (kfs k)) x n) →
  ready t' a p0 fs filename buf (set_kern s k) tbl' handles'.
Proof.
  intros [R1 [A1 A2 A3] R3 R4 R5 R6] Hf Hv Hm. split; try done.
  - split; [by apply Hm | | done]. unfold off_screen in *. unfold screen in *. cbn [kern set_kern]. by rewrite Hv.
  - unfold protected in *. cbn [kern set_kern local_apic_regs]. by rewrite Hv.
  - by apply (buffer_step _ (kfs (kern s))).
  - by apply (buffer_step _ (kfs (kern s))).
Qed.

(** Writing to memory that the file system does not read. *)
Lemma ready_wrote t a p0 fs filename buf s tbl handles x l m :
  ready t a p0 fs filename buf s tbl handles → wrote (machine_mem s) x l m →
  Forall (apart x (Z.of_nat (length l))) (protected fsym (kfs (kern s)) a p0 fs) →
  mapped (machine_mem s) x (Z.of_nat (length l)) → Forall byte l →
  ready t a p0 fs filename buf (set_machine_mem s m) tbl handles.
Proof.
  intros Hr Hw Hap Hmp Hl. pose proof Hr as [[Hv Hp Hn] _ _ _ _ _].
  pose proof Hv as [[[[_ Hok _ _ _] _ _ _ _ _] _ _] _ _ _ _ Hnull _ _ _].
  apply (ready_kern t _ _ _ _ _ _ s tbl _ handles); [done | | done |].
  - split; [| done | done]. destruct Hw as [Hb Ha]. apply (vfs_rel_mem _ _ _ _ _ _ _ _ x _ Hv Hap Ha); [| | lia].
    + by apply (wrote_bytes_ok (machine_mem s) x l).
    + rewrite Ha; [done |]. intros Hi. destruct (Hmp 1 Hi) as [b Hb1]. unfold machine_mem in Hb1. congruence.
  - intros y n Hy. cbn [kfs set_kfs]. by apply (wrote_mapped (machine_mem s) x l).
Qed.

(** A system call through the interrupt handler: the end of interrupt keeps
    what the call leaves. *)
Lemma ready_call t t' a p0 fs filename buf s tbl tbl' handles handles' c num arg0 arg1 arg2 c' k :
  ready t a p0 fs filename buf s tbl handles →
  syscall_handler fsym (kern s) (syscall_frame c num arg0 arg1 arg2) = Ok (c', k) →
  files_rel fsym t' a p0 fs k tbl' handles' → vga_out (con (kfs k)) = vga_out (screen s) →
  (∀ x n, mapped (machine_mem s) x n → mapped (fs_mem (kfs k)) x n) →
  ∃ s', execute_syscall s c num arg0 arg1 arg2 = Ok (rax c', s') ∧
    ready t' a p0 fs filename buf s' tbl' handles' ∧ resources (kern s') = resources k ∧
    agree_outside (local_apic_regs s + 0xb0) 4 (fs_mem (kfs k)) (machine_mem s') ∧
    local_apic_regs s' = local_apic_regs s.
Proof.
  intros Hr Hcall Hf Hv Hm. pose proof (ready_kern _ _ _ _ _ _ _ _ _ _ _ _ k Hr Hf Hv Hm) as Hr1.
  pose proof Hr1 as [_ [A1 A2 A3] R3 _ _ _]. pose proof Hf as [Hvf _ _].
  pose proof Hvf as [[[Hs _ _ _ _ _] _ _] _ _ _ _ _ _ _ _].
  destruct (eoi_spec (con (kfs k)) t' (local_apic_regs s) Hs) as (m & Heoi & _ & _ & _ & Hag); [by split |].
  unfold execute_syscall, interrupt_handler, interrupt_branch. cbn [vec syscall_frame]. change (stub_vec 0xfe) with 0xe6.
  cbn [Z.leb Z.eqb Z.compare Pos.compare Pos.compare_cont Pos.eqb].
  rewrite Hcall. out_red. unfold screen. cbn [kern set_kern local_apic_regs]. rewrite Heoi. out_red.
  eexists. split; [reflexivity |]. split; [| by split_and!].
  rewrite !Forall_cons in R3. destruct R3 as (_ & _ & R3). change (local_apic_regs (set_kern s k)) with (local_apic_regs s) in *.
  cbn [kern set_kern] in R3.
  unfold send_local_apic_eoi in Heoi. rewrite u64_small, store32_Ok in Heoi by (done || lia). injection Heoi as <-.
  assert (∀ x n, mapped (fs_mem (kfs k)) x n → mapped (put32 (vmem (con (kfs k))) (local_apic_regs s + 0xb0) 0) x n) as Hmm
    by (intros x n Hx; by apply mapped_put32).
  apply (ready_kern t' _ _ _ _ _ _ (set_kern s k) tbl' _ handles'); [done | | done | done].
  destruct Hf as [_ Hp Hn]. split; [| done | done].
  apply (vfs_rel_mem _ _ _ _ _ _ _ _ (local_apic_regs s + 0xb0) 4 Hvf R3); [done | | | lia].
  - apply put32_bytes_ok. by destruct Hs.
  - rewrite Hag; [by destruct Hvf |]. intros Hi. destruct (A1 1 Hi) as [b Hb]. destruct Hvf as [_ _ _ _ _ Hnull _ _ _].
    unfold screen, fs_mem in *. cbn [kern set_kern] in Hb. congruence.
Qed.

Lemma ready_open t a p0 fs filename buf s tbl handles c j f r h' i :
  ready t a p0 fs filename buf s tbl handles → machine_mem s !! filename = Some 47 →
  path_at (machine_mem s) (filename + 1) file2_name → find_member fs file2_name = Some (j, f) →
  (length tbl < 10)%nat → ha_alloc (kheap (vm (ksched (kern s)))) SIZEOF_RESOURCE_T = Ok (r, h') →
  free_handle handles 0 = Some i → (length handles = 5)%nat →
  ∃ s', execute_syscall s c 2 filename 0 0 = Ok (Z.of_nat i, s') ∧
    ready t a p0 fs filename buf s' (tbl ++ [(f, 0)]) (<[i := r]> handles) ∧
    resources (kern s') !! r = Some (file_resource (Z.of_nat (length tbl))) ∧ (i < 5)%nat.
Proof.
  intros Hr Hc Hp Hf Hl Ha Hi H5.
  pose proof (syscall_open_spec fsym t a p0 fs (kern s) tbl handles (syscall_frame c 2 filename 0 0) 47 file2_name j f r h'
    (rd_files _ _ _ _ _ _ _ _ _ Hr) eq_refl Hc Hp Hf Hl Ha) as Ho.
  rewrite Hi in Ho. destruct Ho as (k & Hcall & Hk & Hres & Hcon).
  pose proof (free_handle_spec handles 0) as Hfree. rewrite Hi in Hfree. destruct Hfree as (_ & Hfree & _).
  rewrite Nat.sub_0_r in Hfree. apply lookup_lt_Some in Hfree.
  destruct (ready_call _ _ _ _ _ _ _ _ _ _ _ _ c 2 filename 0 0 _ k Hr Hcall Hk) as (s' & He & Hr' & Hres' & _).
  - by rewrite Hcon.
  - intros x n Hx. unfold fs_mem. by rewrite Hcon.
  - exists s'. split; [| split_and!; [done | | lia]].
    + rewrite He. cbn [rax with_rax]. by rewrite u64_small by lia.
    + by rewrite Hres', Hres, lookup_insert_eq.
Qed.

Lemma ready_read t a p0 fs filename buf s tbl handles c i r h f :
  ready t a p0 fs filename buf s tbl handles → handles !! i = Some r →
  resources (kern s) !! r = Some (file_resource (Z.of_nat h)) → tbl !! h = Some (f, 0) →
  10 ≤ Z.of_nat (length (m_data f)) < 2 ^ 31 →
  ∃ s', execute_syscall s c 0 (Z.of_nat i) buf 10 = Ok (0, s') ∧
    ready t a p0 fs filename buf s' (<[h := (f, 10)]> tbl) handles ∧
    bytes_at (machine_mem s') buf (take 10 (m_data f)).
Proof.
  intros Hr Hi Hres Hh Hlen. pose proof Hr as [Hf _ R3 _ [B1 B2 B3] _].
  destruct (syscall_read_spec fsym t a p0 fs (kern s) tbl handles (syscall_frame c 0 (Z.of_nat i) buf 10) i r h f 0)
    as (k & Hcall & Hb & Hag & Hk & _ & Hvo); try done; try (cbn [rdx syscall_frame]; lia).
  { cbn [rsi rdx syscall_frame]. split; [| | lia].
    - apply (mapped_sub _ _ _ _ _ B1); lia.
    - apply (Forall_impl _ _ _ B2). unfold apart. intros x. lia. }
  cbn [rsi rdx syscall_frame] in Hb, Hag, Hk. unfold chunk in Hb. rewrite drop_0 in Hb. change (Z.to_nat 10) with 10%nat in Hb.
  assert (wrote (machine_mem s) buf (take 10 (m_data f)) (fs_mem (kfs k))) as Hw.
  { split; [done |]. rewrite length_take. by replace (Z.of_nat (10 `min` length (m_data f))) with 10 by lia. }
  destruct (ready_call _ _ _ _ _ _ _ _ _ _ _ _ c 0 (Z.of_nat i) buf 10 _ k Hr Hcall Hk Hvo) as (s' & He & Hr' & _ & Hag' & _).
  - intros x n Hx. by apply (wrote_mapped _ _ _ _ _ _ Hw).
  - exists s'. split_and!; [done | done |]. apply (bytes_at_agree (fs_mem (kfs k))); [| done].
    intros x Hx. rewrite length_take in Hx. apply Hag'. rewrite !Forall_cons in R3. destruct R3 as (_ & R3 & _).
    unfold apart in R3. cbn [fst snd] in R3. lia.
Qed.

Lemma ready_write t a p0 fs filename buf s tbl handles c str :
  ready t a p0 fs filename buf s tbl handles → bytes_at (machine_mem s) buf (str ++ [0]) → Forall char_ok str →
  ∃ s', execute_syscall s c 1 buf 0 0 = Ok (1, s') ∧ ready (puts t str) a p0 fs filename buf s' tbl handles.
Proof.
  intros Hr Hb Hc. pose proof Hr as [[Hv Hp Hn] _ _ _ _ _]. pose proof Hv as [[[Hs Hl _ _ _] _ _] _ _ _ _ _ _ _ _].
  destruct (syscall_write_exit fsym t (kern s) (syscall_frame c 1 buf 0 0) Hs Hl) as (Hw & _).
  destruct (Hw str eq_refl Hb Hc) as (c' & Hcall & Hs' & Ho).
  destruct (ready_call t (puts t str) a p0 fs filename buf s tbl tbl handles handles c 1 buf 0 0 _ _ Hr Hcall)
    as (s' & He & Hr' & _).
  - split; [by apply (vfs_rel_screen _ t) | done | done].
  - apply Ho.
  - intros x n Hx. by apply (only_screen_mapped (con (kfs (kern s))) _ (puts t str)).
  - by exists s'.
Qed.

(** [C40] print2 opens /file2.txt and prints its first ten bytes; every call
    goes through the interrupt handler.  The file stays open and keeps its
    slot in the table of the process. *)
Theorem print2_prints t a p0 fs filename buf s tbl handles c j f r h' i :
  ready t a p0 fs filename buf s tbl handles → find_member fs file2_name = Some (j, f) →
  10 ≤ Z.of_nat (length (m_data f)) < 2 ^ 31 → Forall char_ok (take 10 (m_data f)) →
  (length tbl < 10)%nat → ha_alloc (kheap (vm (ksched (kern s)))) SIZEOF_RESOURCE_T = Ok (r, h') →
  free_handle handles 0 = Some i → (length handles = 5)%nat →
  ∃ s', print2 s c filename buf = Ok s' ∧ shows (screen s') (puts t (take 10 (m_data f))) ∧
    files_rel fsym (puts t (take 10 (m_data f))) a p0 fs (kern s') (tbl ++ [(f, 10)]) (<[i := r]> handles).
Proof.
  intros Hr Hf Hlen Hch Hl Ha Hi H5. pose proof Hr as [_ _ _ [N1 N2 _] _ _]. unfold print2.
  assert (Forall byte (47 :: file2_name ++ [0])) as Hby by (repeat constructor; unfold byte; lia).
  destruct (store_bytes_wrote (47 :: file2_name ++ [0]) (machine_mem s) filename N1 Hby) as (m & -> & Hw). out_red.
  pose proof (ready_wrote _ _ _ _ _ _ _ _ _ _ _ _ Hr Hw N2 N1 Hby) as Hr0.
  set (s0 := set_machine_mem s m) in *. destruct Hw as [Hb _]. apply bytes_at_cons in Hb as [Hb0 Hb].
  destruct (ready_open _ _ _ _ _ _ s0 _ _ c j f r h' i Hr0 Hb0) as (s1 & -> & Hr1 & Hres & Hi5); try done.
  { split; [done | | simpl; lia]. repeat constructor; unfold char_ok; lia. }
  out_red. rewrite i32_small, u64_small by lia.
  destruct (ready_read _ _ _ _ _ _ s1 _ _ c i r (length tbl) f Hr1) as (s2 & -> & Hr2 & Hb2); try done.
  { by apply list_lookup_insert_eq; lia. }
  { by rewrite lookup_app_r, Nat.sub_diag by lia. }
  out_red. pose proof Hr2 as [_ _ _ _ [B1 B2 _] _].
  assert (store8 (machine_mem s2) (buf + 10) 0 = Ok (<[buf + 10 := 0]> (machine_mem s2))) as ->.
  { destruct (B1 (buf + 10)) as [old Hold]; [lia |]. unfold store8, machine_mem. by rewrite Hold. }
  out_red.
  assert (wrote (machine_mem s2) (buf + 10) [0] (<[buf + 10 := 0]> (machine_mem s2))) as Hw3.
  { split; [apply bytes_at_cons; split; [apply lookup_insert_eq | by intros k x] |].
    intros k Hk. apply lookup_insert_ne. simpl in Hk. lia. }
  assert (ready t a p0 fs filename buf (set_machine_mem s2 (<[buf + 10 := 0]> (machine_mem s2)))
    (tbl ++ [(f, 10)]) (<[i := r]> handles)) as Hr3.
  { rewrite insert_app_r_alt, Nat.sub_diag in Hr2 by lia.
    apply (ready_wrote _ _ _ _ _ _ _ _ _ _ _ _ Hr2 Hw3).
    - apply (Forall_impl _ _ _ B2). unfold apart. intros x. simpl. lia.
    - apply (mapped_sub _ _ _ _ _ B1); simpl; lia.
    - repeat constructor; unfold byte; lia. }
  destruct (ready_write _ _ _ _ _ _ _ _ _ c (take 10 (m_data f)) Hr3) as (s3 & Hx & Hr4); [| done |].
  - apply bytes_at_app. assert (length (take 10 (m_data f)) = 10%nat) as H10 by (rewrite length_take; lia).
    rewrite H10. split.
    + apply (bytes_at_agree (machine_mem s2)); [| done]. intros k Hk. rewrite H10 in Hk. apply lookup_insert_ne. lia.
    + by apply Hw3.
  - rewrite Hx. out_red. exists s3. destruct Hr4 as [Hf4 _ _ _ _ _]. split_and!; [done | | done]. by destruct Hf4 as [[[[Hs _ _ _ _] _ _] _ _ _ _ _ _ _ _] _ _].
Qed.

End Threads.
