(* ===== verification/Acpi.v ===== *)
(** * ACPI tables (acpi.c, acpi.h)

    The root pointer is taken from the boot information or searched for in the
    BIOS area; the tables it leads to are mapped one by one, and found by their
    signature.  The bytes of the tables are those of physical memory. *)

From S2P Require Import Prelude Iface Mem LibTitan Fields Pmm Mb2 MmState HashMap PageMap Vmm View Vga Tar.

Definition EXTENDED_BIOS_START_ADDR : Z := 0x000e0000.
Definition EXTENDED_BIOS_END_ADDR : Z := 0x000fffff.
Definition EXTENDED_BIOS_LENGTH : Z := EXTENDED_BIOS_END_ADDR - EXTENDED_BIOS_START_ADDR.
Definition RSDP_SIG_SIZE : Z := 8.
Definition MULTIBOOT_TAG_TYPE_ACPI_NEW : Z := 15.

(** [rsdp_t], which is packed, and [acpi_sdt_header_t]. *)
Definition SIZEOF_RSDP : Z := 20.
Definition OFF_RSDT_ADDR : Z := 16.
Definition SIZEOF_SDT_HEADER : Z := 36.
Definition OFF_LENGTH : Z := 4.
Definition OFF_REVISION : Z := 8.
Definition OFF_OEMID : Z := 10.

(** [get_mb2_tag]. *)
Definition get_mb2_tag (fuel : nat) (s : console) (mb2_info type : Z) : outcome (Z * console) :=
  tag ← find_tag fuel (vmem s) (mb2_info + 8) type;
  t ← load32 (vmem s) tag;
  if negb (t =? type) then s' ← ERROR s "mb2" "tag not found"; Ok (NULL, s') else Ok (tag, s).

(** The [n] characters at [a], one by one. *)
Fixpoint print_field (n : nat) (s : console) (a : Z) : outcome console :=
  match n with
  | O => Ok s
  | S n' => c ← load8 (vmem s) a; s' ← printc s c; print_field n' s' (a + 1)
  end.

Definition print_signature (s : console) (acpi_header : Z) : outcome console := print_field 4 s acpi_header.
Definition print_oem_signature (s : console) (acpi_header : Z) : outcome console :=
  print_field 6 s (acpi_header + OFF_OEMID).

Fixpoint checksum_loop (n : nat) (m : mem) (p checksum : Z) : outcome Z :=
  match n with
  | O => Ok checksum
  | S n' => b ← load8 m p; checksum_loop n' m (p + 1) (u32 (checksum + b))
  end.

Definition validate_checksum (m : mem) (p length : Z) : outcome bool :=
  checksum ← checksum_loop (Z.to_nat length) m p 0;
  Ok (Z.land checksum 0xff =? 0).

(** [get_acpi_table] over the pointers of [acpi_tables]; [memcmp] answers 1
    for equal bytes. *)
Fixpoint get_acpi_table (m : mem) (tables : list Z) (sig : Z) : outcome Z :=
  match tables with
  | [] => Ok NULL
  | t :: tables' => r ← memcmp m t sig 4; if negb (r =? 0) then Ok t else get_acpi_table m tables' sig
  end.

(** The search of [get_rsdp]; [rsd_ptr] is the address of its literal. *)
Fixpoint rsdp_scan (fuel : nat) (m : mem) (rsd_ptr current_sig_ptr : Z) : outcome (bool * Z) :=
  match fuel with
  | O => NoFuel
  | S fuel' =>
      if current_sig_ptr <? EXTENDED_BIOS_END_ADDR then
        r ← memcmp m current_sig_ptr rsd_ptr RSDP_SIG_SIZE;
        if negb (r =? 0) then Ok (true, current_sig_ptr) else rsdp_scan fuel' m rsd_ptr (u64 (current_sig_ptr + 16))
      else Ok (false, current_sig_ptr)
  end.

Section Acpi.
Context {F H : Type} `{FrameAlloc F} `{HeapAlloc H}.
Context (sym : symbols) (depth : nat) (uninit : Z) (phys : mem) (rsd_ptr : Z).

(** The memory manager with the static variable of [get_mmio_ptr], the console
    with the visible bytes, and the variables of acpi.c; [acpi_tables] is its
    array, as far as it is filled. *)
Record acpi := Acpi {
  amm : mm F H;
  mmio_region : Z;
  acon : console;
  current_sig_ptr : Z;
  rsdt : Z;
  acpi_tables : list Z;
}.

Definition amem (s : acpi) : mem := vmem (acon s).
Definition set_acon (s : acpi) (c : console) : acpi :=
  Acpi (amm s) (mmio_region s) c (current_sig_ptr s) (rsdt s) (acpi_tables s).
Definition set_pages (s : acpi) (v : mm F H) (r : Z) (m : mem) : acpi :=
  Acpi v r (set_vmem (acon s) m) (current_sig_ptr s) (rsdt s) (acpi_tables s).
Definition set_sig (s : acpi) (p : Z) : acpi := Acpi (amm s) (mmio_region s) (acon s) p (rsdt s) (acpi_tables s).
Definition set_rsdt (s : acpi) (p : Z) : acpi :=
  Acpi (amm s) (mmio_region s) (acon s) (current_sig_ptr s) p (acpi_tables s).
Definition set_tables (s : acpi) (l : list Z) : acpi :=
  Acpi (amm s) (mmio_region s) (acon s) (current_sig_ptr s) (rsdt s) l.

(** The bytes that the [len] mapped bytes from [p] show. *)
Definition shown (m : mem) (v : mm F H) (len p : Z) : mem :=
  show_pages (Z.to_nat (PAGE_ALIGN len / 0x1000)) phys (current_tr v) m p.

(** A call of [alloc_mmio]. *)
Definition device_pages (s : acpi) (phys_region_start length extra_flags : Z) : outcome (Z * acpi) :=
  '(p, r, v) ← alloc_mmio sym depth uninit (amm s) (mmio_region s) phys_region_start length extra_flags;
  Ok (p, set_pages s v r (shown (amem s) v length p)).

(** [get_rsdp]; [NULL] is an invalid root pointer. *)
Definition get_rsdp (fuel : nat) (s : acpi) (mb2_info : Z) : outcome (Z * acpi) :=
  if negb (current_sig_ptr s =? NULL) then Ok (current_sig_ptr s, s) else
  '(xsdp_tag, c) ← get_mb2_tag fuel (acon s) mb2_info MULTIBOOT_TAG_TYPE_ACPI_NEW;
  let s1 := set_acon s c in
  if negb (xsdp_tag =? NULL) then Ok (xsdp_tag + 8, set_sig s1 (xsdp_tag + 8)) else
  '(p, v) ← vmm_alloc sym depth uninit (amm s1) NULL EXTENDED_BIOS_LENGTH VM_FLAG_MMIO EXTENDED_BIOS_START_ADDR;
  let s2 := set_pages s1 v (mmio_region s1) (shown (amem s1) v EXTENDED_BIOS_LENGTH p) in
  '(found, q) ← rsdp_scan fuel (amem s2) rsd_ptr p;
  Ok (if (found : bool) then q else NULL, set_sig s2 q).

(** [map_table]: the length of a long table is read again through the
    physical pointer, whose arithmetic is in units of the header. *)
Definition map_table (s : acpi) (table : Z) : outcome (Z * acpi) :=
  let offset := u64 (table - Z.land table 0xfffffffffffff000) in
  '(new_table_page, s1) ← device_pages s table (PAGE_SIZE * 2) VM_FLAG_NONE;
  let new_table := u64 (new_table_page + offset) in
  len ← load32 (amem s1) (new_table + OFF_LENGTH);
  if PAGE_SIZE * 2 <? len then
    len' ← load32 (amem s1) (table + OFF_LENGTH);
    '(_, s2) ← device_pages s1 (u64 (table + PAGE_SIZE * 2 * SIZEOF_SDT_HEADER))
                 (PAGE_ALIGN_u32 (u32 (len' - PAGE_SIZE * 2))) VM_FLAG_NONE;
    Ok (new_table, s2)
  else Ok (new_table, s1).

(** The loop of [parse_rsdt] over the next [n] tables, from [i] on. *)
Fixpoint tables_loop (n : nat) (s : acpi) (i : Z) : outcome acpi :=
  match n with
  | O => Ok s
  | S n' =>
      addr ← load32 (amem s) (rsdt s + SIZEOF_SDT_HEADER + 4 * i);
      '(t, s1) ← map_table s addr;
      let s2 := set_tables s1 (acpi_tables s1 ++ [t]) in
      len ← load32 (amem s2) (t + OFF_LENGTH);
      ok ← validate_checksum (amem s2) t len;
      c ← (if (ok : bool) then Ok (acon s2) else ERROR (acon s2) "acpi" "table checksum failed");
      tables_loop n' (set_acon s2 c) (i + 1)
  end.

Definition parse_rsdt (s : acpi) : outcome acpi :=
  if rsdt s =? NULL then Ok s else
  len ← load32 (amem s) (rsdt s + OFF_LENGTH);
  let length := u64 (len - SIZEOF_SDT_HEADER) / 4 in
  '(_, v) ← kmalloc_mm (amm s) (u64 (8 * length));
  tables_loop (Z.to_nat length) (set_tables (set_pages s v (mmio_region s) (amem s)) []) 0.

Fixpoint dump_tables (s : console) (tables : list Z) : outcome console :=
  match tables with
  | [] => Ok s
  | t :: tables' =>
      s1 ← printk s (bytes_of "acpi: found the ") [];
      s2 ← print_signature s1 t;
      s3 ← printc s2 10;
      dump_tables s3 tables'
  end.

(** [dump_acpi_info] once [acpi_tables.tables] is allocated. *)
Definition dump_acpi_info (s : acpi) : outcome acpi :=
  if rsdt s =? NULL then Ok s else
  revision ← load8 (amem s) (rsdt s + OFF_REVISION);
  c1 ← printk (acon s) (bytes_of "acpi: ACPI Version %d" ++ [10]) [AInt revision];
  c2 ← printk c1 (bytes_of "acpi: ACPI OEM ") [];
  c3 ← print_oem_signature c2 (rsdt s);
  c4 ← printc c3 10;
  c5 ← dump_tables c4 (acpi_tables s);
  Ok (set_acon s c5).

Definition acpi_init (fuel : nat) (s : acpi) (mb2_info : Z) : outcome (bool * acpi) :=
  '(rsdp, s1) ← get_rsdp fuel s mb2_info;
  ok ← (if rsdp =? NULL then Ok false else validate_checksum (amem s1) rsdp SIZEOF_RSDP);
  if negb ok then Fault (Panic "acpi") else
  let '(ptr, r) := get_mmio_ptr (mmio_region s1) (2 * PAGE_SIZE) in
  addr ← load32 (amem s1) (rsdp + OFF_RSDT_ADDR);
  '(p, v) ← vmm_alloc sym depth uninit (amm s1) ptr (2 * PAGE_SIZE) VM_FLAG_READ_WRITE addr;
  let s2 := set_pages s1 v r (shown (amem s1) v (2 * PAGE_SIZE) p) in
  let s3 := set_rsdt s2 (u64 (p + addr - Z.land addr 0xfffffffffffff000)) in
  s4 ← parse_rsdt s3;
  s5 ← dump_acpi_info s4;
  Ok (true, s5).

End Acpi.
Arguments acpi : clear implicits.

(** ** Checksums and signatures *)

Definition byte_sum (l : list Z) : Z := foldr Z.add 0 l.

Lemma checksum_loop_spec l m p c :
  bytes_at m p l → ∃ r, checksum_loop (length l) m p c = Ok r ∧ r mod 2 ^ 8 = (c + byte_sum l) mod 2 ^ 8.
Proof.
  revert p c. induction l as [|b l IH]; intros p c Hb; cbn [checksum_loop length byte_sum foldr].
  - exists c. by rewrite Z.add_0_r.
  - apply load8_list in Hb as [-> Hb]. out_red. destruct (IH _ (u32 (c + b)) Hb) as (r & -> & Hr).
    exists r. split; [done |]. rewrite Hr. fold (byte_sum l). unfold u32. mlia.
Qed.

(** The checksum of a structure is right when the sum of its bytes, the
    checksum byte among them, is a multiple of 256. *)
Lemma validate_checksum_spec m p l n :
  bytes_at m p l → n = Z.of_nat (length l) → validate_checksum m p n = Ok (byte_sum l mod 2 ^ 8 =? 0).
Proof.
  intros Hb ->. unfold validate_checksum. rewrite Nat2Z.id.
  destruct (checksum_loop_spec l m p 0 Hb) as (r & -> & Hr). out_red. do 2 f_equal.
  change 0xff with (Z.ones 8). by rewrite Z.land_ones, Hr.
Qed.

(** ** The search for the root pointer *)

Definition rsd_sig : list Z := bytes_of "RSD PTR ".

(** No paragraph of the bytes [l] starts with the signature. *)
Definition no_rsdp (l : list Z) (n : nat) : Prop :=
  (length l = 16 * n)%nat ∧ ∀ k, (k < n)%nat → take 8 (drop (16 * k) l) ≠ rsd_sig.

Lemma memcmp_sig m p rsd_ptr l :
  bytes_at m rsd_ptr rsd_sig → bytes_at m p l → (8 ≤ length l)%nat →
  memcmp m p rsd_ptr RSDP_SIG_SIZE = Ok (if decide (take 8 l = rsd_sig) then 1 else 0).
Proof.
  intros Hs Hl Hn. pose proof (memcmp_loop_spec (take 8 l) rsd_sig m p rsd_ptr) as Hm.
  rewrite length_take in Hm. replace (8 `min` length l)%nat with 8%nat in Hm by lia.
  apply Hm; [done | by apply bytes_at_take | done].
Qed.

Lemma rsdp_scan_skip m rsd_ptr n : ∀ p l fuel,
  bytes_at m rsd_ptr rsd_sig → bytes_at m p l → no_rsdp l n →
  0 ≤ p → p + 16 * Z.of_nat n ≤ EXTENDED_BIOS_END_ADDR + 15 →
  rsdp_scan (n + fuel) m rsd_ptr p = rsdp_scan fuel m rsd_ptr (p + 16 * Z.of_nat n).
Proof.
  induction n as [|n IH]; intros p l fuel Hs Hl [Hlen Hno] H0 Hend; [by rewrite Z.add_0_r |].
  unfold EXTENDED_BIOS_END_ADDR in *. cbn [Nat.add rsdp_scan]. unfold EXTENDED_BIOS_END_ADDR.
  rewrite (proj2 (Z.ltb_lt _ _)) by lia. rewrite (memcmp_sig _ _ _ l) by (done || lia). out_red.
  specialize (Hno 0%nat) as Hno0. rewrite drop_0 in Hno0. rewrite decide_False by (apply Hno0; lia). cbn [negb Z.eqb].
  rewrite u64_small by lia. rewrite <- (take_drop 16 l) in Hl. apply bytes_at_app in Hl as [_ Hl].
  rewrite length_take in Hl. replace (Z.of_nat (16 `min` length l)) with 16 in Hl by lia.
  rewrite (IH (p + 16) (drop 16 l)); [f_equal; lia | done | done | | lia | lia].
  split; [rewrite length_drop; lia |]. intros k Hk. rewrite drop_drop. replace (16 + 16 * k)%nat with (16 * S k)%nat by lia.
  apply Hno. lia.
Qed.

(** The search of get_rsdp looks at every sixteenth address from the one
    that vmm_alloc returned: it stops at the first signature, faults at the
    first page that is not mapped, and gives up at the physical end of the
    BIOS area, with which it compares the virtual address. *)
Theorem rsdp_search m rsd_ptr p l n fuel :
  bytes_at m rsd_ptr rsd_sig → bytes_at m p l → no_rsdp l n →
  0 ≤ p → p + 16 * Z.of_nat n ≤ EXTENDED_BIOS_END_ADDR + 15 → (n < fuel)%nat →
  let q := p + 16 * Z.of_nat n in
  (EXTENDED_BIOS_END_ADDR ≤ q → rsdp_scan fuel m rsd_ptr p = Ok (false, q)) ∧
  (q < EXTENDED_BIOS_END_ADDR → bytes_at m q rsd_sig → rsdp_scan fuel m rsd_ptr p = Ok (true, q)) ∧
  (q < EXTENDED_BIOS_END_ADDR → m !! q = None → rsdp_scan fuel m rsd_ptr p = Fault (PageFault q)).
Proof.
  intros Hs Hl Hno H0 Hend Hf q. replace fuel with (n + S (fuel - S n))%nat by lia.
  rewrite (rsdp_scan_skip _ _ _ _ _ _ Hs Hl Hno H0 Hend). fold q. cbn [rsdp_scan]. split_and!.
  - intros Hq. by rewrite (proj2 (Z.ltb_ge _ _)).
  - intros Hq Hsig. rewrite (proj2 (Z.ltb_lt _ _)) by done.
    rewrite (memcmp_sig _ _ _ rsd_sig) by (done || simpl; lia). out_red. by rewrite decide_True by done.
  - intros Hq Hn. rewrite (proj2 (Z.ltb_lt _ _)) by done. unfold memcmp. change (Z.to_nat RSDP_SIG_SIZE) with 8%nat.
    cbn [memcmp_loop]. by rewrite (load8_fault _ _ Hn).
Qed.

(** ** Tables in physical memory *)

Record sdt := Sdt { t_addr : Z; t_bytes : list Z }.

Definition t_off (x : sdt) : Z := t_addr x mod 0x1000.

Section Tables.
Context {F H : Type} `{FrameAlloc F} `{HeapAlloc H}.
Context (sym : symbols) (depth : nat) (uninit : Z) (phys : mem) (rsd_ptr : Z).
Local Abbreviation acpi := (acpi F H).

(** A table that fits into two pages and has its length in its header. *)
Record sdt_ok (x : sdt) : Prop := {
  so_addr : 0 ≤ t_addr x < 2 ^ 32;
  so_length : (36 ≤ length (t_bytes x))%nat ∧ field (t_bytes x) 4 4 = Z.of_nat (length (t_bytes x));
  so_fits : t_off x + Z.of_nat (length (t_bytes x)) ≤ 0x2000;
  so_phys : bytes_at phys (t_addr x) (t_bytes x);
}.

(** Where the tables [xs] are mapped, two pages each from [r] on. *)
Fixpoint table_ptrs (r : Z) (xs : list sdt) : list Z :=
  match xs with [] => [] | x :: xs' => r + t_off x :: table_ptrs (r + 0x2000) xs' end.

Fixpoint tables_at (m : mem) (r : Z) (xs : list sdt) : Prop :=
  match xs with [] => True | x :: xs' => bytes_at m (r + t_off x) (t_bytes x) ∧ tables_at m (r + 0x2000) xs' end.

(** The first table with a signature. *)
Fixpoint find_table (sig : list Z) (r : Z) (xs : list sdt) : Z :=
  match xs with
  | [] => NULL
  | x :: xs' => if decide (take 4 (t_bytes x) = sig) then r + t_off x else find_table sig (r + 0x2000) xs'
  end.

(** The calls of alloc_mmio for the tables succeed, one after the other. *)
Fixpoint tables_alloc (v : mm F H) (r : Z) (xs : list sdt) (v' : mm F H) : Prop :=
  match xs with
  | [] => v' = v
  | x :: xs' => ∃ v1, alloc_mmio sym depth uninit v r (t_addr x) (PAGE_SIZE * 2) VM_FLAG_NONE = Ok (r, r + 0x2000, v1) ∧
      pages_at v1 r (PAGE_ALIGN_DOWN (t_addr x)) 2 ∧ tables_alloc v1 (r + 0x2000) xs' v'
  end.

Hypothesis Hphys : bytes_ok phys.

Lemma t_off_range x : 0 ≤ t_off x < 0x1000.
Proof. unfold t_off. mlia. Qed.

Lemma align_addr x : sdt_ok x → PAGE_ALIGN_DOWN (t_addr x) + t_off x = t_addr x.
Proof. intros [Ha _ _ _]. rewrite page_align_down_spec by lia. unfold t_off. lia. Qed.

Lemma shown_outside m (v : mm F H) p : agree_outside p 0x2000 m (shown phys m v (PAGE_SIZE * 2) p).
Proof. apply (show_pages_outside 2). Qed.

Lemma shown_ok m (v : mm F H) p : bytes_ok m → bytes_ok (shown phys m v (PAGE_SIZE * 2) p).
Proof. by apply show_pages_ok. Qed.

Lemma shown_table m (v : mm F H) r x :
  sdt_ok x → pages_at v r (PAGE_ALIGN_DOWN (t_addr x)) 2 →
  bytes_at (shown phys m v (PAGE_SIZE * 2) r) (r + t_off x) (t_bytes x).
Proof.
  intros Hx Hp. pose proof (t_off_range x). destruct (Hx) as [_ _ Hf Hb].
  apply (show_pages_at 2 _ _ _ (PAGE_ALIGN_DOWN (t_addr x))); [done | by rewrite align_addr | lia | lia].
Qed.

Lemma shows_mem c t m :
  shows c t → bytes_ok m → (∀ i, vga_out c ≤ i < vga_out c + VGA_LENGTH → m !! i = vmem c !! i) →
  shows (set_vmem c m) t.
Proof.
  intros [S1 S2 S3 S4 S5] Hm Ha. split; try done. apply (bytes_at_agree (vmem c)); [| done].
  intros i Hi. apply Ha. rewrite length_cell_bytes in Hi. destruct S4 as (Hc & _). rewrite Hc in Hi.
  unfold VGA_LENGTH. cbn [vga_out set_vmem] in Hi. lia.
Qed.

(** What a table costs: its pages and the screen. *)
Lemma map_table_spec (s : acpi) t x v1 :
  shows (acon s) t → sdt_ok x →
  alloc_mmio sym depth uninit (amm s) (mmio_region s) (t_addr x) (PAGE_SIZE * 2) VM_FLAG_NONE =
    Ok (mmio_region s, mmio_region s + 0x2000, v1) →
  pages_at v1 (mmio_region s) (PAGE_ALIGN_DOWN (t_addr x)) 2 →
  off_screen (acon s) (mmio_region s) 0x2000 → 0 ≤ mmio_region s → mmio_region s + 0x2000 ≤ 2 ^ 64 →
  let p := mmio_region s + t_off x in
  let s' := set_pages s v1 (mmio_region s + 0x2000) (shown phys (amem s) v1 (PAGE_SIZE * 2) (mmio_region s)) in
  map_table sym depth uninit phys s (t_addr x) = Ok (p, s') ∧ shows (acon s') t ∧ bytes_at (amem s') p (t_bytes x) ∧
  agree_outside (mmio_region s) 0x2000 (amem s) (amem s').
Proof.
  intros Hs Hx Ha Hp Ho H0' H64 p s'. pose proof (t_off_range x) as Hoff.
  pose proof (shown_table (amem s) v1 (mmio_region s) x Hx Hp) as Hb. destruct (Hx) as [Had [Hl Hf] Hfit Hph].
  assert (load32 (amem s') (p + OFF_LENGTH) = Ok (Z.of_nat (length (t_bytes x)))) as Hlen.
  { unfold OFF_LENGTH. rewrite (load32_field _ _ (t_bytes x) 4) by (done || lia). change (Z.to_nat 4) with 4%nat. by rewrite Hf. }
  split_and!.
  - unfold map_table, device_pages. rewrite Ha. out_red. fold s'.
    change (Z.land (t_addr x) 0xfffffffffffff000) with (PAGE_ALIGN_DOWN (t_addr x)).
    replace (u64 (t_addr x - PAGE_ALIGN_DOWN (t_addr x))) with (t_off x).
    2: { rewrite <- (align_addr x Hx) at 1. rewrite u64_small by lia. lia. }
    rewrite (u64_small (mmio_region s + t_off x)) by lia. fold p. rewrite Hlen. out_red.
    unfold PAGE_SIZE. rewrite (proj2 (Z.ltb_ge _ _)) by lia. done.
  - apply shows_mem; [done | apply shown_ok, (sh_bytes _ _ Hs) |]. intros i Hi. apply shown_outside.
    unfold off_screen in Ho. lia.
  - exact Hb.
  - apply shown_outside.
Qed.

Definition pages_len (xs : list sdt) : Z := 0x2000 * Z.of_nat (length xs).

(** The tables of the RSDT with the bytes [d], from entry [i] on. *)
Definition entries_of (d : list Z) (i : nat) (xs : list sdt) : Prop :=
  (36 + 4 * (i + length xs) ≤ length d)%nat ∧
  ∀ k x, xs !! k = Some x → field d (36 + 4 * (i + k)) 4 = t_addr x.

(** What is known while the loop runs: the RSDT lies below the pages to come,
    which are not those of the screen. *)
Record room (s : acpi) (d : list Z) (n : Z) : Prop := {
  rm_rsdt : bytes_at (amem s) (rsdt s) d;
  rm_below : rsdt s + Z.of_nat (length d) ≤ mmio_region s;
  rm_rsdt_off : off_screen (acon s) (rsdt s) (Z.of_nat (length d));
  rm_off : off_screen (acon s) (mmio_region s) n;
  rm_range : 0 ≤ mmio_region s ∧ mmio_region s + n ≤ 2 ^ 64;
}.

(** Nothing but the screen and the [n] bytes from [r] on has changed. *)
Definition only_pages (s s' : acpi) (r n : Z) : Prop :=
  (∀ i, ¬ (vga_out (acon s) ≤ i < vga_out (acon s) + VGA_LENGTH) → ¬ (r ≤ i < r + n) → amem s' !! i = amem s !! i) ∧
  vga_out (acon s') = vga_out (acon s) ∧ rsdt s' = rsdt s ∧ current_sig_ptr s' = current_sig_ptr s.

Lemma report_table (c : console) t (ok : bool) :
  shows c t → locked c = false →
  ∃ c' t', (if ok then Ok c else ERROR c "acpi" "table checksum failed") = Ok c' ∧ shows c' t' ∧ only_screen c c'.
Proof.
  intros Hs Hl. destruct ok; [exists c, t; split_and!; [done | done | apply only_screen_refl] |].
  destruct (ERROR_shows c t "acpi" "table checksum failed" Hs Hl) as (c' & ? & ? & ?). by eexists c', _.
Qed.

Lemma entry_addr (s : acpi) d n i x xs :
  room s d n → entries_of d i (x :: xs) →
  load32 (amem s) (rsdt s + SIZEOF_SDT_HEADER + 4 * Z.of_nat i) = Ok (t_addr x).
Proof.
  intros [Hd _ _ _ _] [Hl Hx]. simpl in Hl. unfold SIZEOF_SDT_HEADER.
  replace (rsdt s + 36 + 4 * Z.of_nat i) with (rsdt s + Z.of_nat (36 + 4 * i)) by lia.
  rewrite (load32_field _ _ d) by (done || lia). rewrite Nat2Z.id. f_equal. rewrite <- (Hx 0%nat x) by done.
  f_equal. lia.
Qed.

(** One turn of the loop. *)
Lemma tables_step (s : acpi) t d i x xs v1 n :
  shows (acon s) t → locked (acon s) = false → sdt_ok x → entries_of d i (x :: xs) → room s d (pages_len (x :: xs)) →
  alloc_mmio sym depth uninit (amm s) (mmio_region s) (t_addr x) (PAGE_SIZE * 2) VM_FLAG_NONE =
    Ok (mmio_region s, mmio_region s + 0x2000, v1) →
  pages_at v1 (mmio_region s) (PAGE_ALIGN_DOWN (t_addr x)) 2 →
  ∃ s1 t1, tables_loop sym depth uninit phys (S n) s (Z.of_nat i) =
      tables_loop sym depth uninit phys n s1 (Z.of_nat (S i)) ∧
    shows (acon s1) t1 ∧ locked (acon s1) = false ∧ amm s1 = v1 ∧ mmio_region s1 = mmio_region s + 0x2000 ∧
    acpi_tables s1 = acpi_tables s ++ [mmio_region s + t_off x] ∧
    bytes_at (amem s1) (mmio_region s + t_off x) (t_bytes x) ∧ only_pages s s1 (mmio_region s) 0x2000 ∧
    room s1 d (pages_len xs).
Proof.
  intros Hs Hlk Hx Hent Hroom Ha Hp. pose proof (entry_addr _ _ _ _ _ _ Hroom Hent) as Hld.
  destruct Hroom as [R1 R2 R3 R4 [R5 R6]]. unfold pages_len in *. cbn [length] in *.
  assert (off_screen (acon s) (mmio_region s) 0x2000) as Ho by (unfold off_screen in *; lia).
  destruct (map_table_spec s t x v1 Hs Hx Ha Hp Ho R5) as (Hm & Hs1 & Hb & Hag); [lia |].
  set (p := mmio_region s + t_off x) in *. pose proof (t_off_range x) as Hoff.
  set (s1 := set_pages s v1 (mmio_region s + 0x2000) (shown phys (amem s) v1 (PAGE_SIZE * 2) (mmio_region s))) in *.
  destruct (Hx) as [Had [Hl Hf] Hfit Hph].
  destruct (report_table (acon s1) t (byte_sum (t_bytes x) mod 2 ^ 8 =? 0) Hs1 Hlk) as (c & t1 & Hc & Hs2 & Hon).
  assert (off_screen (acon s1) p (Z.of_nat (length (t_bytes x)))) as Hop
    by (unfold off_screen in *; change (vga_out (acon s1)) with (vga_out (acon s)); unfold p; lia).
  exists (set_acon (set_tables s1 (acpi_tables s1 ++ [p])) c), t1.
  pose proof Hon as (Hag1 & Hv1 & Hl1). split_and!; try done.
  - cbn [tables_loop]. rewrite Hld. out_red. rewrite Hm. out_red. change (amem (set_tables s1 _)) with (amem s1).
    unfold OFF_LENGTH. rewrite (load32_field _ _ _ 4 Hb) by lia. change (Z.to_nat 4) with 4%nat. rewrite Hf. out_red.
    rewrite (validate_checksum_spec _ _ _ _ Hb eq_refl). out_red. change (acon (set_tables s1 _)) with (acon s1).
    rewrite Hc. out_red. f_equal. lia.
  - etrans; [exact Hl1 | exact Hlk].
  - exact (only_screen_bytes _ _ _ _ Hon Hop Hb).
  - split_and!; [| done..]. intros a A1 A2. unfold amem. cbn [acon set_acon]. rewrite Hag1 by done. by apply Hag.
  - split; cbn [acon rsdt mmio_region set_acon set_tables]; try done.
    + apply (only_screen_bytes _ _ _ _ Hon); [exact R3 |]. apply (bytes_at_agree (amem s)); [| exact R1].
      intros a A. apply Hag. cbn [rsdt s1 set_pages] in A. lia.
    + cbn [rsdt s1 set_pages mmio_region]. lia.
    + by apply (only_screen_off _ _ _ _ Hon).
    + apply (only_screen_off _ _ _ _ Hon). unfold off_screen in *. change (vga_out (acon s1)) with (vga_out (acon s)).
      cbn [mmio_region s1 set_pages]. lia.
    + cbn [mmio_region s1 set_pages]. lia.
Qed.

Lemma only_pages_bytes s s' r n a l :
  only_pages s s' r n → off_screen (acon s) a (Z.of_nat (length l)) → a + Z.of_nat (length l) ≤ r ∨ r + n ≤ a →
  bytes_at (amem s) a l → bytes_at (amem s') a l.
Proof.
  intros (Hag & _) Ho Hr Hb. apply (bytes_at_agree (amem s)); [| done]. intros i Hi. unfold off_screen in Ho.
  apply Hag; lia.
Qed.

Lemma only_pages_trans s s1 s' r n k :
  0 ≤ n → 0 ≤ k → only_pages s s1 r n → only_pages s1 s' (r + n) k → only_pages s s' r (n + k).
Proof.
  intros Hn Hk (A1 & A2 & A3 & A4) (B1 & B2 & B3 & B4). split_and!; [| congruence..].
  intros i I1 I2. rewrite B1 by (rewrite ?A2; lia). apply A1; lia.
Qed.

Lemma only_pages_refl s r : only_pages s s r 0.
Proof. by split_and!. Qed.

Lemma tables_loop_spec xs : ∀ (s : acpi) t d i v',
  shows (acon s) t → locked (acon s) = false → Forall sdt_ok xs → entries_of d i xs → room s d (pages_len xs) →
  tables_alloc (amm s) (mmio_region s) xs v' →
  ∃ s' t', tables_loop sym depth uninit phys (length xs) s (Z.of_nat i) = Ok s' ∧
    shows (acon s') t' ∧ locked (acon s') = false ∧ amm s' = v' ∧ mmio_region s' = mmio_region s + pages_len xs ∧
    acpi_tables s' = acpi_tables s ++ table_ptrs (mmio_region s) xs ∧ tables_at (amem s') (mmio_region s) xs ∧
    only_pages s s' (mmio_region s) (pages_len xs) ∧ bytes_at (amem s') (rsdt s') d.
Proof.
  induction xs as [|x xs IH]; intros s t d i v' Hs Hlk Hok Hent Hroom Hal.
  - exists s, t. simpl in Hal. subst v'. cbn [length table_ptrs tables_at]. unfold pages_len. simpl.
    rewrite Z.add_0_r, app_nil_r. split_and!; try done; by apply Hroom.
  - apply Forall_cons in Hok as [Hx Hok]. destruct Hal as (v1 & Ha & Hp & Hal).
    destruct (tables_step s t d i x xs v1 (length xs) Hs Hlk Hx Hent Hroom Ha Hp)
      as (s1 & t1 & Hst & Hs1 & Hl1 & Hv1 & Hr1 & Ht1 & Hb1 & Hon1 & Hroom1).
    assert (entries_of d (S i) xs) as Hent1.
    { destruct Hent as [He1 He2]. simpl in He1. split; [lia |]. intros k y Hk. rewrite <- (He2 (S k) y Hk). f_equal. lia. }
    rewrite <- Hv1, <- Hr1 in Hal.
    destruct (IH s1 t1 d (S i) v' Hs1 Hl1 Hok Hent1 Hroom1 Hal)
      as (s' & t' & Hlp & Hs' & Hl' & Hv' & Hr' & Ht' & Htab & Hon' & Hd').
    exists s', t'. rewrite Hr1 in *. cbn [length table_ptrs tables_at].
    assert (pages_len (x :: xs) = 0x2000 + pages_len xs) as Hpl by (unfold pages_len; simpl; lia). rewrite Hpl.
    assert (0 ≤ pages_len xs) by (unfold pages_len; lia).
    split_and!; try done.
    + by rewrite Hst.
    + by rewrite Hr', Z.add_assoc.
    + rewrite Ht', Ht1, <- app_assoc. done.
    + destruct Hon1 as (_ & Hv & _). destruct Hroom as [_ _ _ Ho _]. rewrite Hpl in Ho.
      pose proof (t_off_range x) as Hoff. pose proof (so_fits x Hx) as Hfit.
      apply (only_pages_bytes s1 _ _ _ _ _ Hon'); [| lia | done]. unfold off_screen in *. rewrite Hv. lia.
    + by apply (only_pages_trans s s1).
Qed.

(** ** What is printed *)

Lemma print_field_shows l : ∀ c t a,
  shows c t → bytes_at (vmem c) a l → off_screen c a (Z.of_nat (length l)) →
  ∃ c', print_field (length l) c a = Ok c' ∧ shows c' (puts t l) ∧ only_screen c c'.
Proof.
  induction l as [|b l IH]; intros c t a Hs Hb Ho; [exists c; split_and!; [done | done | apply only_screen_refl] |].
  apply load8_list in Hb as [Hb Hl]. cbn [length print_field]. rewrite Hb. out_red.
  destruct (printc_shows c t b Hs) as (c1 & -> & Hs1 & Ho1). out_red. cbn [length] in Ho.
  assert (off_screen c (a + 1) (Z.of_nat (length l))) as Ho' by (unfold off_screen in *; lia).
  destruct (IH c1 _ (a + 1) Hs1) as (c2 & -> & Hs2 & Ho2).
  - by apply (only_screen_bytes _ _ _ _ Ho1).
  - by apply (only_screen_off _ _ _ _ Ho1).
  - exists c2. split_and!; [done | done | by eapply only_screen_trans].
Qed.

(** Text without conversions. *)
Lemma print_text c t str :
  shows c t → locked c = false → 37 ∉ str →
  ∃ c', printk c str [] = Ok c' ∧ shows c' (puts t str) ∧ only_screen c c'.
Proof.
  intros Hs Hl Hp. destruct (printf_shows 1 (S (length str)) c t (lits str) Hs Hl) as (c' & Hc & Hs' & Ho).
  - by apply lits_ok.
  - unfold lits. rewrite length_fmap. lia.
  - exists c'. rewrite lits_format, lits_args in Hc. rewrite lits_render in Hs'. by split.
Qed.

Definition table_line (x : sdt) : list Z := bytes_of "acpi: found the " ++ take 4 (t_bytes x) ++ [10].

Lemma tables_at_agree m m' r xs :
  Forall sdt_ok xs → (∀ i, r ≤ i < r + pages_len xs → m' !! i = m !! i) → tables_at m r xs → tables_at m' r xs.
Proof.
  revert r. induction xs as [|x xs IH]; intros r Hok Ha Ht; [done |].
  apply Forall_cons in Hok as [Hx Hok]. destruct Ht as [Hb Ht]. pose proof (t_off_range x). pose proof (so_fits x Hx).
  unfold pages_len in Ha. cbn [length] in Ha. split.
  - apply (bytes_at_agree m); [| done]. intros i Hi. apply Ha. lia.
  - apply IH; [done | | done]. intros i Hi. apply Ha. unfold pages_len in Hi. lia.
Qed.

Lemma tables_at_screen c c' r xs :
  only_screen c c' → Forall sdt_ok xs → off_screen c r (pages_len xs) → tables_at (vmem c) r xs → tables_at (vmem c') r xs.
Proof.
  intros (Ha & _) Hok Hoff. apply tables_at_agree; [done |]. intros i Hi. apply Ha. unfold off_screen in Hoff. lia.
Qed.

Lemma dump_tables_shows xs : ∀ c t r,
  shows c t → locked c = false → Forall sdt_ok xs → tables_at (vmem c) r xs → off_screen c r (pages_len xs) →
  ∃ c', dump_tables c (table_ptrs r xs) = Ok c' ∧ shows c' (puts t (flat_map table_line xs)) ∧ only_screen c c'.
Proof.
  induction xs as [|x xs IH]; intros c t r Hs Hl Hok Ht Hoff;
    [exists c; split_and!; [done | done | apply only_screen_refl] |].
  pose proof Ht as [Hb _]. pose proof Hok as [Hx Hoks]%Forall_cons. cbn [table_ptrs dump_tables flat_map].
  pose proof (t_off_range x) as Hto. destruct (Hx) as [_ [Hlen _] Hfit _].
  destruct (print_text c t (bytes_of "acpi: found the ") Hs Hl) as (c1 & -> & Hs1 & Ho1); [no_percent |]. out_red.
  unfold print_signature.
  assert (off_screen c (r + t_off x) (Z.of_nat (length (t_bytes x)))) as Hox
    by (unfold off_screen, pages_len in *; cbn [length] in Hoff; lia).
  assert (length (take 4 (t_bytes x)) = 4%nat) as H4 by (rewrite length_take; lia).
  destruct (print_field_shows (take 4 (t_bytes x)) c1 _ (r + t_off x) Hs1) as (c2 & Hc2 & Hs2 & Ho2).
  { apply bytes_at_take. by apply (only_screen_bytes _ _ _ _ Ho1). }
  { apply (only_screen_off _ _ _ _ Ho1). unfold off_screen in *. rewrite H4. lia. }
  rewrite H4 in Hc2. rewrite Hc2. out_red. destruct (printc_shows c2 _ 10 Hs2) as (c3 & -> & Hs3 & Ho3). out_red.
  pose proof (only_screen_trans _ _ _ Ho1 (only_screen_trans _ _ _ Ho2 Ho3)) as Ho.
  destruct (IH c3 _ (r + 0x2000) Hs3) as (c4 & -> & Hs4 & Ho4).
  - by rewrite (only_screen_locked _ _ Ho).
  - done.
  - by apply (tables_at_screen _ _ _ _ Ho (Forall_cons_2 _ _ _ Hx Hoks) Hoff Ht).
  - apply (only_screen_off _ _ _ _ Ho). unfold off_screen, pages_len in *. cbn [length] in Hoff. lia.
  - exists c4. split_and!; [done | | by eapply only_screen_trans].
    unfold table_line. rewrite <- !app_assoc, !puts_app. exact Hs4.
Qed.

(** What [dump_acpi_info] prints about the RSDT with the bytes [d]. *)
Definition report (d : list Z) (xs : list sdt) : list Z :=
  bytes_of "acpi: ACPI Version " ++ render (PInt (field d 8 1)) ++ [10] ++
  bytes_of "acpi: ACPI OEM " ++ take 6 (drop 10 d) ++ [10] ++ flat_map table_line xs.

Lemma load8_field m a d off :
  bytes_at m a d → 0 ≤ off → off + 1 ≤ Z.of_nat (length d) → load8 m (a + off) = Ok (field d (Z.to_nat off) 1).
Proof.
  intros Hb H0' Hn. destruct (bytes_at_field m a d (Z.to_nat off) 1 Hb) as [Hf Hl]; [lia |].
  rewrite Z2Nat.id in Hf by done. unfold field.
  destruct (take 1 (drop (Z.to_nat off) d)) as [|b [|]]; try done. apply load8_list in Hf as [-> _].
  cbn [le_value]. f_equal. lia.
Qed.

Lemma dump_acpi_info_shows (s : acpi) t d r xs :
  shows (acon s) t → locked (acon s) = false → rsdt s ≠ NULL → bytes_at (amem s) (rsdt s) d → (36 ≤ length d)%nat →
  off_screen (acon s) (rsdt s) (Z.of_nat (length d)) → acpi_tables s = table_ptrs r xs → Forall sdt_ok xs →
  tables_at (amem s) r xs → off_screen (acon s) r (pages_len xs) →
  ∃ c', dump_acpi_info s = Ok (set_acon s c') ∧ shows c' (puts t (report d xs)) ∧ only_screen (acon s) c'.
Proof.
  intros Hs Hl Hn Hd Hlen Hoff Htab Hok Ht Hot. unfold dump_acpi_info. rewrite (proj2 (Z.eqb_neq _ _)) by done.
  unfold OFF_REVISION. rewrite (load8_field _ _ d) by (done || lia). out_red. change (Z.to_nat 8) with 8%nat.
  change (bytes_of "acpi: ACPI Version %d" ++ [10])
    with (bytes_of "acpi: ACPI Version " ++ piece_format (PInt (field d 8 1)) ++ [10]).
  change [AInt (field d 8 1)] with (piece_args (PInt (field d 8 1))).
  destruct (printk_piece (acon s) t (bytes_of "acpi: ACPI Version ") (PInt (field d 8 1)) [10] Hs Hl)
    as (c1 & -> & Hs1 & Ho1); [no_percent | no_percent | done |]. out_red.
  destruct (print_text c1 _ (bytes_of "acpi: ACPI OEM ") Hs1) as (c2 & -> & Hs2 & Ho2);
    [by rewrite (only_screen_locked _ _ Ho1) | no_percent |]. out_red.
  pose proof (only_screen_trans _ _ _ Ho1 Ho2) as Ho12. unfold print_oem_signature, OFF_OEMID.
  destruct (bytes_at_field (amem s) (rsdt s) d 10 6 Hd) as [Hoem Hl6]; [lia |].
  destruct (print_field_shows (take 6 (drop 10 d)) c2 _ (rsdt s + 10) Hs2) as (c3 & Hc3 & Hs3 & Ho3).
  { apply (only_screen_bytes _ _ _ _ Ho12); [| exact Hoem]. unfold off_screen in *. rewrite Hl6. lia. }
  { apply (only_screen_off _ _ _ _ Ho12). unfold off_screen in *. rewrite Hl6. lia. }
  rewrite Hl6 in Hc3. rewrite Hc3. out_red. destruct (printc_shows c3 _ 10 Hs3) as (c4 & -> & Hs4 & Ho4). out_red.
  pose proof (only_screen_trans _ _ _ Ho12 (only_screen_trans _ _ _ Ho3 Ho4)) as Ho. rewrite Htab.
  destruct (dump_tables_shows xs c4 _ r Hs4) as (c5 & -> & Hs5 & Ho5).
  - by rewrite (only_screen_locked _ _ Ho).
  - done.
  - by apply (tables_at_screen (acon s)).
  - by apply (only_screen_off _ _ _ _ Ho).
  - exists c5. split_and!; [done | | by eapply only_screen_trans]. unfold report.
    change (puts ?u (?a ++ ?b ++ [10] ++ ?c ++ ?e ++ [10] ++ ?f)) with (puts u (a ++ b ++ [10] ++ c ++ e ++ [10] ++ f)).
    rewrite !puts_app. rewrite !puts_app in Hs5. exact Hs5.
Qed.

(** ** From the boot information to the tables *)

Lemma get_acpi_table_first xs : ∀ m r p sig,
  Forall sdt_ok xs → tables_at m r xs → bytes_at m p sig → length sig = 4%nat →
  get_acpi_table m (table_ptrs r xs) p = Ok (find_table sig r xs).
Proof.
  induction xs as [|x xs IH]; intros m r p sig Hok Ht Hp Hl; [done |].
  apply Forall_cons in Hok as [Hx Hok]. destruct Ht as [Hb Ht]. destruct (Hx) as [_ [Hlen _] _ _].
  cbn [table_ptrs get_acpi_table find_table]. unfold memcmp. change (Z.to_nat 4) with 4%nat.
  pose proof (memcmp_loop_spec (take 4 (t_bytes x)) sig m (r + t_off x) p) as Hm.
  rewrite length_take in Hm. replace (4 `min` length (t_bytes x))%nat with 4%nat in Hm by lia.
  rewrite Hm; [| by rewrite Hl | by apply bytes_at_take | done]. out_red.
  destruct (decide (take 4 (t_bytes x) = sig)); [done |]. cbn [negb Z.eqb]. by apply IH.
Qed.

Lemma find_table_app sig r xs1 x xs2 :
  Forall (λ y, take 4 (t_bytes y) ≠ sig) xs1 → take 4 (t_bytes x) = sig →
  find_table sig r (xs1 ++ x :: xs2) = r + pages_len xs1 + t_off x.
Proof.
  intros Hxs Hx. revert r. induction Hxs as [|y ys Hy _ IH]; intros r; cbn [app find_table].
  - rewrite decide_True by done. unfold pages_len. simpl. lia.
  - rewrite decide_False by done. rewrite IH. unfold pages_len. cbn [length]. lia.
Qed.

Lemma tables_at_app m r xs1 x xs2 : tables_at m r (xs1 ++ x :: xs2) → bytes_at m (r + pages_len xs1 + t_off x) (t_bytes x).
Proof.
  revert r. induction xs1 as [|y ys IH]; intros r Ht.
  - destruct Ht as [Hb _]. unfold pages_len. simpl. by rewrite Z.add_0_r.
  - destruct Ht as [_ Ht]. apply IH in Ht. unfold pages_len in *. cbn [length].
    by replace (r + 0x2000 * Z.of_nat (S (length ys))) with (r + 0x2000 + 0x2000 * Z.of_nat (length ys)) by lia.
Qed.

(** What has to be in memory for [acpi_init]: the new root pointer in the boot
    information, and in physical memory the RSDT and its tables, for which the
    calls of the memory manager succeed. *)
Record acpi_image (s : acpi) (mb2_info : Z) (n : nat) (tag : Z) (rp : list Z) (root : sdt) (xs : list sdt)
    (v1 v2 v3 : mm F H) : Prop := {
  ai_tag : tag_reach (amem s) MULTIBOOT_TAG_TYPE_ACPI_NEW (mb2_info + 8) n tag MULTIBOOT_TAG_TYPE_ACPI_NEW;
  ai_first : current_sig_ptr s = NULL ∧ tag ≠ NULL ∧ tag + 8 ≠ NULL;
  ai_rsdp : bytes_at (amem s) (tag + 8) rp ∧ length rp = 20%nat ∧ field rp 16 4 = t_addr root;
  ai_root : sdt_ok root ∧ length (t_bytes root) = (36 + 4 * length xs)%nat ∧ entries_of (t_bytes root) 0 xs;
  ai_tables : Forall sdt_ok xs;
  ai_map : vmm_alloc sym depth uninit (amm s) (mmio_region s) (2 * PAGE_SIZE) VM_FLAG_READ_WRITE (t_addr root) =
    Ok (mmio_region s, v1) ∧ pages_at v1 (mmio_region s) (PAGE_ALIGN_DOWN (t_addr root)) 2;
  ai_array : ∃ p, kmalloc_mm v1 (8 * Z.of_nat (length xs)) = Ok (p, v2);
  ai_alloc : tables_alloc v2 (mmio_region s + 0x2000) xs v3;
  ai_off : off_screen (acon s) (mmio_region s) (pages_len (root :: xs));
  ai_range : 0 < mmio_region s ∧ mmio_region s + pages_len (root :: xs) < 2 ^ 64;
}.

Lemma get_rsdp_tag (s : acpi) mb2_info n tag rp root xs v1 v2 v3 fuel :
  acpi_image s mb2_info n tag rp root xs v1 v2 v3 → (n < fuel)%nat →
  get_rsdp sym depth uninit phys rsd_ptr fuel s mb2_info = Ok (tag + 8, set_sig (set_acon s (acon s)) (tag + 8)).
Proof.
  intros [Hr (Hc & Ht & _) _ _ _ _ _ _ _ _] Hn. unfold get_rsdp. rewrite Hc. cbn [negb Z.eqb NULL].
  unfold get_mb2_tag. destruct (find_tag_reach _ _ _ _ _ _ _ Hr Hn) as [Hf Hty].
  unfold amem in *. rewrite Hf. out_red. rewrite Hty. out_red. rewrite Z.eqb_refl. cbn [negb]. out_red.
  by rewrite (proj2 (Z.eqb_neq _ _)).
Qed.

Lemma parse_rsdt_spec (s : acpi) t d xs v2 v3 p :
  shows (acon s) t → locked (acon s) = false → rsdt s ≠ NULL → room s d (pages_len xs) →
  (length d = 36 + 4 * length xs)%nat → field d 4 4 = Z.of_nat (length d) → entries_of d 0 xs → Forall sdt_ok xs →
  kmalloc_mm (amm s) (8 * Z.of_nat (length xs)) = Ok (p, v2) → tables_alloc v2 (mmio_region s) xs v3 →
  mmio_region s + pages_len xs < 2 ^ 64 →
  ∃ s' t', parse_rsdt sym depth uninit phys s = Ok s' ∧ shows (acon s') t' ∧ locked (acon s') = false ∧
    amm s' = v3 ∧ mmio_region s' = mmio_region s + pages_len xs ∧ acpi_tables s' = table_ptrs (mmio_region s) xs ∧
    tables_at (amem s') (mmio_region s) xs ∧ bytes_at (amem s') (rsdt s) d ∧
    only_pages s s' (mmio_region s) (pages_len xs).
Proof.
  intros Hs Hl Hn Hroom Hlen Hf Hent Hok Hk Hal H64. unfold parse_rsdt. rewrite (proj2 (Z.eqb_neq _ _)) by done.
  destruct (Hroom) as [Hd _ _ _ [H0' _]]. unfold OFF_LENGTH, SIZEOF_SDT_HEADER. unfold pages_len in H64.
  rewrite (load32_field _ _ d 4) by (done || lia). out_red. change (Z.to_nat 4) with 4%nat. rewrite Hf, Hlen.
  replace (u64 (Z.of_nat (36 + 4 * length xs) - 36) / 4) with (Z.of_nat (length xs))
    by (rewrite u64_small by lia; replace (_ - 36) with (Z.of_nat (length xs) * 4) by lia; by rewrite Z.div_mul).
  rewrite u64_small by lia. rewrite Hk. out_red. rewrite Nat2Z.id.
  destruct (tables_loop_spec xs (set_tables (set_pages s v2 (mmio_region s) (amem s)) []) t d 0 v3)
    as (s' & t' & Hp & Hs' & Hl' & Hv & Hm & Ht & Htab & Hon & Hd'); try done.
  - by destruct Hs.
  - by destruct Hroom.
  - exists s', t'. split_and!; try done. destruct Hon as (_ & _ & Hrs & _). by rewrite Hrs in Hd'.
Qed.

(** The state of [acpi_init] once the RSDT is mapped. *)
Definition with_root (s : acpi) (tag : Z) (root : sdt) (v1 : mm F H) : acpi :=
  set_rsdt (set_pages (set_sig (set_acon s (acon s)) (tag + 8)) v1 (mmio_region s + 0x2000)
    (shown phys (amem s) v1 (2 * PAGE_SIZE) (mmio_region s))) (mmio_region s + t_off root).

Lemma pages_len_cons x xs : pages_len (x :: xs) = 0x2000 + pages_len xs ∧ 0 ≤ pages_len xs.
Proof. unfold pages_len. simpl. lia. Qed.

Lemma acpi_init_root (s : acpi) mb2_info n tag rp root xs v1 v2 v3 fuel :
  acpi_image s mb2_info n tag rp root xs v1 v2 v3 → (n < fuel)%nat →
  acpi_init sym depth uninit phys rsd_ptr fuel s mb2_info =
  if byte_sum rp mod 2 ^ 8 =? 0 then
    s4 ← parse_rsdt sym depth uninit phys (with_root s tag root v1); s5 ← dump_acpi_info s4; Ok (true, s5)
  else Fault (Panic "acpi").
Proof.
  intros Hi Hn. pose proof (get_rsdp_tag _ _ _ _ _ _ _ _ _ _ _ Hi Hn) as Hg.
  destruct Hi as [_ (_ & _ & Htag) (Hrp & Hl20 & Hfa) (Hroot & _ & _) _ [Hmap _] _ _ _ [Hr0 H64]].
  unfold acpi_init. rewrite Hg. out_red. rewrite (proj2 (Z.eqb_neq (tag + 8) NULL)) by done.
  change (amem (set_sig (set_acon s (acon s)) (tag + 8))) with (amem s).
  rewrite (validate_checksum_spec _ _ rp) by (done || by rewrite Hl20). out_red.
  destruct (byte_sum rp mod 2 ^ 8 =? 0); cbn [negb]; [| done].
  destruct (pages_len_cons root xs) as [Hpl Hp0].
  assert (get_mmio_ptr (mmio_region s) (2 * PAGE_SIZE) = (mmio_region s, mmio_region s + 0x2000)) as Hmmio.
  { unfold get_mmio_ptr. change (PAGE_ALIGN (2 * PAGE_SIZE)) with 0x2000.
    rewrite (u64_small (mmio_region s + 0x2000)) by lia. rewrite u64_small by lia. f_equal. lia. }
  change (mmio_region (set_sig (set_acon s (acon s)) (tag + 8))) with (mmio_region s). rewrite Hmmio.
  unfold OFF_RSDT_ADDR. rewrite (load32_field _ _ rp 16) by (done || lia). out_red. change (Z.to_nat 16) with 16%nat.
  rewrite Hfa. change (amm (set_sig (set_acon s (acon s)) (tag + 8))) with (amm s). rewrite Hmap. out_red.
  change (Z.land (t_addr root) 0xfffffffffffff000) with (PAGE_ALIGN_DOWN (t_addr root)).
  pose proof (align_addr root Hroot). pose proof (t_off_range root).
  replace (u64 (mmio_region s + t_addr root - PAGE_ALIGN_DOWN (t_addr root))) with (mmio_region s + t_off root)
    by (rewrite u64_small by lia; lia).
  done.
Qed.

Lemma with_root_room (s : acpi) t mb2_info n tag rp root xs v1 v2 v3 :
  shows (acon s) t → acpi_image s mb2_info n tag rp root xs v1 v2 v3 →
  shows (acon (with_root s tag root v1)) t ∧ room (with_root s tag root v1) (t_bytes root) (pages_len xs).
Proof.
  intros Hs [_ _ _ (Hroot & _ & _) _ [_ Hpg] _ _ Hoff [Hr0 H64]].
  destruct (pages_len_cons root xs) as [Hpl Hp0]. rewrite Hpl in *.
  pose proof (t_off_range root) as Hto. pose proof (so_fits root Hroot) as Hfit.
  assert (vga_out (acon (with_root s tag root v1)) = vga_out (acon s)) as Hv by reflexivity.
  unfold off_screen in *. split.
  - apply (shows_mem (acon s)); [done | apply shown_ok, (sh_bytes _ _ Hs) |]. intros i Hi. apply shown_outside. lia.
  - split; cbn [rsdt with_root set_rsdt mmio_region set_pages]; unfold off_screen; rewrite ?Hv; try lia.
    apply (shown_table (amem s) v1 (mmio_region s) root Hroot Hpg).
Qed.

(** [C37] acpi_init with a root pointer whose checksum is wrong stops the
    kernel; with a right one, it maps the tables that the RSDT lists, also
    those with a wrong checksum, prints their signatures, and get_acpi_table
    finds the first one with the signature it is asked for, or none. *)
Theorem acpi_init_tables (s : acpi) t mb2_info n tag rp root xs v1 v2 v3 fuel :
  shows (acon s) t → locked (acon s) = false → acpi_image s mb2_info n tag rp root xs v1 v2 v3 → (n < fuel)%nat →
  let r := mmio_region s + 0x2000 in
  if byte_sum rp mod 2 ^ 8 =? 0 then
    ∃ s' t0, acpi_init sym depth uninit phys rsd_ptr fuel s mb2_info = Ok (true, s') ∧
      shows (acon s') (puts t0 (report (t_bytes root) xs)) ∧ locked (acon s') = false ∧
      amm s' = v3 ∧ mmio_region s' = r + pages_len xs ∧ acpi_tables s' = table_ptrs r xs ∧
      tables_at (amem s') r xs ∧
      ∀ p sig, bytes_at (amem s') p sig → length sig = 4%nat →
        get_acpi_table (amem s') (acpi_tables s') p = Ok (find_table sig r xs)
  else acpi_init sym depth uninit phys rsd_ptr fuel s mb2_info = Fault (Panic "acpi").
Proof.
  intros Hs Hl Hi Hn r. rewrite (acpi_init_root _ _ _ _ _ _ _ _ _ _ _ Hi Hn).
  destruct (byte_sum rp mod 2 ^ 8 =? 0); [| done].
  destruct (with_root_room _ _ _ _ _ _ _ _ _ _ _ Hs Hi) as [Hs3 Hroom].
  destruct Hi as [_ _ _ (Hroot & Hlen & Hent) Hok _ [p Hk] Hal Hoff [Hr0 H64]].
  destruct (pages_len_cons root xs) as [Hpl Hp0]. rewrite Hpl in *. pose proof (t_off_range root).
  pose proof (so_fits root Hroot). set (s3 := with_root s tag root v1) in *.
  assert (rsdt s3 ≠ NULL) as Hn3 by (cbn [rsdt s3 with_root set_rsdt]; unfold NULL; lia).
  destruct (parse_rsdt_spec s3 t (t_bytes root) xs v2 v3 p)
    as (s4 & t4 & Hp4 & Hs4 & Hl4 & Hv4 & Hm4 & Ht4 & Htab & Hd4 & Hon); try done.
  { apply Hroot. }
  { cbn [mmio_region s3 with_root set_rsdt set_pages]. lia. }
  change (mmio_region s3) with r in *. rewrite Hp4. out_red. destruct Hon as (_ & Hvo & Hrs & _).
  change (vga_out (acon s3)) with (vga_out (acon s)) in Hvo. unfold off_screen in Hoff.
  assert (off_screen (acon s4) r (pages_len xs)) as Hor by (unfold off_screen, r; rewrite Hvo; lia).
  destruct (dump_acpi_info_shows s4 t4 (t_bytes root) r xs) as (c' & -> & Hs5 & Ho5); try done; rewrite ?Hrs; try done.
  - lia.
  - unfold off_screen. rewrite Hvo. cbn [rsdt s3 with_root set_rsdt]. lia.
  - pose proof (tables_at_screen _ _ _ _ Ho5 Hok Hor Htab) as Htab'.
    exists (set_acon s4 c'), t4. split_and!; try done.
    + change (locked c' = false). by rewrite (only_screen_locked _ _ Ho5).
    + intros q sig Hq Hsig. change (acpi_tables (set_acon s4 c')) with (acpi_tables s4). rewrite Ht4.
      by apply get_acpi_table_first.
Qed.

End Tables.
