(* ===== verification/Apic.v ===== *)
(** * Interrupt controllers (apic.c, apic.h)

    The old controllers are masked, the local APIC is enabled through its
    registers in memory, and the I/O APIC, which the MADT of ACPI names, is told
    to deliver the keyboard's interrupt as vector 0x40.  The I/O APIC is a
    device behind two registers, an index and a window. *)

From S2P Require Import Prelude Iface Mem LibTitan Fields Pmm Mb2 MmState HashMap PageMap Vmm View Vga Tar.
From S2P Require Import Irq Acpi.

Definition PIC_MASTER_COMMAND_PORT : Z := 0x20.
Definition PIC_MASTER_DATA_PORT : Z := 0x21.
Definition PIC_SLAVE_COMMAND_PORT : Z := 0xa0.
Definition PIC_SLAVE_DATA_PORT : Z := 0xa1.

Definition IOREDTBL (i : Z) : Z := 2 * i + 0x10.

(** [madt_types_t]; a byte that is none of them takes the default case. *)
Inductive madt_types_t :=
| MADT_LAPIC
| MADT_IOAPIC
| MADT_IOAPIC_OVERRIDE
| MADT_IOAPIC_NMI
| MADT_LAPIC_NMI
| MADT_LAPIC_ADDR_OVERRIDE
| MADT_LX2APIC.

Definition madt_type (b : Z) : option madt_types_t :=
  [MADT_LAPIC; MADT_IOAPIC; MADT_IOAPIC_OVERRIDE; MADT_IOAPIC_NMI; MADT_LAPIC_NMI; MADT_LAPIC_ADDR_OVERRIDE;
   MADT_LX2APIC] !! Z.to_nat b.

Definition disable_8259 (s : console) : console :=
  let s := outb s PIC_MASTER_COMMAND_PORT 0x11 in
  let s := outb s PIC_SLAVE_COMMAND_PORT 0x11 in
  let s := outb s PIC_MASTER_DATA_PORT 0x20 in
  let s := outb s PIC_SLAVE_DATA_PORT 0x28 in
  let s := outb s PIC_MASTER_DATA_PORT 0x2 in
  let s := outb s PIC_SLAVE_DATA_PORT 0x4 in
  let s := outb s PIC_MASTER_DATA_PORT 0x1 in
  let s := outb s PIC_SLAVE_DATA_PORT 0x1 in
  let s := outb s PIC_MASTER_DATA_PORT 0xff in
  outb s PIC_SLAVE_DATA_PORT 0xff.

(** [get_lapic]; [msr_reg] is what rdmsr leaves in rax. *)
Definition get_lapic (s : console) (msr_reg : Z) : outcome (Z * console) :=
  s' ← printk s (bytes_of "apic: lapic is at %lu" ++ [10]) [ALong msr_reg];
  Ok (Z.shiftl (Z.land (Z.shiftr msr_reg 12) 0x000fffff) 12, s').

Definition local_apic_enable (m : mem) (local_apic_regs : Z) : outcome mem :=
  let spurious_vec_reg_ptr := u64 (local_apic_regs + 0xf0) in
  v ← load32 m spurious_vec_reg_ptr;
  m1 ← store32 m spurious_vec_reg_ptr (Z.land v 0xffffff00);
  v1 ← load32 m1 spurious_vec_reg_ptr;
  store32 m1 spurious_vec_reg_ptr (Z.lor v1 0x000001f0).

(** The loop of [get_ioapic]. *)
Fixpoint madt_loop (fuel : nat) (s : console) (madt madt_entries : Z) : outcome (Z * console) :=
  match fuel with
  | O => NoFuel
  | S fuel' =>
      length ← load32 (vmem s) (madt + OFF_LENGTH);
      if madt_entries <=? madt + length then
        b ← load8 (vmem s) madt_entries;
        let next s := step ← load8 (vmem s) (madt_entries + 1); madt_loop fuel' s madt (madt_entries + step) in
        match madt_type b with
        | Some MADT_LAPIC => s' ← LOG s "apic" "found an lapic"; next s'
        | Some MADT_IOAPIC =>
            ioapic_phys ← load64 (vmem s) (madt_entries + 4);
            s' ← printk s (bytes_of "apic: ioapic is at %lu" ++ [10]) [ALong ioapic_phys];
            Ok (ioapic_phys, s')
        | Some MADT_IOAPIC_OVERRIDE | Some MADT_IOAPIC_NMI => s' ← LOG s "apic" "found an ioapic override"; next s'
        | Some MADT_LAPIC_NMI | Some MADT_LAPIC_ADDR_OVERRIDE => s' ← LOG s "apic" "found an lapic"; next s'
        | _ => Fault (Panic "apic")
        end
      else Ok (NULL, s)
  end.

(** [get_ioapic]; [apic_sig] is the address of the literal ["APIC"]. *)
Definition get_ioapic (fuel : nat) (s : console) (acpi_tables : list Z) (apic_sig : Z) : outcome (Z * console) :=
  madt ← get_acpi_table (vmem s) acpi_tables apic_sig;
  if madt =? NULL then Fault (Panic "apic") else
  madt_loop fuel s madt (madt + SIZEOF_SDT_HEADER + 8).

(** ** The local APIC *)

Lemma land_u32 a b : 0 ≤ a < 2 ^ 32 → 0 ≤ Z.land a b < 2 ^ 32.
Proof.
  intros Ha. rewrite <- (Z.mod_small a (2 ^ 32)) by done. rewrite <- Z.land_ones by done.
  rewrite <- Z.land_assoc, (Z.land_comm _ b), Z.land_assoc, Z.land_ones by done. by apply Z.mod_pos_bound.
Qed.

Lemma lor_u32 a b : 0 ≤ a < 2 ^ 32 → 0 ≤ b < 2 ^ 32 → 0 ≤ Z.lor a b < 2 ^ 32.
Proof.
  intros Ha Hb. replace (Z.lor a b) with (Z.lor a b mod 2 ^ 32); [by apply Z.mod_pos_bound |].
  apply Z.bits_inj'. intros k Hk. destruct (decide (k < 32)).
  - by rewrite Z.mod_pow2_bits_low.
  - rewrite Z.mod_pow2_bits_high, Z.lor_spec, !(testbit_high _ 32) by lia. done.
Qed.

(** The spurious vector is 0xf0 and the controller is enabled. *)
Definition enabled (old : Z) : Z := Z.lor (Z.land old 0xffffff00) 0x1f0.

Lemma local_apic_enable_spec m regs old :
  0 ≤ regs → regs + 0x1000 ≤ 2 ^ 64 → mapped m regs 0x1000 → bytes_ok m → load32 m (regs + 0xf0) = Ok old →
  ∃ m', local_apic_enable m regs = Ok m' ∧ load32 m' (regs + 0xf0) = Ok (enabled old) ∧
    agree_outside (regs + 0xf0) 4 m m' ∧ bytes_ok m' ∧ mapped m' regs 0x1000.
Proof.
  intros H0 H64 Hm Hok Hld. pose proof (load32_range _ _ _ Hok Hld) as Hold. unfold local_apic_enable.
  rewrite u64_small by lia. rewrite Hld. out_red.
  assert (∀ m, mapped m regs 0x1000 → mapped m (regs + 0xf0) 4) as Hsub
    by (intros m0 Hm0; apply (mapped_sub _ _ _ _ _ Hm0); lia).
  rewrite store32_Ok by auto. out_red. rewrite load32_put32. out_red.
  rewrite store32_Ok by auto with titan. eexists. split; [reflexivity |]. split_and!.
  - rewrite load32_put32. f_equal. pose proof (land_u32 old 0xffffff00 Hold).
    unfold u32. rewrite (Z.mod_small (Z.land _ _)) by done. apply Z.mod_small. by apply lor_u32.
  - intros i Hi. by rewrite !put32_other.
  - auto with titan.
  - auto with titan.
Qed.

(** ** The walk over the MADT *)

Record madt_entry := MadtEntry { me_type : Z; me_body : list Z }.

Definition entry_bytes (e : madt_entry) : list Z :=
  [me_type e; 2 + Z.of_nat (length (me_body e))] ++ me_body e.

(** What is printed about an entry that the walk passes over. *)
Definition entry_message (e : madt_entry) : option string :=
  match madt_type (me_type e) with
  | Some MADT_LAPIC | Some MADT_LAPIC_NMI | Some MADT_LAPIC_ADDR_OVERRIDE => Some "found an lapic"%string
  | Some MADT_IOAPIC_OVERRIDE | Some MADT_IOAPIC_NMI => Some "found an ioapic override"%string
  | _ => None
  end.

Definition entry_line (e : madt_entry) : list Z :=
  match entry_message e with
  | Some msg => 10 :: bytes_of "apic" ++ bytes_of ": " ++ bytes_of msg ++ [10]
  | None => []
  end.

Definition passed (e : madt_entry) : Prop := is_Some (entry_message e).

(** The MADT [d] lies at [p], with its length in its header. *)
Record madt_at (s : console) (p : Z) (d : list Z) : Prop := {
  ma_bytes : bytes_at (vmem s) p d;
  ma_length : (44 ≤ length d)%nat ∧ field d 4 4 = Z.of_nat (length d);
  ma_off : off_screen s p (Z.of_nat (length d));
}.

Lemma madt_at_screen s s' p d : only_screen s s' → madt_at s p d → madt_at s' p d.
Proof.
  intros Ho [M1 M2 M3]. split; [by apply (only_screen_bytes s) | done | by apply (only_screen_off s)].
Qed.

Lemma madt_at_drop s p d (off : nat) l rest :
  madt_at s p d → drop off d = l ++ rest → bytes_at (vmem s) (p + Z.of_nat off) l ∧ (l ≠ [] → off + length l ≤ length d)%nat.
Proof.
  intros [M1 _ _] Hd. split.
  - intros i b Hi. replace (p + Z.of_nat off + Z.of_nat i) with (p + Z.of_nat (off + i)) by lia. apply M1.
    rewrite <- lookup_drop, Hd. by apply lookup_app_l_Some.
  - intros Hl. apply (f_equal length) in Hd. rewrite length_drop, length_app in Hd.
    destruct l; [done |]. simpl in *. lia.
Qed.

Lemma madt_step fuel s t p d off e rest :
  shows s t → locked s = false → madt_at s p d → drop off d = entry_bytes e ++ rest → passed e →
  ∃ s', madt_loop (S fuel) s p (p + Z.of_nat off) =
      madt_loop fuel s' p (p + Z.of_nat (off + length (entry_bytes e))) ∧
    shows s' (puts t (entry_line e)) ∧ only_screen s s'.
Proof.
  intros Hs Hl Hm Hd [msg Hmsg]. destruct (madt_at_drop _ _ _ _ _ _ Hm Hd) as [Hb Hlen].
  specialize (Hlen ltac:(done)). destruct (Hm) as [M1 [M2 M3] M4].
  cbn [madt_loop]. unfold OFF_LENGTH. rewrite (load32_field _ _ d) by (done || lia). out_red.
  change (Z.to_nat 4) with 4%nat. rewrite M3, (proj2 (Z.leb_le _ _)) by lia.
  apply load8_list in Hb as [-> Hb]. out_red.
  destruct (LOG_shows s t "apic" msg Hs Hl) as (s' & HL & Hs' & Ho). exists s'.
  assert (load8 (vmem s') (p + Z.of_nat off + 1) = Ok (2 + Z.of_nat (length (me_body e)))) as Hnext.
  { destruct (madt_at_drop _ _ _ _ _ _ (madt_at_screen _ _ _ _ Ho Hm) Hd) as [Hb' _].
    apply load8_list in Hb' as [_ Hb']. by apply load8_list in Hb' as [-> _]. }
  unfold entry_line. rewrite Hmsg. split; [| by split]. unfold entry_message in Hmsg.
  replace (p + Z.of_nat (off + length (entry_bytes e)))
    with (p + Z.of_nat off + (2 + Z.of_nat (length (me_body e)))) by (cbn [entry_bytes app length]; lia).
  destruct (madt_type (me_type e)) as [[]|]; try done; injection Hmsg as <-; rewrite HL; out_red; by rewrite Hnext.
Qed.

Lemma madt_skip es : ∀ fuel s t p d off rest,
  shows s t → locked s = false → madt_at s p d → drop off d = flat_map entry_bytes es ++ rest → Forall passed es →
  ∃ s', madt_loop (length es + fuel) s p (p + Z.of_nat off) =
      madt_loop fuel s' p (p + Z.of_nat (off + length (flat_map entry_bytes es))) ∧
    shows s' (puts t (flat_map entry_line es)) ∧ only_screen s s'.
Proof.
  induction es as [|e es IH]; intros fuel s t p d off rest Hs Hl Hm Hd Hok.
  - exists s. simpl. rewrite Nat.add_0_r. split_and!; [done | done | apply only_screen_refl].
  - apply Forall_cons in Hok as [He Hok]. cbn [flat_map length Nat.add] in *. rewrite <- app_assoc in Hd.
    destruct (madt_step (length es + fuel) s t p d off e _ Hs Hl Hm Hd He) as (s1 & -> & Hs1 & Ho1).
    destruct (IH fuel s1 _ p d (off + length (entry_bytes e))%nat rest Hs1) as (s2 & -> & Hs2 & Ho2).
    + by rewrite (only_screen_locked _ _ Ho1).
    + by apply (madt_at_screen s).
    + by rewrite <- drop_drop, Hd, drop_app_length.
    + done.
    + exists s2. rewrite length_app, puts_app. split_and!; [f_equal; lia | done | by eapply only_screen_trans].
Qed.

(** The head of a turn of the loop inside the table. *)
Lemma madt_turn s p d (off : nat) b tail :
  madt_at s p d → drop off d = b :: tail →
  load8 (vmem s) (p + Z.of_nat off) = Ok b ∧ load32 (vmem s) (p + OFF_LENGTH) = Ok (Z.of_nat (length d)) ∧
  (off < length d)%nat.
Proof.
  intros Hm Hd. destruct (madt_at_drop s p d off (b :: tail) [] Hm) as [Hb Hl]; [by rewrite app_nil_r |].
  specialize (Hl ltac:(done)). destruct Hm as [M1 [M2 M3] _]. apply load8_list in Hb as [Hb _].
  unfold OFF_LENGTH. rewrite (load32_field _ _ d) by (done || lia). change (Z.to_nat 4) with 4%nat. rewrite M3.
  split_and!; [done | done | simpl in Hl; lia].
Qed.

(** An entry of length zero. *)
Lemma madt_zero n : ∀ s t p d off b tail,
  shows s t → locked s = false → madt_at s p d → drop off d = b :: 0 :: tail → passed (MadtEntry b []) →
  madt_loop n s p (p + Z.of_nat off) = NoFuel.
Proof.
  induction n as [|n IH]; intros s t p d off b tail Hs Hl Hm Hd Hpass; [done |].
  destruct (madt_turn s p d off b _ Hm Hd) as (Hb & Hlen & Hoff).
  cbn [madt_loop]. rewrite Hlen. out_red. rewrite (proj2 (Z.leb_le _ _)) by lia. rewrite Hb. out_red.
  pose proof Hpass as [msg Hmsg]. destruct (LOG_shows s t "apic" msg Hs Hl) as (s2 & HL & Hs2 & Ho2).
  pose proof (madt_at_screen _ _ _ _ Ho2 Hm) as Hm2.
  assert (load8 (vmem s2) (p + Z.of_nat off + 1) = Ok 0) as Hb2.
  { destruct (madt_at_drop s2 p d off (b :: 0 :: tail) [] Hm2) as [Hb3 _]; [by rewrite app_nil_r |].
    apply load8_list in Hb3 as [_ Hb3]. by apply load8_list in Hb3 as [-> _]. }
  assert (locked s2 = false) by (by rewrite (only_screen_locked _ _ Ho2)).
  unfold entry_message in Hmsg. cbn [me_type] in Hmsg.
  destruct (madt_type b) as [[]|]; try done; injection Hmsg as <-; rewrite HL; out_red; rewrite Hb2; out_red;
    rewrite Z.add_0_r; by eapply IH.
Qed.

(** The walk up to the first entry that is not passed over. *)
Lemma get_ioapic_reach fuel s t tables apic_sig p d hd es rest :
  shows s t → locked s = false → get_acpi_table (vmem s) tables apic_sig = Ok p → p ≠ NULL → madt_at s p d →
  d = hd ++ flat_map entry_bytes es ++ rest → length hd = 44%nat → Forall passed es → (length es < fuel)%nat →
  ∃ s1 n off, get_ioapic fuel s tables apic_sig = madt_loop (S n) s1 p (p + Z.of_nat off) ∧
    shows s1 (puts t (flat_map entry_line es)) ∧ locked s1 = false ∧ only_screen s s1 ∧ madt_at s1 p d ∧
    drop off d = rest ∧ length d = (off + length rest)%nat.
Proof.
  intros Hs Hl Ht Hp Hm Hd Hhd Hok Hf. unfold get_ioapic. rewrite Ht. out_red.
  rewrite (proj2 (Z.eqb_neq _ _)) by done. replace fuel with (length es + S (fuel - S (length es)))%nat by lia.
  assert (drop 44 d = flat_map entry_bytes es ++ rest) as Hdr by (by rewrite Hd, <- Hhd, drop_app_length).
  replace (p + SIZEOF_SDT_HEADER + 8) with (p + Z.of_nat 44) by (unfold SIZEOF_SDT_HEADER; lia).
  destruct (madt_skip es (S (fuel - S (length es))) s t p d 44 _ Hs Hl Hm Hdr Hok) as (s1 & Hsk & Hs1 & Ho1).
  eexists s1, _, (44 + length (flat_map entry_bytes es))%nat. split_and!; [exact Hsk | done | | done | | |].
  - by rewrite (only_screen_locked _ _ Ho1).
  - by apply (madt_at_screen s).
  - by rewrite <- drop_drop, Hdr, drop_app_length.
  - rewrite Hd, !length_app. lia.
Qed.

(** An entry for an I/O APIC: its address and the first interrupt it takes. *)
Definition ioapic_entry (id rsv : Z) (addr gsi : list Z) : madt_entry := MadtEntry 1 ([id; rsv] ++ addr ++ gsi).

(** get_ioapic passes over the entries in front of the first I/O APIC and
    returns eight bytes of that one: its address, and in the upper half the
    first interrupt it takes. *)
Theorem get_ioapic_first fuel s t tables apic_sig p d hd es id rsv addr gsi rest :
  shows s t → locked s = false → get_acpi_table (vmem s) tables apic_sig = Ok p → p ≠ NULL → madt_at s p d →
  d = hd ++ flat_map entry_bytes es ++ entry_bytes (ioapic_entry id rsv addr gsi) ++ rest → length hd = 44%nat →
  Forall passed es → length addr = 4%nat → length gsi = 4%nat → (length es < fuel)%nat →
  let phys := le_value addr + 2 ^ 32 * le_value gsi in
  ∃ s', get_ioapic fuel s tables apic_sig = Ok (phys, s') ∧ only_screen s s' ∧
    shows s' (puts t (flat_map entry_line es ++ bytes_of "apic: ioapic is at " ++ render (PLong phys) ++ [10])).
Proof.
  intros Hs Hl Ht Hp Hm Hd Hhd Hok Ha Hg Hf phys.
  destruct (get_ioapic_reach fuel s t tables apic_sig p d hd es _ Hs Hl Ht Hp Hm Hd Hhd Hok Hf)
    as (s1 & n & off & -> & Hs1 & Hl1 & Ho1 & Hm1 & Hdo & _).
  destruct (madt_at_drop _ _ _ _ _ _ Hm1 Hdo) as [Hb _].
  destruct (madt_turn s1 p d off _ _ Hm1 Hdo) as (Hb0 & Hlen & Hoff).
  cbn [madt_loop]. rewrite Hlen. out_red. rewrite (proj2 (Z.leb_le _ _)) by lia. rewrite Hb0. out_red.
  change (madt_type (me_type _)) with (Some MADT_IOAPIC). cbv iota.
  change (entry_bytes _) with ([1; 2 + Z.of_nat (length ([id; rsv] ++ addr ++ gsi)); id; rsv] ++ addr ++ gsi) in Hb.
  apply bytes_at_app in Hb as [_ Hb]. change (Z.of_nat (length _)) with 4 in Hb at 1.
  rewrite (load64_le _ _ _ Hb) by (rewrite length_app; lia). out_red.
  rewrite le_value_app, Ha. change (2 ^ (8 * Z.of_nat 4)) with (2 ^ 32). fold phys.
  destruct (printk_piece s1 _ (bytes_of "apic: ioapic is at ") (PLong phys) [10] Hs1 Hl1) as (s2 & Hpr & Hs2 & Ho2);
    [no_percent | no_percent | done |].
  exists s2. change (bytes_of "apic: ioapic is at %lu" ++ [10])
    with (bytes_of "apic: ioapic is at " ++ piece_format (PLong phys) ++ [10]).
  change [ALong phys] with (piece_args (PLong phys)). rewrite Hpr. out_red. rewrite puts_app.
  split_and!; [done | by eapply only_screen_trans | done].
Qed.

(** Without an I/O APIC, get_ioapic looks at the byte behind the table,
    as if it began an entry; an entry of a type that it does not know, or of
    the type of an x2APIC, stops the kernel, and one of length zero is visited
    for ever. *)
Theorem get_ioapic_missing fuel s t tables apic_sig p d hd es rest :
  shows s t → locked s = false → get_acpi_table (vmem s) tables apic_sig = Ok p → p ≠ NULL → madt_at s p d →
  d = hd ++ flat_map entry_bytes es ++ rest → length hd = 44%nat → Forall passed es → (length es < fuel)%nat →
  (rest = [] → vmem s !! (p + Z.of_nat (length d)) = None → off_screen s (p + Z.of_nat (length d)) 1 →
    get_ioapic fuel s tables apic_sig = Fault (PageFault (p + Z.of_nat (length d)))) ∧
  (∀ b tail, rest = b :: tail → 6 ≤ b → get_ioapic fuel s tables apic_sig = Fault (Panic "apic")) ∧
  (∀ b tail, rest = b :: 0 :: tail → passed (MadtEntry b []) → get_ioapic fuel s tables apic_sig = NoFuel).
Proof.
  intros Hs Hl Ht Hp Hm Hd Hhd Hok Hf.
  destruct (get_ioapic_reach fuel s t tables apic_sig p d hd es _ Hs Hl Ht Hp Hm Hd Hhd Hok Hf)
    as (s1 & n & off & -> & Hs1 & Hl1 & Ho1 & Hm1 & Hdo & Hlen). split_and!.
  - intros -> Hn Hoff. destruct Hm1 as [M1 [M2 M3] M4]. cbn [length] in Hlen. rewrite Nat.add_0_r in Hlen.
    cbn [madt_loop]. unfold OFF_LENGTH. rewrite (load32_field _ _ d) by (done || lia). out_red.
    change (Z.to_nat 4) with 4%nat. rewrite M3, Hlen, Z.leb_refl. rewrite Hlen in Hn, Hoff.
    rewrite load8_fault; [done |]. destruct Ho1 as (Ha & _). rewrite Ha; [done |]. unfold off_screen in Hoff. lia.
  - intros b tail -> Hb6. destruct (madt_turn s1 p d off b _ Hm1 Hdo) as (Hb & Hld & Hoff).
    cbn [madt_loop]. rewrite Hld. out_red. rewrite (proj2 (Z.leb_le _ _)) by lia. rewrite Hb. out_red. unfold madt_type.
    destruct (decide (b = 6)) as [->|]; [done |]. by rewrite lookup_ge_None_2 by (simpl; lia).
  - intros b tail -> Hpass. by eapply madt_zero.
Qed.

(** ** The I/O APIC *)

(** The device: 32-bit stores and loads at an offset of its page.  What its
    manual says: a store at offset 0 selects a register, offset 0x10 is that
    register, of which only some bits can be written. *)
Class IoApic (D : Type) := {
  ioa_store : D → Z → Z → D;
  ioa_load : D → Z → Z;
  ioa_reg : D → Z → Z;
  ioa_mask : Z → Z;
  ioa_select : ∀ d i j, ioa_reg (ioa_store d 0 i) j = ioa_reg d j;
  ioa_window_load : ∀ d i, 0 ≤ i < 256 → ioa_load (ioa_store d 0 i) 0x10 = ioa_reg d i;
  ioa_window_store : ∀ d i v j, 0 ≤ i < 256 → 0 ≤ v < 2 ^ 32 →
    ioa_reg (ioa_store (ioa_store d 0 i) 0x10 v) j =
    if decide (j = i) then Z.lor (Z.land v (ioa_mask i)) (Z.ldiff (ioa_reg d i) (ioa_mask i)) else ioa_reg d j;
  ioa_redirection : ∀ n, 0 ≤ n < 24 → ioa_mask (IOREDTBL n) = 0x1afff ∧ ioa_mask (IOREDTBL n + 1) = 0xff000000;
  ioa_width : ∀ d i, 0 ≤ ioa_reg d i < 2 ^ 32;
}.

Section Apic.
Context {F H D : Type} `{FrameAlloc F} `{HeapAlloc H} `{IoApic D}.
Context (sym : symbols) (depth : nat) (uninit : Z) (phys : mem) (apic_sig : Z) (io_phys : Z).

(** The state of ACPI with the memory manager, the device at the physical
    address [io_phys], and the pointers of apic.c. *)
Record apic := Apic {
  tbl : acpi F H;
  dev : D;
  local_apic_regs : Z;
  io_apic_regs : Z;
}.

Definition set_tbl (s : apic) (a : acpi F H) : apic := Apic a (dev s) (local_apic_regs s) (io_apic_regs s).
Definition set_dev (s : apic) (d : D) : apic := Apic (tbl s) d (local_apic_regs s) (io_apic_regs s).

(** A 32-bit access goes to the device when the page is mapped to its frame,
    and to memory otherwise. *)
Definition store_reg (s : apic) (a v : Z) : outcome apic :=
  match current_tr (amm (tbl s)) (PAGE_ALIGN_DOWN a) with
  | None => Fault (PageFault a)
  | Some e =>
      if frame_of e =? io_phys then Ok (set_dev s (ioa_store (dev s) (Z.land a 0xfff) v))
      else m ← store32 (amem (tbl s)) a v; Ok (set_tbl s (set_acon (tbl s) (set_vmem (acon (tbl s)) m)))
  end.

Definition load_reg (s : apic) (a : Z) : outcome Z :=
  match current_tr (amm (tbl s)) (PAGE_ALIGN_DOWN a) with
  | None => Fault (PageFault a)
  | Some e => if frame_of e =? io_phys then Ok (ioa_load (dev s) (Z.land a 0xfff)) else load32 (amem (tbl s)) a
  end.

Definition write_io_apic_reg (s : apic) (io_apic_base offset val : Z) : outcome apic :=
  s1 ← store_reg s io_apic_base (u8 offset);
  store_reg s1 (io_apic_base + 0x10) val.

Definition read_io_apic_reg (s : apic) (io_apic_base offset : Z) : outcome (Z * apic) :=
  s1 ← store_reg s io_apic_base (u8 offset);
  v ← load_reg s1 (io_apic_base + 0x10);
  Ok (v, s1).

Definition remap_ioredtbl (s : apic) (io_apic_base : Z) : outcome apic :=
  '(e, s1) ← read_io_apic_reg s io_apic_base (IOREDTBL 1);
  s2 ← write_io_apic_reg s1 io_apic_base (IOREDTBL 1) (Z.lor (Z.land e 0xfffeff00) 0x00000040);
  '(e2, s3) ← read_io_apic_reg s2 io_apic_base (IOREDTBL 1 + 1);
  write_io_apic_reg s3 io_apic_base (IOREDTBL 1 + 1) (Z.land e2 0xff000000).

Definition apic_init (fuel : nat) (s : apic) (msr_reg : Z) : outcome apic :=
  '(lapic_phys, c) ← get_lapic (acon (tbl s)) msr_reg;
  '(p, t1) ← device_pages sym depth uninit phys (set_acon (tbl s) c) (PAGE_ALIGN_DOWN lapic_phys) PAGE_SIZE
               VM_FLAG_READ_WRITE;
  let regs := CALC_VIRT_ADDRESS lapic_phys p in
  m ← local_apic_enable (amem t1) regs;
  let c1 := set_vmem (acon t1) m in
  '(ioapic_phys, c2) ← get_ioapic fuel c1 (acpi_tables t1) apic_sig;
  if ioapic_phys =? NULL then Fault (Panic "apic") else
  '(q, t2) ← device_pages sym depth uninit phys (set_acon t1 c2) ioapic_phys PAGE_SIZE VM_FLAG_READ_WRITE;
  remap_ioredtbl (Apic t2 (dev s) regs q) q.

(** ** The redirection of the keyboard *)

(** What the first half of a redirection entry becomes: the vector, no mask,
    and every other bit as it was. *)
Definition redirected (old k : Z) : bool :=
  if decide (k < 8) then Z.testbit 0x40 k else if decide (k = 16) then false else Z.testbit old k.

Definition bit_of (b : bool) (k : Z) : bool :=
  (b && Z.testbit 0xfffeff00 k || Z.testbit 0x40 k) && Z.testbit 0x1afff k || b && negb (Z.testbit 0x1afff k).

Lemma redirected_bits old k :
  0 ≤ old < 2 ^ 32 → 0 ≤ k →
  Z.testbit (Z.lor (Z.land (Z.lor (Z.land old 0xfffeff00) 0x40) 0x1afff) (Z.ldiff old 0x1afff)) k = redirected old k.
Proof.
  intros Hold Hk. rewrite !Z.lor_spec, Z.ldiff_spec, !Z.land_spec, Z.lor_spec, Z.land_spec. unfold redirected.
  destruct (decide (k < 32)) as [Hlt|].
  - generalize (Z.testbit old k). clear Hold old.
    assert (Forall (λ k, ∀ b : bool, bit_of b k = if decide (k < 8) then Z.testbit 0x40 k
      else if decide (k = 16) then false else b) (seqZ 0 32)) as Hall.
    { change (seqZ 0 32) with (Z.of_nat <$> seq 0 32). cbn [seq fmap list_fmap]. repeat constructor; by intros []. }
    rewrite Forall_forall in Hall. apply (Hall k), elem_of_seqZ. lia.
  - rewrite !(testbit_high _ 32) by lia. by rewrite !decide_False by lia.
Qed.

Lemma keep_high old : 0 ≤ old < 2 ^ 32 →
  Z.lor (Z.land (Z.land old 0xff000000) 0xff000000) (Z.ldiff old 0xff000000) = old.
Proof.
  intros Hold. apply Z.bits_inj'. intros k Hk. rewrite Z.lor_spec, Z.ldiff_spec, !Z.land_spec.
  by destruct (Z.testbit old k), (Z.testbit 0xff000000 k).
Qed.

(** The page of the device. *)
Definition io_mapped (s : apic) (base : Z) : Prop :=
  (∃ e, current_tr (amm (tbl s)) base = Some e ∧ frame_of e = io_phys) ∧
  0 ≤ base ∧ base + 0x1000 ≤ 2 ^ 64 ∧ base mod 0x1000 = 0.

Lemma io_page base off : 0 ≤ base → base + 0x1000 ≤ 2 ^ 64 → base mod 0x1000 = 0 → 0 ≤ off < 0x1000 →
  PAGE_ALIGN_DOWN (base + off) = base ∧ Z.land (base + off) 0xfff = off.
Proof.
  intros H0' H64 Hm Ho. rewrite page_align_down_spec by lia.
  change 0xfff with (Z.ones 12). rewrite Z.land_ones by done. change (2 ^ 12) with 0x1000. mlia.
Qed.

Lemma store_reg_dev s base off v :
  io_mapped s base → 0 ≤ off < 0x1000 → store_reg s (base + off) v = Ok (set_dev s (ioa_store (dev s) off v)).
Proof.
  intros ((e & He & Hf) & B1 & B2 & B3) Ho. destruct (io_page base off B1 B2 B3 Ho) as [Hp Hl].
  unfold store_reg. rewrite Hp, He, Hf, Z.eqb_refl, Hl. done.
Qed.

Lemma write_io_apic_reg_dev s base i v :
  io_mapped s base → 0 ≤ i < 256 →
  write_io_apic_reg s base i v = Ok (set_dev s (ioa_store (ioa_store (dev s) 0 i) 0x10 v)).
Proof.
  intros Hm Hi. unfold write_io_apic_reg. rewrite <- (Z.add_0_r base) at 1. rewrite store_reg_dev by (done || lia).
  out_red. unfold u8. rewrite Z.mod_small by lia. by rewrite (store_reg_dev (set_dev s _)) by (done || lia).
Qed.

Lemma read_io_apic_reg_dev s base i :
  io_mapped s base → 0 ≤ i < 256 →
  read_io_apic_reg s base i = Ok (ioa_reg (dev s) i, set_dev s (ioa_store (dev s) 0 i)).
Proof.
  intros Hm Hi. unfold read_io_apic_reg. rewrite <- (Z.add_0_r base) at 1. rewrite store_reg_dev by (done || lia).
  out_red. unfold u8. rewrite Z.mod_small by lia. destruct Hm as ((e & He & Hf) & B1 & B2 & B3).
  destruct (io_page base 0x10 B1 B2 B3) as [Hp Hl]; [lia |]. unfold load_reg. rewrite Hp.
  cbn [tbl set_dev]. rewrite He, Hf, Z.eqb_refl, Hl. out_red. cbn [dev set_dev]. by rewrite ioa_window_load by lia.
Qed.

(** remap_ioredtbl routes the keyboard: redirection entry 1 delivers vector
    0x40 and is not masked; its other bits, its destination and all other
    registers of the I/O APIC are what they were. *)
Theorem remap_ioredtbl_routes s base :
  io_mapped s base →
  ∃ d', remap_ioredtbl s base = Ok (set_dev s d') ∧
    (∀ k, 0 ≤ k → Z.testbit (ioa_reg d' 0x12) k = redirected (ioa_reg (dev s) 0x12) k) ∧
    (∀ j, j ≠ 0x12 → ioa_reg d' j = ioa_reg (dev s) j).
Proof.
  intros Hm. unfold remap_ioredtbl. change (IOREDTBL 1) with 0x12. change (0x12 + 1) with 0x13.
  rewrite read_io_apic_reg_dev by (done || lia). out_red.
  rewrite write_io_apic_reg_dev by (done || lia). out_red. cbn [dev set_dev].
  set (w := Z.lor (Z.land (ioa_reg (dev s) 0x12) 0xfffeff00) 0x40).
  rewrite read_io_apic_reg_dev by (done || lia). out_red.
  rewrite write_io_apic_reg_dev by (done || lia). cbn [dev set_dev].
  destruct (ioa_redirection 1) as [M1 M2]; [lia |]. change (IOREDTBL 1) with 0x12 in *. change (0x12 + 1) with 0x13 in M2.
  assert (0 ≤ w < 2 ^ 32) as Hw.
  { pose proof (ioa_width (dev s) 0x12). by apply lor_u32; [apply land_u32 |]. }
  set (d1 := ioa_store (ioa_store (ioa_store (dev s) 0 0x12) 0 0x12) 0x10 w).
  assert (∀ j, ioa_reg d1 j = if decide (j = 0x12) then Z.lor (Z.land w 0x1afff) (Z.ldiff (ioa_reg (dev s) 0x12) 0x1afff)
                              else ioa_reg (dev s) j) as Hd1.
  { intros j. unfold d1. rewrite ioa_window_store by (done || lia). rewrite !ioa_select, M1. done. }
  eexists. split; [reflexivity |].
  assert (∀ j, ioa_reg (ioa_store (ioa_store (ioa_store d1 0 0x13) 0 0x13) 0x10 (Z.land (ioa_reg d1 0x13) 0xff000000)) j =
          ioa_reg d1 j) as Hd2.
  { intros j. pose proof (ioa_width d1 0x13) as Hwd. rewrite ioa_window_store; [| lia | by apply land_u32].
    rewrite !ioa_select, M2. destruct (decide (j = 0x13)) as [->|]; [by apply keep_high | done]. }
  split.
  - intros k Hk. rewrite Hd2, Hd1, decide_True by done. apply redirected_bits; [apply ioa_width | done].
  - intros j Hj. by rewrite Hd2, Hd1, decide_False by done.
Qed.

(** ** From the tables to the interrupts *)

Definition lapic_of (msr_reg : Z) : Z := Z.shiftl (Z.land (Z.shiftr msr_reg 12) 0x000fffff) 12.

(** What [apic_init] finds: the tables of ACPI in the pages below, with the
    MADT behind [xs1], and calls of alloc_mmio that succeed for the pages of
    both controllers. *)
Record apic_image (a : acpi F H) (msr_reg r0 : Z) (xs1 xs2 : list sdt) (madt : sdt) (v1 v2 : mm F H) : Prop := {
  pi_tables : acpi_tables a = table_ptrs r0 (xs1 ++ madt :: xs2) ∧ tables_at (amem a) r0 (xs1 ++ madt :: xs2) ∧
    Forall (sdt_ok phys) (xs1 ++ madt :: xs2);
  pi_madt : Forall (λ x, take 4 (t_bytes x) ≠ bytes_of "APIC") xs1 ∧ take 4 (t_bytes madt) = bytes_of "APIC";
  pi_sig : bytes_at (amem a) apic_sig (bytes_of "APIC") ∧ off_screen (acon a) apic_sig 4 ∧
    (apic_sig + 4 ≤ mmio_region a ∨ mmio_region a + 0x2000 ≤ apic_sig);
  pi_place : 0 < r0 ∧ r0 + pages_len (xs1 ++ madt :: xs2) ≤ mmio_region a ∧
    off_screen (acon a) r0 (pages_len (xs1 ++ madt :: xs2));
  pi_lapic : alloc_mmio sym depth uninit (amm a) (mmio_region a) (lapic_of msr_reg) PAGE_SIZE VM_FLAG_READ_WRITE =
      Ok (mmio_region a, mmio_region a + 0x1000, v1) ∧ pages_at v1 (mmio_region a) (lapic_of msr_reg) 1 ∧
    mapped phys (lapic_of msr_reg) 0x1000;
  pi_ioapic : alloc_mmio sym depth uninit v1 (mmio_region a + 0x1000) io_phys PAGE_SIZE VM_FLAG_READ_WRITE =
      Ok (mmio_region a + 0x1000, mmio_region a + 0x2000, v2) ∧ pages_at v2 (mmio_region a + 0x1000) io_phys 1;
  pi_off : off_screen (acon a) (mmio_region a) 0x2000;
  pi_range : mmio_region a mod 0x1000 = 0 ∧ mmio_region a + 0x2000 ≤ 2 ^ 64;
}.

Hypothesis Hphys : bytes_ok phys.

Lemma shown_page_outside m (v : mm F H) p : agree_outside p 0x1000 m (shown phys m v PAGE_SIZE p).
Proof. apply (show_pages_outside 1). Qed.

Lemma lapic_aligned msr_reg : 0 ≤ msr_reg → PAGE_ALIGN_DOWN (lapic_of msr_reg) = lapic_of msr_reg ∧
  Z.land (lapic_of msr_reg) 0xfff = 0 ∧ 0 ≤ lapic_of msr_reg < 2 ^ 32.
Proof.
  intros Hm. unfold lapic_of. change 0x000fffff with (Z.ones 20). rewrite Z.land_ones, Z.shiftl_mul_pow2 by done.
  pose proof (Z.mod_pos_bound (Z.shiftr msr_reg 12) (2 ^ 20) ltac:(done)) as Hb.
  change 0xfff with (Z.ones 12). rewrite Z.land_ones, page_align_down_spec by lia.
  split_and!; [mlia | mlia | lia..].
Qed.

(** The page of the local APIC shows its registers. *)
Lemma lapic_page m (v : mm F H) r p :
  bytes_ok m → pages_at v r p 1 → mapped phys p 0x1000 →
  bytes_ok (shown phys m v PAGE_SIZE r) ∧ mapped (shown phys m v PAGE_SIZE r) r 0x1000 ∧
  ∀ off, 0 ≤ off → off + 4 ≤ 0x1000 → load32 (shown phys m v PAGE_SIZE r) (r + off) = load32 phys (p + off).
Proof.
  intros Hm Hp Hmap. split_and!.
  - by apply show_pages_ok.
  - apply (show_pages_all 1 phys (current_tr v) m r). intros i Hi. destruct (Hp i Hi) as (e & He & Hf). exists e. split; [done |].
    rewrite Hf. assert (i = 0) as -> by lia. by rewrite Z.mul_0_l, Z.add_0_r.
  - intros off H0' H4. unfold load32, load8, shown. change (Z.to_nat (PAGE_ALIGN PAGE_SIZE / 0x1000)) with 1%nat.
    assert (∀ k, 0 ≤ k < 0x1000 → show_pages 1 phys (current_tr v) m r !! (r + k) = phys !! (p + k)) as Hk.
    { intros k Hk. destruct (Hmap (p + k)) as [b Hb]; [lia |]. rewrite Hb.
      apply (show_pages_lookup _ _ _ _ p); [done | done | lia]. }
    rewrite <- !Z.add_assoc, !Hk by lia.
    destruct (Hmap (p + off)) as [? E0]; [lia |]. destruct (Hmap (p + (off + 1))) as [? E1]; [lia |].
    destruct (Hmap (p + (off + 2))) as [? E2]; [lia |]. destruct (Hmap (p + (off + 3))) as [? E3]; [lia |].
    by rewrite E0, E1, E2, E3.
Qed.

(** The memory in which the walk over the MADT starts: the local APIC is
    enabled, the tables are where they were. *)
Lemma apic_init_lapic (a : acpi F H) t msr_reg r0 xs1 xs2 madt v1 v2 :
  shows (acon a) t → locked (acon a) = false → 0 ≤ msr_reg → apic_image a msr_reg r0 xs1 xs2 madt v1 v2 →
  let r := mmio_region a in
  ∃ c m old t1, get_lapic (acon a) msr_reg = Ok (lapic_of msr_reg, c) ∧
    (let m1 := shown phys (vmem c) v1 PAGE_SIZE r in
     load32 phys (lapic_of msr_reg + 0xf0) = Ok old ∧ local_apic_enable m1 r = Ok m) ∧
    load32 m (r + 0xf0) = Ok (enabled old) ∧ mapped m r 0x1000 ∧ shows (set_vmem c m) t1 ∧ locked c = false ∧
    vga_out c = vga_out (acon a) ∧ tables_at m r0 (xs1 ++ madt :: xs2) ∧ bytes_at m apic_sig (bytes_of "APIC").
Proof.
  intros Hs Hl Hmsr [(_ & Htab & Hok) _ (Hsig & Hso & Hsr) (Hr0 & Hpl & Hto) (_ & Hpg & Hph) _ Hoff [Hra H64]] r.
  destruct (lapic_aligned msr_reg Hmsr) as (_ & _ & Hlr).
  destruct (printk_piece (acon a) t (bytes_of "apic: lapic is at ") (PLong msr_reg) [10] Hs Hl) as (c & Hc & Hsc & Ho);
    [no_percent | no_percent | done |].
  destruct (lapic_page (vmem c) v1 r (lapic_of msr_reg) (sh_bytes _ _ Hsc) Hpg Hph) as (B1 & B2 & B3).
  destruct (load32_mapped phys (lapic_of msr_reg + 0xf0)) as [old Hold]; [apply (mapped_sub _ _ _ _ _ Hph); lia |].
  assert (0 ≤ pages_len (xs1 ++ madt :: xs2)) as Hpn by (unfold pages_len; lia).
  destruct (local_apic_enable_spec (shown phys (vmem c) v1 PAGE_SIZE r) r old) as (m & Hm & Hld & Hag & Hmo & Hmm);
    [lia | lia | done | done | rewrite B3 by lia; done |].
  pose proof Ho as (Ho1 & Ho2 & Ho3). exists c, m, old. eexists.
  assert (∀ i, ¬ (vga_out (acon a) ≤ i < vga_out (acon a) + VGA_LENGTH) → ¬ (r ≤ i < r + 0x1000) → m !! i = amem a !! i) as Hall.
  { intros i I1 I2. rewrite Hag, shown_page_outside by lia. by apply Ho1. }
  unfold off_screen in *. split_and!; try done.
  - unfold get_lapic. change (bytes_of "apic: lapic is at %lu" ++ [10])
      with (bytes_of "apic: lapic is at " ++ piece_format (PLong msr_reg) ++ [10]).
    change [ALong msr_reg] with (piece_args (PLong msr_reg)). rewrite Hc. done.
  - apply (shows_mem c); [exact Hsc | done |]. intros i Hi. rewrite Ho2 in Hi. rewrite Hag, shown_page_outside by lia. done.
  - by rewrite Ho3.
  - apply (tables_at_agree phys (amem a)); [done | | done]. intros i Hi. apply Hall; lia.
  - apply (bytes_at_agree (amem a)); [| done]. intros i Hi. change (Z.of_nat (length (bytes_of "APIC"))) with 4 in Hi.
    apply Hall; lia.
Qed.

(** The MADT in the memory of the walk. *)
Lemma apic_init_madt (a : acpi F H) c msr_reg r0 xs1 xs2 madt v1 v2 m :
  apic_image a msr_reg r0 xs1 xs2 madt v1 v2 → vga_out c = vga_out (acon a) →
  tables_at m r0 (xs1 ++ madt :: xs2) → bytes_at m apic_sig (bytes_of "APIC") → (44 ≤ length (t_bytes madt))%nat →
  ∃ p, get_acpi_table m (acpi_tables a) apic_sig = Ok p ∧ p ≠ NULL ∧ madt_at (set_vmem c m) p (t_bytes madt).
Proof.
  intros [(Htl & _ & Hok) (Hno & Hyes) _ (Hr0 & Hpl & Hto) _ _ _ _] Hvo Htab Hsig Hlen.
  assert (sdt_ok phys madt) as Hmadt by (by apply Forall_app in Hok as [_ [? _]%Forall_cons]).
  pose proof (t_off_range madt) as Htm. pose proof (so_fits _ _ Hmadt) as Hfit.
  exists (r0 + pages_len xs1 + t_off madt). rewrite Htl.
  rewrite (get_acpi_table_first phys _ _ _ _ (bytes_of "APIC") Hok Htab Hsig eq_refl), (find_table_app _ _ _ _ _ Hno Hyes).
  assert (pages_len (xs1 ++ madt :: xs2) = pages_len xs1 + 0x2000 + pages_len xs2 ∧ 0 ≤ pages_len xs1 ∧ 0 ≤ pages_len xs2)
    as (Hpx & Hp1 & Hp2) by (unfold pages_len; rewrite length_app; cbn [length]; lia).
  split_and!; [done | unfold NULL; lia |]. split.
  - by apply (tables_at_app _ _ xs1 madt xs2).
  - split; [done | apply Hmadt].
  - unfold off_screen in *. cbn [vga_out set_vmem]. rewrite Hvo. lia.
Qed.

(** What the page of the I/O APIC leaves of the local one. *)
Lemma second_page c m (v : mm F H) t r :
  shows c t → vmem c = m → off_screen c r 0x2000 → mapped m r 0x1000 → 0 ≤ r → r + 0x2000 ≤ 2 ^ 64 →
  let m2 := shown phys m v PAGE_SIZE (r + 0x1000) in
  shows (set_vmem c m2) t ∧ apic_mapped (set_vmem c m2) r ∧ load32 m2 (r + 0xf0) = load32 m (r + 0xf0).
Proof.
  intros Hs <- Hoff Hm H0' H64 m2. pose proof (shown_page_outside (vmem c) v (r + 0x1000)) as Ha. fold m2 in Ha.
  unfold off_screen in Hoff. split_and!.
  - apply (shows_mem c); [done | apply show_pages_ok; [done | apply (sh_bytes _ _ Hs)] |]. intros i Hi. apply Ha. lia.
  - split; [| unfold off_screen; cbn [vga_out set_vmem]; lia | lia]. intros i Hi. cbn [vmem set_vmem].
    rewrite Ha by lia. apply Hm. lia.
  - apply load32_agree. intros i Hi. apply Ha. lia.
Qed.

(** [C36] apic_init with the tables that acpi_init found: the local APIC is
    enabled with 0xf0 as its spurious vector, at an address where interrupts
    can be answered, and the I/O APIC that the MADT names delivers the
    keyboard as vector 0x40. *)
Theorem apic_init_enables (s : apic) t msr_reg r0 xs1 xs2 madt v1 v2 hd es id rsv addr gsi rest fuel :
  shows (acon (tbl s)) t → locked (acon (tbl s)) = false → 0 ≤ msr_reg →
  apic_image (tbl s) msr_reg r0 xs1 xs2 madt v1 v2 →
  t_bytes madt = hd ++ flat_map entry_bytes es ++ entry_bytes (ioapic_entry id rsv addr gsi) ++ rest →
  length hd = 44%nat → Forall passed es → length addr = 4%nat → length gsi = 4%nat → (length es < fuel)%nat →
  io_phys = le_value addr + 2 ^ 32 * le_value gsi → io_phys ≠ NULL →
  let r := mmio_region (tbl s) in
  ∃ s' t' old, apic_init fuel s msr_reg = Ok s' ∧
    Apic.local_apic_regs s' = r ∧ io_apic_regs s' = r + 0x1000 ∧ amm (tbl s') = v2 ∧
    shows (acon (tbl s')) t' ∧ locked (acon (tbl s')) = false ∧ apic_mapped (acon (tbl s')) r ∧
    load32 phys (lapic_of msr_reg + 0xf0) = Ok old ∧ load32 (amem (tbl s')) (r + 0xf0) = Ok (enabled old) ∧
    (∀ k, 0 ≤ k → Z.testbit (ioa_reg (dev s') 0x12) k = redirected (ioa_reg (dev s) 0x12) k) ∧
    (∀ j, j ≠ 0x12 → ioa_reg (dev s') j = ioa_reg (dev s) j).
Proof.
  intros Hs Hl Hmsr Hi Hd Hhd Hes Haddr Hgsi Hfu Hio Hion r.
  destruct (apic_init_lapic _ _ _ _ _ _ _ _ _ Hs Hl Hmsr Hi)
    as (c & m & old & t1 & Hg & [Hold Hen] & Hld & Hmm & Hs1 & Hl1 & Hvo & Htab & Hsig).
  destruct (apic_init_madt _ c _ _ _ _ _ _ _ m Hi Hvo Htab Hsig) as (p & Hget & Hp & Hma); [rewrite Hd, length_app; lia |].
  destruct (get_ioapic_first fuel (set_vmem c m) t1 (acpi_tables (tbl s)) apic_sig p (t_bytes madt) hd es id rsv addr gsi
    rest Hs1 Hl1 Hget Hp Hma Hd Hhd Hes Haddr Hgsi Hfu) as (c2 & Hio2 & Ho2 & Hs2).
  destruct Hi as [_ _ _ (Hr0 & Hpl & _) (Ha1 & _ & _) (Ha2 & Hpg2) Hoff [Hra H64]].
  fold r in Ha1, Ha2, Hpg2, Hpl, Hoff, Hra, H64, Hen, Hld, Hmm. rewrite <- Hio in Hio2. clear Hget Hma.
  assert (0 < r) as Hr by (unfold pages_len in Hpl; lia).
  destruct (lapic_aligned msr_reg Hmsr) as (Hpa & Hland & _).
  assert (CALC_VIRT_ADDRESS (lapic_of msr_reg) r = r) as Hcalc.
  { unfold CALC_VIRT_ADDRESS. rewrite Hland, page_align_down_spec, u64_small by lia. lia. }
  pose proof Ho2 as (Ho2a & Ho2v & Ho2l). cbn [vga_out vmem locked set_vmem] in Ho2a, Ho2v, Ho2l.
  unfold off_screen in Hoff. rewrite Hvo in *.
  assert (mapped (vmem c2) r 0x1000) as Hm2 by (intros i Hi; rewrite Ho2a by lia; by apply Hmm).
  destruct (second_page c2 (vmem c2) v2 _ r Hs2 eq_refl) as (Hs3 & Ham & Hld2);
    [unfold off_screen; rewrite Ho2v; lia | done | lia | lia |].
  set (m2 := shown phys (vmem c2) v2 PAGE_SIZE (r + 0x1000)) in *.
  set (a1 := set_pages (set_acon (tbl s) c) v1 (r + 0x1000) (shown phys (vmem c) v1 PAGE_SIZE r)) in *.
  set (s2 := Apic (set_pages (set_acon a1 c2) v2 (r + 0x2000) m2) (dev s) r (r + 0x1000)).
  destruct (remap_ioredtbl_routes s2 (r + 0x1000)) as (d' & Hrm & Hd1 & Hd2).
  { split; [| rewrite Zplus_mod, Hra; split_and!; [lia | lia | done]].
    destruct (Hpg2 0) as (e & He & Hf); [lia |]. rewrite Z.mul_0_l, Z.add_0_r in He, Hf. by exists e. }
  eexists _, _, old. split.
  - unfold apic_init. rewrite Hg. out_red. unfold device_pages. rewrite Hpa.
    change (amm (set_acon (tbl s) c)) with (amm (tbl s)). change (mmio_region (set_acon (tbl s) c)) with r.
    rewrite Ha1. out_red. rewrite Hcalc. change (amem (set_acon (tbl s) c)) with (vmem c). fold a1.
    change (amem a1) with (shown phys (vmem c) v1 PAGE_SIZE r). rewrite Hen. out_red.
    change (set_vmem (acon a1) m) with (set_vmem c m). change (acpi_tables a1) with (acpi_tables (tbl s)).
    rewrite Hio2. out_red. rewrite (proj2 (Z.eqb_neq _ _)) by done. change (amm (set_acon a1 c2)) with v1.
    change (mmio_region (set_acon a1 c2)) with (r + 0x1000). rewrite Ha2. out_red. exact Hrm.
  - split_and!; try done.
    + change (locked c2 = false). by rewrite Ho2l.
    + change (load32 m2 (r + 0xf0) = Ok (enabled old)). rewrite Hld2, <- Hld. apply load32_agree. intros i Hi. apply Ho2a. lia.
Qed.

End Apic.
Arguments apic : clear implicits.
