(* ===== verification/AcpiDemo.v ===== *)
(** * Concrete tables (witnesses for Acpi.v and Apic.v)

    A root pointer in the boot information, an RSDT with one table, the MADT,
    and an I/O APIC as a pair of an index and its registers. *)

From S2P Require Import Prelude Iface Mem LibTitan Fields Pmm Mb2 MmState HashMap PageMap Vmm View Vga Tar Vfs.
From S2P Require Import FsDemo Irq Acpi Apic.

Module AcpiDemo.

Import PageMapDemo VmmDemo FsDemo.
#[local] Existing Instance list_heap.

Definition zeros (n : nat) : list Z := replicate n 0.

(** The MADT: a local APIC and an I/O APIC at 0x31000. *)
Definition madt_head : list Z := bytes_of "APIC" ++ [64] ++ zeros 39.
Definition lapic_entry : madt_entry := MadtEntry 0 (zeros 6).
Definition io_entry : madt_entry := ioapic_entry 2 0 [0; 0x10; 3; 0] (zeros 4).
Definition madt : sdt := Sdt 0x22020 (madt_head ++ flat_map entry_bytes [lapic_entry] ++ entry_bytes io_entry ++ []).

(** The RSDT with its one entry. *)
Definition root : sdt := Sdt 0x20010 (bytes_of "RSDT" ++ [40] ++ zeros 31 ++ [0x20; 0x20; 2; 0]).

Definition rsdp_body : list Z := zeros 6 ++ [0; 0x10; 0; 2; 0].
Definition rsdp : list Z := rsd_sig ++ [(- byte_sum (rsd_sig ++ rsdp_body)) mod 256] ++ rsdp_body.

(** Physical memory: both tables and the page of the local APIC. *)
Definition acpi_phys : mem :=
  map_seqZ 0x20010 (t_bytes root) ∪ map_seqZ 0x22020 (t_bytes madt) ∪ map_seqZ 0x30000 (replicate (Z.to_nat 0x1000) 0).

(** The tag of the root pointer at 3080, the literals at 1024. *)
Definition acpi_bytes : mem :=
  map_seqZ 1024 (rsd_sig ++ [0] ++ bytes_of "APIC" ++ [0]) ∪ map_seqZ 3080 ([15; 0; 0; 0; 28; 0; 0; 0] ++ rsdp) ∪ blank_mem.

Definition R : Z := 0xffffff80000c1000.

Definition acpi_start : acpi pmm_state (list Z) := Acpi demo_vm R (set_vmem blank acpi_bytes) NULL NULL [].

(** The calls of the memory manager, one after the other. *)
Definition ok_or {A} (o : outcome A) (d : A) : A := match o with Ok x => x | _ => d end.
Definition is_Ok {A} (o : outcome A) : bool := match o with Ok _ => true | _ => false end.

Lemma ok_or_Ok {A} (o : outcome A) d : is_Ok o = true → o = Ok (ok_or o d).
Proof. by destruct o. Qed.

Definition root_call := vmm_alloc PageMapDemo.demo_sym 2 7 demo_vm R (2 * PAGE_SIZE) VM_FLAG_READ_WRITE (t_addr root).
Definition v1 := (ok_or root_call (NULL, demo_vm)).2.
Definition array_call := kmalloc_mm v1 8.
Definition v2 := (ok_or array_call (NULL, v1)).2.
Definition madt_call := alloc_mmio PageMapDemo.demo_sym 2 7 v2 (R + 0x2000) (t_addr madt) (PAGE_SIZE * 2) VM_FLAG_NONE.
Definition v3 := (ok_or madt_call (NULL, NULL, v2)).2.
Definition lapic_call := alloc_mmio PageMapDemo.demo_sym 2 7 v3 (R + 0x4000) 0x30000 PAGE_SIZE VM_FLAG_READ_WRITE.
Definition v4 := (ok_or lapic_call (NULL, NULL, v3)).2.
Definition ioapic_call := alloc_mmio PageMapDemo.demo_sym 2 7 v4 (R + 0x5000) 0x31000 PAGE_SIZE VM_FLAG_READ_WRITE.
Definition v5 := (ok_or ioapic_call (NULL, NULL, v4)).2.

(** A result whose first parts are known. *)
Lemma call_Ok {A B} `{EqDecision A} (o : outcome (A * B)) (a : A) d :
  match o with Ok (x, _) => bool_decide (x = a) | _ => false end = true → o = Ok (a, (ok_or o d).2).
Proof. destruct o as [[x b]| |]; [| done..]. intros ->%bool_decide_eq_true. done. Qed.

Lemma root_mapped : root_call = Ok (R, v1).
Proof. apply call_Ok. vm_compute. reflexivity. Qed.

Lemma array_allocated : array_call = Ok (448, v2).
Proof. apply call_Ok. vm_compute. reflexivity. Qed.

Lemma madt_mapped : madt_call = Ok (R + 0x2000, R + 0x4000, v3).
Proof. apply (call_Ok madt_call (R + 0x2000, R + 0x4000)). vm_compute. reflexivity. Qed.

Lemma lapic_mapped : lapic_call = Ok (R + 0x4000, R + 0x5000, v4).
Proof. apply (call_Ok lapic_call (R + 0x4000, R + 0x5000)). vm_compute. reflexivity. Qed.

Lemma ioapic_mapped : ioapic_call = Ok (R + 0x5000, R + 0x6000, v5).
Proof. apply (call_Ok ioapic_call (R + 0x5000, R + 0x6000)). vm_compute. reflexivity. Qed.

(** Pages that follow each other in the translation. *)
Lemma pages_check (v : mm pmm_state (list Z)) a p n :
  forallb (λ i, match current_tr v (a + Z.of_nat i * 0x1000) with
                | Some e => frame_of e =? p + Z.of_nat i * 0x1000 | None => false end) (seq 0 n) = true →
  pages_at v a p n.
Proof.
  rewrite forallb_forall. intros Hc i Hi. specialize (Hc (Z.to_nat i)). rewrite Z2Nat.id in Hc by lia.
  rewrite in_seq in Hc. destruct (current_tr v (a + i * 0x1000)) as [e|]; [| by specialize (Hc ltac:(lia))].
  exists e. split; [done |]. apply Z.eqb_eq, Hc. lia.
Qed.

Lemma root_pages : pages_at v1 R (PAGE_ALIGN_DOWN (t_addr root)) 2.
Proof. apply pages_check. vm_compute. reflexivity. Qed.

Lemma madt_pages : pages_at v3 (R + 0x2000) (PAGE_ALIGN_DOWN (t_addr madt)) 2.
Proof. apply pages_check. vm_compute. reflexivity. Qed.

Lemma lapic_pages : pages_at v4 (R + 0x4000) 0x30000 1.
Proof. apply pages_check. vm_compute. reflexivity. Qed.

Lemma ioapic_pages : pages_at v5 (R + 0x5000) 0x31000 1.
Proof. apply pages_check. vm_compute. reflexivity. Qed.

Lemma acpi_phys_ok : bytes_ok acpi_phys.
Proof.
  unfold acpi_phys. repeat match goal with |- bytes_ok (_ ∪ _) => apply bytes_ok_union end; apply bytes_ok_seq.
  - apply all_bytes. vm_compute. reflexivity.
  - apply all_bytes. vm_compute. reflexivity.
  - by apply Forall_replicate.
Qed.

Lemma root_ok : sdt_ok acpi_phys root.
Proof.
  split; [simpl; lia | split; [simpl; lia | reflexivity] | vm_compute; discriminate |].
  apply bytes_at_union, bytes_at_union, map_seqZ_at.
Qed.

Lemma madt_ok : sdt_ok acpi_phys madt.
Proof.
  split; [simpl; lia | split; [simpl; lia | reflexivity] | vm_compute; discriminate |].
  apply load_bytes_inv. vm_compute. reflexivity.
Qed.

Lemma lapic_registers : mapped acpi_phys 0x30000 0x1000.
Proof.
  intros i Hi. exists 0. unfold acpi_phys. apply lookup_union_Some_raw. right. split.
  - apply lookup_union_None. split; apply lookup_map_seqZ_None; right; simpl; lia.
  - apply lookup_map_seqZ_Some. split; [lia |]. apply lookup_replicate. split; [done |]. lia.
Qed.

Lemma root_entries : entries_of (t_bytes root) 0 [madt].
Proof. split; [simpl; lia |]. intros [|k] x; [intros [= <-]; reflexivity | done]. Qed.

Lemma acpi_bytes_ok : bytes_ok acpi_bytes.
Proof.
  unfold acpi_bytes. apply bytes_ok_union; [| exact blank_bytes_ok].
  apply bytes_ok_union; apply bytes_ok_seq, all_bytes; vm_compute; reflexivity.
Qed.

Lemma acpi_shows : shows (acon acpi_start) blank_terminal.
Proof.
  apply blank_shows_in; [| exact acpi_bytes_ok]. apply load_bytes_inv. vm_compute. reflexivity.
Qed.

Lemma acpi_found : acpi_image PageMapDemo.demo_sym 2 7 acpi_phys acpi_start 3072 0 3080 rsdp root [madt] v1 v2 v3.
Proof.
  split.
  - apply reach_stop; [vm_compute; reflexivity | by right].
  - split; [reflexivity | split; discriminate].
  - split; [apply load_bytes_inv; vm_compute; reflexivity | split; reflexivity].
  - split; [exact root_ok | split; [reflexivity | exact root_entries]].
  - constructor; [exact madt_ok | constructor].
  - split; [exact root_mapped | exact root_pages].
  - exists 448. exact array_allocated.
  - exists v3. split; [exact madt_mapped | split; [exact madt_pages | done]].
  - right. vm_compute. discriminate.
  - split; [reflexivity |]. vm_compute. reflexivity.
Qed.

(** ** The I/O APIC: the selected index and the registers that were written *)

Definition io_state : Type := Z * gmap Z Z.
Definition io_mask (i : Z) : Z := if i <? 0x10 then 0 else if Z.even i then 0x1afff else 0xff000000.
Definition io_reg (d : io_state) (i : Z) : Z := u32 (default 0 (d.2 !! i)).
Definition io_store (d : io_state) (off v : Z) : io_state :=
  if off =? 0 then (v, d.2)
  else if off =? 0x10 then (d.1, <[d.1 := Z.lor (Z.land v (io_mask d.1)) (Z.ldiff (io_reg d d.1) (io_mask d.1))]> d.2)
  else d.
Definition io_load (d : io_state) (off : Z) : Z := if off =? 0 then d.1 else io_reg d d.1.

Lemma ldiff_u32 a b : 0 ≤ a < 2 ^ 32 → 0 ≤ Z.ldiff a b < 2 ^ 32.
Proof. intros Ha. replace (Z.ldiff a b) with (Z.land a (Z.lnot b)); [by apply land_u32 | by rewrite Z.ldiff_land]. Qed.

#[export, program] Instance io_device : IoApic io_state := {|
  ioa_store := io_store;
  ioa_load := io_load;
  ioa_reg := io_reg;
  ioa_mask := io_mask;
|}.
Next Obligation. done. Qed.
Next Obligation. done. Qed.
Next Obligation.
  intros d i v j Hi Hv. unfold io_store. cbn [Z.eqb Pos.eqb fst snd]. unfold io_reg at 1. cbn [snd]. case_decide as Hj.
  - subst j. rewrite lookup_insert_eq. cbn [default from_option id]. change (io_reg (i, d.2) i) with (io_reg d i).
    unfold u32. apply Z.mod_small, lor_u32; [by apply land_u32 | apply ldiff_u32, Z.mod_pos_bound; lia].
  - by rewrite lookup_insert_ne.
Qed.
Next Obligation.
  intros n Hn. unfold io_mask, IOREDTBL. rewrite !(proj2 (Z.ltb_ge _ _)) by lia.
  replace (2 * n + 0x10) with (2 * (n + 8)) by lia. by rewrite Z.even_add, !Z.even_mul.
Qed.
Next Obligation. intros d i. apply Z.mod_pos_bound. lia. Qed.

End AcpiDemo.

Import PageMapDemo VmmDemo FsDemo AcpiDemo.
#[local] Existing Instance list_heap.

Lemma acpi_init_tables_witness : ∃ s',
  acpi_init PageMapDemo.demo_sym 2 7 acpi_phys 1024 1 acpi_start 3072 = Ok (true, s') ∧
  acpi_tables s' = [R + 0x2020] ∧ tables_at (amem s') (R + 0x2000) [madt].
Proof.
  pose proof (acpi_init_tables PageMapDemo.demo_sym 2 7 acpi_phys 1024 acpi_phys_ok acpi_start blank_terminal 3072 0 3080
    rsdp root [madt] v1 v2 v3 1 acpi_shows eq_refl acpi_found) as Ha.
  assert ((byte_sum rsdp mod 2 ^ 8 =? 0) = true) as E by reflexivity. rewrite E in Ha.
  destruct Ha as (s' & t0 & Hi & _ & _ & _ & _ & Ht & Hat & _); [lia |].
  exists s'. split; [exact Hi |]. split; [rewrite Ht; reflexivity | exact Hat].
Defined.

(** The signature is behind two paragraphs of zeros. *)
Lemma rsdp_search_witness :
  rsdp_scan 3 (map_seqZ 1024 rsd_sig ∪ map_seqZ 4096 (zeros 32 ++ rsd_sig)) 1024 4096 = Ok (true, 4128).
Proof.
  set (m := map_seqZ 1024 rsd_sig ∪ map_seqZ 4096 (zeros 32 ++ rsd_sig)).
  destruct (rsdp_search m 1024 4096 (zeros 32) 2 3) as (_ & Hf & _).
  - apply load_bytes_inv. vm_compute. reflexivity.
  - apply load_bytes_inv. vm_compute. reflexivity.
  - split; [reflexivity |]. intros k Hk. assert (k = 0 ∨ k = 1)%nat as [-> | ->] by lia; discriminate.
  - lia.
  - unfold EXTENDED_BIOS_END_ADDR. lia.
  - lia.
  - apply Hf; [unfold EXTENDED_BIOS_END_ADDR; lia |]. apply load_bytes_inv. vm_compute. reflexivity.
Defined.

(** ** The interrupt controllers *)

Module ApicDemo.

(** What acpi_init leaves, with the tables where it mapped them. *)
Definition apic_bytes : mem :=
  map_seqZ 1024 (rsd_sig ++ [0] ++ bytes_of "APIC" ++ [0]) ∪ map_seqZ (R + 0x2020) (t_bytes madt) ∪ blank_mem.

Definition apic_console : console := set_vmem blank apic_bytes.

Definition apic_tables : acpi pmm_state (list Z) := Acpi v3 (R + 0x4000) apic_console 3088 (R + 0x10) [R + 0x2020].

(** Every interrupt is masked. *)
Definition masked : io_state := (0, {[0x12 := 0x10000]}).

Definition apic_start : apic pmm_state (list Z) io_state := Apic apic_tables masked NULL NULL.

Definition msr : Z := 0x30900.

Lemma apic_bytes_ok : bytes_ok apic_bytes.
Proof.
  unfold apic_bytes. apply bytes_ok_union; [| exact blank_bytes_ok].
  apply bytes_ok_union; apply bytes_ok_seq, all_bytes; vm_compute; reflexivity.
Qed.

Lemma apic_shows : shows apic_console blank_terminal.
Proof.
  apply blank_shows_in; [| exact apic_bytes_ok]. apply load_bytes_inv. vm_compute. reflexivity.
Qed.

Lemma madt_bytes : bytes_at apic_bytes (R + 0x2020) (t_bytes madt).
Proof. apply load_bytes_inv. vm_compute. reflexivity. Qed.

Lemma apic_found :
  apic_image PageMapDemo.demo_sym 2 7 acpi_phys 1033 0x31000 apic_tables msr (R + 0x2000) [] [] madt v4 v5.
Proof.
  split.
  - split; [reflexivity |]. split; [split; [exact madt_bytes | done] |]. constructor; [exact madt_ok | constructor].
  - split; [constructor | reflexivity].
  - split; [apply load_bytes_inv; vm_compute; reflexivity |]. split; [left; vm_compute; discriminate |].
    left. vm_compute. discriminate.
  - split; [reflexivity |]. split; [vm_compute; discriminate |]. right. vm_compute. discriminate.
  - split; [exact lapic_mapped |]. split; [exact lapic_pages | exact lapic_registers].
  - split; [exact ioapic_mapped | exact ioapic_pages].
  - right. vm_compute. discriminate.
  - split; [reflexivity | vm_compute; discriminate].
Qed.

Lemma lapic_passed : passed lapic_entry.
Proof. by eexists. Qed.

End ApicDemo.

Import ApicDemo.

Lemma apic_init_enables_witness : ∃ s',
  apic_init PageMapDemo.demo_sym 2 7 acpi_phys 1033 0x31000 2 apic_start msr = Ok s' ∧
  Z.testbit (ioa_reg (dev s') 0x12) 16 = false.
Proof.
  destruct (apic_init_enables PageMapDemo.demo_sym 2 7 acpi_phys 1033 0x31000 acpi_phys_ok apic_start blank_terminal msr
    (R + 0x2000) [] [] madt v4 v5 madt_head [lapic_entry] 2 0 [0; 0x10; 3; 0] (zeros 4) [] 2)
    as (s' & t' & old & Hi & _ & _ & _ & _ & _ & _ & _ & _ & Hk & _).
  - exact apic_shows.
  - reflexivity.
  - unfold msr. lia.
  - exact apic_found.
  - reflexivity.
  - reflexivity.
  - constructor; [exact lapic_passed | constructor].
  - reflexivity.
  - reflexivity.
  - simpl. lia.
  - reflexivity.
  - discriminate.
  - exists s'. split; [exact Hi |]. rewrite Hk by lia. reflexivity.
Defined.

Lemma remap_ioredtbl_routes_witness : ∃ d',
  remap_ioredtbl 0x31000 (Apic (set_pages apic_tables v5 (R + 0x6000) apic_bytes) masked NULL NULL) (R + 0x5000) =
    Ok (Apic (set_pages apic_tables v5 (R + 0x6000) apic_bytes) d' NULL NULL) ∧
  Z.testbit (ioa_reg d' 0x12) 6 = true.
Proof.
  destruct (remap_ioredtbl_routes 0x31000
    (Apic (set_pages apic_tables v5 (R + 0x6000) apic_bytes) masked NULL NULL) (R + 0x5000)) as (d' & Hr & Hk & _).
  - split; [| vm_compute; split_and!; [discriminate | discriminate | reflexivity]].
    destruct (ioapic_pages 0) as (e & He & Hf); [lia |]. exists e. split; [exact He | exact Hf].
  - exists d'. split; [exact Hr |]. rewrite Hk by lia. reflexivity.
Defined.

Lemma get_ioapic_first_witness : ∃ s', get_ioapic 2 apic_console [R + 0x2020] 1033 = Ok (0x31000, s').
Proof.
  destruct (get_ioapic_first 2 apic_console blank_terminal [R + 0x2020] 1033 (R + 0x2020) (t_bytes madt) madt_head
    [lapic_entry] 2 0 [0; 0x10; 3; 0] (zeros 4) []) as (s' & Hg & _).
  - exact apic_shows.
  - reflexivity.
  - vm_compute. reflexivity.
  - discriminate.
  - split; [exact madt_bytes | split; [simpl; lia | reflexivity] | right; vm_compute; discriminate].
  - reflexivity.
  - reflexivity.
  - constructor; [exact lapic_passed | constructor].
  - reflexivity.
  - reflexivity.
  - simpl. lia.
  - exists s'. exact Hg.
Defined.

(** A table that ends behind the local APIC. *)
Definition short_madt : list Z := bytes_of "APIC" ++ [52] ++ zeros 39 ++ flat_map entry_bytes [lapic_entry] ++ [].
Definition short_bytes : mem := map_seqZ 1033 (bytes_of "APIC") ∪ map_seqZ 4096 short_madt ∪ blank_mem.

Lemma get_ioapic_missing_witness :
  get_ioapic 2 (set_vmem blank short_bytes) [4096] 1033 = Fault (PageFault 4148).
Proof.
  destruct (get_ioapic_missing 2 (set_vmem blank short_bytes) blank_terminal [4096] 1033 4096 short_madt
    (bytes_of "APIC" ++ [52] ++ zeros 39) [lapic_entry] []) as (Hf & _).
  - apply blank_shows_in.
    + apply load_bytes_inv. vm_compute. reflexivity.
    + apply bytes_ok_union; [| exact blank_bytes_ok].
      apply bytes_ok_union; apply bytes_ok_seq, all_bytes; vm_compute; reflexivity.
  - reflexivity.
  - vm_compute. reflexivity.
  - discriminate.
  - split; [apply load_bytes_inv; vm_compute; reflexivity | split; [simpl; lia | reflexivity] | left; vm_compute; discriminate].
  - reflexivity.
  - reflexivity.
  - constructor; [exact lapic_passed | constructor].
  - simpl. lia.
  - apply Hf; [reflexivity | vm_compute; reflexivity | left; vm_compute; discriminate].
Defined.
