(* ===== verification/KernelDemo.v ===== *)
(** * A running kernel (witnesses for Initrd.v, Elf.v, Syscall.v and Irq.v)

    The scheduler of SchedDemo.v with the mounted archive of FsDemo.v. *)

From S2P Require Import Prelude Iface Mem LibTitan Pmm Mb2 MmState HashMap PageMap Vmm View Vga Keyboard Tar Vfs.
From S2P Require Import FsDemo Initrd Cpu Sched SchedDemo Resource Elf Syscall Handles Irq Threads.

Module KernelDemo.

Import PageMapDemo VmmDemo SchedDemo FsDemo.
#[local] Existing Instance list_heap.

Abbreviation demo_kernel_t := (kernel pmm_state (list Z)).

(** Thread 1100 of process 1000 runs; [handles] is its table. *)
Definition kernel_sched (handles : list Z) : sched pmm_state (list Z) :=
  set_proc (demo_sched 1000 1100 RUNNING) 1000 (with_table (demo_process 1 1100 2000) handles).

Definition demo_kernel (handles : list Z) : demo_kernel_t := Kernel (kernel_sched handles) fs_open ∅.

(** The registers of a system call. *)
Definition call (n rdi rsi rdx : Z) : cpu_context_t :=
  CpuContext n 0 0 rdx rdi rsi 0 0 0 0 0 0 0 0 0 0xe6 0 0x101000 0x23 0x202 0x7ff000 0x1b.

Lemma demo_files_rel handles : files_rel FsDemo.demo_sym blank_terminal 65536 64 fs_files (demo_kernel handles)
  [(file_ab, 0)] handles.
Proof.
  split; [exact fs_open_rel | | done].
  exists (with_table (demo_process 1 1100 2000) handles). split; reflexivity.
Qed.

Lemma fs_open_mapped a n : 2048 ≤ a → 0 ≤ n → a + n ≤ 2304 → mapped (fs_mem fs_open) a n.
Proof.
  intros H1 H2 H3. apply (mapped_sub _ 2048 256); [| lia..].
  apply (mapped_load _ _ 256 (replicate 256 0)). vm_compute. reflexivity.
Qed.

(** The bytes from 2048 to 2304 are apart from the rest. *)
Lemma fs_open_protected a n : 2048 ≤ a → 0 ≤ n → a + n ≤ 2304 →
  Forall (apart a n) (protected FsDemo.demo_sym fs_open 65536 64 fs_files).
Proof.
  intros H1 H2 H3. assert (vga_out (con fs_open) = VGA_TEXT_BUFFER_BASE) as Hv by reflexivity.
  unfold protected. rewrite Hv, !Forall_cons.
  unfold apart, SIZEOF_MOUNTPOINT_T, VGA_TEXT_BUFFER_BASE, VGA_LENGTH. cbn [fst snd lit_tar FsDemo.demo_sym].
  split_and!; [lia .. | constructor].
Qed.

Lemma fs_open_buffer a n : 2048 ≤ a → 0 ≤ n → a + n ≤ 2304 →
  buffer FsDemo.demo_sym fs_open 65536 64 fs_files a n.
Proof. intros H1 H2 H3. split; [by apply fs_open_mapped | by apply fs_open_protected | lia]. Qed.

Lemma demo_resource_block handles :
  ha_alloc (kheap (vm (ksched (demo_kernel handles)))) SIZEOF_RESOURCE_T =
  Ok (3164, 3164 :: kheap (vm (ksched (demo_kernel handles)))).
Proof. reflexivity. Qed.

Lemma slash_open : kmem (demo_kernel (replicate 5 NULL)) !! 1040 = Some 47.
Proof. vm_compute. reflexivity. Qed.

Lemma find_ab : find_member fs_files [97; 98] = Some (0%nat, file_ab).
Proof. vm_compute. reflexivity. Qed.

End KernelDemo.

Import PageMapDemo VmmDemo SchedDemo FsDemo KernelDemo.
#[local] Existing Instance list_heap.

(** A program opens "/ab" and reads two bytes. *)
Lemma syscall_open_read_witness : ∃ k1 k2,
  syscall_handler FsDemo.demo_sym (demo_kernel (replicate 5 NULL)) (call 2 1040 0 0) = Ok (call 0 1040 0 0, k1) ∧
  syscall_handler FsDemo.demo_sym k1 (call 0 0 2048 2) = Ok (call 0 0 2048 2, k2) ∧ bytes_at (kmem k2) 2048 [7; 8].
Proof.
  destruct (syscall_open_read FsDemo.demo_sym blank_terminal 65536 64 fs_files (demo_kernel (replicate 5 NULL))
    [(file_ab, 0)] (replicate 5 NULL) (call 2 1040 0 0) (call 0 0 2048 2) 47 [97; 98] 0 file_ab 3164
    (3164 :: kheap (vm (ksched (demo_kernel (replicate 5 NULL))))) 0%nat) as (k1 & k2 & H1 & H2 & H3).
  - apply demo_files_rel.
  - reflexivity.
  - exact slash_open.
  - exact mounted_path.
  - exact find_ab.
  - simpl. lia.
  - apply demo_resource_block.
  - reflexivity.
  - reflexivity.
  - reflexivity.
  - reflexivity.
  - apply fs_open_buffer; simpl; lia.
  - simpl. lia.
  - exists k1, k2. split; [exact H1 | split; [exact H2 | exact H3]].
Defined.

Lemma syscall_open_leaks_witness : ∃ k',
  syscall_handler FsDemo.demo_sym (demo_kernel (replicate 5 8)) (call 2 1040 0 0) =
    Ok (with_rax (call 2 1040 0 0) (2 ^ 64 - 1), k').
Proof.
  destruct (syscall_open_leaks FsDemo.demo_sym blank_terminal 65536 64 fs_files (demo_kernel (replicate 5 8))
    [(file_ab, 0)] (replicate 5 8) (call 2 1040 0 0) 47 [97; 98] 0 file_ab 3164
    (3164 :: kheap (vm (ksched (demo_kernel (replicate 5 8)))))) as (k' & H1 & _).
  - apply demo_files_rel.
  - reflexivity.
  - exact slash_open.
  - exact mounted_path.
  - exact find_ab.
  - simpl. lia.
  - apply demo_resource_block.
  - simpl. set_solver.
  - exists k'. exact H1.
Defined.

(** A program opens a file; the handle 0 it gets is not removed afterwards,
    and 7 is looked up behind the table. *)
Lemma resources_never_removed_witness : ∃ k',
  syscall_handler FsDemo.demo_sym (demo_kernel (replicate 5 NULL)) (call 2 1040 0 0) = Ok (call 0 1040 0 0, k') ∧
  is_Some (resources k' !! 3164) ∧
  remove_resource k' (current_process (ksched k')) 0 = Ok (false, k') ∧
  remove_resource k' (current_process (ksched k')) 7 = Fault (OutOfBounds "resource_table").
Proof.
  destruct (syscall_open_spec FsDemo.demo_sym blank_terminal 65536 64 fs_files (demo_kernel (replicate 5 NULL))
    [(file_ab, 0)] (replicate 5 NULL) (call 2 1040 0 0) 47 [97; 98] 0 file_ab 3164
    (3164 :: kheap (vm (ksched (demo_kernel (replicate 5 NULL)))))) as (k1 & H1 & H2 & H3 & _);
    [apply demo_files_rel | reflexivity | exact slash_open | exact mounted_path | exact find_ab | simpl; lia
    | apply demo_resource_block |].
  destruct (fr_proc _ _ _ _ _ _ _ _ H2) as (o & Ho & _).
  assert (∀ n, never_closed k1 ∧ remove_resource k1 (current_process (ksched k1)) n =
    if decide (5 ≤ n < 100) then Fault (OutOfBounds "resource_table") else Ok (false, k1)) as Hr.
  { intros n. apply (resources_never_removed PageMapDemo.demo_sym 2 7 FsDemo.demo_sym (demo_kernel (replicate 5 NULL)) k1
      (current_process (ksched k1)) o n); [| by eapply rtc_once, step_syscall | exact Ho].
    split; [reflexivity |]. intros p x Hp. revert p x Hp. apply (bool_decide_unpack (map_Forall _ _)). reflexivity. }
  exists k1. split; [exact H1 | split; [by rewrite H3, lookup_insert_eq | split]].
  - by rewrite (proj2 (Hr 0)), decide_False by lia.
  - by rewrite (proj2 (Hr 7)), decide_True by lia.
Defined.

Lemma syscall_write_exit_witness :
  syscall_handler FsDemo.demo_sym (demo_kernel (replicate 5 NULL)) (call 9 0 0 0) = Fault (Panic "syscall").
Proof.
  apply (syscall_write_exit FsDemo.demo_sym blank_terminal (demo_kernel (replicate 5 NULL)) (call 9 0 0 0)).
  - apply (wk_shows _ _ _ _ (pa_walk _ _ _ _ _ (vr_parsed _ _ _ _ _ _ _ fs_open_rel))).
  - reflexivity.
  - simpl. set_solver.
Defined.

(** ** Interrupts *)

Module IrqDemo.

(** A screen, and the registers of the local APIC at 4096. *)
Definition irq_console : console := set_vmem blank (map_seqZ 4096 (replicate 512 0) ∪ blank_mem).

Definition demo_machine : machine pmm_state (list Z) :=
  Machine (Kernel (demo_sched 1000 1100 RUNNING) (Vfs irq_console (replicate 5 0) (replicate 12 NULL) (replicate 10 zero_fd)) ∅)
    keyboard_start true 4096.

(** A thread interrupted by [vector]. *)
Definition interrupted (vector : Z) : cpu_context_t :=
  CpuContext 0 0 0 0 0 0 0 0 0 0 0 0 0 0 0 (stub_vec vector) 0 0x101000 0x23 0x202 0x7ff000 0x1b.

Lemma irq_shows : shows (screen demo_machine) blank_terminal.
Proof.
  apply blank_shows_in.
  - apply load_bytes_inv. vm_compute. reflexivity.
  - apply bytes_ok_union; [apply bytes_ok_seq, Forall_replicate; done | exact blank_bytes_ok].
Qed.

Lemma irq_apic : apic_mapped (screen demo_machine) (local_apic_regs demo_machine).
Proof.
  split; [apply (mapped_load _ _ 4 [0; 0; 0; 0]); vm_compute; reflexivity | left; vm_compute; discriminate |].
  cbn [local_apic_regs demo_machine]. lia.
Qed.

(** Two keys: the first interrupt switches to thread 1200. *)
Definition keys : list (cpu_context_t * Z) := [(interrupted 0x40, 0x1e); (interrupted 0x40, 0x9e)].
Definition keys_run := sched_run 1 true (ksched (kern demo_machine)) keys.
Definition keys_sched := match keys_run with Ok (_, sc) => sc | _ => ksched (kern demo_machine) end.

Definition keys_out := match keys_run with Ok (cs, _) => cs | _ => [] end.

Lemma keys_runs : keys_run = Ok ([demo_context 2; interrupted 0x40], keys_sched).
Proof.
  assert (keys_out = [demo_context 2; interrupted 0x40]) as <- by (vm_compute; reflexivity).
  unfold keys_sched, keys_out. assert (match keys_run with Ok _ => true | _ => false end = true) as Hr
    by (vm_compute; reflexivity).
  destruct keys_run as [[cs sc]| |]; [reflexivity | discriminate ..].
Qed.

End IrqDemo.

Import IrqDemo.

(** A vector behind the names, and the one of the second interrupt line. *)
Lemma interrupt_panics_witness :
  interrupt_handler FsDemo.demo_sym 1 demo_machine (interrupted 40) 0 = Fault (OutOfBounds "exception_types") ∧
  ∃ c, interrupt_branch FsDemo.demo_sym 1 demo_machine (interrupted 33) 0 = Ok (Hangs (set_screen demo_machine c)) ∧
    shows c (puts blank_terminal (10 :: bytes_of "Kernel Panic!!: Coprocessor-Segment-Overrun")).
Proof.
  split.
  - exact (interrupt_panics FsDemo.demo_sym 1 demo_machine blank_terminal 40 (interrupted 40) 0 irq_shows
      ltac:(lia) eq_refl).
  - destruct (interrupt_panics FsDemo.demo_sym 1 demo_machine blank_terminal 33 (interrupted 33) 0 irq_shows
      ltac:(lia) eq_refl) as (c & Hb & Hs & _).
    exists c. split; [exact Hb | exact Hs].
Defined.

Lemma interrupt_unknown_witness : ∃ s',
  interrupt_handler FsDemo.demo_sym 1 demo_machine (interrupted 0xf0) 0 = Ok (interrupted 0xf0, s').
Proof.
  destruct (interrupt_unknown FsDemo.demo_sym 1 demo_machine blank_terminal 0xf0 (interrupted 0xf0) 0 irq_shows irq_apic)
    as (s' & ds & Hi & _).
  - lia.
  - set_solver.
  - reflexivity.
  - exists s'. exact Hi.
Defined.

Lemma keyboard_interrupts_witness : ∃ s',
  irq_run FsDemo.demo_sym 1 demo_machine keys = Ok ([demo_context 2; interrupted 0x40], s') ∧
  shows (screen s') (puts blank_terminal [97]).
Proof.
  destruct (keyboard_interrupts FsDemo.demo_sym 1 demo_machine blank_terminal keys
    [demo_context 2; interrupted 0x40] keys_sched irq_shows irq_apic) as (s' & Hr & _ & Hs & _).
  - reflexivity.
  - reflexivity.
  - constructor; [split; [reflexivity | simpl; lia] |]. constructor; [split; [reflexivity | simpl; lia] | constructor].
  - exact keys_runs.
  - exists s'. split; [exact Hr | exact Hs].
Defined.

(** ** The program "/prog" of the archive *)

Module ElfDemo.

Definition elf_ph : elf64_phdr_t := Phdr 1 5 120 0x800000 0 4 0x1000 0.

(** The frames from 0x5000 to 0x8fff exist. *)
Definition elf_phys : mem := map_seqZ 0x5000 (replicate (Z.to_nat 0x4000) 0).

Definition elf_vm : mm pmm_state (list Z) := vm (ksched (demo_kernel (replicate 5 NULL))).
Definition elf_result := vmm_alloc PageMapDemo.demo_sym 2 7 elf_vm 0x800000 0x1000 (Z.lor VM_FLAG_READ_WRITE VM_FLAG_USER) NULL.
Definition elf_vm' := match elf_result with Ok (_, v) => v | _ => elf_vm end.

Lemma elf_allocated : elf_result = Ok (0x800000, elf_vm').
Proof.
  unfold elf_vm'. assert (match elf_result with Ok (p, _) => p =? 0x800000 | _ => false end = true) as Hr
    by (vm_compute; reflexivity).
  destruct elf_result as [[p v]| |]; [by apply Z.eqb_eq in Hr as -> | discriminate ..].
Qed.

Lemma elf_frame : current_tr elf_vm' 0x800000 = Some 0x5007.
Proof. vm_compute. reflexivity. Qed.

Lemma elf_pages : mapped elf_phys 0x5000 0x1000.
Proof.
  intros i Hi. unfold elf_phys. exists 0. apply lookup_map_seqZ_Some. split; [lia |].
  apply lookup_replicate. split; [done |]. change (0x4000) with 16384. lia.
Qed.

Lemma elf_program : phdrs 1 (m_data file_elf) 64 = [elf_ph].
Proof. vm_compute. reflexivity. Qed.

Lemma elf_loads : filter is_load [elf_ph] = [elf_ph].
Proof. reflexivity. Qed.

Lemma elf_segs : segs_alloc PageMapDemo.demo_sym 2 7 elf_phys elf_vm [elf_ph] elf_vm'.
Proof.
  exists elf_vm'. split; [| done]. split; [exact elf_allocated |]. intros i Hi.
  assert (i = 0) as -> by (change (Z.of_nat (seg_pages elf_ph)) with 1 in Hi; lia).
  exists 0x5007. split; [exact elf_frame | exact elf_pages].
Qed.

Lemma elf_fits : elf_image file_elf elf_header [69; 76; 70] 0x800002 64 1.
Proof.
  split.
  - split; reflexivity.
  - exists (drop 4 elf_header). split; [reflexivity |]. repeat constructor; unfold char_ok; lia.
  - reflexivity.
  - reflexivity.
  - reflexivity.
  - simpl. lia.
Qed.

Lemma elf_room : seg_room FsDemo.demo_sym 65536 64 fs_files file_elf fs_open 2048 2112 elf_ph.
Proof.
  assert (vga_out (con fs_open) = VGA_TEXT_BUFFER_BASE) as Hv by reflexivity.
  assert (seg_base elf_ph = 0x800000) as Hb by reflexivity. assert (seg_len elf_ph = 0x1000) as Hl by reflexivity.
  split; rewrite ?Hb, ?Hl.
  - lia.
  - simpl. lia.
  - apply Forall_app. unfold protected. rewrite Hv, !Forall_cons.
    unfold apart, SIZEOF_MOUNTPOINT_T, VGA_TEXT_BUFFER_BASE, VGA_LENGTH. cbn [fst snd lit_tar FsDemo.demo_sym].
    change (Z.of_nat (length (archive fs_files))) with 3073.
    repeat (split || constructor); cbn [fst snd]; unfold SIZEOF_EHDR, SIZEOF_PHDR; lia.
  - simpl. lia.
Qed.

End ElfDemo.

Import ElfDemo.

Lemma load_elf_segments_witness : ∃ k',
  load_elf PageMapDemo.demo_sym 2 7 FsDemo.demo_sym elf_phys 2 (demo_kernel (replicate 5 NULL)) 1044 2048 2112 =
    Ok (0x800002, k') ∧
  bytes_at (kmem k') 0x800000 [0xeb; 0xfe; 0x90; 0x90].
Proof.
  destruct (load_elf_segments PageMapDemo.demo_sym 2 7 FsDemo.demo_sym elf_phys 65536 64 fs_files file_elf)
    with (k := demo_kernel (replicate 5 NULL)) (t := blank_terminal) (tbl := [(file_ab, 0)]) (filename := 1044)
    (c := 47) (n := [112; 114; 111; 103]) (j := 1%nat) (hd := elf_header) (ident := [69; 76; 70]) (entry := 0x800002) (pos := 64%nat)
    (nseg := 1%nat) (ehdr := 2048) (phdr := 2112) (v' := elf_vm') (fuel := 2%nat)
    as (k' & t' & tbl' & Hk & _ & _ & Hb & _).
  - apply bytes_ok_seq, Forall_replicate. done.
  - simpl. lia.
  - exact fs_open_rel.
  - simpl. lia.
  - vm_compute. reflexivity.
  - split; [apply load_bytes_inv; vm_compute; reflexivity | repeat constructor; lia | simpl; lia].
  - vm_compute. reflexivity.
  - exact elf_fits.
  - apply fs_open_buffer; unfold SIZEOF_EHDR; lia.
  - apply fs_open_buffer; unfold SIZEOF_PHDR; lia.
  - right. reflexivity.
  - rewrite elf_program. exact elf_segs.
  - rewrite elf_program, elf_loads. constructor; [exact elf_room | constructor].
  - rewrite elf_program, elf_loads. split; [constructor | exact I].
  - lia.
  - exists k'. split; [exact Hk |]. rewrite elf_program, elf_loads in Hb. apply Forall_inv in Hb. exact Hb.
Defined.

(** ** The archive as a module of the boot loader *)

Module InitrdDemo.

(** The tag of the module at 3080, the module in the frame at 0x20000. *)
Definition mb_bytes : list Z := [3; 0; 0; 0; 16; 0; 0; 0; 0; 0; 2; 0; 1; 12; 2; 0].
Definition initrd_console : console := set_vmem blank (map_seqZ 3080 mb_bytes ∪ blank_mem).
Definition initrd_phys : mem := map_seqZ 0x20000 (archive fs_files).
Definition initrd_ptr : Z := 0xffffff80000c1000.
Definition initrd_result := vmm_alloc PageMapDemo.demo_sym 2 7 demo_vm initrd_ptr 0x1000 (Z.lor VM_FLAG_READ_WRITE VM_FLAG_USER) 0x20000.
Definition initrd_vm := match initrd_result with Ok (_, v) => v | _ => demo_vm end.

Lemma initrd_allocated : initrd_result = Ok (initrd_ptr, initrd_vm).
Proof.
  unfold initrd_vm. assert (match initrd_result with Ok (p, _) => p =? initrd_ptr | _ => false end = true) as Hr
    by (vm_compute; reflexivity).
  destruct initrd_result as [[p v]| |]; [by apply Z.eqb_eq in Hr as -> | discriminate ..].
Qed.

Lemma initrd_mapped : pages_at initrd_vm initrd_ptr 0x20000 1.
Proof.
  intros i Hi. assert (i = 0) as -> by lia. exists 0x20007. split; vm_compute; reflexivity.
Qed.

Lemma initrd_shows : shows initrd_console blank_terminal.
Proof.
  apply blank_shows_in.
  - apply load_bytes_inv. vm_compute. reflexivity.
  - apply bytes_ok_union; [| exact blank_bytes_ok]. apply bytes_ok_seq, all_bytes. vm_compute. reflexivity.
Qed.

Lemma initrd_tag : tag_reach (vmem initrd_console) MULTIBOOT_TAG_TYPE_MODULE (3072 + 8) 0 3080 MULTIBOOT_TAG_TYPE_MODULE.
Proof. apply reach_stop; [vm_compute; reflexivity | by right]. Qed.

Lemma initrd_phys_ok : bytes_ok initrd_phys.
Proof. apply bytes_ok_seq, all_bytes. vm_compute. reflexivity. Qed.

Lemma initrd_archive : bytes_at initrd_phys 0x20000 (archive fs_files).
Proof.
  intros i b Hi. apply lookup_map_seqZ_Some. split; [lia |]. rewrite <- Hi. f_equal. lia.
Qed.

End InitrdDemo.

Import InitrdDemo.

Lemma tar_init_headers_witness : ∃ s',
  tar_init PageMapDemo.demo_sym 2 7 initrd_phys 4 demo_vm initrd_ptr initrd_console 3072 =
    Ok ([initrd_ptr; initrd_ptr + 1024; initrd_ptr + 2048; 0; 0], initrd_ptr + 0x1000, initrd_vm, s').
Proof.
  destruct (tar_init_headers PageMapDemo.demo_sym 2 7 initrd_phys 4 demo_vm initrd_ptr initrd_console blank_terminal
    3072 0 3080 MULTIBOOT_TAG_TYPE_MODULE initrd_shows eq_refl initrd_tag) as [_ Hi]; [lia |].
  destruct (Hi 0x20000 0x20c01 fs_files [] initrd_vm) as (s' & Ht & _); clear Hi;
    assert (get_mmio_ptr initrd_ptr (PAGE_ALIGN_u32 (u32 (0x20c01 - 0x20000))) = (initrd_ptr, initrd_ptr + 0x1000)) as Hg
      by reflexivity; try rewrite Hg in *; cbn [fst snd] in *.
  - reflexivity.
  - vm_compute. reflexivity.
  - vm_compute. reflexivity.
  - exact initrd_allocated.
  - exact initrd_mapped.
  - exact initrd_phys_ok.
  - rewrite app_nil_r. exact initrd_archive.
  - vm_compute. discriminate.
  - exact fs_files_ok.
  - simpl. lia.
  - simpl. lia.
  - right. vm_compute. discriminate.
  - vm_compute. discriminate.
  - vm_compute. discriminate.
  - exists s'. exact Ht.
Defined.

(** ** [print2] *)

(** The registers of the local APIC, the arrays and the buffer lie between
    2024 and 2304. *)
Definition print2_machine : machine pmm_state (list Z) :=
  Machine (demo_kernel (replicate 5 NULL)) keyboard_start true 2024.

Lemma print2_ready : ready FsDemo.demo_sym blank_terminal 65536 64 fs_files 2048 2100 print2_machine [(file_ab, 0)]
  (replicate 5 NULL).
Proof.
  split.
  - apply demo_files_rel.
  - split; [apply fs_open_mapped; cbn; lia | left; vm_compute; discriminate | cbn; lia].
  - apply Forall_cons. split; [unfold apart; cbn; lia |]. apply Forall_cons. split; [unfold apart; cbn; lia |].
    apply fs_open_protected; cbn; lia.
  - apply fs_open_buffer; lia.
  - apply fs_open_buffer; lia.
  - unfold apart. cbn. lia.
Qed.

Lemma print2_prints_witness : ∃ s',
  print2 FsDemo.demo_sym 1 print2_machine (call 0 0 0 0) 2048 2100 = Ok s' ∧
  shows (screen s') (puts blank_terminal (bytes_of "Hello from")).
Proof.
  destruct (print2_prints FsDemo.demo_sym 1 blank_terminal 65536 64 fs_files 2048 2100 print2_machine [(file_ab, 0)]
    (replicate 5 NULL) (call 0 0 0 0) 2%nat file_two 3164
    (3164 :: kheap (vm (ksched (demo_kernel (replicate 5 NULL))))) 0%nat print2_ready) as (s' & Hp & Hs & _).
  - vm_compute. reflexivity.
  - simpl. lia.
  - repeat constructor; unfold char_ok; lia.
  - simpl. lia.
  - apply demo_resource_block.
  - reflexivity.
  - reflexivity.
  - exists s'. split; [exact Hp | exact Hs].
Defined.
