(* ===== verification/ExecDemo.v ===== *)
(** * A program starts (witness for Exec.v)

    The scheduler of SchedDemo.v and the archive of FsDemo.v, which lies in the
    kernel half here. *)

From S2P Require Import Prelude Iface Mem LibTitan Fields Pmm MmState HashMap PageMap Vmm Space View Vga Tar Vfs FsDemo.
From S2P Require Import Cpu Sched RoundRobin SchedDemo Resource Elf KernelDemo Exec.

Module HighFs.

Import PageMapDemo VmmDemo SchedDemo FsDemo.
#[local] Existing Instance list_heap.

Definition K (i : Z) : Z := KERNEL_TEXT_START + i.

Definition high_sym : fs_symbols := FsSymbols (K 1024) (K 1028) (K 1030) 5 6.

(** The mount point, the literal, the path ["/prog"], the local variables, the
    archive and the screen. *)
Definition high_pieces : list (Z * list Z) :=
  [(K 64, tar_string ++ [0]); (K 64 + OFF_MOUNTPOINT, [47; 0]); (K 1024, tar_string ++ [0]);
   (K 1100, [47]); (K 1101, bytes_of "prog" ++ [0]); (K 2048, replicate 64 0); (K 2112, replicate 56 0);
   (K 65536, archive fs_files); (VGA_TEXT_BUFFER_BASE, cell_bytes (cells blank_terminal))].

Lemma archive_length : Z.of_nat (length (archive fs_files)) = 3073.
Proof. vm_compute. reflexivity. Qed.

Lemma high_order : in_order high_pieces.
Proof.
  unfold high_pieces. cbn [in_order fst snd]. rewrite archive_length.
  repeat (split; [repeat apply Forall_cons_2; cbn [fst snd]; try apply Forall_nil_2; unfold K, OFF_MOUNTPOINT, VGA_TEXT_BUFFER_BASE, KERNEL_TEXT_START; simpl; lia |]).
  exact I.
Qed.

Definition high_bytes : mem := mem_of high_pieces.

Definition high_fs : vfs :=
  Vfs (set_vmem blank high_bytes) (headers_at (K 65536) fs_files ++ replicate 2 0) (K 64 :: replicate 11 NULL)
    (replicate 10 zero_fd).

Lemma high_ok : bytes_ok high_bytes.
Proof.
  apply mem_of_ok. do 9 (apply Forall_cons_2; [apply all_bytes; vm_compute; reflexivity |]). apply Forall_nil_2.
Qed.

Lemma high_piece n a l : high_pieces !! n = Some (a, l) → bytes_at high_bytes a l.
Proof. intros Hn. apply mem_of_at; [exact high_order | by apply (list_elem_of_lookup_2 _ n)]. Qed.

Lemma high_walk : walk (set_vmem blank high_bytes) blank_terminal (K 65536) fs_files.
Proof.
  split; [| done | exact fs_files_ok | exact (high_piece 7 _ _ eq_refl) | |].
  - split; [exact (high_piece 8 _ _ eq_refl) | exact high_ok | done | exact (sh_ok _ _ blank_shows) |].
    cbn [vga_out set_vmem blank]. unfold VGA_LENGTH, VGA_TEXT_BUFFER_BASE. lia.
  - left. rewrite archive_length. cbn. unfold K, VGA_TEXT_BUFFER_BASE, KERNEL_TEXT_START. lia.
  - rewrite archive_length. unfold K, KERNEL_TEXT_START. lia.
Qed.

Lemma high_rel : vfs_rel high_sym blank_terminal (K 65536) (K 64) fs_files high_fs [].
Proof.
  split.
  - split; [exact high_walk | reflexivity | cbn; lia].
  - reflexivity.
  - exact (high_piece 0 _ _ eq_refl).
  - exact (high_piece 1 _ _ eq_refl).
  - exact (high_piece 2 _ _ eq_refl).
  - apply mem_of_none. unfold high_pieces. repeat apply Forall_cons_2; try apply Forall_nil_2; cbn [fst];
      unfold K, OFF_MOUNTPOINT, VGA_TEXT_BUFFER_BASE, KERNEL_TEXT_START; lia.
  - rewrite !Forall_cons. unfold apart, SIZEOF_MOUNTPOINT_T. cbn. unfold K, VGA_TEXT_BUFFER_BASE, KERNEL_TEXT_START.
    split_and!; [lia | lia | constructor].
  - exists []. split; [reflexivity | constructor].
  - cbn. lia.
Qed.

Lemma high_protected : protected high_sym high_fs (K 65536) (K 64) fs_files =
  [(K 65536, 3073); (VGA_TEXT_BUFFER_BASE, VGA_LENGTH); (K 64, SIZEOF_MOUNTPOINT_T); (K 1024, 4)].
Proof. unfold protected. by rewrite archive_length. Qed.

Lemma high_buffer a n l : (a, l) ∈ high_pieces → Z.of_nat (length l) = n → K 2048 ≤ a → a + n ≤ K 4096 →
  buffer high_sym high_fs (K 65536) (K 64) fs_files a n.
Proof.
  intros Hin Hl H1 H2. split.
  - apply (mem_of_mapped _ _ l); [exact high_order | exact Hin | lia].
  - rewrite high_protected, !Forall_cons. unfold apart, VGA_TEXT_BUFFER_BASE, VGA_LENGTH, SIZEOF_MOUNTPOINT_T, K, KERNEL_TEXT_START in *.
    simpl. split_and!; [lia .. | constructor].
  - unfold K in *. lia.
Qed.

End HighFs.

Module ProgDemo.

Import PageMapDemo VmmDemo SchedDemo FsDemo HighFs ElfDemo.
#[local] Existing Instance list_heap.

Definition is_Ok {A} (o : outcome A) : bool := match o with Ok _ => true | _ => false end.
Definition got {A} (d : A) (o : outcome A) : A := match o with Ok x => x | _ => d end.

Lemma got_Ok {A} (d : A) o : is_Ok o = true → o = Ok (got d o).
Proof. by destruct o. Qed.

Definition prog_vmm : Z := K 4096.
Definition prog_sched : sched pmm_state (list Z) := demo_sched 1000 1100 RUNNING.
Definition prog_kernel : kernel pmm_state (list Z) := Kernel prog_sched high_fs ∅.
Local Abbreviation psym := PageMapDemo.demo_sym.

(** The states of the memory manager. *)
Definition made := got (head_obj, 0, vm prog_sched) (create_vmm psym 2 (vm prog_sched)).
Definition made_obj := set_obj made.2 prog_vmm made.1.1.
Definition entered := got made_obj (switch_vm_space (set_pml4ts made_obj (<[prog_vmm := 0x5000]> (pml4ts made.2))) prog_vmm).
Definition loaded := got (0, entered) (vmm_alloc psym 2 7 entered 0x800000 0x1000 (Z.lor VM_FLAG_READ_WRITE VM_FLAG_USER) NULL).
Definition prog_head := got head_obj (obj_at loaded.2 prog_vmm).
Definition prog_w1 := set_kheap loaded.2 (3484 :: kheap loaded.2).

(** [b]: the argument is copied before the segments are loaded. *)
Definition prog_w2 (b : bool) :=
  set_pml4ts (set_obj prog_w1 (vmm_of 3484) (if b then made.1.1 else prog_head)) (<[vmm_of 3484 := 0x5000]> (pml4ts prog_w1)).
Definition prog_w3 (b : bool) := set_kheap (prog_w2 b) (3548 :: kheap (prog_w2 b)).
Definition stacked (b : bool) := got (0, prog_w3 b) (first_stack psym 2 7 (prog_w3 b) 3484 1000 (kernel_stack_ptr prog_sched) true).
Definition returned (b : bool) := got (stacked b).2 (switch_vm_space (stacked b).2 (vmm_of 1000)).

Lemma got_pair {A B} (d : A * B) o a : is_Ok o = true → (got d o).1 = a → o = Ok (a, (got d o).2).
Proof. destruct o as [[x y]| |]; simpl; [by intros _ -> | done ..]. Qed.

Lemma got_triple {A B C} (d : A * B * C) o b :
  is_Ok o = true → (got d o).1.2 = b → o = Ok ((got d o).1.1, b, (got d o).2).
Proof. destruct o as [[[x y] z]| |]; simpl; [by intros _ -> | done ..]. Qed.

Lemma made_ok : create_vmm psym 2 (vm prog_sched) = Ok (made.1.1, 0x5000, made.2).
Proof.
  apply (got_triple (head_obj, 0, vm prog_sched)); vm_compute; reflexivity.
Qed.

Lemma entered_ok : switch_vm_space (set_pml4ts made_obj (<[prog_vmm := 0x5000]> (pml4ts made.2))) prog_vmm = Ok entered.
Proof. apply got_Ok. vm_compute. reflexivity. Qed.

Lemma loaded_ok : vmm_alloc psym 2 7 entered 0x800000 0x1000 (Z.lor VM_FLAG_READ_WRITE VM_FLAG_USER) NULL = Ok (0x800000, loaded.2).
Proof. apply (got_pair (0, entered)); vm_compute; reflexivity. Qed.

Lemma prog_head_ok : vm_objs loaded.2 !! prog_vmm = Some prog_head.
Proof.
  unfold prog_head, obj_at. assert (is_Some (vm_objs loaded.2 !! prog_vmm)) as [o ->]; [| done].
  apply not_eq_None_Some. by vm_compute.
Qed.

Lemma stacked_ok b :
  first_stack psym 2 7 (prog_w3 b) 3484 1000 (kernel_stack_ptr prog_sched) true = Ok (USER_STACK_START, (stacked b).2).
Proof. apply (got_pair (0, prog_w3 b)); destruct b; vm_compute; reflexivity. Qed.

Lemma returned_ok b : switch_vm_space (stacked b).2 (vmm_of 1000) = Ok (returned b).
Proof. unfold returned. apply (got_Ok (stacked b).2). destruct b; vm_compute; reflexivity. Qed.

(** The frames that exist. *)
Definition prog_phys : mem := map_seqZ 0x5000 (replicate (Z.to_nat 0x4000) 0).

Lemma prog_page : current_tr loaded.2 0x800000 = Some 0x6007.
Proof. vm_compute. reflexivity. Qed.

Lemma prog_frame : mapped prog_phys 0x6000 0x1000.
Proof.
  intros i Hi. exists 0. apply lookup_map_seqZ_Some. split; [lia |].
  apply lookup_replicate. split; [done |]. change (0x4000) with 16384. lia.
Qed.

Lemma prog_segs : segs_alloc psym 2 7 prog_phys entered [elf_ph] loaded.2.
Proof.
  exists loaded.2. split; [| done]. split; [exact loaded_ok |]. intros i Hi.
  assert (i = 0) as -> by (change (Z.of_nat (seg_pages elf_ph)) with 1 in Hi; lia).
  exists 0x6007. split; [exact prog_page | exact prog_frame].
Qed.

Lemma prog_live : Forall (ha_live (kheap loaded.2)) (1000 :: demo_queue.*1 ++ (slots demo_queue).*2).
Proof.
  assert (kheap loaded.2 = [3420; 3356; 3292; 3228; 3164] ++ kheap (vm prog_sched)) as -> by (vm_compute; reflexivity).
  unfold ha_live. simpl. repeat apply Forall_cons_2; try apply Forall_nil_2; set_solver.
Qed.

Lemma prog_calls b :
  exec_calls psym 2 7 prog_phys b prog_sched demo_queue prog_vmm [elf_ph] 0x5000 3484 3548 loaded.2 (returned b).
Proof.
  split.
  - exists made.1.1, prog_head, made.2, entered, prog_w1, (prog_w3 b), (stacked b).2. split; [exact made_ok |].
    split; [exact entered_ok |]. split; [exact prog_segs |]. split; [exact prog_head_ok |].
    split; [| split; [| split; [exact (stacked_ok b) | exact (returned_ok b)]]].
    + assert (ha_alloc (kheap loaded.2) SIZEOF_PROCESS_T = Ok (3484, 3484 :: kheap loaded.2)) as Ha by (vm_compute; reflexivity).
      unfold kmalloc_mm. rewrite Ha. reflexivity.
    + assert (ha_alloc (kheap (prog_w2 b)) SIZEOF_THREAD_T = Ok (3548, 3548 :: kheap (prog_w2 b))) as Ha by (vm_compute; reflexivity).
      unfold kmalloc_mm. fold (prog_w2 b). rewrite Ha. reflexivity.
  - split; [exact I | exact prog_live].
Qed.

(** The page tables are those of the tables of PageMap.v. *)
Lemma prog_same : same_tables (demo 0x4000) (vm prog_sched).
Proof. done. Qed.

Lemma prog_inv : pt_inv (vm prog_sched) demo_level.
Proof.
  apply (pt_inv_same (demo 0x4000)); [exact prog_same | apply demo_inv | | apply (pi_frames _ _ (demo_inv 0x4000)) | done | done].
  split; [done |]. intros p Hp. destruct (pi_live _ _ (demo_inv 0x4000)) as [_ Hl].
  specialize (Hl p Hp). change (p ∈ [256; 192; 128; 64]) in Hl.
  change (p ∈ [1000; 1100; 1200; 2000; 2100; 3000; 3100; 5; 32; 256; 192; 128; 64]). set_solver.
Qed.

Lemma prog_tables : tables_ready psym (vm prog_sched) ∅.
Proof.
  split.
  - exists demo_level, (V 4). split; [exact prog_inv |].
    apply (window_same psym (demo 0x4000)); [exact prog_same | done | | by apply demo_window].
    intros o Ho. exists window_obj. split; [reflexivity |]. by injection Ho as <-.
  - split; [apply demo_vm_frames; lia | apply demo_nodes_left].
  - split; [by exists (V 1) |]. intros r. rewrite lookup_empty. by intros [].
Qed.

Lemma prog_seg : user_seg file_elf elf_ph.
Proof.
  assert (seg_base elf_ph = 0x800000) as Hb by reflexivity. assert (seg_len elf_ph = 0x1000) as Hl by reflexivity.
  split; rewrite ?Hb, ?Hl; simpl; unfold KERNEL_TEXT_START; lia.
Qed.

Lemma prog_ready : exec_ready high_sym (K 65536) (K 64) fs_files file_elf blank_terminal [] prog_kernel ∅ demo_queue
  (K 1100) prog_vmm (K 2048) (K 2112) elf_header 0x800002 64 1.
Proof.
  split.
  - split; [exact high_rel | cbn; lia].
  - cbn [kfs prog_kernel]. rewrite high_protected. unfold high, K, VGA_TEXT_BUFFER_BASE, KERNEL_TEXT_START.
    repeat apply Forall_cons_2; try apply Forall_nil_2; cbn [fst]; lia.
  - exists 47, (bytes_of "prog"), 1%nat. split; [unfold K, KERNEL_TEXT_START; lia |]. split; [| split].
    + exact (high_piece 3 _ _ eq_refl 0%nat 47 eq_refl).
    + split; [exact (high_piece 4 _ _ eq_refl) | repeat constructor; lia | cbn; lia].
    + vm_compute. reflexivity.
  - exists [69; 76; 70]. exact elf_fits.
  - split_and!.
    + unfold K, KERNEL_TEXT_START. lia.
    + unfold K, KERNEL_TEXT_START. lia.
    + apply (high_buffer _ _ (replicate 64 0)); [by apply (list_elem_of_lookup_2 _ 5) | done | unfold K; lia | unfold K, SIZEOF_EHDR; lia].
    + apply (high_buffer _ _ (replicate 56 0)); [by apply (list_elem_of_lookup_2 _ 6) | done | unfold K; lia | unfold K, SIZEOF_PHDR; lia].
    + right. unfold K, SIZEOF_EHDR. cbn. lia.
  - rewrite elf_program, elf_loads. split; [constructor; [exact prog_seg | constructor] | split; [constructor | exact I]].
  - apply demo_queue_ok. left.
  - split; [reflexivity | vm_compute; discriminate].
Qed.

End ProgDemo.

Import PageMapDemo SchedDemo FsDemo HighFs ElfDemo ProgDemo.
#[local] Existing Instance list_heap.

(** With both orders of evaluation. *)
Lemma exec_elf_starts_witness : Forall (λ b, ∃ k' spaces' m,
  exec_elf PageMapDemo.demo_sym 2 7 high_sym prog_phys b 2 prog_kernel ∅ (K 1100) prog_vmm 0x101000 (K 2048) (K 2112) =
    Ok (k', spaces') ∧
  queue_ok (ksched k') ((3484, [3548]) :: demo_queue) ∧ spaces' !! 0x5000 = Some m ∧ bytes_at m 0x800000 [0xeb; 0xfe; 0x90; 0x90])
  [true; false].
Proof.
  apply Forall_true. intros b.
  destruct (exec_elf_starts PageMapDemo.demo_sym 2 7 high_sym prog_phys b (K 65536) (K 64) fs_files file_elf)
    with (t := blank_terminal) (tbl := @nil (member * Z)) (k := prog_kernel) (spaces := ∅ : gmap Z mem) (q := demo_queue)
    (filename := K 1100) (vmm := prog_vmm) (wrapper := 0x101000) (ehdr := K 2048) (phdr := K 2112) (hd := elf_header)
    (entry := 0x800002) (pos := 64%nat) (nseg := 1%nat) (pml4t := 0x5000) (p := 3484) (th := 3548) (w := loaded.2)
    (v := returned b) (fuel := 2%nat)
    as (k' & t' & tbl' & m & Hx & Hq & _ & _ & _ & _ & _ & Hb & _).
  - apply bytes_ok_seq, Forall_replicate. done.
  - simpl. lia.
  - exact prog_ready.
  - exact prog_tables.
  - discriminate.
  - rewrite elf_program. exact (prog_calls b).
  - lia.
  - eexists k', _, m. rewrite elf_program, elf_loads in Hb. apply Forall_inv in Hb.
    split; [exact Hx |]. split; [exact Hq |]. split; [apply lookup_insert_eq | exact Hb].
Defined.
