(* ===== verification/UnitTests.v ===== *)
(** * The unit tests (unit_tests.c)

    The tests of the console and of the heap.  [run_unit_tests] runs only the
    first one, which never returns. *)

From S2P Require Import Prelude Mem KHeap Vga.

Definition BLOCK_SIZE : Z := 8.

Definition assert_true (s : console) (arg1 arg2 : Z) : outcome console :=
  if negb (arg1 =? arg2) then printstr s (bytes_of "Assert Failed") else Ok s.

(** ** The console *)

Definition vga_test1 (s : console) : outcome console :=
  s1 ← printk s (bytes_of "%s : %s") [AStr (bytes_of "Hello There!!"); AStr (bytes_of "supertitan")];
  printk s1 (bytes_of "%r") [AStr (bytes_of "Whatever")].

Definition vga_test2 (s : console) : outcome console :=
  s1 ← printk s (bytes_of "Hello, %s" ++ [10]) [AStr (bytes_of "supertitan")];
  s2 ← printk s1 (bytes_of "NULL Addr: %lu" ++ [10]) [ALong 0];
  printk s2 (bytes_of "Random Addr: %lu" ++ [10]) [ALong 0x123456789].

(** [n] turns of the loop of [vga_test3]. *)
Fixpoint print_as (n : nat) (s : console) : outcome console :=
  match n with
  | O => Ok s
  | S n' => s' ← printstr s (bytes_of "a"); print_as n' s'
  end.

Definition vga_test3 (s : console) : outcome console := print_as 90 s.

Definition run_unit_tests (s : console) : outcome console := vga_test1 s.

(** ** The heap *)

(** The three calls that print a pointer. *)
Definition print_ptr (s : console) (label : list Z) (ptr : Z) : outcome console :=
  s1 ← printstr s label;
  s2 ← printlong s1 ptr;
  printc s2 10.

(** A request whose pointer is printed. *)
Definition print_request (s : console) (h : heap) (label : list Z) (size : Z) : outcome (Z * console * heap) :=
  '(ptr, h1) ← request h size;
  s1 ← print_ptr s label ptr;
  Ok (ptr, s1, h1).

Definition test_kmalloc (s : console) (h : heap) : outcome (console * heap) :=
  '(ptr, s1, h1) ← print_request s h (bytes_of "First ptr:") BLOCK_SIZE;
  '(_, s2, h2) ← print_request s1 h1 (bytes_of "Second ptr:") BLOCK_SIZE;
  h3 ← kfree h2 ptr;
  '(_, s4, h4) ← print_request s2 h3 (bytes_of "Third ptr:") BLOCK_SIZE;
  Ok (s4, h4).

Definition test_kmalloc2 (s : console) (h : heap) : outcome (console * heap) :=
  '(ptr, s1, h1) ← print_request s h (bytes_of "First ptr:") BLOCK_SIZE;
  '(second_ptr, s2, h2) ← print_request s1 h1 (bytes_of "Second ptr:") BLOCK_SIZE;
  '(_, s3, h3) ← print_request s2 h2 (bytes_of "Third ptr:") BLOCK_SIZE;
  h4 ← kfree h3 ptr;
  h5 ← kfree h4 second_ptr;
  '(_, s6, h6) ← print_request s3 h5 (bytes_of "Fourth ptr:") (BLOCK_SIZE + 9);
  Ok (s6, h6).

(** ** Properties *)

Lemma print_as_shows n : ∀ s t, shows s t →
  ∃ s', print_as n s = Ok s' ∧ shows s' (puts t (replicate n 97)) ∧ only_screen s s'.
Proof.
  induction n as [|n IH]; intros s t Hs; [by exists s |].
  destruct (printstr_shows s t (bytes_of "a") Hs) as (s1 & H1 & Hs1 & Ho1).
  destruct (IH s1 _ Hs1) as (s2 & H2 & Hs2 & Ho2). exists s2. cbn [print_as]. rewrite H1. out_red.
  split_and!; [done | done | by eapply only_screen_trans].
Qed.

(** Letters that fit the line. *)
Lemma puts_on_line n : ∀ t, 0 ≤ col t → col t + Z.of_nat n < VGA_WIDTH → row t < VGA_HEIGHT →
  col (puts t (replicate n 97)) = col t + Z.of_nat n ∧ row (puts t (replicate n 97)) = row t.
Proof.
  induction n as [|n IH]; intros t H0 Hn Hr; [simpl; lia |]. cbn [replicate puts foldl]. fold (puts (put t 97) (replicate n 97)).
  assert (put t 97 = Terminal (<[Z.to_nat (row t * VGA_WIDTH + col t) := 0x0f61]> (cells t)) (col t + 1) (row t)) as ->.
  { unfold put. change (i8 97 =? 10) with false. cbv iota. rewrite (proj2 (Z.eqb_neq _ _)) by lia.
    unfold scroll. cbn [row]. by rewrite (proj2 (Z.leb_gt _ _)) by lia. }
  destruct (IH (Terminal (<[Z.to_nat (row t * VGA_WIDTH + col t) := 0x0f61]> (cells t)) (col t + 1) (row t))) as [-> ->];
    cbn [col row]; lia.
Qed.

(** The long line of vga_test3 wraps: of ninety letters at the begin of a line
    the last ten are on the next one. *)
Theorem vga_test3_wraps s cs r :
  shows s (Terminal cs 0 r) → r + 1 < VGA_HEIGHT →
  ∃ s', vga_test3 s = Ok s' ∧ shows s' (puts (Terminal cs 0 r) (replicate 90 97)) ∧ Vga.x s' = 10 ∧ Vga.y s' = r + 1.
Proof.
  intros Hs Hr. destruct (print_as_shows 90 s _ Hs) as (s' & Hp & Hs' & _). exists s'.
  pose proof (sh_xy _ _ Hs') as [-> ->]. split; [exact Hp |]. split; [exact Hs' |]. unfold VGA_HEIGHT in *.
  change 90%nat with (79 + (1 + 10))%nat. rewrite !replicate_add, !puts_app.
  destruct (puts_on_line 79 (Terminal cs 0 r)) as [Hc Hw]; [done | done | cbn [row]; unfold VGA_HEIGHT; lia |].
  revert Hc Hw. generalize (puts (Terminal cs 0 r) (replicate 79 97)). intros t Hc Hw. cbn [col row] in *.
  assert (col (puts t (replicate 1 97)) = 0 ∧ row (puts t (replicate 1 97)) = r + 1) as [Hc' Hw'].
  { cbn [replicate puts foldl]. unfold put. change (i8 97 =? 10) with false. cbv iota. rewrite Hc, Hw.
    change (0 + Z.of_nat 79 =? VGA_WIDTH - 1) with true. cbv iota. unfold scroll, VGA_HEIGHT. cbn [row].
    by rewrite (proj2 (Z.leb_gt _ _)) by lia. }
  revert Hc' Hw'. generalize (puts t (replicate 1 97)). intros t' Hc' Hw'.
  destruct (puts_on_line 10 t') as [-> ->]; [lia | unfold VGA_WIDTH; lia | unfold VGA_HEIGHT; lia | lia].
Qed.

Lemma printk_pieces s t ps :
  shows s t → locked s = false → Forall piece_ok ps → (length ps ≤ length (flat_map piece_format ps))%nat →
  ∃ s', printk s (flat_map piece_format ps) (flat_map piece_args ps) = Ok s' ∧
    shows s' (puts t (flat_map render ps)) ∧ only_screen s s'.
Proof. intros Hs Hl Hok Hn. apply (printf_shows 1); try done. lia. Qed.

Lemma printk_bad_specifier s t c args :
  shows s t → locked s = false → c ∉ [100; 115; 108] → printk s [37; c] args = Fault (Spin "acquire").
Proof.
  intros Hs Hl Hc. unfold printk. cbn [length].
  by apply (printf_bad_specifier 0 2 s t [] c [] args Hs Hl (Forall_nil_2 _) Hc).
Qed.

(** The pieces of the first format. *)
Definition greeting : list piece :=
  PStr (bytes_of "Hello There!!") :: lits (bytes_of " : ") ++ [PStr (bytes_of "supertitan")].

Lemma greeting_shows s t :
  shows s t → locked s = false →
  ∃ s', printk s (bytes_of "%s : %s") [AStr (bytes_of "Hello There!!"); AStr (bytes_of "supertitan")] = Ok s' ∧
    shows s' (puts t (bytes_of "Hello There!! : supertitan")) ∧ only_screen s s'.
Proof.
  intros Hs Hl. replace (bytes_of "%s : %s") with (flat_map piece_format greeting) by reflexivity.
  replace (bytes_of "Hello There!! : supertitan") with (flat_map render greeting) by reflexivity.
  apply (printk_pieces s t greeting Hs Hl).
  - constructor; [done |]. apply Forall_app. split; [by apply lits_ok; no_percent | by constructor].
  - unfold greeting, lits. cbn. lia.
Qed.

(** The unknown conversion of the first test stops the tests: the report of it
    waits for the lock that the test holds. *)
Theorem run_unit_tests_spins s t :
  shows s t → locked s = false → run_unit_tests s = Fault (Spin "acquire").
Proof.
  intros Hs Hl. destruct (greeting_shows s t Hs Hl) as (s1 & Hp & Hs1 & Ho1).
  unfold run_unit_tests, vga_test1. rewrite Hp. out_red. rewrite <- (only_screen_locked _ _ Ho1) in Hl.
  apply (printk_bad_specifier s1 _ 114 _ Hs1 Hl). no_percent.
Qed.

(** *** The heap *)

(** The line that [print_ptr] prints. *)
Definition ptr_line (label : list Z) (ptr : Z) : list Z := label ++ [48; 120] ++ hex_digits 16 ptr [] ++ [10].

Lemma print_ptr_shows s t label ptr :
  shows s t → ∃ s', print_ptr s label ptr = Ok s' ∧ shows s' (puts t (ptr_line label ptr)) ∧ only_screen s s'.
Proof.
  intros Hs. destruct (printstr_shows s t label Hs) as (s1 & H1 & Hs1 & Ho1).
  destruct (printlong_shows s1 _ ptr Hs1) as (s2 & H2 & Hs2 & Ho2).
  destruct (printc_shows s2 _ 10 Hs2) as (s3 & H3 & Hs3 & Ho3). exists s3. unfold print_ptr. rewrite H1. out_red.
  rewrite H2. out_red. rewrite H3. split_and!; [done | | by eapply only_screen_trans; [eapply only_screen_trans |]].
  unfold ptr_line. rewrite !puts_app in *. exact Hs3.
Qed.

Lemma print_request_spec s t h bs label size p n bs' :
  shows s t → heap_ok h bs → 5 ≤ size → place size (heap_start h) bs = Some (p, n, bs') →
  ∃ s' h', print_request s h label size = Ok (p, s', h') ∧ shows s' (puts t (ptr_line label p)) ∧
    heap_ok h' bs' ∧ heap_start h' = heap_start h.
Proof.
  intros Hs Hok Hsz Hp.
  destruct (kmalloc_place no_growth (heap_fuel h) h size bs p n bs' Hok Hsz (heap_fuel_enough _ _ Hok) Hp)
    as (h' & Hk & Hok' & (Hst & _) & _).
  destruct (print_ptr_shows s t label p Hs) as (s' & Hpp & Hs' & _). exists s', h'.
  unfold print_request, request. rewrite Hk. out_red. rewrite Hpp. by split_and!.
Qed.

(** The requests of a test on a free region with room, at the begin of the
    heap. *)
Section Requests.
Context (h : heap) (bs : list region).

Lemma print_request_behind s t h' us label b :
  shows s t → heap_ok h' (us ++ (false, b) :: bs) → Forall (λ r, r.1 = true) us → BLOCK_SIZE + HDR < b →
  heap_start h' = heap_start h →
  ∃ s' h'', print_request s h' label BLOCK_SIZE = Ok (heap_start h + span us + HDR, s', h'') ∧
    shows s' (puts t (ptr_line label (heap_start h + span us + HDR))) ∧
    heap_ok h'' ((us ++ [(true, BLOCK_SIZE)]) ++ (false, b - BLOCK_SIZE - HDR) :: bs) ∧ heap_start h'' = heap_start h.
Proof.
  intros Hs Hok Hus Hb Hst. rewrite <- app_assoc, <- Hst.
  eapply print_request_spec; [exact Hs | exact Hok | done | by apply place_behind].
Qed.

Lemma kfree_request h' pre size post p :
  heap_ok h' (pre ++ (true, size) :: post) → heap_start h' = heap_start h → p = heap_start h + span pre + HDR →
  ∃ h'', kfree h' p = Ok h'' ∧ heap_ok h'' (pre ++ (false, size) :: post) ∧ heap_start h'' = heap_start h.
Proof.
  intros Hok Hst ->. rewrite <- Hst. destruct (kfree_region _ _ _ _ Hok) as (h'' & Hk & Hok' & (Hst' & _)). by exists h''.
Qed.

End Requests.

(** test_kmalloc prints two pointers, and the third request gets the block that
    was freed in between. *)
Theorem test_kmalloc_reuses s t h b bs :
  shows s t → heap_ok h ((false, b) :: bs) → 2 * (BLOCK_SIZE + HDR) < b →
  let p := heap_start h + HDR in
  ∃ s' h', test_kmalloc s h = Ok (s', h') ∧
    heap_ok h' ((true, BLOCK_SIZE) :: (true, BLOCK_SIZE) :: (false, b - 2 * (BLOCK_SIZE + HDR)) :: bs) ∧
    shows s' (puts t (ptr_line (bytes_of "First ptr:") p ++ ptr_line (bytes_of "Second ptr:") (p + BLOCK_SIZE + HDR) ++
      ptr_line (bytes_of "Third ptr:") p)).
Proof.
  intros Hs Hok Hb p. unfold test_kmalloc.
  destruct (print_request_behind h bs s t h [] (bytes_of "First ptr:") b Hs Hok) as (s1 & h1 & -> & Hs1 & Hok1 & Hst1);
    [done | unfold BLOCK_SIZE, HDR in *; lia | done |]. out_red.
  destruct (print_request_behind h bs s1 _ h1 _ (bytes_of "Second ptr:") _ Hs1 Hok1) as (s2 & h2 & -> & Hs2 & Hok2 & Hst2);
    [by repeat constructor | unfold BLOCK_SIZE, HDR in *; lia | done |]. out_red.
  destruct (kfree_request h h2 [] _ _ _ Hok2 Hst2 eq_refl) as (h3 & -> & Hok3 & Hst3). out_red.
  destruct (print_request_spec s2 _ h3 _ (bytes_of "Third ptr:") BLOCK_SIZE _ _ _ Hs2 Hok3 ltac:(done) eq_refl)
    as (s4 & h4 & -> & Hs4 & Hok4 & Hst4). out_red.
  exists s4, h4. split; [done |]. cbn [app] in Hok4. split.
  - by replace (b - 2 * (BLOCK_SIZE + HDR)) with (b - BLOCK_SIZE - HDR - BLOCK_SIZE - HDR) by lia.
  - rewrite Hst3 in Hs4. cbn [span app] in Hs4. rewrite <- !puts_app, Z.add_0_r in Hs4. subst p.
    replace (heap_start h + HDR + BLOCK_SIZE + HDR) with (heap_start h + (HDR + BLOCK_SIZE + 0) + HDR) by lia. exact Hs4.
Qed.

(** test_kmalloc2 joins the two blocks that it freed for its last
    request, and prints the pointer to the first of them; the header of the
    joined block says 8 bytes where 17 were asked for, so that the second
    block, which is free, begins inside it. *)
Theorem test_kmalloc2_joins s t h b bs :
  shows s t → heap_ok h ((false, b) :: bs) → 3 * (BLOCK_SIZE + HDR) < b →
  let p := heap_start h + HDR in
  let q := p + BLOCK_SIZE + HDR in
  ∃ s' h', test_kmalloc2 s h = Ok (s', h') ∧
    heap_ok h' ((true, BLOCK_SIZE) :: (false, BLOCK_SIZE) :: (true, BLOCK_SIZE) :: (false, b - 3 * (BLOCK_SIZE + HDR)) :: bs) ∧
    shows s' (puts t (ptr_line (bytes_of "First ptr:") p ++ ptr_line (bytes_of "Second ptr:") q ++
      ptr_line (bytes_of "Third ptr:") (q + BLOCK_SIZE + HDR) ++ ptr_line (bytes_of "Fourth ptr:") p)) ∧
    q < p + (BLOCK_SIZE + 9).
Proof.
  intros Hs Hok Hb p q. unfold test_kmalloc2.
  destruct (print_request_behind h bs s t h [] (bytes_of "First ptr:") b Hs Hok) as (s1 & h1 & -> & Hs1 & Hok1 & Hst1);
    [done | unfold BLOCK_SIZE, HDR in *; lia | done |]. out_red.
  destruct (print_request_behind h bs s1 _ h1 _ (bytes_of "Second ptr:") _ Hs1 Hok1) as (s2 & h2 & -> & Hs2 & Hok2 & Hst2);
    [by repeat constructor | unfold BLOCK_SIZE, HDR in *; lia | done |]. out_red.
  destruct (print_request_behind h bs s2 _ h2 _ (bytes_of "Third ptr:") _ Hs2 Hok2) as (s3 & h3 & -> & Hs3 & Hok3 & Hst3);
    [by repeat constructor | unfold BLOCK_SIZE, HDR in *; lia | done |]. out_red.
  destruct (kfree_request h h3 [] _ _ _ Hok3 Hst3 eq_refl) as (h4 & -> & Hok4 & Hst4). out_red.
  destruct (kfree_request h h4 [(false, BLOCK_SIZE)] _ _ (heap_start h + span ([] ++ [(true, BLOCK_SIZE)]) + HDR) Hok4 Hst4 eq_refl) as (h5 & -> & Hok5 & Hst5). out_red.
  destruct (print_request_spec s3 _ h5 _ (bytes_of "Fourth ptr:") (BLOCK_SIZE + 9) _ _ _ Hs3 Hok5 ltac:(done) eq_refl)
    as (s6 & h6 & -> & Hs6 & Hok6 & Hst6). out_red.
  exists s6, h6. split; [done |]. cbn [app] in Hok6. split_and!.
  - by replace (b - 3 * (BLOCK_SIZE + HDR)) with (b - BLOCK_SIZE - HDR - BLOCK_SIZE - HDR - BLOCK_SIZE - HDR) by lia.
  - rewrite Hst5 in Hs6. cbn [span app] in Hs6. rewrite <- !puts_app, Z.add_0_r in Hs6. subst p q.
    replace (heap_start h + HDR + BLOCK_SIZE + HDR) with (heap_start h + (HDR + BLOCK_SIZE + 0) + HDR) by lia.
    replace (heap_start h + (HDR + BLOCK_SIZE + 0) + HDR + BLOCK_SIZE + HDR)
      with (heap_start h + (HDR + BLOCK_SIZE + (HDR + BLOCK_SIZE + 0)) + HDR) by lia.
    exact Hs6.
  - unfold q, BLOCK_SIZE, HDR. lia.
Qed.

(** ** Witnesses *)

Lemma vga_test3_wraps_witness : ∃ s', vga_test3 blank = Ok s' ∧ Vga.x s' = 10 ∧ Vga.y s' = 1.
Proof.
  destruct (vga_test3_wraps blank (cells blank_terminal) 0 blank_shows) as (s' & Hp & _ & Hx & Hy); [done |].
  exists s'. exact (conj Hp (conj Hx Hy)).
Defined.

Lemma run_unit_tests_spins_witness : run_unit_tests blank = Fault (Spin "acquire").
Proof. exact (run_unit_tests_spins blank blank_terminal blank_shows eq_refl). Defined.

Lemma test_kmalloc_reuses_witness : ∃ s' h', test_kmalloc blank boot_heap = Ok (s', h') ∧
  heap_ok h' [(true, 8); (true, 8); (false, 0xffb - 26)].
Proof.
  destruct boot_heap_ok as (Hok & _).
  destruct (test_kmalloc_reuses blank blank_terminal boot_heap 0xffb [] blank_shows Hok) as (s' & h' & Hp & Hok' & _); [done |].
  exists s', h'. exact (conj Hp Hok').
Defined.

Lemma test_kmalloc2_joins_witness : ∃ s' h', test_kmalloc2 blank boot_heap = Ok (s', h') ∧
  heap_ok h' [(true, 8); (false, 8); (true, 8); (false, 0xffb - 39)].
Proof.
  destruct boot_heap_ok as (Hok & _).
  destruct (test_kmalloc2_joins blank blank_terminal boot_heap 0xffb [] blank_shows Hok) as (s' & h' & Hp & Hok' & _); [done |].
  exists s', h'. exact (conj Hp Hok').
Defined.
