(* ===== verification/Start.v ===== *)
(** * The start of the kernel (kernel.c)

    [kernel_start] calls the initialisers of the other files in order, each on
    the state that the ones before it leave.  It ends in [hang]; the result is
    the state that [hang] is entered with. *)

From S2P Require Import Prelude Iface Mem LibTitan Fields Pmm Mb2 KHeap MmState HashMap PageMap Vmm VmmInit Boot.
From S2P Require Import View Vga Tar Vfs Initrd Cpu Sched Resource Elf Irq Acpi Apic UnitTests.

(** The lines that [print_name] prints. *)
Definition banner : list Z :=
  bytes_of "  _______ __              ____  _____" ++ [10] ++
  bytes_of " /_  __(_) /_____ _____  / __ \/ ___/" ++ [10] ++
  bytes_of "  / / / / __/ __ `/ __ \/ / / /\__ \ " ++ [10] ++
  bytes_of " / / / / /_/ /_/ / / / / /_/ /___/ / " ++ [10] ++
  bytes_of "/_/ /_/\__/\__,_/_/ /_/\____//____/  " ++ [10; 10].

(** The static variable of [get_mmio_ptr] at the start. *)
Definition MMIO_REGION_START : Z := VGA_TEXT_BUFFER_BASE + PAGE_SIZE.

Definition print_name (s : console) : outcome console := printstr s banner.

(** What the linker, the boot code and the processor fix: the addresses of
    static objects, functions and literals, the page tables of the boot code,
    the size of the kernel, and the register with the address of the local
    APIC. *)
Record image := Image {
  im_sym : symbols;
  im_fsym : fs_symbols;
  start_isr_stubs : Z;
  idt_addr : Z;
  tss_addr : Z;
  initial_tables : list (Z * Z);
  KERNEL_PHYS : Z;
  kernel_byte_size : Z;
  lit_rsd_ptr : Z;
  lit_apic : Z;
  lit_hello_world : Z;
  kernel_thread_wrapper : Z;
  idle_main : Z;
  apic_base_msr : Z;
}.

(** ** The console at the start *)

(** Any bytes are the bytes of some cells. *)
Lemma cells_exist n : ∀ m a, mapped m a (2 * Z.of_nat n) → bytes_ok m →
  ∃ cs, length cs = n ∧ Forall (λ c, 0 ≤ c < 2 ^ 16) cs ∧ bytes_at m a (cell_bytes cs).
Proof.
  induction n as [|n IH]; intros m a Hm Hok.
  - exists []. split_and!; [done | constructor | by intros i b].
  - destruct (Hm a) as [b0 H0]; [lia |]. destruct (Hm (a + 1)) as [b1 H1]; [lia |].
    pose proof (Hok _ _ H0) as R0. pose proof (Hok _ _ H1) as R1. simpl in R0, R1.
    destruct (IH m (a + 1 + 1)) as (cs & Hl & Hcs & Hb); [apply (mapped_sub _ _ _ _ _ Hm); lia | done |].
    exists (b0 + 2 ^ 8 * b1 :: cs). split_and!; [simpl; lia | by constructor; [lia |] |].
    cbn [cell_bytes flat_map app]. apply bytes_at_cons. split.
    + replace (u8 (b0 + 2 ^ 8 * b1)) with b0; [done |]. unfold u8. rewrite Z.mul_comm, Z.mod_add by lia.
      by rewrite Z.mod_small.
    + apply bytes_at_cons. split; [| exact Hb].
      replace (u8 ((b0 + 2 ^ 8 * b1) / 2 ^ 8)) with b1; [done |]. unfold u8.
      rewrite Z.mul_comm, Z.div_add, Z.div_small, Z.mod_small by lia. done.
Qed.

(** The cell of a space. *)
Definition space_cell : Z := 0x0f20.

Lemma puts_spaces cs n : length cs = 2000%nat → (n < 2000)%nat →
  puts (Terminal cs 0 0) (replicate n 32) =
  Terminal (replicate n space_cell ++ drop n cs) (Z.of_nat n mod 80) (Z.of_nat n / 80).
Proof.
  intros Hl. induction n as [|n IH]; intros Hn; [by rewrite drop_0 |].
  rewrite replicate_S_end, puts_app, IH by lia. cbn [puts foldl]. unfold put. change (i8 32 =? 10) with false. cbv iota.
  cbn [cells col row]. unfold VGA_WIDTH.
  replace (Z.to_nat (Z.of_nat n / 80 * 80 + Z.of_nat n mod 80)) with n by mlia.
  replace (<[n := _]> (replicate n space_cell ++ drop n cs)) with (replicate (S n) space_cell ++ drop (S n) cs).
  - destruct (_ =? _) eqn:E; zbool; unfold scroll; cbn [row cells]; unfold VGA_HEIGHT;
      rewrite (proj2 (Z.leb_gt _ _)) by mlia; f_equal; mlia.
  - rewrite insert_app_r_alt, length_replicate, Nat.sub_diag by (rewrite length_replicate; lia).
    destruct (lookup_lt_is_Some_2 cs n) as [c Hc]; [lia |]. rewrite (drop_S _ _ _ Hc). cbn [list_insert].
    change (u16 (0x0f00 + i8 32)) with space_cell. rewrite replicate_S_end, <- app_assoc. done.
Qed.

(** The screen after [clear_console]: the last of the 2000 spaces scrolls. *)
Definition cleared_terminal : terminal := Terminal (replicate 1920 space_cell ++ replicate 80 0) 0 0.

Lemma puts_screen cs : length cs = 2000%nat →
  puts (Terminal cs 0 0) (replicate 2000 32) = Terminal (cells cleared_terminal) 0 (VGA_HEIGHT - 1).
Proof.
  intros Hl. replace (replicate 2000 32) with (replicate 1999 32 ++ [32]) by (by rewrite <- replicate_S_end).
  rewrite puts_app, puts_spaces by lia. destruct (lookup_lt_is_Some_2 cs 1999) as [c Hc]; [lia |].
  rewrite (drop_S _ _ _ Hc), (drop_ge cs) by lia.
  rewrite <- (take_drop 80 (replicate 1999 space_cell ++ [c])). set (l := replicate 1999 space_cell ++ [c]).
  assert (l = replicate 80 space_cell ++ replicate 1919 space_cell ++ [c]) as Hl2
    by (unfold l; by rewrite (app_assoc (replicate 80 _)), <- replicate_add).
  rewrite take_drop. clearbody l. subst l. cbn [puts foldl]. unfold put. change (i8 32 =? 10) with false. cbv iota. cbn [cells col row].
  change (Z.to_nat (Z.of_nat 1999 / 80 * VGA_WIDTH + Z.of_nat 1999 mod 80)) with 1999%nat.
  change (Z.of_nat 1999 mod 80 =? VGA_WIDTH - 1) with true. cbv iota. unfold scroll. cbn [row cells].
  change (VGA_HEIGHT <=? Z.of_nat 1999 / 80 + 1) with true. cbv iota.
  rewrite insert_app_r_alt, length_replicate by (rewrite length_replicate; lia).
  rewrite drop_app_length' by (by rewrite length_replicate).
  rewrite insert_app_r_alt, length_replicate by (rewrite length_replicate; lia).
  reflexivity.
Qed.

(** [console_init] clears the screen, whatever it showed. *)
Lemma console_init_shows (s : console) :
  mapped (vmem s) VGA_TEXT_BUFFER_BASE VGA_LENGTH → bytes_ok (vmem s) → Vga.x s = 0 → Vga.y s = 0 →
  ∃ s', console_init s = Ok s' ∧ shows s' cleared_terminal ∧ vga_out s' = VGA_TEXT_BUFFER_BASE ∧
    agree_outside VGA_TEXT_BUFFER_BASE VGA_LENGTH (vmem s) (vmem s') ∧ locked s' = locked s.
Proof.
  intros Hm Hok Hx Hy. destruct (cells_exist 2000 (vmem s) VGA_TEXT_BUFFER_BASE Hm Hok) as (cs & Hl & Hcs & Hb).
  unfold console_init. cbn [set_cursor_buffer]. set (s1 := Console _ _ _ _ _ _).
  assert (shows s1 (Terminal cs 0 0)) as Hs1.
  { by split. }
  unfold clear_console. destruct (print_chars_shows s1 _ (replicate 2000 32) Hs1) as (s2 & -> & Hs2 & Ha & Hv & Hlk).
  out_red. rewrite puts_screen in Hs2 by done. set (s3 := set_xy s2 0 0).
  assert (shows s3 cleared_terminal) as Hs3.
  { destruct Hs2 as [T1 T2 T3 (T4 & T5 & _) T6]. by split. }
  destruct (move_cursor_shows s3 _ Hs3) as [Hs4 _]. exists (move_cursor s3). by split_and!.
Qed.

(** ** A fresh heap *)

(** What allocations take from the heap, headers included. *)
Definition heap_cost (sizes : list Z) : Z := foldr (λ n c, n + HDR + c) 0 sizes.

Lemma heap_cost_nonneg sizes : Forall (λ n, 5 ≤ n) sizes → 0 ≤ heap_cost sizes.
Proof.
  unfold heap_cost, HDR. induction sizes as [|n sizes IH]; intros Hs; [done |].
  apply Forall_cons in Hs as [Hn Hs]. specialize (IH Hs). simpl. lia.
Qed.

Lemma heap_gives_fresh (P : Z → Prop) sizes : ∀ h us s,
  heap_ok h (us ++ [(false, s)]) → Forall (λ b, b.1 = true) us → Forall (λ n, 5 ≤ n) sizes → heap_cost sizes < s →
  (∀ p, heap_start h < p < heap_end h → P p) → heap_gives P h sizes.
Proof.
  induction sizes as [|n sizes IH]; intros h us s Hok Hus Hsz Hc HP; [done |].
  apply Forall_cons in Hsz as [Hn Hsz]. cbn [heap_cost foldr heap_gives] in *. fold (heap_cost sizes) in Hc.
  pose proof (heap_cost_nonneg sizes Hsz).
  unfold HDR in Hc. destruct (heap_ok_sizes _ _ Hok) as [Hbs Hend]. rewrite span_app in Hend. cbn [span] in Hend.
  apply Forall_app in Hbs as [Hbu _]. pose proof (span_nonneg us Hbu). unfold HDR in Hend.
  destruct (kmalloc_place no_growth (heap_fuel h) h n _ _ _ _ Hok Hn (heap_fuel_enough _ _ Hok)
    (place_behind us n s [] (heap_start h) Hus ltac:(unfold HDR; lia) ltac:(unfold HDR; lia))) as (h' & Hk & Hok' & (Hst & Hen & _) & _).
  exists (heap_start h + span us + HDR), h'. split; [exact Hk |]. split; [apply HP; unfold HDR; lia |].
  apply (IH h' (us ++ [(true, n)]) (s - n - HDR)); [by rewrite <- app_assoc | | done | unfold HDR; lia |].
  - apply Forall_app. split; [done |]. by repeat constructor.
  - by rewrite Hst, Hen.
Qed.

(** ** The calls of [kernel_start] *)

Section Start.
Context {D : Type} `{IoApic D} (im : image).

(** Whether the kernel is compiled with [TEST]. *)
Context (TEST : bool).

(** The depth of [mmap], the value of an uninitialised local, the contents of
    physical memory, the address of the I/O APIC, the words in the frames that
    the bitmap grows by, when [exec_elf] copies its argument [vmm], the locals
    of [exec_elf] and [load_elf]. *)
Context (depth : nat) (uninit : Z) (phys : mem) (io_phys : Z) (fresh : list Z) (vmm_first : bool) (vmm ehdr phdr : Z).
Local Abbreviation vm_state := (mm pmm_state heap).

(** The state that [kernel_start] is entered with. *)
Record boot_state := BootState {
  b_con : console;
  b_vm : vm_state;
  b_idt : list idt_entry;
  b_gdt : gdt64_t;
  b_tss : tss_t;
  b_dev : D;
}.

(** After [vmm_init]. *)
Record early_state := EarlyState {
  e_con : console;
  e_idt : list idt_entry;
  e_idtr : Z * Z;
  e_available : mmap_region_list_t;
  e_reserved : mmap_region_list_t;
  e_vm : vm_state;
}.

(** [kernel_start] up to [vmm_init]. *)
Definition early_start (fuel : nat) (s : boot_state) (mb_info : Z) : outcome early_state :=
  let c0 := disable_8259 (b_con s) in
  c1 ← console_init c0;
  c2 ← print_name c1;
  let idt := setup_idt (start_isr_stubs im) (b_idt s) in
  let idtr := load_idt (idt_addr im) in
  '(_, av, rs, c3) ← mb2_mmap_init fuel c2 mb_info empty_list empty_list;
  h ← kheap_init (kheap (b_vm s));
  v ← vmm_init (im_sym im) (set_kheap (b_vm s) h) (kernel_byte_size im) (initial_tables im);
  Ok (EarlyState c3 idt idtr av rs v).

(** What [kernel_start] leaves: the tables of the processor, the devices and
    the running kernel. *)
Record started := Started {
  st_gdt : gdt64_t;
  st_tss : tss_t;
  st_idt : list idt_entry;
  st_idtr : Z * Z;
  st_dev : D;
  st_local_apic_regs : Z;
  st_io_apic_regs : Z;
  st_kernel : kernel pmm_state heap;
}.

(** The rest, from [pmm_init] on. *)
Definition late_start (fuel : nat) (s : boot_state) (e : early_state) (mb_info : Z) : outcome started :=
  let sym := im_sym im in
  '(c1, v1) ← pmm_init sym depth fuel (e_con e) (e_vm e) (e_reserved e) (KERNEL_PHYS im) (kernel_byte_size im) fresh;
  '(g, t, v2, ksp) ← remap_gdt sym depth uninit (b_gdt s) (b_tss s) (tss_addr im) v1 KERNEL_STACK_START;
  '(_, a) ← acpi_init sym depth uninit phys (lit_rsd_ptr im) fuel
              (Acpi v2 MMIO_REGION_START c1 NULL NULL []) mb_info;
  p ← apic_init sym depth uninit phys (lit_apic im) io_phys fuel (Apic a (b_dev s) NULL NULL) (apic_base_msr im);
  '(hs, _, v3, c) ← tar_init sym depth uninit phys fuel (amm (tbl p)) (mmio_region (tbl p)) (acon (tbl p)) mb_info;
  '(_, h, fs) ← vfs_init (im_fsym im) (kheap v3) (Vfs c hs (replicate 12 NULL) (replicate 10 zero_fd));
  sc ← sched_init sym depth uninit (Sched (set_kheap v3 h) ∅ ∅ NULL NULL NULL NULL 0 0 ksp)
         (kernel_thread_wrapper im) (idle_main im);
  '(k, _) ← exec_elf sym depth uninit (im_fsym im) phys vmm_first fuel (Kernel sc fs ∅) ∅ (lit_hello_world im) vmm
              (kernel_thread_wrapper im) ehdr phdr;
  c' ← (if TEST then run_unit_tests (con (kfs k))
        else printk (con (kfs k)) (bytes_of "The unit tests were not run..." ++ [10]) []);
  Ok (Started g t (e_idt e) (e_idtr e) (dev p) (Apic.local_apic_regs p) (io_apic_regs p) (set_kcon k c')).

Definition kernel_start (fuel : nat) (s : boot_state) (mb_info : Z) : outcome started :=
  e ← early_start fuel s mb_info;
  late_start fuel s e mb_info.

(** ** Up to the first page *)

(** What the boot loader and the linker leave: a screen, the memory map [es]
    off the screen, a heap of one page, and the regions and page tables of the
    boot code. *)
Record boot_ok (fuel : nat) (s : boot_state) (mb_info : Z) (es : list mmap_entry_t) : Prop := {
  bo_screen : mapped (vmem (b_con s)) VGA_TEXT_BUFFER_BASE VGA_LENGTH ∧ bytes_ok (vmem (b_con s)) ∧
    Vga.x (b_con s) = 0 ∧ Vga.y (b_con s) = 0 ∧ locked (b_con s) = false;
  bo_map : ∀ m, agree_outside VGA_TEXT_BUFFER_BASE VGA_LENGTH (vmem (b_con s)) m → memory_map fuel m mb_info es;
  bo_heap : let h := kheap (b_vm s) in
    0 ≤ heap_start h ∧ heap_end h = heap_start h + PAGE_SIZE ∧ mapped (hmem h) (heap_start h) PAGE_SIZE ∧
    hmem h !! heap_end h = None ∧ (∀ p, p ∈ statics (im_sym im) → ¬ heap_start h < p < heap_end h);
  bo_objs : Forall (λ x, vm_objs (b_vm s) !! x.1 = Some x.2) (static_objs (im_sym im));
  bo_statics : NoDup (statics (im_sym im)) ∧ NULL ∉ statics (im_sym im);
  bo_nodes : pt_nodes (b_vm s) = ∅;
  bo_tables : NoDup (initial_tables im).*2 ∧ (∀ x p, (x, p) ∈ initial_tables im → x ≠ NULL) ∧
    (length (initial_tables im) ≤ 80)%nat;
}.

(** What the screen shows then: the banner and the line with the size of the
    memory. *)
Definition boot_text (es : list mmap_entry_t) : list Z := banner ++ size_line (u64 (total_length (available_of es))).

Lemma early_heap fuel s mb_info es :
  boot_ok fuel s mb_info es →
  ∃ h, kheap_init (kheap (b_vm s)) = Ok h ∧ before_init (im_sym im) (set_kheap (b_vm s) h) ∧
    heap_gives (λ p, p ∉ statics (im_sym im)) h
      (SIZEOF_PTR * HASH_MAP_BUCKETS :: replicate (length (initial_tables im)) SIZEOF_PAGE_TABLE_T ++ [SIZEOF_VMM_T]).
Proof.
  intros [_ _ (H1 & H2 & H3 & H4 & H5) Ho Hst Hn (_ & _ & Hlen)]. unfold PAGE_SIZE in *.
  destruct (kheap_init_ok (kheap (b_vm s))) as (h & Hk & Hs & He & Hok & Ha).
  { by rewrite H2, Z.add_simpl_l. } { done. } { rewrite H2. lia. }
  exists h. split; [exact Hk |]. split.
  - split; [done | done |]. split.
    + exists [], [(false, heap_end (kheap (b_vm s)) - heap_start (kheap (b_vm s)) - HDR)]. cbn [kheap set_kheap].
      split_and!; [done | done | | lia]. rewrite He, Ha; [done | unfold HDR; lia].
    + intros p [t Ht]. cbn [pt_nodes set_kheap] in Ht. by rewrite Hn, lookup_empty in Ht.
  - apply (heap_gives_fresh _ _ h [] _ Hok); [constructor | | |].
    + constructor; [done |]. apply Forall_app. split; [by apply Forall_replicate | by repeat constructor].
    + assert (∀ k, heap_cost (replicate k SIZEOF_PAGE_TABLE_T ++ [SIZEOF_VMM_T]) = 45 * Z.of_nat k + 53) as Hc.
      { induction k as [|k IH]; [done |]. cbn [replicate app heap_cost foldr] in *. fold (heap_cost (replicate k SIZEOF_PAGE_TABLE_T ++ [SIZEOF_VMM_T])).
        rewrite IH. unfold SIZEOF_PAGE_TABLE_T, HDR. lia. }
      cbn [heap_cost foldr]. fold (heap_cost (replicate (length (initial_tables im)) SIZEOF_PAGE_TABLE_T ++ [SIZEOF_VMM_T])).
      rewrite Hc. unfold SIZEOF_PTR, HASH_MAP_BUCKETS, HDR. lia.
    + intros p Hp Hin. apply (H5 _ Hin). lia.
Qed.

Lemma early_start_spec fuel s mb_info es :
  boot_ok fuel s mb_info es →
  ∃ e h, early_start fuel s mb_info = Ok e ∧ shows (e_con e) (puts cleared_terminal (boot_text es)) ∧
    e_idt e = setup_idt (start_isr_stubs im) (b_idt s) ∧
    holds (e_available e) (available_of es) ∧ holds (e_reserved e) (reserved_of es) ∧
    before_init (im_sym im) (set_kheap (b_vm s) h) ∧
    initialised (im_sym im) (set_kheap (b_vm s) h) (e_vm e) (kernel_byte_size im) (current_vmm (e_vm e)) (initial_tables im).
Proof.
  intros Hb. pose proof Hb as [(S1 & S2 & S3 & S4 & S5) Hmap _ _ _ _ (T1 & T2 & _)]. unfold early_start.
  destruct (console_init_shows (disable_8259 (b_con s)) S1 S2 S3 S4) as (c1 & -> & Hc1 & Hv1 & Ha1 & Hl1). out_red.
  unfold print_name. destruct (printstr_shows c1 _ banner Hc1) as (c2 & -> & Hc2 & Ha2 & _ & Hl2). out_red. rewrite Hv1 in Ha2.
  destruct (mb2_mmap_init_lists fuel c2 _ mb_info es Hc2) as (av & rs & c3 & -> & Hav & Hrs & Hc3 & _).
  { by rewrite Hl2, Hl1. } { apply Hmap. intros i Hi. by rewrite Ha2, Ha1. }
  rewrite <- puts_app in Hc3.
  out_red. destruct (early_heap fuel s mb_info es Hb) as (h & -> & Hbi & Hg). out_red.
  destruct (vmm_init_spec (im_sym im) (set_kheap (b_vm s) h) (kernel_byte_size im) (initial_tables im) Hbi T1 Hg)
    as (v & x & -> & Hi). out_red. pose proof (in_current _ _ _ _ _ _ Hi) as (Hcur & _).
  eexists _, h. split; [reflexivity |]. cbn [e_con e_idt e_available e_reserved e_vm]. rewrite Hcur. by split_and!.
Qed.

(** [C12] kernel_start reaches pmm_init with every component before it
    started: the screen shows the banner and the line with the size of the
    available memory, the interrupt table is filled, the lists hold the
    regions of the memory map of the boot loader, the regions are an address
    space exactly when the kernel ends in front of the text buffer, and the
    hash map answers for the page tables of the boot code, for which the
    invariant holds once their frames are reserved. *)
Theorem kernel_start_reaches_pmm fuel s mb_info es :
  boot_ok fuel s mb_info es → 0 ≤ kernel_byte_size im →
  ∃ e, kernel_start fuel s mb_info = late_start fuel s e mb_info ∧
    shows (e_con e) (puts cleared_terminal (boot_text es)) ∧ e_idt e = setup_idt (start_isr_stubs im) (b_idt s) ∧
    holds (e_available e) (available_of es) ∧ holds (e_reserved e) (reserved_of es) ∧
    (vm_ok (im_sym im) (e_vm e) (initial_regions (im_sym im) (current_vmm (e_vm e)) (kernel_byte_size im)) ↔
      kernel_byte_size im ≤ VGA_TEXT_BUFFER_BASE - KERNEL_TEXT_START) ∧
    (∀ p x, ptbl (e_vm e) p = Some x ↔ (x, p) ∈ initial_tables im) ∧
    (∀ f lv, boot_tables (b_vm s) f lv (initial_tables im) → pt_inv (set_frames (e_vm e) f) lv).
Proof.
  intros Hb HK. destruct (early_start_spec fuel s mb_info es Hb) as (e & h & He & Hs & Hidt & Hav & Hrs & Hbi & Hi).
  pose proof (bo_tables _ _ _ _ Hb) as (T1 & T2 & _). exists e. split; [unfold kernel_start; by rewrite He |].
  refine (conj Hs (conj Hidt (conj Hav (conj Hrs (conj _ (conj _ _)))))).
  - by eapply initialised_vm_ok.
  - intros p x. by eapply initialised_ptbl.
  - intros f lv Hbt. eapply initialised_pt_inv; [exact Hi | | done | done]. by destruct Hbt.
Qed.

End Start.
