(* ===== verification/StartDemo.v ===== *)
(** * A boot image

    The witness for Start.v, and the pages that the frame allocator starts
    with on this image. *)

From S2P Require Import Prelude Iface Mem LibTitan Fields Pmm Mb2 KHeap MmState HashMap PageMap Vmm VmmInit Boot.
From S2P Require Import View Vga Tar Vfs FsDemo Initrd Cpu Sched Resource Elf Irq Acpi Apic AcpiDemo UnitTests Start.

Module StartImage.

Import FsDemo AcpiDemo.

(** Where the kernel keeps its objects: at [T i], in its first pages. *)
Definition T (i : Z) : Z := KERNEL_TEXT_START + i.

(** The page tables of the boot code, at pages 5 to 12 of the kernel, which is
    loaded at 1 MiB. *)
Definition tbl_v (k : Z) : Z := T (0x5000 + 0x1000 * k).
Definition tbl_p (k : Z) : Z := 0x105000 + 0x1000 * k.
Definition kernel_tables : list (Z * Z) := (λ k, (tbl_v k, tbl_p k)) <$> [0; 1; 2; 3; 4; 5; 6; 7].

(** Entry 511 of the first is the kernel half. *)
Definition kernel_words : gmap Z Z :=
  <[tbl_v 0 := tbl_p 1 + 7]> (<[tbl_v 1 := tbl_p 2 + 7]> (<[tbl_v 2 := tbl_p 3 + 7]>
  (<[tbl_v 0 + 8 * 511 := tbl_p 4 + 7]> (<[tbl_v 4 := tbl_p 5 + 7]> (<[tbl_v 5 := tbl_p 6 + 7]>
  (<[tbl_v 5 + 8 := tbl_p 7 + 7]> (zero_words 4096 (tbl_v 0) ∅))))))).

Definition kernel_sym : symbols := Symbols (T 0x100) (T 0x120) (T 0x140) (T 0x160).

Definition hello_member : member :=
  Member (bytes_of "hello_world.elf") (replicate 24 48) (replicate 376 0) (elf_header ++ elf_segment ++ [0xeb; 0xfe; 0x90; 0x90]).

(** The tables of ACPI in physical memory. *)
Definition boot_madt : sdt :=
  Sdt 0x7fe2000 (madt_head ++ flat_map entry_bytes [lapic_entry] ++ entry_bytes (ioapic_entry 2 0 [0; 0; 0xc0; 0xfe] (zeros 4))).
Definition boot_root : sdt := Sdt 0x7fe0000 (bytes_of "RSDT" ++ [40] ++ zeros 31 ++ [0; 0x20; 0xfe; 7]).
Definition boot_rsdp_body : list Z := zeros 6 ++ [0; 0; 0; 0xfe; 7].
Definition boot_rsdp : list Z := rsd_sig ++ [(- byte_sum (rsd_sig ++ boot_rsdp_body)) mod 256] ++ boot_rsdp_body.

(** The boot information: memory map, module and root pointer. *)
Definition boot_tags : list Z :=
  le_bytes 4 6 ++ le_bytes 4 64 ++ le_bytes 4 24 ++ le_bytes 4 0 ++
    (le_bytes 8 0 ++ le_bytes 8 0x9fc00 ++ le_bytes 4 1 ++ le_bytes 4 0) ++
    (le_bytes 8 0x9fc00 ++ le_bytes 8 0x400 ++ le_bytes 4 2 ++ le_bytes 4 0) ++
  le_bytes 4 3 ++ le_bytes 4 16 ++ le_bytes 4 0x8000000 ++ le_bytes 4 0x8000800 ++
  le_bytes 4 15 ++ le_bytes 4 28 ++ boot_rsdp ++ zeros 4 ++
  le_bytes 4 0 ++ le_bytes 4 8.

Definition kernel_literals : list Z :=
  bytes_of "tar" ++ [0] ++ bytes_of "/" ++ [0] ++ bytes_of "initramfs" ++ [0] ++ rsd_sig ++ [0] ++ bytes_of "APIC" ++ [0] ++
  bytes_of "/hello_world.elf" ++ [0].

Definition kernel_fsym : fs_symbols := FsSymbols (T 0x1000) (T 0x1004) (T 0x1006) (T 0x200) (T 0x300).

Definition kernel_image : image := {|
  im_sym := kernel_sym;
  im_fsym := kernel_fsym;
  start_isr_stubs := T 0x400;
  idt_addr := T 0x3000;
  tss_addr := T 0x4000;
  initial_tables := kernel_tables;
  KERNEL_PHYS := 0x100000;
  kernel_byte_size := 0x14000;
  lit_rsd_ptr := T 0x1010;
  lit_apic := T 0x1019;
  lit_hello_world := T 0x101e;
  kernel_thread_wrapper := T 0x500;
  idle_main := T 0x600;
  apic_base_msr := 0xfee00900;
|}.

(** What the processor sees of the kernel before the first initialiser. *)
Definition kernel_bytes : mem :=
  map_seqZ 0x8008 boot_tags ∪ (map_seqZ (T 0x1000) kernel_literals ∪ map_seqZ (T 0x2000) (zeros 0x200) ∪
    map_seqZ KERNEL_HEAP_START (zeros 0x1000) ∪ blank_mem).

(** The firmware's tables, the registers of the local APIC, the archive, and
    the beginning of the frame that the program is loaded into. *)
Definition boot_phys : mem :=
  map_seqZ (t_addr boot_root) (t_bytes boot_root) ∪ map_seqZ (t_addr boot_madt) (t_bytes boot_madt) ∪
  map_seqZ 0xfee00000 (zeros 0x100) ∪ map_seqZ 0x8000000 (archive [hello_member]) ∪ map_seqZ 0x135000 (zeros 0x10).

(** The page of the kernel heap. *)
Definition heap_page : mem := map_seqZ KERNEL_HEAP_START (zeros 0x1000).

Definition boot_kernel : @boot_state io_state :=
  BootState (Console kernel_bytes 0 0 0 [] false)
    (Mm (PmmState 0 []) (Heap heap_page KERNEL_HEAP_START (KERNEL_HEAP_START + 0x1000))
       ∅ None NULL kernel_words (list_to_map (static_objs kernel_sym)) ∅ (tbl_p 0) (tbl_v 0) NULL)
    (replicate 256 (IdtEntry 0 0 0 0 0 0 0)) gdt64 (Tss 0 0 0 0 0 0 0 0 0 0 0 0 0 0 0) ((0, ∅) : io_state).

(** The words of the 279 pages that the bitmap grows by. *)
Definition bitmap_words : list Z := replicate (Z.to_nat (279 * 512)) 0.

Definition start : outcome (@started io_state) :=
  kernel_start kernel_image false 2 7 boot_phys 0xfec00000 bitmap_words false (T 0x700) (T 0x2000) (T 0x2100) 400 boot_kernel 0x8000.

Definition map_entries : list mmap_entry_t := [MmapEntry 0 0x9fc00 1 0; MmapEntry 0x9fc00 0x400 2 0].

Lemma zeros_mapped a n : mapped (map_seqZ a (zeros n)) a (Z.of_nat n).
Proof.
  intros i Hi. exists 0. apply lookup_map_seqZ_Some. split; [lia |]. apply lookup_replicate_2. lia.
Qed.

Lemma zeros_ok a n : bytes_ok (map_seqZ a (zeros n)).
Proof. apply bytes_ok_seq, Forall_replicate. unfold byte. lia. Qed.

Lemma kernel_bytes_ok : bytes_ok kernel_bytes.
Proof.
  unfold kernel_bytes. repeat match goal with |- bytes_ok (_ ∪ _) => apply bytes_ok_union end;
    [.. | exact blank_bytes_ok]; try apply zeros_ok; apply bytes_ok_seq, all_bytes; vm_compute; reflexivity.
Qed.

Lemma kernel_map m :
  agree_outside VGA_TEXT_BUFFER_BASE VGA_LENGTH kernel_bytes m → memory_map 400 m 0x8000 map_entries.
Proof.
  intros Ha. assert (bytes_at m 0x8008 boot_tags) as Hb.
  { apply (bytes_at_agree kernel_bytes); [| apply bytes_at_union, map_seqZ_at].
    intros i Hi. apply Ha. change (Z.of_nat (length boot_tags)) with 120 in Hi. unfold VGA_TEXT_BUFFER_BASE. lia. }
  assert (∀ off, 0 ≤ off → off + 4 ≤ 120 → load32 m (0x8008 + off) = Ok (field boot_tags (Z.to_nat off) 4)) as H32
    by (intros off H0 H1; by apply load32_field).
  assert (∀ off, 0 ≤ off → off + 8 ≤ 120 → load64 m (0x8008 + off) = Ok (field boot_tags (Z.to_nat off) 8)) as H64
    by (intros off H0 H1; by apply load64_field).
  assert (∀ off, 0 ≤ off → off + 24 ≤ 120 → load_entry m (0x8008 + off) = Ok (MmapEntry
    (field boot_tags (Z.to_nat off) 8) (field boot_tags (Z.to_nat (off + 8)) 8) (field boot_tags (Z.to_nat (off + 16)) 4)
    (field boot_tags (Z.to_nat (off + 20)) 4))) as He.
  { intros off H0 H1. unfold load_entry. rewrite <- !Z.add_assoc. rewrite (H64 off), (H64 (off + 8)) by lia. out_red.
    rewrite (H32 (off + 16)) by lia. out_red. rewrite (H32 (off + 20)) by lia. reflexivity. }
  split; [| split; vm_compute; lia | vm_compute; lia].
  exists 0%nat, 0x8008, 64, 24. split_and!.
  - apply reach_stop; [exact (H32 0 ltac:(lia) ltac:(lia)) | by right].
  - lia.
  - exact (H32 4 ltac:(lia) ltac:(lia)).
  - exact (H32 8 ltac:(lia) ltac:(lia)).
  - lia.
  - lia.
  - reflexivity.
  - lia.
  - split; [exact (He 16 ltac:(lia) ltac:(lia)) | split; [exact (He 40 ltac:(lia) ltac:(lia)) | exact I]].
Qed.

Lemma kernel_tables_not_null x : x ∈ kernel_tables.*1 → x ≠ NULL.
Proof.
  assert (NULL ∉ kernel_tables.*1) as Hn by (by apply (bool_decide_unpack _); vm_compute). intros Hx ->. done.
Qed.

Lemma boot_kernel_ok : boot_ok kernel_image 400 boot_kernel 0x8000 map_entries.
Proof.
  split.
  - split_and!; [| exact kernel_bytes_ok | reflexivity | reflexivity | reflexivity].
    intros i Hi. unfold boot_kernel, kernel_bytes. cbn [b_con vmem]. do 2 (apply lookup_union_is_Some; right).
    by apply (zeros_mapped VGA_TEXT_BUFFER_BASE 4000).
  - exact kernel_map.
  - cbn [b_vm boot_kernel kheap heap_start heap_end hmem]. unfold PAGE_SIZE. split_and!.
    + unfold KERNEL_HEAP_START. lia.
    + reflexivity.
    + exact (zeros_mapped KERNEL_HEAP_START 0x1000).
    + apply lookup_map_seqZ_None. right. unfold zeros. rewrite length_replicate. lia.
    + intros p Hp. unfold KERNEL_HEAP_START. change (statics (im_sym kernel_image)) with [T 0x100; T 0x120; T 0x140; T 0x160] in Hp. rewrite !elem_of_cons in Hp.
      unfold T, KERNEL_TEXT_START in Hp. destruct Hp as [->|[->|[->|[->|[]%elem_of_nil]]]]; lia.
  - by repeat constructor.
  - split; by apply (bool_decide_unpack _); vm_compute.
  - reflexivity.
  - split_and!.
    + by apply (bool_decide_unpack _); vm_compute.
    + intros x p Hin. apply kernel_tables_not_null, list_elem_of_fmap. by exists (x, p).
    + vm_compute. lia.
Qed.


(** ** The first pages *)

(** [kheap_init], [vmm_init] and [pmm_init] on the image. *)
Definition first_pages : outcome (console * mm pmm_state heap) :=
  let v := b_vm boot_kernel in
  h ← kheap_init (kheap v);
  v1 ← vmm_init kernel_sym (set_kheap v h) (kernel_byte_size kernel_image) kernel_tables;
  pmm_init kernel_sym 2 400 (b_con boot_kernel) v1 (RegionList 1 (<[0%nat := MmapEntry 0x9fc00 0x400 2 0]> (rl_entries empty_list)))
    (KERNEL_PHYS kernel_image) (kernel_byte_size kernel_image) bitmap_words.

(** The bitmap grows into the frames of the kernel: its page 240 lies in the
    frame of the top level table. *)
Lemma bitmap_takes_top_table :
  match first_pages with
  | Ok (_, v) => bool_decide (current_tr v (KERNEL_PMM_START + 240 * 0x1000) = Some (tbl_p 0 + 7))
  | _ => false
  end = true.
Proof. vm_compute. reflexivity. Qed.

Lemma kernel_start_reaches_pmm_witness : ∃ e,
  start = late_start kernel_image false 2 7 boot_phys 0xfec00000 bitmap_words false (T 0x700) (T 0x2000) (T 0x2100) 400 boot_kernel e 0x8000 ∧
  holds (e_reserved e) (reserved_of map_entries).
Proof.
  destruct (kernel_start_reaches_pmm kernel_image false 2 7 boot_phys 0xfec00000 bitmap_words false (T 0x700) (T 0x2000) (T 0x2100)
    400 boot_kernel 0x8000 map_entries boot_kernel_ok ltac:(vm_compute; discriminate)) as (e & He & _ & _ & _ & Hr & _).
  exists e. exact (conj He Hr).
Defined.

End StartImage.
